(* ===== verification/_CoqProject ===== *)
-Q . S2P
Prelude.v
Hoare.v
Bytes.v
BlockStore.v
BlockCache.v
Bitmap.v
Layout.v
InodeTree.v
InodeLoop.v
InodeGrow.v
InodeClear.v
InodeSpec.v
Efs.v
Vfs.v
Pack.v
VfsSpec.v
VfsWrite.v
VfsClear.v
VfsCreate.v
Address.v
Hart.v
Cell.v
FrameAlloc.v
PageTable.v
PageTableSpec.v
Dma.v
MemorySet.v
MemorySetSpec.v
ForkSpec.v
ElfSpec.v
FrameOwner.v
Scheduler.v
Pid.v
Pipe.v
Signal.v
Task.v
Kernel.v
Files.v
PipeSpec.v
FilesSpec.v
Process.v
ExecArgs.v
Syscall.v
Trap.v
SignalSpec.v
ExecSpec.v
Scenario.v
SchedInv.v
KernelInv.v
KernelMoves.v
Machine.v
TypeInv.v
FrameInv.v
UserLib.v
UserShell.v
ShellParse.v
UserPrograms.v
UserTests.v
UserRun.v
ShellPipes.v
FdSpec.v
UserFiles.v
FileCalls.v
FileServe.v
OnKernel.v
TrapCalls.v
FdCalls.v
