(* ===== verification/Prelude.v ===== *)
(** * rCore: the kernel and its file system

    The repository holds an operating system for RISC-V in Rust: the kernel
    (os/), a file system library (easy-fs/), a packer of disk images
    (easy-fs-fuse/) and user programs (user/).  This development models the
    kernel and the file system as executable functions, from the block device up
    to the system calls and the machine that alternates between user mode, the
    kernel and the scheduler, and the user library with the shell as programs that
    make these calls, and proves what makes each part correct.

    ** How the code is modelled

    A Rust function is a function of the same name ([Type_method] for a method)
    in the monad [M] of Prelude.v: it passes an explicit state and ends in a
    value or a [fault] - a panic, a spin mutex taken twice, memory that is no
    value of its type, or a spent iteration bound.  Machine integers are [Z] with
    the wrap-around of a release build written out ([+₆₄], [u32], [isize]); bytes
    and words are [Z] in range; [repr(C)] structures are lists of bytes with a
    codec.  [Arc]s and [Weak]s are indexes into stores of objects, so aliasing is
    explicit; a value's [Drop] is called where Rust runs it.  Page tables, trap
    contexts and user buffers live in byte-addressed physical pages.

    ** The files and the code they model

    - Prelude.v, Bytes.v: the monad, loops, weakest preconditions ([wp]) and
      their automation; words, codecs, slices of lists.
    - BlockStore.v: the traits [BlockDevice] (easy-fs/src/block_dev.rs) and
      [BlockStore], what the file system needs of the cache, with [Flat], the map
      from block ids to blocks that is its specification; simulations between
      stores.  BlockCache.v: easy-fs/src/block_cache.rs, and the proof that the
      cache simulates [Flat]; the file-backed device of easy-fs-fuse.
    - Bitmap.v, Layout.v, Efs.v, Vfs.v: the files of that name in
      easy-fs/src/, written against the class [BlockStore].  InodeTree.v,
      InodeLoop.v, InodeGrow.v, InodeClear.v: the block table of an inode as a
      tree of blocks and the proofs about its loops; InodeSpec.v and VfsSpec.v:
      the theorems on files, directories and whole sessions; VfsWrite.v: writes
      that grow a file, with the allocation of its blocks; VfsClear.v: emptying
      and replacing a file; VfsCreate.v: creating a file, with the allocation of
      its inode.  Pack.v: the packer of easy-fs-fuse/src/main.rs and its test.
    - Hart.v (os/src/sbi.rs, console.rs, lang_items.rs and the trap entry of
      trap/mod.rs): what the kernel asks of the firmware and the hart, as an
      interaction tree.  Cell.v (sync/up.rs): the run-time borrow check.
    - Address.v (mm/address.rs, config.rs), FrameAlloc.v (mm/frame_allocator.rs),
      PageTable.v and PageTableSpec.v (mm/page_table.rs), MemorySet.v,
      MemorySetSpec.v, ForkSpec.v (copies) and ElfSpec.v (programs from a file)
      (mm/memory_set.rs), all under os/src/.  Dma.v: the disk driver (drivers/block/).
    - Scheduler.v (task/scheduler.rs and the binary heap of the Rust library),
      Pid.v (task/pid.rs), Pipe.v (the ring buffer of fs/pipe.rs), Signal.v
      (task/signal.rs, action.rs), Task.v (task/task.rs, context.rs,
      trap/context.rs: the data).
    - Kernel.v: the state of the kernel as one record - its statics, the stores
      of tasks, open files and pipes, the devices - and task/manager.rs,
      processor.rs, mod.rs.  Files.v (fs/), Process.v (new, exec, fork, exit),
      Syscall.v (syscall/), Trap.v (trap/mod.rs, the loop of processor.rs,
      main.rs, and the relation [machine_step]).
    - PipeSpec.v: reading and writing pipes.  FilesSpec.v: reading a whole file.
      FileCalls.v: [read] and [write] on a file and on the console, from the
      registers of the call through the user's pages to the disk.
      SignalSpec.v: delivery of signals and the return from a handler.
      ExecArgs.v: the arguments that [exec] pushes and [_start] of
      user/src/lib.rs reads; ExecSpec.v: [exec] as a whole.
      Scenario.v: a machine that boots, and runs on it.
    - SchedInv.v, KernelInv.v, KernelMoves.v, Machine.v: the scheduling invariant
      and the proof that every step of the machine keeps it.  FrameOwner.v,
      FrameInv.v: the same for the ownership of frames; TypeInv.v: for the types of
      objects and references.  Hoare.v: partial
      correctness, for these.
    - UserLib.v (user/src/lib.rs, syscall.rs, console.rs), UserShell.v
      (user_shell.rs and initproc.rs in user/src/bin/), UserPrograms.v and
      UserTests.v (the demonstrations and tests there): programs are interaction
      trees whose events are the [ecall]s they execute and their accesses through
      pointers made of numbers.  UserRun.v: what a program may rely on in the
      kernel's answers ([ecall]), runs, and a program logic.
      ShellParse.v, ShellPipes.v: the shell's command lines and pipelines.
    - UserFiles.v: a server that answers programs which read files and print, and
      what [cat] and [count_lines] do on it.  FileServe.v: the kernel is that
      server, with what a program passes in its memory.  OnKernel.v: the run of a
      program's tree against the dispatcher of Syscall.v, where the two meet.
      TrapCalls.v: the same calls from user mode, through the trap handler, with the
      registers on the page of the trap context.
    - FdSpec.v: the descriptor table of a task as a map; FdCalls.v: [close], [dup],
      [open] and [pipe] as changes of that map, of the open files and pipes, of the
      disk and of the program's memory, which answer as [ecall] allows.

    ** What waits

    A task that gives up the processor inside the kernel
    ([suspend_current_and_run_next]) does so in six places.  An operation that
    can wait returns [flow]: [Return] with its result, or [Switched]; in the
    second case the task's saved context is the place it goes on at ([Resume],
    with the local variables live there), and [resume] in Trap.v is the rest of
    the call.  The kernel runs with interrupts off on one processor, so a step of
    the machine is a stretch of kernel code between two switches.

    ** What the theorems show

    - Block layer and file system: the cache refines the block map and sync makes
      it durable (C1, C2); bitmaps allocate the lowest free bit
      (C3); the names directory entries take (C7); reads, writes,
      growth and clearing act on the byte content of a file and on the set of its
      blocks (InodeSpec.v, VfsWrite.v); clearing a file gives its blocks back
      (C12), and what replaces it is what it then holds (C11); creating a file
      (C14), lookup and listing (C15), and every session gives the same results
      through the cache as on the plain disk (C17).
    - Calls on files: [write] puts the bytes of the user's pages into the file and
      nothing else (C40), what one descriptor writes another reads back (C9), and
      reading, printing, opening and closing answer as an abstract server,
      errors included (C16), also through a trap from user mode and back (C6);
      closing, duplicating, opening and making pipes do to descriptors, objects,
      memory and disk what their results say (C18).
    - Memory: the pages of an address range (C19), frames are handed out fresh
      (C21), page tables are partial maps (C23), user buffers are
      the user's bytes (C25), growing, shrinking and copying address spaces
      (C29, C30, C33); in every reachable state each frame that is handed out has
      one owner, and none is lost (C5).
    - Scheduling: the heap hands out a least pass although its order wraps (C26),
      because the passes stay in a window (C27); no task starves (C28); in every
      reachable state of the machine the tables of the kernel agree (C31), no
      reference dangles (C13), and a scheduling round never fails or loses a task (C32).
    - Inter-process communication: the ring buffer is a queue (C34), reads and
      writes move the user's bytes in order and wait or end as described
      (C35, C36).
    - Signals: which pending signals a round acts on (C37), the way into a handler
      and back (C38).  Loading a program: [read_all] ends and returns the file
      (C39), [from_elf] builds the address space the file describes (C22), the
      arguments are read back as they were given (C4), and [exec] puts these
      together and frees the old program (C24).
    - User programs: the shell reads a command as it was typed (C10); its
      pipelines are wired right whatever the kernel answers within [ecall] (C20),
      which its calls on descriptors keep to (C18).  [cat], run on the
      kernel from its arguments to its exit code, ends and adds exactly the
      contents of the file to the console (C8).
    Theorems on operations are stated with [wp] or as equations on [Ok]; both say
    that the operation returns, so they exclude panics and spent bounds.

    ** Bounds

    Loops that are not over a list run on fuel that suffices: [mloop] bounds come
    from the sizes involved (the rounds of [read_at] and [write_at] from the
    length, of [fetch] from the heap, of [read_all] from the largest file, three
    for a pipe since a second round finds the ring empty or full), and the
    theorems that use a loop show its bound is enough.  Strings and argument
    vectors of the user have no bound in the code; [p_fuel] of [Platform] is the
    length up to which a run of the model follows them.

    ** Not modelled

    - Assembly (entry.asm, trap.S, switch.S) and the write to satp:
      [machine_step] is what they achieve.  Where a trap goes (stvec, sie, the jump
      into the trampoline) is in Hart.v, apart from that machine.
    - Third-party crates: the ELF parser (a function of [Platform], with the
      queries the kernel makes), virtio, the heap allocator, lazy_static (statics
      are initialised by first use where that matters: [ROOT_INODE],
      [INITPROC]).  The run-time borrow check of RefCell (Cell.v) can only
      fail where the first process exits; that is an assertion there.
    - In the kernel's state the firmware is the keys still to come, the text
      printed (in UTF-8), the clock and the next timer interrupt; the calls
      themselves are in Hart.v.  Log lines of the kernel are not part of what a
      system call does.
    - The heaps of the kernel and the user library with their tests, the user
      library's formatting macros (a call of [print] gets the pieces of the
      formatted text) and its panic handler, which is one event.
      The machine of Trap.v does not run these trees: it quantifies over what any
      program does to its registers and memory and over the calls it makes.
    - The virtio crate: the disk driver is its two calls and the memory it asks
      for (Dma.v).  The kernel's disk is any instance of [BlockStore], and the
      frames the driver takes at its creation are not taken from the kernel's
      allocator. *)

From stdpp Require Export base gmap sets strings numbers.
From stdpp Require Export list.
From Stdlib Require Export ZifyNat.
#[global] Open Scope Z_scope.

(** [lia] reasons about division and modulo by constants. *)
Ltac Zify.zify_post_hook ::= Z.div_mod_to_equations.

(** * Outcomes of running Rust code *)

(** How a run can go wrong.  [Panicked]: a failed [assert!], [unwrap] of a
    [None], an index out of range, an explicit [panic!].  [Deadlocked]: a spin
    mutex taken while it is already held (the kernel spins for ever).
    [Undefined]: memory that is not a value of the type it is viewed at.
    [OutOfFuel]: the iteration bound of a modelled loop ran out. *)
Inductive fault : Set := Panicked | Deadlocked | Undefined | OutOfFuel.

#[global] Instance fault_eq_dec : EqDecision fault.
Proof. solve_decision. Defined.

Inductive outcome (A : Type) : Type :=
| Ok (a : A)
| Fail (e : fault).
Arguments Ok {A} a.
Arguments Fail {A} e.

(** State passing with failure. *)
Definition M (S A : Type) : Type := S → outcome (A * S).

#[global] Instance M_ret S : MRet (M S) := λ A a s, Ok (a, s).
#[global] Instance M_bind S : MBind (M S) := λ A B k m s,
  match m s with
  | Ok (a, s') => k a s'
  | Fail e => Fail e
  end.

Declare Scope rust_scope.
Delimit Scope rust_scope with rust.
#[global] Open Scope rust_scope.

Definition fail {S A} (e : fault) : M S A := λ _, Fail e.
Definition panic {S A} : M S A := fail Panicked.
Definition assert_ {S} (b : bool) : M S () := if b then mret () else panic.
Definition unwrap {S A} (o : option A) : M S A :=
  match o with Some a => mret a | None => panic end.
Definition unwrap_ub {S A} (o : option A) : M S A :=
  match o with Some a => mret a | None => fail Undefined end.
Definition get {S} : M S S := λ s, Ok (s, s).
Definition gets {S A} (f : S → A) : M S A := λ s, Ok (f s, s).
Definition put {S} (s : S) : M S () := λ _, Ok ((), s).
Definition upd {S} (f : S → S) : M S () := λ s, Ok ((), f s).

(** Run a computation on a component of the state. *)
Definition zoom {S T A} (view : S → T) (set : T → S → S) (m : M T A) : M S A := λ s,
  match m (view s) with
  | Ok (a, t) => Ok (a, set t s)
  | Fail e => Fail e
  end.

(** [for x in l { acc = f(x, acc) }] *)
Fixpoint mfold {S A B} (f : A → B → M S B) (l : list A) (acc : B) : M S B :=
  match l with
  | [] => mret acc
  | x :: l => acc' ← f x acc; mfold f l acc'
  end.
Definition mfor {S A} (f : A → M S ()) (l : list A) : M S () :=
  mfold (λ x _, f x) l ().

(** [for x in l { if let Some(r) = f(x) { return Some(r) } } None] *)
Fixpoint mfind {S A B} (f : A → M S (option B)) (l : list A) : M S (option B) :=
  match l with
  | [] => mret None
  | x :: l => r ← f x; match r with Some b => mret (Some b) | None => mfind f l end
  end.

(** [loop { body }]: [inl] goes round again, [inr] breaks. *)
Fixpoint mloop {S A B} (fuel : nat) (body : A → M S (A + B)) (a : A) : M S B :=
  match fuel with
  | O => fail OutOfFuel
  | Datatypes.S fuel =>
      r ← body a;
      match r with
      | inl a' => mloop fuel body a'
      | inr b => mret b
      end
  end.

(** [while cond { body }] *)
Definition mwhile {S A} (fuel : nat) (cond : A → bool) (body : A → M S A) (a : A) : M S A :=
  mloop fuel (λ a, if cond a then a' ← body a; mret (inl a') else mret (inr a)) a.

(** [iter.next().unwrap()] of a vector's iterator. *)
Definition vec_next {S A} (l : list A) : M S (A * list A) :=
  match l with x :: l => mret (x, l) | [] => panic end.

(** The index range [l..r] of a [for] loop. *)
Definition range (l r : Z) : list Z := seqZ l (r - l).

(** * Machine integers

    Unsigned integers are [Z] in [0, 2^w); the crates are built in release
    mode without overflow checks, so arithmetic wraps. *)

Definition wrap (w x : Z) : Z := x mod 2 ^ w.
Abbreviation u8 := (wrap 8).
Abbreviation u32 := (wrap 32).
Abbreviation u64 := (wrap 64).
Abbreviation usize := (wrap 64).

Notation "x +₃₂ y" := (wrap 32 (x + y)%Z) (at level 50, left associativity) : rust_scope.
Notation "x -₃₂ y" := (wrap 32 (x - y)%Z) (at level 50, left associativity) : rust_scope.
Notation "x *₃₂ y" := (wrap 32 (x * y)%Z) (at level 40, left associativity) : rust_scope.
Notation "x +₆₄ y" := (wrap 64 (x + y)%Z) (at level 50, left associativity) : rust_scope.
Notation "x -₆₄ y" := (wrap 64 (x - y)%Z) (at level 50, left associativity) : rust_scope.
Notation "x *₆₄ y" := (wrap 64 (x * y)%Z) (at level 40, left associativity) : rust_scope.

Lemma wrap_small w x : 0 ≤ x < 2 ^ w → wrap w x = x.
Proof. apply Z.mod_small. Qed.
Lemma wrap_bound w x : 0 ≤ w → 0 ≤ wrap w x < 2 ^ w.
Proof. intros Hw. apply Z.mod_pos_bound. by apply Z.pow_pos_nonneg. Qed.

Definition u32_max : Z := 2 ^ 32 - 1.
Definition u64_max : Z := 2 ^ 64 - 1.

(** The signed reading of a [w]-bit pattern ([as isize], [as i32]). *)
Definition signed (w x : Z) : Z :=
  let x := wrap w x in if x <? 2 ^ (w - 1) then x else x - 2 ^ w.
Abbreviation isize := (signed 64).
Abbreviation i32 := (signed 32).

(** * Arrays and slices *)

(** [l[i]], panicking out of range. *)
Definition index {S A} (l : list A) (i : Z) : M S A :=
  if (0 <=? i) && (i <? Z.of_nat (length l)) then unwrap (l !! Z.to_nat i) else panic.

(** [l[i] = x], panicking out of range. *)
Definition set_index {S A} (l : list A) (i : Z) (x : A) : M S (list A) :=
  if (0 <=? i) && (i <? Z.of_nat (length l)) then mret (<[Z.to_nat i := x]> l) else panic.

(** [l[off..off + n]] of a list long enough. *)
Definition sub_list {A} (off n : nat) (l : list A) : list A := take n (drop off l).

(** [l[off..][..new.len()].copy_from_slice(new)] of a list long enough. *)
Definition splice {A} (off : nat) (new l : list A) : list A :=
  take off l ++ new ++ drop (off + length new) l.

(** [&l[a..b]], panicking when [a > b] or [b > l.len()]. *)
Definition slice {S A} (l : list A) (a b : Z) : M S (list A) :=
  if (0 <=? a) && (a <=? b) && (b <=? Z.of_nat (length l))
  then mret (sub_list (Z.to_nat a) (Z.to_nat (b - a)) l) else panic.

(** [l[a..b].copy_from_slice(src)]: also panics when the lengths differ. *)
Definition copy_into {S A} (l : list A) (a b : Z) (src : list A) : M S (list A) :=
  if (0 <=? a) && (a <=? b) && (b <=? Z.of_nat (length l)) &&
     (Z.of_nat (length src) =? b - a)
  then mret (splice (Z.to_nat a) src l) else panic.

(** The position and value of the first element satisfying [p]:
    [iter().enumerate().find(p)]. *)
Fixpoint find_index {A} (p : A → bool) (l : list A) : option (nat * A) :=
  match l with
  | [] => None
  | x :: l => if p x then Some (O, x)
              else match find_index p l with
                   | Some (i, y) => Some (Datatypes.S i, y)
                   | None => None
                   end
  end.

(** * Reasoning about computations *)

(** [wp m s Q]: run from [s], [m] neither panics, deadlocks, hits undefined
    behaviour nor runs out of fuel, and its result and final state satisfy
    [Q].  Total correctness: [wp m s (λ _ _, True)] says that [m] returns. *)
Definition wp {S A} (m : M S A) (s : S) (Q : A → S → Prop) : Prop :=
  match m s with Ok (a, s') => Q a s' | Fail _ => False end.

Section wp.
Context {S : Type}.
Implicit Types s : S.

Lemma wp_ret {A} (a : A) s Q : wp (mret a) s Q ↔ Q a s.
Proof. done. Qed.
Lemma wp_bind {A B} (m : M S A) (k : A → M S B) s Q :
  wp (m ≫= k) s Q ↔ wp m s (λ a s', wp (k a) s' Q).
Proof. unfold wp, mbind, M_bind. by destruct (m s) as [[a s']|e]. Qed.
Lemma wp_bind_Ok {A B} (m : M S A) (k : A → M S B) s a s' Q : m s = Ok (a, s') → wp (k a) s' Q → wp (m ≫= k) s Q.
Proof. intros Hm Hk. apply wp_bind. unfold wp at 1. by rewrite Hm. Qed.
Lemma wp_mono {A} (m : M S A) s (P Q : A → S → Prop) :
  wp m s P → (∀ a s', P a s' → Q a s') → wp m s Q.
Proof. unfold wp. destruct (m s) as [[a s']|e]; naive_solver. Qed.
Lemma wp_Ok {A} (m : M S A) s Q :
  wp m s Q ↔ ∃ a s', m s = Ok (a, s') ∧ Q a s'.
Proof. unfold wp. destruct (m s) as [[a s']|e]; naive_solver. Qed.
Lemma wp_assert b s Q : wp (assert_ b) s Q ↔ b = true ∧ Q () s.
Proof. unfold wp, assert_. destruct b; naive_solver. Qed.
Lemma wp_unwrap {A} (o : option A) s Q :
  wp (unwrap o) s Q ↔ ∃ a, o = Some a ∧ Q a s.
Proof. unfold wp, unwrap. destruct o; naive_solver. Qed.
Lemma wp_unwrap_ub {A} (o : option A) s Q :
  wp (unwrap_ub o) s Q ↔ ∃ a, o = Some a ∧ Q a s.
Proof. unfold wp, unwrap_ub. destruct o; naive_solver. Qed.
Lemma wp_index {A} (l : list A) i s Q :
  wp (index l i) s Q ↔ 0 ≤ i ∧ ∃ a, l !! Z.to_nat i = Some a ∧ Q a s.
Proof.
  unfold index, wp. destruct (_ && _) eqn:E; simpl.
  - assert (0 ≤ i ∧ i < Z.of_nat (length l)) as [Hi Hl] by lia.
    destruct (lookup_lt_is_Some_2 l (Z.to_nat i)) as [a Ha]; [lia|].
    rewrite Ha. cbn. naive_solver.
  - split; [done|]. intros (Hi & a & Ha%lookup_lt_Some & _). lia.
Qed.
Lemma wp_set_index {A} (l : list A) i x s Q :
  wp (set_index l i x) s Q ↔
  0 ≤ i < Z.of_nat (length l) ∧ Q (<[Z.to_nat i := x]> l) s.
Proof.
  unfold set_index, wp. destruct (_ && _) eqn:E; cbn; [|split; [done|]];
    intuition lia.
Qed.
Lemma wp_slice {A} (l : list A) a b s Q :
  wp (slice l a b) s Q ↔
  0 ≤ a ≤ b ∧ b ≤ Z.of_nat (length l) ∧ Q (sub_list (Z.to_nat a) (Z.to_nat (b - a)) l) s.
Proof.
  unfold slice, wp. destruct (_ && _) eqn:E; cbn; [|split; [done|]]; intuition lia.
Qed.
Lemma wp_copy_into {A} (l : list A) a b src s Q :
  wp (copy_into l a b src) s Q ↔
  0 ≤ a ≤ b ∧ b ≤ Z.of_nat (length l) ∧ Z.of_nat (length src) = b - a ∧
  Q (splice (Z.to_nat a) src l) s.
Proof.
  unfold copy_into, wp. destruct (_ && _) eqn:E; cbn; [|split; [done|]]; intuition lia.
Qed.
Lemma wp_get s Q : wp get s Q ↔ Q s s.
Proof. done. Qed.
Lemma wp_gets {A} (f : S → A) s Q : wp (gets f) s Q ↔ Q (f s) s.
Proof. done. Qed.
Lemma wp_put s' s Q : wp (put s') s Q ↔ Q () s'.
Proof. done. Qed.
Lemma wp_upd f s Q : wp (upd f) s Q ↔ Q () (f s).
Proof. done. Qed.
Lemma wp_zoom {T A} (view : S → T) set (m : M T A) s Q :
  wp (zoom view set m) s Q ↔ wp m (view s) (λ a t, Q a (set t s)).
Proof. unfold wp, zoom. by destruct (m (view s)) as [[a t]|e]. Qed.
Lemma wp_panic {A} s (Q : A → S → Prop) : wp panic s Q ↔ False.
Proof. done. Qed.
Lemma wp_fail {A} e s (Q : A → S → Prop) : wp (fail e) s Q ↔ False.
Proof. done. Qed.

(** Invariant rule for [for] loops: [I] holds of the elements still to come. *)
Lemma wp_mfold {A B} (I : list A → B → S → Prop) (f : A → B → M S B) l acc s :
  I l acc s →
  (∀ x l' acc s, I (x :: l') acc s → wp (f x acc) s (λ acc' s', I l' acc' s')) →
  wp (mfold f l acc) s (λ acc' s', I [] acc' s').
Proof.
  intros HI Hf. revert acc s HI. induction l as [|x l IH]; intros acc s HI; [done|].
  cbn. apply wp_bind. eapply wp_mono; [by apply Hf|]. auto.
Qed.

(** Variant rule for [loop]: [fuel] rounds are enough when the measure
    decreases on every round. *)
Lemma wp_mloop {A B} (I : A → S → Prop) (μ : A → nat) (body : A → M S (A + B)) Q fuel a s :
  I a s → (μ a < fuel)%nat →
  (∀ a s, I a s → wp (body a) s (λ r s',
     match r with inl a' => I a' s' ∧ (μ a' < μ a)%nat | inr b => Q b s' end)) →
  wp (mloop fuel body a) s Q.
Proof.
  intros HI Hμ Hbody. revert a s HI Hμ. induction fuel as [|n IH]; intros a s HI Hμ; [lia|].
  cbn. apply wp_bind. eapply wp_mono; [by apply Hbody|].
  intros [a'|b] s'; [intros [HI' Hlt]; apply IH; [done|lia] | done].
Qed.

End wp.

(** Symbolic execution: push [wp] through a computation. *)
Ltac wp_step :=
  first
    [ rewrite wp_bind | rewrite wp_ret | rewrite wp_assert | rewrite wp_unwrap
    | rewrite wp_unwrap_ub | rewrite wp_index | rewrite wp_set_index
    | rewrite wp_slice | rewrite wp_copy_into | rewrite wp_get | rewrite wp_gets
    | rewrite wp_put | rewrite wp_upd | rewrite wp_zoom ].
Ltac wp_steps := repeat (wp_step; cbn beta).

(** Equation-driven execution: rewrite with [m s = Ok (a, s')]. *)
Lemma bind_Ok {S A B} (m : M S A) (k : A → M S B) s a s' :
  m s = Ok (a, s') → (m ≫= k) s = k a s'.
Proof. unfold mbind, M_bind. by intros ->. Qed.
Lemma bind_Fail {S A B} (m : M S A) (k : A → M S B) s e :
  m s = Fail e → (m ≫= k) s = Fail e.
Proof. unfold mbind, M_bind. by intros ->. Qed.
Lemma bind_Ok_inv {S A B} (m : M S A) (k : A → M S B) s b s'' :
  (m ≫= k) s = Ok (b, s'') → ∃ a s', m s = Ok (a, s') ∧ k a s' = Ok (b, s'').
Proof. unfold mbind, M_bind. destruct (m s) as [[a s']|e]; naive_solver. Qed.

(** Invert a successful run into the runs of its parts. *)
Ltac inv_run H :=
  match type of H with
  | mbind _ _ _ = Ok _ =>
      let a := fresh "a" in let s := fresh "s" in let H1 := fresh "Hrun" in
      apply bind_Ok_inv in H as (a & s & H1 & H); inv_run H1; cbn beta in H
  | mret _ _ = Ok _ => injection H as ? ?; subst
  | assert_ ?b _ = Ok _ =>
      let E := fresh "Hassert" in
      destruct b eqn:E; cbn in H; [injection H as ? ?; subst | discriminate H]
  | unwrap ?o _ = Ok _ =>
      let E := fresh "Hunwrap" in
      destruct o eqn:E; cbn in H; [injection H as ? ?; subst | discriminate H]
  | panic _ = Ok _ => discriminate H
  | fail _ _ = Ok _ => discriminate H
  | _ => idtac
  end.
