(* ===== verification/Hoare.v ===== *)
(** Partial correctness of computations in the monad: [hoare P m Q] says that a
    run of [m] from [P] that ends, ends in [Q].  Whole-system invariants use it,
    where a fault of the kernel ends the run. *)

From S2P Require Export Prelude.

(** Partial correctness: a run from [P] that ends, ends in [Q]. *)
Definition hoare {S A} (P : S → Prop) (m : M S A) (Q : A → S → Prop) : Prop :=
  ∀ s a s', P s → m s = Ok (a, s') → Q a s'.

Section hoare.
Context {S : Type}.
Implicit Types P : S → Prop.

Lemma hoare_ret {A} P (a : A) Q : (∀ s, P s → Q a s) → hoare P (mret a) Q.
Proof. intros H s b s' HP [= <- <-]. by apply H. Qed.
Lemma hoare_bind {A B} P (m : M S A) R (f : A → M S B) Q :
  hoare P m R → (∀ a, hoare (R a) (f a) Q) → hoare P (m ≫= f) Q.
Proof. intros Hm Hf s b s' HP (a & s1 & H1 & H2)%bind_Ok_inv. eapply Hf; [|done]. by eapply Hm. Qed.
Lemma hoare_assoc {A B C} P (m : M S A) (f : A → M S B) (g : B → M S C) Q :
  hoare P (m ≫= λ a, f a ≫= g) Q → hoare P ((m ≫= f) ≫= g) Q.
Proof.
  intros H s a s' HP Hr. eapply H; [done|]. unfold mbind, M_bind in *. by destruct (m s) as [[? ?]|].
Qed.
Lemma hoare_gets {A} P (f : S → A) Q : (∀ s, P s → Q (f s) s) → hoare P (gets f) Q.
Proof. intros H s b s' HP [= <- <-]. by apply H. Qed.
Lemma hoare_upd P f Q : (∀ s, P s → Q () (f s)) → hoare P (upd f) Q.
Proof. intros H s b s' HP [= <- <-]. by apply H. Qed.
Lemma hoare_mono {A} P P' (m : M S A) Q Q' :
  hoare P m Q → (∀ s, P' s → P s) → (∀ a s, Q a s → Q' a s) → hoare P' m Q'.
Proof. intros H HP HQ s a s' HP' Hm. eapply HQ, H; [|done]. by apply HP. Qed.
Lemma hoare_fail {A} P e (Q : A → S → Prop) : hoare P (fail e) Q.
Proof. by intros s a s' _ [=]. Qed.
Lemma hoare_pure {A} P (φ : Prop) (m : M S A) Q :
  (φ → hoare P m Q) → hoare (λ s, φ ∧ P s) m Q.
Proof. intros H s a s' [Hφ HP]. by apply H. Qed.
Lemma hoare_mfold {A B} P (f : A → B → M S B) l b :
  (∀ x b, hoare P (f x b) (λ _, P)) → hoare P (mfold f l b) (λ _, P).
Proof.
  intros Hf. revert b. induction l as [|x l IH]; intros b; [by apply hoare_ret|].
  eapply hoare_bind; [apply Hf|apply IH].
Qed.
Lemma hoare_mloop {A B} P (Q : B → S → Prop) (body : A → M S (A + B)) n a :
  (∀ a, hoare P (body a) (λ r s, match r with inl _ => P s | inr b => Q b s end)) →
  hoare P (mloop n body a) Q.
Proof.
  intros Hb. revert a. induction n as [|n IH]; intros a; [apply hoare_fail|].
  eapply hoare_bind; [apply Hb|]. intros [a'|b]; [apply IH|by apply hoare_ret].
Qed.
End hoare.
