(* ===== verification/Bytes.v ===== *)
(** Machine memory: how the values of the Rust types lie in bytes.  Little-endian
    words and arrays of words, [repr(C)] layouts as [codec]s with their laws,
    UTF-8 validation, and the lemmas on slices of lists. *)

From Stdlib Require DecimalString.
From S2P Require Export Prelude.

(** * Little-endian encodings (RISC-V and the x86 host are little-endian) *)

Fixpoint le_dec (l : list Z) : Z :=
  match l with [] => 0 | b :: l => b + 256 * le_dec l end.
Fixpoint le_enc (n : nat) (v : Z) : list Z :=
  match n with O => [] | S n => v mod 256 :: le_enc n (v / 256) end.
Fixpoint words_dec (w n : nat) (l : list Z) : list Z :=
  match n with O => [] | S n => le_dec (take w l) :: words_dec w n (drop w l) end.
Definition words_enc (w : nat) (vs : list Z) : list Z :=
  vs ≫= le_enc w.

Definition is_byte (b : Z) : Prop := 0 ≤ b < 256.

(** ** How a value of type [T] lies in memory

    [cenc v old] is the memory after writing [v] over [old]: padding bytes keep
    their contents. *)
Record codec (T : Type) : Type := Codec {
  csize : nat;
  cdec : list Z → option T;
  cenc : T → list Z → list Z }.
Arguments Codec {T} _ _ _.
Arguments csize {T} _.
Arguments cdec {T} _ _.
Arguments cenc {T} _ _ _.

(** ** UTF-8 validation, [core::str::from_utf8] *)

Definition is_cont (b : Z) : bool := (128 <=? b) && (b <? 192).

Fixpoint utf8_fuel (n : nat) (l : list Z) : bool :=
  match n, l with
  | _, [] => true
  | O, _ => false
  | S n, b :: l =>
      if b <? 128 then utf8_fuel n l
      else match l with
      | b1 :: l1 =>
        if (194 <=? b) && (b <=? 223) then is_cont b1 && utf8_fuel n l1
        else match l1 with
        | b2 :: l2 =>
          if (224 <=? b) && (b <=? 239) then
            (if b =? 224 then (160 <=? b1) && (b1 <? 192)
             else if b =? 237 then (128 <=? b1) && (b1 <? 160)
             else is_cont b1) && is_cont b2 && utf8_fuel n l2
          else match l2 with
          | b3 :: l3 =>
            if (240 <=? b) && (b <=? 244) then
              (if b =? 240 then (144 <=? b1) && (b1 <? 192)
               else if b =? 244 then (128 <=? b1) && (b1 <? 144)
               else is_cont b1) && is_cont b2 && is_cont b3 && utf8_fuel n l3
            else false
          | [] => false
          end
        | [] => false
        end
      | [] => false
      end
  end.
Definition utf8_valid (l : list Z) : bool := utf8_fuel (length l) l.

(** ** Text: the bytes of a literal, and [{}] of an integer *)

Definition text (s : string) : list Z := (λ c, Z.of_N (Ascii.N_of_ascii c)) <$> String.list_ascii_of_string s.
Definition num (z : Z) : list Z := text (DecimalString.NilZero.string_of_int (Z.to_int z)).

Definition ascii (l : list Z) : bool := forallb (λ c, (0 <=? c) && (c <? 128)) l.

(** The laws of a layout: [valid] are the values the type can hold. *)
Class CodecLaws {T} (c : codec T) (valid : T → Prop) : Prop := {
  codec_length v old : valid v → length old = csize c → length (cenc c v old) = csize c;
  codec_bytes v old : valid v → length old = csize c → Forall is_byte old →
    Forall is_byte (cenc c v old);
  codec_roundtrip v old : valid v → length old = csize c → cdec c (cenc c v old) = Some v;
  codec_valid v l : length l = csize c → Forall is_byte l → cdec c l = Some v → valid v }.
#[global] Arguments codec_length {T c valid _} v old _ _ : assert.
#[global] Arguments codec_bytes {T c valid _} v old _ _ _ : assert.
#[global] Arguments codec_roundtrip {T c valid _} v old _ _ : assert.
#[global] Arguments codec_valid {T c valid _} v l _ _ _ : assert.

(** An array of [n] [w]-byte unsigned words: [[u64; n]], [[u32; n]]. *)
Definition words_codec (w n : nat) : codec (list Z) :=
  Codec (w * n) (λ l, Some (words_dec w n l)) (λ vs _, words_enc w vs).
Definition words_valid (w n : nat) (vs : list Z) : Prop :=
  length vs = n ∧ Forall (λ v, 0 ≤ v < 256 ^ Z.of_nat w) vs.

(** A plain byte array [[u8; n]]. *)
Definition bytes_codec (n : nat) : codec (list Z) := Codec n Some (λ v _, v).

(** * Lemmas *)

Section splice.
Context {A : Type}.
Implicit Types (l new : list A) (off n i : nat).

Lemma length_splice off new l :
  (off + length new ≤ length l)%nat → length (splice off new l) = length l.
Proof. intros. unfold splice. rewrite !length_app, length_take, length_drop. lia. Qed.
Lemma length_sub_list off n l :
  (off + n ≤ length l)%nat → length (sub_list off n l) = n.
Proof. intros. unfold sub_list. rewrite length_take, length_drop. lia. Qed.
Lemma lookup_sub_list off n l i :
  sub_list off n l !! i = if decide (i < n)%nat then l !! (off + i)%nat else None.
Proof.
  unfold sub_list. case_decide.
  - by rewrite lookup_take_lt, lookup_drop by done.
  - apply lookup_take_ge. lia.
Qed.
Lemma lookup_splice_new off new l i :
  (off + length new ≤ length l)%nat → (off ≤ i < off + length new)%nat →
  splice off new l !! i = new !! (i - off)%nat.
Proof.
  intros. unfold splice. rewrite lookup_app_r by (rewrite length_take; lia).
  rewrite length_take, Nat.min_l by lia. rewrite lookup_app_l by lia. done.
Qed.
Lemma lookup_splice_old off new l i :
  (off + length new ≤ length l)%nat → (i < off ∨ off + length new ≤ i)%nat →
  splice off new l !! i = l !! i.
Proof.
  intros ? [?|?]; unfold splice.
  - rewrite lookup_app_l by (rewrite length_take; lia). by apply lookup_take_lt.
  - rewrite lookup_app_r by (rewrite length_take; lia).
    rewrite length_take, Nat.min_l by lia. rewrite lookup_app_r by lia.
    rewrite lookup_drop. f_equal. lia.
Qed.
Lemma sub_list_splice_same off new l :
  (off + length new ≤ length l)%nat → sub_list off (length new) (splice off new l) = new.
Proof.
  intros. apply list_eq. intros i. rewrite lookup_sub_list. case_decide.
  - rewrite lookup_splice_new by lia. f_equal. lia.
  - symmetry. apply lookup_ge_None. lia.
Qed.
Lemma sub_list_splice_other off new off' n l :
  (off + length new ≤ length l)%nat → (off' + n ≤ off ∨ off + length new ≤ off')%nat →
  sub_list off' n (splice off new l) = sub_list off' n l.
Proof.
  intros. apply list_eq. intros i. rewrite !lookup_sub_list. case_decide; [|done].
  apply lookup_splice_old; lia.
Qed.
Lemma splice_self off n l :
  (off + n ≤ length l)%nat → splice off (sub_list off n l) l = l.
Proof.
  intros. apply list_eq. intros i. destruct (decide (off ≤ i < off + n)%nat).
  - rewrite lookup_splice_new by (rewrite length_sub_list; lia).
    rewrite lookup_sub_list, decide_True by lia. f_equal. lia.
  - apply lookup_splice_old; rewrite length_sub_list; lia.
Qed.
Lemma Forall_sub_list (P : A → Prop) off n l : Forall P l → Forall P (sub_list off n l).
Proof. intros. by apply Forall_take, Forall_drop. Qed.
Lemma Forall_splice (P : A → Prop) off new l :
  Forall P l → Forall P new → Forall P (splice off new l).
Proof. intros. apply Forall_app_2; [by apply Forall_take|]. apply Forall_app_2; [done|by apply Forall_drop]. Qed.
Lemma sub_list_app off n m l : sub_list off (n + m) l = sub_list off n l ++ sub_list (off + n) m l.
Proof.
  unfold sub_list. by rewrite <-take_take_drop, drop_drop.
Qed.
End splice.

(** Numbers are ASCII. *)
Lemma ascii_text_uint d : ascii (text (DecimalString.NilEmpty.string_of_uint d)) = true.
Proof. induction d; [done|..]; cbn; exact IHd. Qed.
Lemma ascii_num z : ascii (num z) = true.
Proof.
  unfold num, DecimalString.NilZero.string_of_int, DecimalString.NilZero.string_of_uint.
  destruct (Z.to_int z) as [d|d]; destruct d; try done; cbn; apply ascii_text_uint.
Qed.
(** ASCII text is valid, and so is every part of it. *)
Lemma utf8_ascii l : ascii l = true → utf8_valid l = true.
Proof.
  unfold utf8_valid, ascii. induction l as [|c l IH]; [done|]. cbn [forallb length utf8_fuel].
  intros [Hc Hl]%andb_true_iff. rewrite (proj2 (Z.ltb_lt _ _)) by lia. by apply IH.
Qed.
Lemma ascii_app l1 l2 : ascii (l1 ++ l2) = ascii l1 && ascii l2.
Proof. apply forallb_app. Qed.
Lemma ascii_drop off l : ascii l = true → ascii (drop off l) = true.
Proof. intros H. rewrite <-(take_drop off l), ascii_app in H. by apply andb_true_iff in H as [_ H]. Qed.
Lemma ascii_sub off n l : ascii l = true → ascii (sub_list off n l) = true.
Proof.
  intros H%(ascii_drop off). rewrite <-(take_drop n (drop off l)), ascii_app in H. by apply andb_true_iff in H as [H _].
Qed.

(** A concatenation of pieces of equal length. *)
Lemma length_bind_pieces {A B} (g : A → list B) n l :
  (∀ x, x ∈ l → length (g x) = n) → length (l ≫= g) = (n * length l)%nat.
Proof.
  induction l as [|x l IH]; intros Hg; cbn; [lia|].
  rewrite length_app, IH, Hg; [lia|apply list_elem_of_here|].
  intros y Hy. apply Hg. by apply list_elem_of_further.
Qed.
Lemma lookup_bind_pieces {A B} `{!Inhabited A} (g : A → list B) n l i :
  (0 < n)%nat → (∀ x, x ∈ l → length (g x) = n) → (i / n < length l)%nat →
  (l ≫= g) !! i = g (l !!! (i / n)%nat) !! (i mod n)%nat.
Proof.
  intros Hn. revert i. induction l as [|x l IH]; intros i Hg Hi; [cbn in Hi; lia|].
  cbn [mbind list_bind]. assert (length (g x) = n) as Hx by apply Hg, list_elem_of_here.
  destruct (decide (i < n)%nat) as [Hlt|Hge].
  - rewrite lookup_app_l by lia. by rewrite Nat.div_small, Nat.mod_small by lia.
  - rewrite lookup_app_r by lia. rewrite Hx.
    assert (i = 1 * n + (i - n))%nat as Hin by lia.
    assert (i / n = S ((i - n) / n))%nat as Hd by (rewrite Hin at 1; rewrite Nat.div_add_l; lia).
    assert (i mod n = (i - n) mod n)%nat as Hm
      by (rewrite Hin at 1; rewrite Nat.add_comm, Nat.Div0.mod_add; done).
    rewrite Hd in *. rewrite Hm. cbn in Hi. rewrite IH; [done| |lia].
    intros y Hy. apply Hg. by apply list_elem_of_further.
Qed.

(** Quotient and remainder of a number given by them. *)
Lemma div_mul_add a b q : 0 ≤ q < b → (a * b + q) / b = a.
Proof. intros. rewrite Z.div_add_l, Z.div_small by lia. lia. Qed.
Lemma mod_mul_add a b q : 0 ≤ q < b → (a * b + q) mod b = q.
Proof. intros. rewrite Z.add_comm, Z.mod_add by lia. by apply Z.mod_small. Qed.

Lemma find_index_Some {A} (p : A → bool) (l : list A) i x :
  find_index p l = Some (i, x) ↔
  l !! i = Some x ∧ p x = true ∧ ∀ j y, (j < i)%nat → l !! j = Some y → p y = false.
Proof.
  revert i x. induction l as [|a l IH]; intros i x; cbn; [naive_solver|].
  destruct (p a) eqn:Ha.
  - split.
    + intros [= <- <-]. split_and!; [done..|]. intros; lia.
    + intros (Hi & Hx & Hlt). destruct i as [|i]; [cbn in Hi; congruence|].
      specialize (Hlt 0%nat a ltac:(lia) eq_refl). congruence.
  - destruct (find_index p l) as [[j y]|].
    + split.
      * intros [= <- <-]. destruct (proj1 (IH j y) eq_refl) as (? & ? & Hlt). split_and!; [done..|].
        intros [|k] z Hk Hz; [by injection Hz as <-|]. apply (Hlt k); [lia|done].
      * intros (Hi & Hx & Hlt). destruct i as [|i]; [cbn in Hi; congruence|].
        cbn in Hi. assert (Some (j, y) = Some (i, x)) as [= -> ->]; [|done].
        apply IH. split_and!; [done..|]. intros k z Hk Hz. apply (Hlt (S k)); [lia|done].
    + split; [done|]. intros (Hi & Hx & Hlt). destruct i as [|i]; [cbn in Hi; congruence|].
      assert (None = Some (i, x)) as Hn; [|done]. apply IH. split_and!; [done..|].
      intros k z Hk Hz. apply (Hlt (S k)); [lia|done].
Qed.
Lemma find_index_None {A} (p : A → bool) (l : list A) :
  find_index p l = None ↔ ∀ x, x ∈ l → p x = false.
Proof.
  induction l as [|a l IH]; cbn; [split; [intros _ x Hx; by apply elem_of_nil in Hx|done]|].
  destruct (p a) eqn:Ha.
  - split; [done|]. intros Hall. rewrite (Hall a) in Ha by apply list_elem_of_here. done.
  - destruct (find_index p l) as [[j y]|].
    + split; [done|]. intros Hall. assert (Some (j, y) = None) as Hn; [|done].
      apply IH. intros x Hx. apply Hall. by apply list_elem_of_further.
    + split; [|done]. intros _ x [->|Hx]%elem_of_cons; [done|]. by apply IH.
Qed.

Lemma insert_Permutation {A} (l : list A) i x y :
  l !! i = Some x → <[i := y]> l ≡ₚ y :: delete i l.
Proof.
  intros Hi. rewrite insert_take_drop by (by eapply lookup_lt_Some).
  rewrite delete_take_drop. symmetry. apply Permutation_middle.
Qed.

(** ** Bits *)

Lemma testbit_half v j : 0 ≤ j → Z.testbit (v / 2) j = Z.testbit v (j + 1).
Proof. intros Hj. by rewrite <-Z.div2_div, Z.div2_spec, Z.shiftr_spec. Qed.
Lemma testbit_pow2 i j : 0 ≤ i → Z.testbit (2 ^ i) j = bool_decide (i = j).
Proof.
  intros Hi. case_bool_decide as Hij; [subst; by apply Z.pow2_bits_true|].
  destruct (decide (0 ≤ j)); [by apply Z.pow2_bits_false|]. apply Z.testbit_neg_r. lia.
Qed.
Lemma lor_bound w a b : 0 ≤ w → 0 ≤ a < 2 ^ w → 0 ≤ b < 2 ^ w → 0 ≤ Z.lor a b < 2 ^ w.
Proof.
  intros Hw Ha Hb. assert (0 ≤ Z.lor a b) as H0 by (apply Z.lor_nonneg; lia). split; [done|].
  assert (Z.lor a b / 2 ^ w = 0) as Hd.
  { rewrite <-Z.shiftr_div_pow2, Z.shiftr_lor, !Z.shiftr_div_pow2 by done.
    by rewrite !Z.div_small. }
  apply Z.div_small_iff in Hd; lia.
Qed.
Lemma land_pow2_pos v i : 0 ≤ i → (0 <? Z.land v (2 ^ i)) = Z.testbit v i.
Proof.
  intros Hi. destruct (Z.testbit v i) eqn:Ht.
  - replace (Z.land v (2 ^ i)) with (2 ^ i); [apply Z.ltb_lt; lia|].
    apply Z.bits_inj'. intros j Hj. rewrite Z.land_spec, testbit_pow2 by done.
    case_bool_decide; subst; [by rewrite Ht|by rewrite andb_false_r].
  - replace (Z.land v (2 ^ i)) with 0; [done|].
    apply Z.bits_inj'. intros j Hj. rewrite Z.bits_0, Z.land_spec, testbit_pow2 by done.
    case_bool_decide; subst; [by rewrite Ht|by rewrite andb_false_r].
Qed.
Lemma lor_disjoint a b : Z.land a b = 0 → Z.lor a b = a + b.
Proof. intros Hab. by rewrite <-Z.lxor_lor, Z.add_nocarry_lxor. Qed.

Section le.
Implicit Types (l : list Z) (v : Z).

Lemma length_le_enc n v : length (le_enc n v) = n.
Proof. revert v. induction n; intros; cbn; auto. Qed.
Lemma le_enc_bytes n v : Forall is_byte (le_enc n v).
Proof.
  revert v. induction n; intros; cbn; constructor; [|done].
  unfold is_byte. apply Z.mod_pos_bound. lia.
Qed.
Lemma le_dec_enc n v : le_dec (le_enc n v) = v mod 256 ^ Z.of_nat n.
Proof.
  revert v. induction n as [|n IH]; intros v; cbn [le_enc le_dec].
  { by rewrite Z.mod_1_r. }
  rewrite IH, Nat2Z.inj_succ, Z.pow_succ_r by lia.
  rewrite Z.rem_mul_r; lia.
Qed.
Lemma le_dec_enc_small n v : 0 ≤ v < 256 ^ Z.of_nat n → le_dec (le_enc n v) = v.
Proof. intros. rewrite le_dec_enc. by apply Z.mod_small. Qed.
Lemma le_dec_bound l : Forall is_byte l → 0 ≤ le_dec l < 256 ^ Z.of_nat (length l).
Proof.
  induction 1 as [|b l Hb _ IH]; [done|]. cbn [le_dec length].
  rewrite Nat2Z.inj_succ, Z.pow_succ_r by lia. unfold is_byte in *. lia.
Qed.
Lemma le_enc_dec l : Forall is_byte l → le_enc (length l) (le_dec l) = l.
Proof.
  induction 1 as [|b l Hb Hl IH]; [done|]. cbn [le_enc le_dec length].
  unfold is_byte in *. f_equal.
  - rewrite (Z.mul_comm 256), Z.mod_add, Z.mod_small; lia.
  - rewrite (Z.mul_comm 256), Z.div_add, Z.div_small, Z.add_0_l; [done|lia..].
Qed.

Lemma length_words_dec w n l : length (words_dec w n l) = n.
Proof. revert l. induction n; intros; cbn; auto. Qed.
Lemma length_words_enc w vs : length (words_enc w vs) = (w * length vs)%nat.
Proof.
  unfold words_enc. induction vs as [|v vs IH]; cbn; [lia|].
  rewrite length_app, length_le_enc. cbn in IH. rewrite IH. lia.
Qed.
Lemma words_enc_bytes w vs : Forall is_byte (words_enc w vs).
Proof.
  unfold words_enc. induction vs as [|v vs IH]; cbn; [constructor|].
  apply Forall_app_2; [apply le_enc_bytes | done].
Qed.
Lemma words_dec_enc w vs n :
  words_valid w n vs → words_dec w n (words_enc w vs) = vs.
Proof.
  intros [<- Hvs]. unfold words_enc. induction Hvs as [|v vs Hv Hvs IH]; [done|].
  cbn. rewrite take_app_length', drop_app_length' by (by rewrite length_le_enc).
  rewrite le_dec_enc_small by done. f_equal. exact IH.
Qed.
Lemma words_enc_dec w n l :
  length l = (w * n)%nat → Forall is_byte l → words_enc w (words_dec w n l) = l.
Proof.
  revert l. induction n as [|n IH]; intros l Hl Hb; cbn.
  { rewrite Nat.mul_0_r in Hl. by apply nil_length_inv in Hl as ->. }
  unfold words_enc in *. cbn. rewrite IH.
  - replace w with (length (take w l)) at 1 by (rewrite length_take; lia).
    rewrite le_enc_dec by (by apply Forall_take). apply take_drop.
  - rewrite length_drop. lia.
  - by apply Forall_drop.
Qed.
Lemma words_dec_lookup w n l i :
  (i < n)%nat → words_dec w n l !! i = Some (le_dec (sub_list (w * i) w l)).
Proof.
  revert i l. induction n as [|n IH]; intros i l Hi; [lia|].
  destruct i as [|i]; cbn.
  - unfold sub_list. by rewrite Nat.mul_0_r, drop_0.
  - rewrite IH by lia. unfold sub_list. rewrite drop_drop. do 4 f_equal. lia.
Qed.
Lemma words_dec_valid w n l :
  length l = (w * n)%nat → Forall is_byte l → words_valid w n (words_dec w n l).
Proof.
  intros Hl Hb. split; [apply length_words_dec|].
  apply Forall_lookup. intros i v Hv.
  assert (i < n)%nat by (apply lookup_lt_Some in Hv; by rewrite length_words_dec in Hv).
  rewrite words_dec_lookup in Hv by done. injection Hv as <-.
  assert (length (sub_list (w * i) w l) = w) as Hlen by (apply length_sub_list; nia).
  pose proof (le_dec_bound _ (Forall_sub_list _ (w * i) w l Hb)) as Hbd. by rewrite Hlen in Hbd.
Qed.
End le.

Lemma words_valid_insert w n ws i v :
  words_valid w n ws → 0 ≤ v < 256 ^ Z.of_nat w → words_valid w n (<[i := v]> ws).
Proof. intros [Hl Hv] Hb. split; [by rewrite length_insert|]. by apply Forall_insert. Qed.
Lemma words_valid_lookup w n ws i v :
  words_valid w n ws → ws !! i = Some v → 0 ≤ v < 256 ^ Z.of_nat w.
Proof. intros [_ Hv] Hi. by eapply Forall_lookup_1 in Hv. Qed.



#[export] Instance words_codec_laws w n : CodecLaws (words_codec w n) (words_valid w n).
Proof.
  split; cbn.
  - intros v old [Hn _] _. by rewrite length_words_enc, Hn.
  - intros v old _ _ _. apply words_enc_bytes.
  - intros v old Hv _. by rewrite words_dec_enc.
  - intros v l Hl Hb [= <-]. by apply words_dec_valid.
Qed.

#[export] Instance bytes_codec_laws n :
  CodecLaws (bytes_codec n) (λ v, length v = n ∧ Forall is_byte v).
Proof. split; cbn; naive_solver. Qed.

#[global] Arguments words_dec : simpl never.
#[global] Arguments words_enc : simpl never.
#[global] Arguments le_dec : simpl never.
#[global] Arguments le_enc : simpl never.
