(* ===== verification/BlockStore.v ===== *)
(** The block layer as its clients see it (easy-fs/src/block_cache.rs,
    easy-fs/src/block_dev.rs).

    [BlockDevice] is the device trait.  [BlockStore] is the interface the file
    system is written against: scoped access to one block through the global
    cache, [block_cache_sync_all], and the mutex around [EasyFileSystem].
    [Flat] is its abstract specification, a plain map of blocks;
    [StoreSim] is the interface of a simulation between two stores, against
    which every client proves that it behaves the same on both.  BlockCache.v
    implements [BlockStore] with the real cache and discharges [StoreSim]. *)

From S2P Require Export Bytes.

Definition BLOCK_SZ : Z := 512.
Definition BLOCK_CACHE_MAX_NUM : nat := 16.

(** A block is a [[u8; BLOCK_SZ]]. *)
Abbreviation block := (list Z).
Definition is_block (b : block) : bool := Z.of_nat (length b) =? BLOCK_SZ.

(** ** The [BlockDevice] trait

    [None]: the implementation panics ([expect] on a failing device). *)
Class BlockDevice (D : Type) : Type := {
  read_block : D → Z → option block;
  write_block : D → Z → block → option D }.

(** What the cache relies on: a block that can be read can be written, reads
    return what was written, other blocks are left alone. *)
Class BlockDeviceLaws (D : Type) `{!BlockDevice D} : Prop := {
  read_block_length (d : D) i b : read_block d i = Some b → is_block b = true;
  write_block_total (d : D) i b0 b :
    read_block d i = Some b0 → is_block b = true → is_Some (write_block d i b);
  read_write_same (d d' : D) i b0 b :
    read_block d i = Some b0 → is_block b = true → write_block d i b = Some d' →
    read_block d' i = Some b;
  read_write_other (d d' : D) i j b0 b :
    read_block d i = Some b0 → is_block b = true → write_block d i b = Some d' →
    i ≠ j → read_block d' j = read_block d j }.

(** ** The interface of the block layer

    [bs_read id f] is [get_block_cache(id, dev).lock().read(..)] and [bs_modify]
    the [modify] variant; the closure runs while the block is pinned and locked
    and sees (and, for [modify], replaces) the whole block.  [bs_fs_lock] runs a
    section with the [Mutex<EasyFileSystem>] held. *)
Class BlockStore (S : Type) : Type := {
  bs_read : ∀ A : Type, Z → (block → M S A) → M S A;
  bs_modify : ∀ A : Type, Z → (block → M S (A * block)) → M S A;
  bs_sync_all : M S ();
  bs_fs_lock : ∀ A : Type, M S A → M S A }.
Arguments bs_read {S _ A} id f : rename.
Arguments bs_modify {S _ A} id f : rename.
Arguments bs_fs_lock {S _ A} m : rename.

(** ** Typed access to a block at an offset *)
Section typed.
Context {S : Type} `{!BlockStore S}.

(** [BlockCache::get_ref] and [BlockCache::get_mut]: the bounds assertion and
    the view of the bytes at [offset] as a [T]. *)
Definition get_ref {T} (c : codec T) (offset : Z) (b : block) : M S T :=
  assert_ (offset + Z.of_nat (csize c) <=? BLOCK_SZ);;
  unwrap_ub (cdec c (sub_list (Z.to_nat offset) (csize c) b)).

(** The block after a [T] is stored through the reference [get_mut] returned. *)
Definition put_back {T} (c : codec T) (offset : Z) (v : T) (b : block) : block :=
  splice (Z.to_nat offset)
    (cenc c v (sub_list (Z.to_nat offset) (csize c) b)) b.

(** [get_block_cache(id, dev).lock().read(offset, f)] *)
Definition read {A T} (c : codec T) (id offset : Z) (f : T → M S A) : M S A :=
  bs_read id (λ b, v ← get_ref c offset b; f v).

(** [get_block_cache(id, dev).lock().modify(offset, f)] *)
Definition modify {A T} (c : codec T) (id offset : Z) (f : T → M S (A * T)) : M S A :=
  bs_modify id (λ b,
    v ← get_ref c offset b;
    '(r, v') ← f v;
    mret (r, put_back c offset v' b)).
End typed.

(** ** The abstract store *)

Record Flat : Type := MkFlat {
  fl_blocks : gmap Z block;
  fl_held : gset Z;          (** blocks some running closure has locked *)
  fl_fs_locked : bool }.

Definition flat_open (id : Z) : M Flat block := λ s,
  if decide (id ∈ fl_held s) then Fail Deadlocked
  else if decide (BLOCK_CACHE_MAX_NUM ≤ size (fl_held s))%nat then Fail Panicked
  else match fl_blocks s !! id with
       | Some b => Ok (b, MkFlat (fl_blocks s) ({[id]} ∪ fl_held s) (fl_fs_locked s))
       | None => Fail Panicked
       end.
Definition flat_close (id : Z) : M Flat () :=
  upd (λ s, MkFlat (fl_blocks s) (fl_held s ∖ {[id]}) (fl_fs_locked s)).
Definition flat_store (id : Z) (b : block) : M Flat () :=
  if is_block b
  then upd (λ s, MkFlat (<[id := b]> (fl_blocks s)) (fl_held s) (fl_fs_locked s))
  else fail Undefined.

#[export] Instance Flat_store : BlockStore Flat := {|
  bs_read A id f := b ← flat_open id; r ← f b; flat_close id;; mret r;
  bs_modify A id f :=
    b ← flat_open id; '(r, b') ← f b; flat_store id b';; flat_close id;; mret r;
  bs_sync_all := s ← get; if decide (fl_held s = ∅) then mret () else fail Deadlocked;
  bs_fs_lock A m :=
    l ← gets fl_fs_locked;
    if l : bool then fail Deadlocked else
      upd (λ s, MkFlat (fl_blocks s) (fl_held s) true);;
      r ← m;
      upd (λ s, MkFlat (fl_blocks s) (fl_held s) false);;
      mret r |}.

(** ** Simulation between two stores *)

Class StoreSim (S1 S2 : Type) `{!BlockStore S1, !BlockStore S2} : Type := {
  sim : ∀ A : Type, M S1 A → M S2 A → Prop;
  sim_ret A (a : A) : sim A (mret a) (mret a);
  sim_fail A e : sim A (fail e) (fail e);
  sim_bind A B m1 m2 (k1 : A → M S1 B) (k2 : A → M S2 B) :
    sim A m1 m2 → (∀ a, sim B (k1 a) (k2 a)) → sim B (m1 ≫= k1) (m2 ≫= k2);
  sim_bs_read A id f1 f2 :
    (∀ b, sim A (f1 b) (f2 b)) → sim A (bs_read id f1) (bs_read id f2);
  sim_bs_modify A id f1 f2 :
    (∀ b, sim (A * block) (f1 b) (f2 b)) → sim A (bs_modify id f1) (bs_modify id f2);
  sim_bs_sync_all : sim () bs_sync_all bs_sync_all;
  sim_bs_fs_lock A m1 m2 : sim A m1 m2 → sim A (bs_fs_lock m1) (bs_fs_lock m2) }.
Arguments sim {S1 S2 _ _ _ A} m1 m2 : rename.

Create HintDb sim discriminated.
#[export] Hint Resolve sim_ret sim_fail sim_bs_sync_all : sim.

(** Go through a client's definition, one construct at a time. *)
Ltac sim_step :=
  match goal with
  | |- sim (mbind _ _) (mbind _ _) => apply sim_bind; [|intros ?]
  | |- sim (bs_read _ _) (bs_read _ _) => apply sim_bs_read; intros ?
  | |- sim (bs_modify _ _) (bs_modify _ _) => apply sim_bs_modify; intros ?
  | |- sim (bs_fs_lock _) (bs_fs_lock _) => apply sim_bs_fs_lock
  | |- sim (let '_ := ?x in _) _ => destruct x
  | |- sim (match ?x with _ => _ end) _ => destruct x
  | |- sim _ _ => solve [auto with sim]
  end.
Ltac sim_go := repeat (sim_step; cbn beta).

Section sim.
Context `{StoreSim S1 S2}.

Lemma sim_assert b : sim (assert_ (S:=S1) b) (assert_ b).
Proof. destruct b; cbn; [apply sim_ret|apply sim_fail]. Qed.
Lemma sim_unwrap {A} (o : option A) : sim (unwrap (S:=S1) o) (unwrap o).
Proof. destruct o; cbn; [apply sim_ret|apply sim_fail]. Qed.
Lemma sim_unwrap_ub {A} (o : option A) : sim (unwrap_ub (S:=S1) o) (unwrap_ub o).
Proof. destruct o; cbn; [apply sim_ret|apply sim_fail]. Qed.
Lemma sim_index {A} (l : list A) i : sim (index (S:=S1) l i) (index l i).
Proof. unfold index. case_match; [apply sim_unwrap|apply sim_fail]. Qed.
Lemma sim_set_index {A} (l : list A) i x : sim (set_index (S:=S1) l i x) (set_index l i x).
Proof. unfold set_index. case_match; [apply sim_ret|apply sim_fail]. Qed.
Lemma sim_slice {A} (l : list A) a b : sim (slice (S:=S1) l a b) (slice l a b).
Proof. unfold slice. case_match; [apply sim_ret|apply sim_fail]. Qed.
Lemma sim_copy_into {A} (l : list A) a b src :
  sim (copy_into (S:=S1) l a b src) (copy_into l a b src).
Proof. unfold copy_into. case_match; [apply sim_ret|apply sim_fail]. Qed.
Lemma sim_get_ref {T} (c : codec T) off b : sim (get_ref (S:=S1) c off b) (get_ref c off b).
Proof. apply sim_bind; [apply sim_assert|intros []; apply sim_unwrap_ub]. Qed.
Lemma sim_read {A T} (c : codec T) id off (f1 : T → M S1 A) (f2 : T → M S2 A) :
  (∀ v, sim (f1 v) (f2 v)) → sim (read c id off f1) (read c id off f2).
Proof. intros Hf. apply sim_bs_read. intros b. apply sim_bind; [apply sim_get_ref|done]. Qed.
Lemma sim_modify {A T} (c : codec T) id off (f1 : T → M S1 (A * T)) (f2 : T → M S2 (A * T)) :
  (∀ v, sim (f1 v) (f2 v)) → sim (modify c id off f1) (modify c id off f2).
Proof.
  intros Hf. apply sim_bs_modify. intros b. apply sim_bind; [apply sim_get_ref|].
  intros v. apply sim_bind; [done|]. intros [r v']. apply sim_ret.
Qed.
Lemma sim_mfold {A B} (f1 : A → B → M S1 B) (f2 : A → B → M S2 B) l acc :
  (∀ a b, sim (f1 a b) (f2 a b)) → sim (mfold f1 l acc) (mfold f2 l acc).
Proof.
  intros Hf. revert acc. induction l as [|x l IH]; intros acc; cbn; [apply sim_ret|].
  apply sim_bind; auto.
Qed.
Lemma sim_mfor {A} (f1 : A → M S1 ()) (f2 : A → M S2 ()) l :
  (∀ a, sim (f1 a) (f2 a)) → sim (mfor f1 l) (mfor f2 l).
Proof. intros Hf. by apply sim_mfold. Qed.
Lemma sim_mfind {A B} (f1 : A → M S1 (option B)) (f2 : A → M S2 (option B)) l :
  (∀ a, sim (f1 a) (f2 a)) → sim (mfind f1 l) (mfind f2 l).
Proof.
  intros Hf. induction l as [|x l IH]; cbn; [apply sim_ret|].
  apply sim_bind; [done|]. intros [b|]; [apply sim_ret|done].
Qed.
Lemma sim_mloop {A B} fuel (f1 : A → M S1 (A + B)) (f2 : A → M S2 (A + B)) a :
  (∀ a, sim (f1 a) (f2 a)) → sim (mloop fuel f1 a) (mloop fuel f2 a).
Proof.
  intros Hf. revert a. induction fuel as [|n IH]; intros a; cbn; [apply sim_fail|].
  apply sim_bind; [done|]. intros [a'|b]; [done|apply sim_ret].
Qed.
Lemma sim_mwhile {A} fuel cond (f1 : A → M S1 A) (f2 : A → M S2 A) a :
  (∀ a, sim (f1 a) (f2 a)) → sim (mwhile fuel cond f1 a) (mwhile fuel cond f2 a).
Proof.
  intros Hf. apply sim_mloop. intros b. case_match; [|apply sim_ret].
  apply sim_bind; [done|]. intros; apply sim_ret.
Qed.
Lemma sim_vec_next {A} (l : list A) : sim (vec_next (S:=S1) l) (vec_next l).
Proof. destruct l; [apply sim_fail|apply sim_ret]. Qed.
End sim.
#[export] Hint Resolve sim_vec_next sim_assert sim_unwrap sim_unwrap_ub sim_index sim_set_index
  sim_slice sim_copy_into sim_get_ref : sim.
#[export] Hint Extern 1 (sim panic panic) => apply sim_fail : sim.
Ltac sim_combinator :=
  match goal with
  | |- sim (read _ _ _ _) (read _ _ _ _) => apply sim_read; intros ?
  | |- sim (modify _ _ _ _) (modify _ _ _ _) => apply sim_modify; intros ?
  | |- sim (mfold _ _ _) (mfold _ _ _) => apply sim_mfold; intros ? ?
  | |- sim (mfor _ _) (mfor _ _) => apply sim_mfor; intros ?
  | |- sim (mfind _ _) (mfind _ _) => apply sim_mfind; intros ?
  | |- sim (mloop _ _ _) (mloop _ _ _) => apply sim_mloop; intros ?
  | |- sim (mwhile _ _ _ _) (mwhile _ _ _ _) => apply sim_mwhile; intros ?
  end.
Ltac sim_auto := repeat (first [sim_combinator | sim_step]; cbn beta).

(** ** Reasoning about the abstract store *)

(** A block: 512 bytes. *)
Definition block_ok (b : block) : Prop := length b = 512%nat ∧ Forall is_byte b.

Definition block_okb (b : block) : bool :=
  (length b =? 512)%nat && forallb (λ x, (0 <=? x) && (x <? 256)) b.
Lemma block_okb_ok b : block_okb b = true → block_ok b.
Proof.
  unfold block_okb. intros [Hl Hb]%andb_true_iff. split; [by apply Nat.eqb_eq|].
  apply Forall_forall. intros x Hx. apply list_elem_of_In in Hx.
  rewrite forallb_forall in Hb. specialize (Hb x Hx). unfold is_byte. lia.
Qed.

(** [id] can be opened in [s] and contains [b]. *)
Record can_open (id : Z) (s : Flat) (b : block) : Prop := {
  co_free : id ∉ fl_held s;
  co_room : (size (fl_held s) < BLOCK_CACHE_MAX_NUM)%nat;
  co_here : fl_blocks s !! id = Some b;
  co_ok : block_ok b }.

Definition set_block (id : Z) (b : block) (s : Flat) : Flat :=
  MkFlat (<[id := b]> (fl_blocks s)) (fl_held s) (fl_fs_locked s).
Definition hold (id : Z) (s : Flat) : Flat :=
  MkFlat (fl_blocks s) ({[id]} ∪ fl_held s) (fl_fs_locked s).
Definition unhold (id : Z) (s : Flat) : Flat :=
  MkFlat (fl_blocks s) (fl_held s ∖ {[id]}) (fl_fs_locked s).

Lemma set_block_id id b s : fl_blocks s !! id = Some b → set_block id b s = s.
Proof. intros Hb. destruct s; unfold set_block; cbn in *. by rewrite insert_id. Qed.
Lemma unhold_hold id s : id ∉ fl_held s → unhold id (hold id s) = s.
Proof. intros Hid. destruct s as [B H L]; cbn in *. unfold unhold; cbn. f_equal. set_solver. Qed.

Lemma flat_open_Ok id s b : can_open id s b → flat_open id s = Ok (b, hold id s).
Proof.
  intros [Hf Hr Hh _]. unfold flat_open. rewrite decide_False by done.
  rewrite decide_False by lia. by rewrite Hh.
Qed.

Lemma is_block_ok b : block_ok b → is_block b = true.
Proof. intros [Hl _]. unfold is_block, BLOCK_SZ. rewrite Hl. done. Qed.

Lemma get_ref_Ok {St T} (c : codec T) off b v (s : St) :
  0 ≤ off → off + Z.of_nat (csize c) ≤ BLOCK_SZ →
  cdec c (sub_list (Z.to_nat off) (csize c) b) = Some v →
  get_ref c off b s = Ok (v, s).
Proof.
  intros Hoff Hle Hdec. unfold get_ref, assert_, mbind, M_bind.
  rewrite (proj2 (Z.leb_le _ _) Hle). cbn. by rewrite Hdec.
Qed.

Section access.
Context {T : Type} (c : codec T) (valid : T → Prop) `{!CodecLaws c valid}.

(** [v] is stored at offset [off] of block [id]. *)
Record stored (id off : Z) (s : Flat) (b : block) (v : T) : Prop := {
  st_open : can_open id s b;
  st_off : 0 ≤ off;
  st_fits : off + Z.of_nat (csize c) ≤ BLOCK_SZ;
  st_dec : cdec c (sub_list (Z.to_nat off) (csize c) b) = Some v }.

Lemma sub_block_length off b :
  0 ≤ off → off + Z.of_nat (csize c) ≤ BLOCK_SZ → block_ok b →
  length (sub_list (Z.to_nat off) (csize c) b) = csize c.
Proof. intros ? Hle [Hl _]. apply length_sub_list. unfold BLOCK_SZ in Hle. lia. Qed.

Lemma length_put_back off v b :
  valid v → 0 ≤ off → off + Z.of_nat (csize c) ≤ BLOCK_SZ → block_ok b →
  length (put_back c off v b) = 512%nat.
Proof.
  intros Hv Hoff Hle Hb. unfold put_back. pose proof Hb as [Hl _].
  rewrite length_splice; [done|].
  rewrite (codec_length v) by (done || by apply sub_block_length).
  unfold BLOCK_SZ in Hle. lia.
Qed.
Lemma put_back_ok off v b :
  valid v → 0 ≤ off → off + Z.of_nat (csize c) ≤ BLOCK_SZ → block_ok b →
  block_ok (put_back c off v b).
Proof.
  intros Hv Hoff Hle Hb. split; [by apply length_put_back|].
  destruct Hb as [Hl Hb]. apply Forall_splice; [done|].
  apply (codec_bytes v); [done|by apply sub_block_length|by apply Forall_sub_list].
Qed.
(** What is stored is read back. *)
Lemma dec_put_back off v b :
  valid v → 0 ≤ off → off + Z.of_nat (csize c) ≤ BLOCK_SZ → block_ok b →
  cdec c (sub_list (Z.to_nat off) (csize c) (put_back c off v b)) = Some v.
Proof.
  intros Hv Hoff Hle Hb. unfold put_back.
  pose proof (sub_block_length off b Hoff Hle Hb) as Hlen.
  pose proof (codec_length v _ Hv Hlen) as Hlen'.
  rewrite <-Hlen' at 1. rewrite sub_list_splice_same.
  - by apply (codec_roundtrip v).
  - destruct Hb as [Hl _]. unfold BLOCK_SZ in Hle. lia.
Qed.
Lemma stored_valid id off s b v : stored id off s b v → valid v.
Proof.
  intros [[_ _ _ Hb] Hoff Hle Hdec]. eapply codec_valid; [|by apply Forall_sub_list, Hb|done].
  by apply sub_block_length.
Qed.

Lemma wp_read {A} id off (g : T → M Flat A) s b v Q :
  stored id off s b v →
  wp (g v) (hold id s) (λ r s', Q r (unhold id s')) →
  wp (read c id off g) s Q.
Proof.
  intros [Hop Hoff Hle Hdec] Hwp. unfold read, wp in *. cbn. unfold mbind, M_bind.
  rewrite (flat_open_Ok _ _ _ Hop), (get_ref_Ok _ _ _ v) by done.
  destruct (g v (hold id s)) as [[r s']|e]; [|done]. exact Hwp.
Qed.

Lemma wp_modify {A} id off (g : T → M Flat (A * T)) s b v Q :
  stored id off s b v →
  wp (g v) (hold id s) (λ r s', valid r.2 ∧
    Q r.1 (unhold id (set_block id (put_back c off r.2 b) s'))) →
  wp (modify c id off g) s Q.
Proof.
  intros [Hop Hoff Hle Hdec] Hwp. unfold modify, wp in *. cbn. unfold mbind, M_bind.
  rewrite (flat_open_Ok _ _ _ Hop), (get_ref_Ok _ _ _ v) by done.
  destruct (g v (hold id s)) as [[[r v'] s']|e]; [|done]. cbn in *.
  destruct Hwp as [Hv HQ]. unfold flat_store.
  assert (is_block (put_back c off v' b) = true) as ->.
  { unfold is_block, BLOCK_SZ. rewrite length_put_back; [done|done..|by destruct Hop]. }
  exact HQ.
Qed.

(** The common case: a closure that only computes. *)
Lemma modify_pure {A} id off (g : T → M Flat (A * T)) s b v r v' :
  stored id off s b v → (∀ s, g v s = Ok ((r, v'), s)) → valid v' →
  modify c id off g s = Ok (r, set_block id (put_back c off v' b) s).
Proof.
  intros Hst Hg Hv.
  assert (wp (modify c id off g) s (λ r0 s0, r0 = r ∧ s0 = set_block id (put_back c off v' b) s)) as Hwp.
  { apply (wp_modify id off g s b v); [done|]. unfold wp. rewrite Hg. cbn. split_and!; [done..|].
    destruct Hst as [[Hf _ _ _] _ _ _]. destruct s as [B H L]. unfold unhold, set_block; cbn in *.
    f_equal. set_solver. }
  unfold wp in Hwp. destruct (modify c id off g s) as [[r0 s0]|]; [|done]. by destruct Hwp as [-> ->].
Qed.
Lemma read_pure {A} id off (g : T → M Flat A) s b v r :
  stored id off s b v → (∀ s, g v s = Ok (r, s)) → read c id off g s = Ok (r, s).
Proof.
  intros Hst Hg.
  assert (wp (read c id off g) s (λ r0 s0, r0 = r ∧ s0 = s)) as Hwp.
  { apply (wp_read id off g s b v); [done|]. unfold wp. rewrite Hg. split; [done|].
    apply unhold_hold. by destruct Hst as [[? _ _ _] _ _ _]. }
  unfold wp in Hwp. destruct (read c id off g s) as [[r0 s0]|]; [|done]. by destruct Hwp as [-> ->].
Qed.
End access.

(** Opening survives writing a well-formed block. *)
Lemma can_open_set_block id id' b b' s :
  can_open id s b → block_ok b' →
  can_open id (set_block id' b' s) (if decide (id = id') then b' else b).
Proof.
  intros [Hf Hr Hh Hb] Hb'. case_decide as Hid; split; cbn; try done.
  - subst. by rewrite lookup_insert_eq.
  - by rewrite lookup_insert_ne.
Qed.
