(* ===== verification/BlockCache.v ===== *)
(** The global block cache (easy-fs/src/block_cache.rs): [BlockCache] with its
    write-back on [sync] and on drop, [BlockCacheManager] with its bounded
    queue and eviction, and the proof that the cached device implements the
    abstract store [Flat] of BlockStore.v.  Also the file-backed device of
    easy-fs-fuse/src/main.rs. *)

From S2P Require Export BlockStore.

(** * The cache *)

Record BlockCache : Type := MkBlockCache {
  cache : block;
  block_id : Z;
  modified : bool }.

(** [Arc<Mutex<BlockCache>>]: the queue owns one reference, every client that
    still holds the [Arc] one more. *)
Record Shared : Type := MkShared {
  strong_count : nat;
  locked : bool;
  inner : BlockCache }.

(** The cache manager, the device under it, and the mutex of the mounted
    [EasyFileSystem]. *)
Record CacheState (D : Type) : Type := MkCacheState {
  device : D;
  queue : list (Z * Shared);
  fs_locked : bool }.
Arguments MkCacheState {D} _ _ _.
Arguments device {D} _.
Arguments queue {D} _.
Arguments fs_locked {D} _.

Definition zero_block : block := replicate (Z.to_nat BLOCK_SZ) 0.

(** [Vec::swap_remove]: the last element takes the removed one's place. *)
Definition swap_remove {A} (i : nat) (l : list A) : list A :=
  match list.last l with
  | Some x => take (length l - 1) (<[i := x]> l)
  | None => []
  end.

Section cache.
Context {D : Type} `{!BlockDevice D}.
Abbreviation St := (CacheState D).

Definition set_device (d : D) : M St () :=
  upd (λ s, MkCacheState d (queue s) (fs_locked s)).
Definition set_queue (q : list (Z * Shared)) : M St () :=
  upd (λ s, MkCacheState (device s) q (fs_locked s)).

Definition BlockCache_new (id : Z) : M St BlockCache :=
  d ← gets device;
  b ← unwrap (read_block d id);
  mret (MkBlockCache b id false).

Definition BlockCache_sync (c : BlockCache) : M St BlockCache :=
  if modified c then
    d ← gets device;
    d' ← unwrap (write_block d (block_id c) (cache c));
    set_device d';;
    mret (MkBlockCache (cache c) (block_id c) false)
  else mret c.

(** [Drop for BlockCache] *)
Definition BlockCache_drop (c : BlockCache) : M St () := BlockCache_sync c;; mret ().

(** An [Arc] into the cache is the key of its queue entry: an entry that a
    client holds is never evicted and keys are unique, so the key names it. *)
Definition queue_find (id : Z) (q : list (Z * Shared)) : option (nat * (Z * Shared)) :=
  find_index (λ p, p.1 =? id) q.

#[global] Arguments queue_find : simpl never.

(** [Arc::clone] of the entry. *)
Definition arc_clone (sh : Shared) : Shared :=
  MkShared (S (strong_count sh)) (locked sh) (inner sh).

(** Make room when the queue is full: evict the first entry nobody holds. *)
Definition make_room : M St () :=
  q ← gets queue;
  if (length q =? BLOCK_CACHE_MAX_NUM)%nat then
    match find_index (λ p, strong_count (snd p) =? 1)%nat q with
    | Some (idx, (_, victim)) =>
        set_queue (swap_remove idx q);;
        BlockCache_drop (inner victim)
    | None => panic
    end
  else mret ().

(** [BlockCacheManager::get_block_cache] *)
Definition get_block_cache (id : Z) : M St () :=
  q ← gets queue;
  match queue_find id q with
  | Some (i, (k, sh)) => set_queue (<[i := (k, arc_clone sh)]> q)
  | None =>
      make_room;;
      c ← BlockCache_new id;
      q ← gets queue;
      set_queue (q ++ [(id, MkShared 2 false c)])
  end.

(** Access to the entry an [Arc] points to. *)
Definition with_entry {A} (id : Z) (f : Shared → M St (A * Shared)) : M St A :=
  q ← gets queue;
  '(i, (k, sh)) ← unwrap_ub (queue_find id q);
  '(r, sh') ← f sh;
  set_queue (<[i := (k, sh')]> q);;
  mret r.

(** [.lock()]: spins for ever when the mutex is held. *)
Definition lock (id : Z) : M St block :=
  with_entry id (λ sh,
    if locked sh then fail Deadlocked
    else mret (cache (inner sh), MkShared (strong_count sh) true (inner sh))).

(** [get_mut] marks the block as modified. *)
Definition mark_modified (id : Z) : M St () :=
  with_entry id (λ sh,
    mret ((), MkShared (strong_count sh) (locked sh)
                (MkBlockCache (cache (inner sh)) (block_id (inner sh)) true))).

(** The contents the closure of [modify] left behind. *)
Definition store_cache (id : Z) (b : block) : M St () :=
  if is_block b then
    with_entry id (λ sh,
      mret ((), MkShared (strong_count sh) (locked sh)
                  (MkBlockCache b (block_id (inner sh)) (modified (inner sh)))))
  else fail Undefined.

(** [get_block_cache(id, dev).lock()] *)
Definition open_block (id : Z) : M St block := get_block_cache id;; lock id.

(** The guard and the [Arc] are temporaries: both are dropped at the end. *)
Definition release (id : Z) : M St () :=
  with_entry id (λ sh, mret ((), MkShared (strong_count sh - 1) false (inner sh))).

(** [block_cache.lock().sync()] *)
Definition sync_entry (id : Z) : M St () :=
  _ ← lock id;
  q ← gets queue;
  '(i, (k, sh)) ← unwrap_ub (queue_find id q);
  c ← BlockCache_sync (inner sh);
  set_queue (<[i := (k, MkShared (strong_count sh) false c)]> q).

(** [block_cache_sync_all] *)
Definition block_cache_sync_all : M St () :=
  q ← gets queue;
  mfor (λ p : Z * Shared, sync_entry p.1) q.

#[export] Instance Cached_store : BlockStore St := {|
  bs_read A id f :=
    b ← open_block id; r ← f b; release id;; mret r;
  bs_modify A id f :=
    b ← open_block id; mark_modified id;;
    '(r, b') ← f b; store_cache id b';; release id;; mret r;
  bs_sync_all := block_cache_sync_all;
  bs_fs_lock A m :=
    l ← gets fs_locked;
    if l : bool then fail Deadlocked else
      upd (λ s, MkCacheState (device s) (queue s) true);;
      r ← m;
      upd (λ s, MkCacheState (device s) (queue s) false);;
      mret r |}.
End cache.

(** * The file-backed device of easy-fs-fuse

    [BlockFile] is a host file; its state is the file's bytes.  Seeking past the
    end is allowed and writing there extends the file with zeros.  Block ids are
    [u32] values widened to [usize], so [block_id * BLOCK_SZ] does not wrap. *)
Record BlockFile : Type := MkBlockFile { file : list Z }.

Definition BlockFile_read_block (d : BlockFile) (id : Z) : option block :=
  if 0 <=? id then
    let buf := sub_list (Z.to_nat (id * BLOCK_SZ)) (Z.to_nat BLOCK_SZ) (file d) in
    if is_block buf then Some buf else None
  else None.

Definition BlockFile_write_block (d : BlockFile) (id : Z) (buf : block) : option BlockFile :=
  if (0 <=? id) && is_block buf then
    let off := Z.to_nat (id * BLOCK_SZ) in
    let padded := file d ++ replicate (off - length (file d)) 0 in
    Some (MkBlockFile (splice off buf padded))
  else None.

#[export] Instance BlockFile_device : BlockDevice BlockFile := {|
  read_block := BlockFile_read_block;
  write_block := BlockFile_write_block |}.

(** * Proofs *)

(** ** The file-backed device is lawful *)

Lemma BlockFile_read_inv d id b :
  BlockFile_read_block d id = Some b →
  0 ≤ id ∧ is_block b = true ∧ (Z.to_nat (id * 512) + 512 ≤ length (file d))%nat ∧
  b = sub_list (Z.to_nat (id * 512)) 512 (file d).
Proof.
  unfold BlockFile_read_block. case_match eqn:Hid; [|done].
  case_match eqn:Hb; [|done]. intros [= <-].
  split; [lia|]. split; [done|]. split; [|done].
  unfold is_block, BLOCK_SZ in Hb. apply Z.eqb_eq in Hb.
  unfold sub_list in Hb. rewrite length_take, length_drop in Hb. lia.
Qed.

#[export] Instance BlockFile_laws : BlockDeviceLaws BlockFile.
Proof.
  split.
  - intros d i b H. by apply BlockFile_read_inv in H as (_ & ? & _).
  - intros d i b0 b (Hi & _)%BlockFile_read_inv Hb. cbn. unfold BlockFile_write_block.
    rewrite Hb. destruct (0 <=? i) eqn:E; [|lia]. cbn. eauto.
  - intros d d' i b0 b (Hi & _ & Hlen & _)%BlockFile_read_inv Hb. cbn.
    unfold BlockFile_write_block, BlockFile_read_block. rewrite Hb.
    destruct (0 <=? i) eqn:E; [|lia]. cbn. intros [= <-]. cbn.
    unfold is_block, BLOCK_SZ in *. apply Z.eqb_eq in Hb.
    assert (length b = 512%nat) as Hb' by lia.
    replace (Z.to_nat 512) with (length b).
    rewrite sub_list_splice_same by (rewrite length_app, length_replicate; lia).
    by rewrite Hb', Z.eqb_refl.
  - intros d d' i j b0 b (Hi & _ & Hlen & _)%BlockFile_read_inv Hb. cbn.
    unfold BlockFile_write_block, BlockFile_read_block. rewrite Hb.
    destruct (0 <=? i) eqn:E; [|lia]. cbn. intros [= <-] Hij. cbn.
    unfold is_block, BLOCK_SZ in *. apply Z.eqb_eq in Hb.
    replace (Z.to_nat (i * 512) - length (file d))%nat with 0%nat by lia.
    cbn [replicate]. rewrite app_nil_r.
    destruct (0 <=? j) eqn:Ej; [|done].
    rewrite sub_list_splice_other; [done|lia|lia].
Qed.

(** ** The cached device implements the abstract store *)

Lemma swap_remove_Permutation {A} (l : list A) i x :
  l !! i = Some x → l ≡ₚ x :: swap_remove i l.
Proof.
  intros Hi. unfold swap_remove.
  destruct l as [|z l' _] using rev_ind; [done|].
  rewrite last_snoc, length_app. cbn [length].
  replace (length l' + 1 - 1)%nat with (length l') by lia.
  destruct (decide (i < length l')%nat) as [Hlt|Hge].
  - rewrite insert_app_l, take_app_length' by (rewrite ?length_insert; lia).
    rewrite lookup_app_l in Hi by done.
    rewrite (insert_Permutation l' i x z Hi), (delete_Permutation l' i x Hi) at 1.
    cbn. apply perm_skip. symmetry. apply Permutation_cons_append.
  - rewrite lookup_app_r in Hi by lia.
    assert (i = length l') as ->.
    { apply lookup_lt_Some in Hi. cbn in Hi. lia. }
    rewrite Nat.sub_diag in Hi. injection Hi as <-.
    rewrite insert_app_r_alt, take_app_length' by lia.
    symmetry. apply Permutation_cons_append.
Qed.

Lemma elem_of_keys {A B} (l : list (A * B)) k v : (k, v) ∈ l → k ∈ l.*1.
Proof. intros Hin. apply list_elem_of_fmap. by exists (k, v). Qed.

Lemma sublist_fmap {A B} (g : A → B) (l1 l2 : list A) :
  l1 `sublist_of` l2 → g <$> l1 `sublist_of` g <$> l2.
Proof. induction 1; cbn; by constructor. Qed.

Section refinement.
Context {D : Type} `{!BlockDevice D, !BlockDeviceLaws D}.
Abbreviation St := (CacheState D).
Implicit Types (d : D) (q r : list (Z * Shared)) (f : Flat) (id k : Z) (sh : Shared).

(** What holds of a queue entry: it caches the block it is filed under, a clean
    entry agrees with the device, and the only references are the queue's and
    that of the closure that has it locked. *)
Record entry_ok d (p : Z * Shared) : Prop := {
  entry_id : block_id (inner p.2) = p.1;
  entry_block : is_block (cache (inner p.2)) = true;
  entry_disk : is_Some (read_block d p.1);
  entry_clean : modified (inner p.2) = false → read_block d p.1 = Some (cache (inner p.2));
  entry_refs : strong_count p.2 = (if locked p.2 then 2 else 1)%nat }.

(** The abstraction relation: the abstract contents are the cached ones where a
    block is cached, the device's elsewhere. *)
Record Rel_q d q f : Prop := {
  rel_nodup : NoDup (q.*1);
  rel_len : (length q ≤ BLOCK_CACHE_MAX_NUM)%nat;
  rel_entries : Forall (entry_ok d) q;
  rel_cached id sh : (id, sh) ∈ q → fl_blocks f !! id = Some (cache (inner sh));
  rel_disk id : id ∉ q.*1 → fl_blocks f !! id = read_block d id;
  rel_held id : id ∈ fl_held f ↔ ∃ sh, (id, sh) ∈ q ∧ locked sh = true }.

Definition Rel (c : St) f : Prop :=
  Rel_q (device c) (queue c) f ∧ fs_locked c = fl_fs_locked f.

#[export] Instance Rel_q_Proper d : Proper ((≡ₚ) ==> (=) ==> impl) (Rel_q d).
Proof.
  intros q q' Hq f ? <- [Hnd Hlen Hent Hc Hd Hh]. split.
  - by rewrite <-Hq.
  - by rewrite <-Hq.
  - by rewrite <-Hq.
  - intros id sh. rewrite <-Hq. apply Hc.
  - intros id. rewrite <-Hq. apply Hd.
  - intros id. rewrite Hh. by setoid_rewrite Hq.
Qed.

(** Changing one entry, whose block may get new contents. *)
Lemma Rel_q_update d k sh sh' r f f' :
  Rel_q d ((k, sh) :: r) f →
  entry_ok d (k, sh') →
  fl_blocks f' = <[k := cache (inner sh')]> (fl_blocks f) →
  (∀ id, id ∈ fl_held f' ↔ if decide (id = k) then locked sh' = true else id ∈ fl_held f) →
  Rel_q d ((k, sh') :: r) f'.
Proof.
  intros [Hnd Hlen Hent Hc Hd Hh] Hok HB HH.
  apply Forall_cons in Hent as [_ Hent].
  assert (∀ sh0, (k, sh0) ∉ r) as Hk.
  { intros sh0 Hin. cbn in Hnd. apply list.NoDup_cons in Hnd as [Hnd _].
    by eapply Hnd, elem_of_keys. }
  split; cbn in *; [done|done|by constructor|..].
  - intros id sh0 [[= -> ->]|Hin]%elem_of_cons; rewrite HB.
    + by rewrite lookup_insert_eq.
    + rewrite lookup_insert_ne by (intros ->; by apply (Hk sh0)).
      apply Hc. by apply list_elem_of_further.
  - intros id Hid. rewrite HB, lookup_insert_ne by set_solver. by apply Hd.
  - intros id. rewrite HH. case_decide as Hid.
    + subst id. split.
      * intros Hl. exists sh'. split; [apply list_elem_of_here|done].
      * intros (sh0 & [[= ->]|Hin]%elem_of_cons & ?); [done|]. by apply Hk in Hin.
    + rewrite Hh. split; intros (sh0 & [[= ??]|Hin]%elem_of_cons & ?); try done;
        exists sh0; (split; [by apply list_elem_of_further|done]).
Qed.

(** Caching one more block, unlocked and clean. *)
Lemma Rel_q_load d id b r f :
  Rel_q d r f → id ∉ r.*1 → (length r < BLOCK_CACHE_MAX_NUM)%nat → read_block d id = Some b →
  Rel_q d ((id, MkShared 1 false (MkBlockCache b id false)) :: r) f.
Proof.
  intros [Hnd Hlen Hent Hc Hd Hh] Hid Hlt Hb. split; cbn.
  - by constructor.
  - lia.
  - constructor; [|done]. split; cbn; [done| |by eauto|done..].
    by eapply read_block_length.
  - intros k sh [[= -> ->]|Hin]%elem_of_cons; [|by apply Hc]. cbn. by rewrite Hd.
  - intros k Hk. apply Hd. set_solver.
  - intros k. rewrite Hh. split; intros (sh & Hin & Hl); exists sh.
    + split; [by apply list_elem_of_further|done].
    + apply elem_of_cons in Hin as [[= -> ->]|Hin]; [done|]. done.
Qed.

(** Evicting an unlocked entry writes it back. *)
Lemma Rel_q_evict d k sh r f :
  Rel_q d ((k, sh) :: r) f → locked sh = false →
  ∃ d', (if modified (inner sh) then write_block d k (cache (inner sh)) else Some d) = Some d' ∧
        Rel_q d' r f.
Proof.
  intros [Hnd Hlen Hent Hc Hd Hh] Hl.
  apply Forall_cons in Hent as [[Hid Hbl Hdisk Hclean _] Hent]. cbn in *.
  apply list.NoDup_cons in Hnd as [Hk Hnd]. destruct Hdisk as [b0 Hb0].
  assert (∀ d', (∀ j, j ≠ k → read_block d' j = read_block d j) →
                read_block d' k = Some (cache (inner sh)) → Rel_q d' r f) as Hgoal.
  { intros d' Hoth Hsame. split; [done|lia|..].
    - rewrite Forall_forall in Hent |- *. intros [j shj] Hj.
      destruct (Hent _ Hj) as [? ? ? ? ?]. cbn in *.
      assert (j ≠ k) by (intros ->; by eapply Hk, elem_of_keys).
      split; cbn; rewrite ?Hoth by done; done.
    - intros j shj Hj. apply Hc. by apply list_elem_of_further.
    - intros j Hj. destruct (decide (j = k)) as [->|Hne].
      + rewrite Hsame. apply Hc. apply list_elem_of_here.
      + rewrite Hoth by done. apply Hd. set_solver.
    - intros j. rewrite Hh. split; intros (shj & Hin & Hlj); exists shj.
      + apply elem_of_cons in Hin as [[= -> ->]|Hin]; [congruence|done].
      + split; [by apply list_elem_of_further|done]. }
  destruct (modified (inner sh)) eqn:Hm.
  - destruct (write_block_total d k b0 (cache (inner sh)) Hb0 Hbl) as [d' Hw].
    exists d'. split; [done|]. apply Hgoal.
    + intros j Hj. by eapply read_write_other.
    + by eapply read_write_same.
  - exists d. split; [done|]. apply Hgoal; [done|]. by apply Hclean.
Qed.

Lemma queue_find_Some id q i k sh :
  queue_find id q = Some (i, (k, sh)) → q !! i = Some (k, sh) ∧ k = id.
Proof. intros (Hi & Hk & _)%find_index_Some. cbn in Hk. split; [done|lia]. Qed.
Lemma queue_find_None id q : queue_find id q = None → id ∉ q.*1.
Proof.
  intros Hn (p & -> & Hp)%list_elem_of_fmap.
  pose proof (proj1 (find_index_None _ _) Hn p Hp) as Hf. cbn in Hf. lia.
Qed.
Lemma queue_find_elem id q sh :
  NoDup (q.*1) → (id, sh) ∈ q → ∃ i, queue_find id q = Some (i, (id, sh)) ∧ q !! i = Some (id, sh).
Proof.
  intros Hnd Hin. destruct (queue_find id q) as [[i [k sh']]|] eqn:Hf.
  - apply queue_find_Some in Hf as [Hi ->]. exists i.
    apply list_elem_of_lookup in Hin as [j Hj].
    assert (i = j) as ->; [|by rewrite Hj in Hi; simplify_eq].
    eapply NoDup_lookup; [done|..]; rewrite list_lookup_fmap; [by rewrite Hi|by rewrite Hj].
  - apply queue_find_None in Hf. exfalso. by eapply Hf, elem_of_keys.
Qed.

(** Operating on the entry a client holds. *)
Lemma with_entry_spec {A} id sh (g : Shared → M St (A * Shared)) (c : St) a sh' :
  NoDup ((queue c).*1) → (id, sh) ∈ queue c → g sh c = Ok ((a, sh'), c) →
  ∃ i, queue c !! i = Some (id, sh) ∧
    with_entry id g c = Ok (a, MkCacheState (device c) (<[i := (id, sh')]> (queue c)) (fs_locked c)).
Proof.
  intros Hnd Hin Hg. destruct (queue_find_elem _ _ _ Hnd Hin) as (i & Hf & Hi).
  exists i. split; [done|]. unfold with_entry, mbind, M_bind. cbn. rewrite Hf. cbn.
  by rewrite Hg.
Qed.

(** Queue entries other than [id]'s survive an update of [id]'s. *)
Lemma insert_other q i id sh sh' k shk :
  NoDup (q.*1) → q !! i = Some (id, sh) → (k, shk) ∈ q → k ≠ id → (k, shk) ∈ <[i := (id, sh')]> q.
Proof.
  intros Hnd Hi Hin Hk. rewrite (insert_Permutation q i _ _ Hi).
  rewrite (delete_Permutation q i _ Hi) in Hin. set_solver.
Qed.

Lemma Rel_q_insert d q f f' i k sh sh' :
  Rel_q d q f → q !! i = Some (k, sh) → entry_ok d (k, sh') →
  fl_blocks f' = <[k := cache (inner sh')]> (fl_blocks f) →
  (∀ id, id ∈ fl_held f' ↔ if decide (id = k) then locked sh' = true else id ∈ fl_held f) →
  Rel_q d (<[i := (k, sh')]> q) f'.
Proof.
  intros Hrel Hi Hok HB HH. rewrite (insert_Permutation q i _ _ Hi).
  rewrite (delete_Permutation q i _ Hi) in Hrel. by eapply Rel_q_update.
Qed.

Lemma Rel_q_lookup_ok d q f i k sh :
  Rel_q d q f → q !! i = Some (k, sh) →
  entry_ok d (k, sh) ∧ fl_blocks f !! k = Some (cache (inner sh)) ∧ (k ∈ fl_held f ↔ locked sh = true).
Proof.
  intros Hrel Hi. split; [by eapply Forall_lookup_1 in Hi; [|apply (rel_entries _ _ _ Hrel)]|].
  pose proof (list_elem_of_lookup_2 _ _ _ Hi) as Hin.
  split; [by eapply rel_cached|]. rewrite (rel_held _ _ _ Hrel). split; [|by eauto].
  intros (sh0 & Hin0 & Hl). destruct (queue_find_elem k q sh0) as (j & _ & Hj);
    [apply (rel_nodup _ _ _ Hrel)|done|].
  assert (i = j) as ->; [|naive_solver].
  eapply (NoDup_lookup (q.*1)); [apply (rel_nodup _ _ _ Hrel)|..];
    rewrite list_lookup_fmap; [by rewrite Hi|by rewrite Hj].
Qed.

Definition locked_keys q : list Z := (filter (λ p, locked p.2 = true) q).*1.

Lemma held_size d q f :
  Rel_q d q f → size (fl_held f) = length (filter (λ p, locked p.2 = true) q).
Proof.
  intros Hrel. replace (fl_held f) with (list_to_set (locked_keys q) : gset Z).
  - rewrite size_list_to_set; [by unfold locked_keys; rewrite length_fmap|].
    eapply sublist_NoDup; [apply (rel_nodup _ _ _ Hrel)|].
    apply sublist_fmap, sublist_filter.
  - apply set_eq. intros id. rewrite elem_of_list_to_set, (rel_held _ _ _ Hrel).
    unfold locked_keys. rewrite list_elem_of_fmap. split.
    + intros ([k sh] & -> & [Hl Hin]%list_elem_of_filter). by exists sh.
    + intros (sh & Hin & Hl). exists (id, sh). split; [done|]. by apply list_elem_of_filter.
Qed.

Lemma filter_length_lt {A} (P : A → Prop) `{!∀ x, Decision (P x)} (l : list A) x :
  x ∈ l → ¬ P x → (length (filter P l) < length l)%nat.
Proof.
  intros Hin Hx. induction l as [|y l IH]; [by apply elem_of_nil in Hin|].
  rewrite filter_cons. apply elem_of_cons in Hin as [->|Hin].
  - rewrite decide_False by done. cbn. pose proof (length_filter P l). lia.
  - case_decide; cbn; specialize (IH Hin); lia.
Qed.
Lemma filter_length_eq {A} (P : A → Prop) `{!∀ x, Decision (P x)} (l : list A) :
  (∀ x, x ∈ l → P x) → length (filter P l) = length l.
Proof.
  intros Hall. induction l as [|y l IH]; [done|]. rewrite filter_cons, decide_True.
  - cbn. f_equal. apply IH. intros x Hx. apply Hall. by apply list_elem_of_further.
  - apply Hall, list_elem_of_here.
Qed.
(** Making room: fails exactly when all the cache's slots are held. *)
Lemma make_room_spec (c : St) f :
  Rel c f →
  (make_room c = Fail Panicked ∧ (BLOCK_CACHE_MAX_NUM ≤ size (fl_held f))%nat) ∨
  ((size (fl_held f) < BLOCK_CACHE_MAX_NUM)%nat ∧ ∃ c',
     make_room c = Ok ((), c') ∧ Rel c' f ∧ (length (queue c') < BLOCK_CACHE_MAX_NUM)%nat ∧
     (∀ id, id ∉ (queue c).*1 → id ∉ (queue c').*1) ∧
     (∀ id sh, (id, sh) ∈ queue c → locked sh = true → (id, sh) ∈ queue c')).
Proof.
  intros [Hrel Hfs]. unfold make_room, mbind, M_bind. cbn.
  pose proof (held_size _ _ _ Hrel) as Hsize.
  pose proof (length_filter (λ p : Z * Shared, locked p.2 = true) (queue c)) as Hle.
  destruct (length (queue c) =? BLOCK_CACHE_MAX_NUM)%nat eqn:Hfull.
  - apply Nat.eqb_eq in Hfull.
    destruct (find_index _ (queue c)) as [[i [k sh]]|] eqn:Hf.
    + apply find_index_Some in Hf as (Hi & Hst & _). cbn in Hst. apply Nat.eqb_eq in Hst.
      destruct (Rel_q_lookup_ok _ _ _ _ _ _ Hrel Hi) as ([Hid Hb Hd Hcl Hrefs] & _ & _).
      cbn in *. assert (locked sh = false) as Hl by (destruct (locked sh); [lia|done]).
      pose proof (swap_remove_Permutation _ _ _ Hi) as Hperm.
      set (q' := swap_remove i (queue c)) in *. clearbody q'. rewrite Hperm in Hrel. destruct (Rel_q_evict _ _ _ _ _ Hrel Hl) as (d' & Hd' & Hrel').
      right. split.
      { rewrite Hsize, <-Hfull. apply (filter_length_lt _ _ (k, sh)); [|cbn; congruence].
        by eapply list_elem_of_lookup_2. }
      exists (MkCacheState d' q' (fs_locked c)). split_and!.
      * unfold BlockCache_drop, BlockCache_sync, set_device, mbind, M_bind. rewrite Hid.
        destruct (modified (inner sh)); cbn in *; [by rewrite Hd'|by injection Hd' as <-].
      * done.
      * cbn. apply Permutation_length in Hperm. cbn in Hperm. lia.
      * intros id. cbn. rewrite Hperm. set_solver.
      * intros id shi Hin Hli. cbn. rewrite Hperm in Hin.
        apply elem_of_cons in Hin as [[= -> ->]|Hin]; [congruence|done].
    + left. split; [done|]. rewrite Hsize, <-Hfull. apply Nat.eq_le_incl. symmetry.
      apply filter_length_eq. intros [k sh] Hin.
      pose proof (proj1 (find_index_None _ _) Hf _ Hin) as Hst. cbn in Hst.
      apply Nat.eqb_neq in Hst.
      pose proof (rel_entries _ _ _ Hrel) as Hent. rewrite Forall_forall in Hent.
      destruct (Hent _ Hin) as [_ _ _ _ Hrefs]. cbn in *. destruct (locked sh); [done|lia].
  - apply Nat.eqb_neq in Hfull. pose proof (rel_len _ _ _ Hrel).
    right. split; [lia|]. exists c. split_and!; [done|done|lia|done|done].
Qed.

(** ** The simulation *)

(** Entries a running closure has locked do not change under it. *)
Definition pinned (c c' : St) : Prop :=
  ∀ id sh, (id, sh) ∈ queue c → locked sh = true → (id, sh) ∈ queue c'.

Definition cached_sim {A} (m1 : M St A) (m2 : M Flat A) : Prop := ∀ c f,
  Rel c f →
  match m2 f with
  | Ok (a, f') => ∃ c', m1 c = Ok (a, c') ∧ Rel c' f' ∧ fl_held f' = fl_held f ∧ pinned c c'
  | Fail e => m1 c = Fail e
  end.

Lemma entry_ok_lock d k sh :
  entry_ok d (k, sh) → entry_ok d (k, MkShared 2 true (inner sh)).
Proof. intros [? ? ? ? ?]. by split. Qed.

Lemma keys_insert q i id sh sh' :
  q !! i = Some (id, sh) → (<[i := (id, sh')]> q).*1 = q.*1.
Proof. intros Hi. rewrite list_fmap_insert. apply list_insert_id. by rewrite list_lookup_fmap, Hi. Qed.

(** Locking a cached block that is not locked. *)
Lemma lock_cached (c : St) f id i sh n :
  Rel c f → queue c !! i = Some (id, sh) → locked sh = false → n = strong_count sh →
  ∃ c', lock id (MkCacheState (device c) (<[i := (id, MkShared (S n) false (inner sh))]> (queue c))
                   (fs_locked c)) = Ok (cache (inner sh), c') ∧
    Rel c' (MkFlat (fl_blocks f) ({[id]} ∪ fl_held f) (fl_fs_locked f)) ∧
    (∀ id' sh', (id', sh') ∈ queue c → locked sh' = true → (id', sh') ∈ queue c').
Proof.
  intros [Hrel Hfs] Hi Hl ->.
  destruct (Rel_q_lookup_ok _ _ _ _ _ _ Hrel Hi) as (Hok & HB & HH).
  pose proof (rel_nodup _ _ _ Hrel) as Hnd. cbn in *.
  assert (strong_count sh = 1%nat) as Hs by (destruct Hok as [_ _ _ _ Hrefs]; cbn in Hrefs; by rewrite Hl in Hrefs).
  set (q1 := <[i := (id, MkShared (S (strong_count sh)) false (inner sh))]> (queue c)).
  assert (q1.*1 = (queue c).*1) as Hkeys by (by eapply keys_insert).
  assert (q1 !! i = Some (id, MkShared (S (strong_count sh)) false (inner sh))) as Hi1.
  { apply list_lookup_insert_eq. by eapply lookup_lt_Some. }
  edestruct (with_entry_spec id (MkShared (S (strong_count sh)) false (inner sh))
    (λ sh, if locked sh then fail Deadlocked
           else mret (cache (inner sh), MkShared (strong_count sh) true (inner sh)))
    (MkCacheState (device c) q1 (fs_locked c))) as (j & Hj & Hrun); cbn; [..|done|].
  { by rewrite Hkeys. }
  { by eapply list_elem_of_lookup_2. }
  assert (j = i) as ->.
  { cbn in Hj. eapply (NoDup_lookup (q1.*1)); [by rewrite Hkeys|..];
      rewrite list_lookup_fmap; [by rewrite Hj|by rewrite Hi1]. }
  eexists. split; [exact Hrun|]. cbn. unfold q1. rewrite list_insert_insert_eq, Hs.
  split; [split; [|done]|].
  - cbn. eapply Rel_q_insert; [done|done|by apply entry_ok_lock|..]; cbn.
    + symmetry. by apply insert_id.
    + intros k. case_decide; set_solver.
  - intros k shk Hin Hlk. eapply insert_other; [done|done|done|].
    intros ->. assert (id ∈ fl_held f) as Hheld; [|by apply HH in Hheld; congruence].
    apply (rel_held _ _ _ Hrel). eauto.
Qed.

Lemma queue_find_insert q i id sh sh' :
  NoDup (q.*1) → q !! i = Some (id, sh) →
  queue_find id (<[i := (id, sh')]> q) = Some (i, (id, sh')).
Proof.
  intros Hnd Hi. destruct (queue_find_elem id (<[i := (id, sh')]> q) sh') as (j & Hj & Hj').
  - by erewrite keys_insert.
  - eapply list_elem_of_lookup_2, list_lookup_insert_eq. by eapply lookup_lt_Some.
  - rewrite Hj. do 2 f_equal. eapply (NoDup_lookup (q.*1)); [done| |].
    + by rewrite <-(keys_insert q i id sh sh' Hi), list_lookup_fmap, Hj'.
    + by rewrite list_lookup_fmap, Hi.
Qed.

(** What opening a block promises. *)
Definition opens (id : Z) (c : St) f : Prop :=
  match flat_open id f with
  | Ok (b, f') =>
      (∃ c', open_block id c = Ok (b, c') ∧ Rel c' f' ∧ pinned c c') ∧
      (id ∉ fl_held f) ∧ fl_held f' = {[id]} ∪ fl_held f
  | Fail e => open_block id c = Fail e
  end.

Lemma open_hit (c : St) f id i sh :
  Rel c f → queue_find id (queue c) = Some (i, (id, sh)) → opens id c f.
Proof.
  intros HR Hf. pose proof HR as [Hrel Hfs].
  pose proof (queue_find_Some _ _ _ _ _ Hf) as [Hi _].
  destruct (Rel_q_lookup_ok _ _ _ _ _ _ Hrel Hi) as (Hok & HB & HH).
  unfold opens, flat_open, open_block, get_block_cache.
  destruct (locked sh) eqn:Hl.
  - rewrite decide_True by (by apply HH).
    unfold lock, with_entry, mbind, M_bind. cbn. rewrite Hf. cbn.
    rewrite (queue_find_insert _ _ _ _ _ (rel_nodup _ _ _ Hrel) Hi). cbn. by rewrite Hl.
  - rewrite decide_False by (rewrite HH; congruence).
    rewrite decide_False.
    2:{ rewrite (held_size _ _ _ Hrel). pose proof (rel_len _ _ _ Hrel).
        assert (length (filter (λ p, locked p.2 = true) (queue c)) < length (queue c))%nat; [|lia].
        apply (filter_length_lt _ _ (id, sh)); [by eapply list_elem_of_lookup_2|cbn; congruence]. }
    rewrite HB.
    destruct (lock_cached c f id i sh (strong_count sh) HR Hi Hl eq_refl) as (c' & Hrun & HR' & Hpin).
    split; [|split; [rewrite HH; congruence|done]]. exists c'. split_and!; [|done..].
    unfold mbind, M_bind. cbn. rewrite Hf. cbn. unfold arc_clone. rewrite Hl. done.
Qed.

Lemma open_block_miss (c : St) id :
  queue_find id (queue c) = None →
  open_block id c =
    ((make_room;; c' ← BlockCache_new id; q ← gets queue;
      set_queue (q ++ [(id, MkShared 2 false c')]));; lock id) c.
Proof.
  intros Hf. unfold open_block, get_block_cache, mbind, M_bind. cbn. by rewrite Hf.
Qed.

Lemma open_miss (c : St) f id :
  Rel c f → queue_find id (queue c) = None → opens id c f.
Proof.
  intros HR Hf. pose proof HR as [Hrel Hfs]. apply queue_find_None in Hf as Hid.
  assert (id ∉ fl_held f) as Hnh.
  { rewrite (rel_held _ _ _ Hrel). intros (sh & Hin & _). by eapply Hid, elem_of_keys. }
  unfold opens, flat_open. rewrite decide_False by done.
  rewrite open_block_miss by done.
  destruct (make_room_spec c f HR) as [[Hfail Hge]|(Hlt & c1 & Hok & [Hrel1 Hfs1] & Hlen1 & Hkeys & Hpin)].
  { rewrite decide_True by done. apply bind_Fail. apply bind_Fail. exact Hfail. }
  rewrite decide_False by lia. specialize (Hkeys _ Hid).
  rewrite (rel_disk _ _ _ Hrel1 id Hkeys).
  unfold BlockCache_new, mbind, M_bind. cbn. rewrite Hok.
  destruct (read_block (device c1) id) as [b|] eqn:Hb; cbn; [|done].
  pose proof (Rel_q_load _ _ _ _ _ Hrel1 Hkeys Hlen1 Hb) as Hload.
  set (sh := MkShared 1 false (MkBlockCache b id false)) in *.
  set (c2 := MkCacheState (device c1) (queue c1 ++ [(id, sh)]) (fs_locked c1)).
  assert (Rel c2 f) as HR2 by (split; [cbn; by rewrite <-Permutation_cons_append|done]).
  assert (queue c2 !! length (queue c1) = Some (id, sh)) as Hi2.
  { cbn. by rewrite lookup_app_r, Nat.sub_diag by lia. }
  destruct (lock_cached c2 f id (length (queue c1)) sh 1 HR2 Hi2 eq_refl eq_refl)
    as (c' & Hrun & HR' & Hpin').
  split; [|done]. exists c'. split_and!; [|done|].
  - etrans; [|exact Hrun]. cbn. f_equal. f_equal. by rewrite insert_app_r_alt, Nat.sub_diag by lia.
  - intros k shk Hin Hl. apply Hpin'; [|done]. cbn. apply elem_of_app. left. by apply Hpin.
Qed.

Lemma open_block_spec (c : St) f id : Rel c f → opens id c f.
Proof.
  intros HR. destruct (queue_find id (queue c)) as [[i [k sh]]|] eqn:Hf.
  - pose proof (queue_find_Some _ _ _ _ _ Hf) as [_ ->]. by eapply open_hit.
  - by apply open_miss.
Qed.
(** Entries this closure holds; [sh] is what the queue says about it. *)
Lemma held_entry (c : St) f id :
  Rel c f → id ∈ fl_held f →
  ∃ i sh, queue c !! i = Some (id, sh) ∧ (id, sh) ∈ queue c ∧ locked sh = true ∧
    entry_ok (device c) (id, sh) ∧ fl_blocks f !! id = Some (cache (inner sh)).
Proof.
  intros [Hrel _] (sh & Hin & Hl)%(rel_held _ _ _ Hrel).
  pose proof Hin as [i Hi]%list_elem_of_lookup.
  destruct (Rel_q_lookup_ok _ _ _ _ _ _ Hrel Hi) as (Hok & HB & _). eauto 10.
Qed.

(** One update of the entry this closure holds. *)
Lemma update_held (g : Shared → Shared) (c : St) f f' id sh :
  Rel c f → (id, sh) ∈ queue c → entry_ok (device c) (id, g sh) →
  fl_blocks f' = <[id := cache (inner (g sh))]> (fl_blocks f) →
  (∀ k, k ∈ fl_held f' ↔ if decide (k = id) then locked (g sh) = true else k ∈ fl_held f) →
  fl_fs_locked f' = fl_fs_locked f →
  ∃ c', with_entry id (λ sh0, mret ((), g sh0)) c = Ok ((), c') ∧
    Rel c' f' ∧ (id, g sh) ∈ queue c' ∧
    (∀ k shk, k ≠ id → (k, shk) ∈ queue c → (k, shk) ∈ queue c').
Proof.
  intros [Hrel Hfs] Hin Hok HB HH HF. pose proof (rel_nodup _ _ _ Hrel) as Hnd.
  destruct (with_entry_spec id sh (λ sh0, mret ((), g sh0)) c () (g sh) Hnd Hin eq_refl)
    as (i & Hi & Hrun).
  eexists. split; [exact Hrun|]. split_and!; cbn.
  - split; cbn; [by eapply Rel_q_insert|congruence].
  - eapply list_elem_of_lookup_2, list_lookup_insert_eq. by eapply lookup_lt_Some.
  - intros k shk Hk Hkin. by eapply insert_other.
Qed.

Lemma release_spec (c : St) f id :
  Rel c f → id ∈ fl_held f →
  ∃ c', release id c = Ok ((), c') ∧
    Rel c' (MkFlat (fl_blocks f) (fl_held f ∖ {[id]}) (fl_fs_locked f)) ∧
    (∀ k sh, k ≠ id → (k, sh) ∈ queue c → (k, sh) ∈ queue c').
Proof.
  intros HR Hid. destruct (held_entry c f id HR Hid) as (i & sh & Hi & Hin & Hl & Hok & HB).
  destruct (update_held (λ sh, MkShared (strong_count sh - 1) false (inner sh)) c f
    (MkFlat (fl_blocks f) (fl_held f ∖ {[id]}) (fl_fs_locked f)) id sh)
    as (c' & Hrun & HR' & _ & Hoth); cbn; [done|done|..|by eauto].
  - destruct Hok as [? ? ? ? Hrefs]. cbn in *. rewrite Hl in Hrefs. split; cbn; [done..|lia].
  - symmetry. by apply insert_id.
  - intros k. case_decide; set_solver.
  - done.
Qed.

Lemma mark_modified_spec (c : St) f id :
  Rel c f → id ∈ fl_held f →
  ∃ c' sh, mark_modified id c = Ok ((), c') ∧ Rel c' f ∧
    (id, sh) ∈ queue c' ∧ modified (inner sh) = true ∧ locked sh = true ∧
    (∀ k shk, k ≠ id → (k, shk) ∈ queue c → (k, shk) ∈ queue c').
Proof.
  intros HR Hid. destruct (held_entry c f id HR Hid) as (i & sh & Hi & Hin & Hl & Hok & HB).
  destruct (update_held (λ sh, MkShared (strong_count sh) (locked sh)
      (MkBlockCache (cache (inner sh)) (block_id (inner sh)) true)) c f f id sh)
    as (c' & Hrun & HR' & Hin' & Hoth); cbn; [done|done|..].
  - destruct Hok as [? ? ? ? ?]. cbn in *. by split.
  - symmetry. by apply insert_id.
  - intros k. case_decide as Hk; [subst; by rewrite Hl|done].
  - done.
  - eexists c', _. split_and!; [exact Hrun|done|exact Hin'|done|done|done].
Qed.

Lemma store_cache_spec (c : St) f id sh b :
  Rel c f → (id, sh) ∈ queue c → modified (inner sh) = true → locked sh = true →
  match flat_store id b f with
  | Ok ((), f') => ∃ c', store_cache id b c = Ok ((), c') ∧ Rel c' f' ∧
      fl_held f' = fl_held f ∧
      (∀ k shk, k ≠ id → (k, shk) ∈ queue c → (k, shk) ∈ queue c')
  | Fail e => store_cache id b c = Fail e
  end.
Proof.
  intros HR Hin Hm Hl. unfold flat_store, store_cache. destruct (is_block b) eqn:Hb; [|done].
  destruct HR as [Hrel Hfs] eqn:HReq.
  pose proof (rel_entries _ _ _ Hrel) as Hent. rewrite Forall_forall in Hent.
  destruct (Hent _ Hin) as [Hid Hbl Hd Hcl Hrefs]. cbn in *.
  destruct (update_held (λ sh, MkShared (strong_count sh) (locked sh)
      (MkBlockCache b (block_id (inner sh)) (modified (inner sh)))) c f
      (MkFlat (<[id:=b]> (fl_blocks f)) (fl_held f) (fl_fs_locked f)) id sh)
    as (c' & Hrun & HR' & _ & Hoth); cbn; [done|done|..|by eauto].
  - split; cbn; [done..|congruence|done].
  - done.
  - intros k. case_decide as Hk; [subst|done]. split; [done|].
    intros _. apply (rel_held _ _ _ Hrel). eauto.
  - done.
Qed.

Lemma sync_entry_locked (c : St) id sh :
  NoDup ((queue c).*1) → (id, sh) ∈ queue c → locked sh = true → sync_entry id c = Fail Deadlocked.
Proof.
  intros Hnd Hin Hl. destruct (queue_find_elem _ _ _ Hnd Hin) as (i & Hf & _).
  unfold sync_entry. apply bind_Fail. unfold lock, with_entry, mbind, M_bind. cbn.
  rewrite Hf. cbn. by rewrite Hl.
Qed.

Lemma sync_entry_unlocked (c : St) f id sh :
  Rel c f → (id, sh) ∈ queue c → locked sh = false →
  ∃ c' sh', sync_entry id c = Ok ((), c') ∧ Rel c' f ∧ (queue c').*1 = (queue c).*1 ∧
    (id, sh') ∈ queue c' ∧ modified (inner sh') = false ∧ locked sh' = false ∧
    (∀ k shk, k ≠ id → (k, shk) ∈ queue c ↔ (k, shk) ∈ queue c').
Proof.
  intros [Hrel Hfs] Hin Hl. pose proof (rel_nodup _ _ _ Hrel) as Hnd.
  destruct (queue_find_elem _ _ _ Hnd Hin) as (i & Hf & Hi).
  destruct (Rel_q_lookup_ok _ _ _ _ _ _ Hrel Hi) as ([Hid Hb Hd Hcl Hrefs] & HB & _).
  cbn in *. rewrite Hl in Hrefs. pose proof (delete_Permutation _ _ _ Hi) as Hperm.
  pose proof Hrel as Hrel0. rewrite Hperm in Hrel0.
  destruct (Rel_q_evict _ _ _ _ _ Hrel0 Hl) as (d' & Hd' & Hrel').
  assert (id ∉ (delete i (queue c)).*1) as Hnk.
  { rewrite Hperm in Hnd. cbn in Hnd. by apply NoDup_cons in Hnd as [? _]. }
  set (sh' := MkShared 1 false (MkBlockCache (cache (inner sh)) id false)).
  exists (MkCacheState d' (<[i := (id, sh')]> (queue c)) (fs_locked c)), sh'.
  split_and!; cbn; try done.
  - unfold sync_entry, lock, with_entry, mbind, M_bind. cbn. rewrite Hf. cbn. rewrite Hl. cbn.
    rewrite (queue_find_insert _ _ _ _ _ Hnd Hi). cbn.
    unfold BlockCache_sync, set_device, set_queue, mbind, M_bind. cbn. rewrite Hid, Hrefs.
    unfold sh'. destruct (modified (inner sh)) eqn:Hm; cbn.
    + rewrite Hd'. cbn. by rewrite list_insert_insert_eq.
    + injection Hd' as <-. rewrite list_insert_insert_eq. destruct (inner sh); cbn in *; by subst.
  - split; [cbn|done]. rewrite (insert_Permutation _ _ _ _ Hi).
    eapply Rel_q_load; [done|done| |].
    + pose proof (rel_len _ _ _ Hrel) as Hle. rewrite Hperm in Hle. cbn in Hle. lia.
    + rewrite <-(rel_disk _ _ _ Hrel') by done. done.
  - by eapply keys_insert.
  - eapply list_elem_of_lookup_2, list_lookup_insert_eq. by eapply lookup_lt_Some.
  - intros k shk Hk. rewrite (insert_Permutation _ _ _ _ Hi), Hperm at 1. rewrite !elem_of_cons.
    naive_solver.
Qed.

(** The loop of [block_cache_sync_all] over the rest [l] of the queue. *)
Lemma sync_loop f l (c : St) :
  Rel c f → fl_held f = ∅ → l.*1 ⊆ (queue c).*1 →
  ∃ c', mfor (λ p : Z * Shared, sync_entry p.1) l c = Ok ((), c') ∧ Rel c' f ∧
    (queue c').*1 = (queue c).*1 ∧
    (∀ id sh, (id, sh) ∈ queue c' → modified (inner sh) = true →
       (id ∉ l.*1) ∧ (id, sh) ∈ queue c).
Proof.
  intros HR Hh. revert c HR. induction l as [|[id x] l IH]; intros c HR Hsub.
  { exists c. split_and!; [done..|]. intros id sh ??. split; [by apply not_elem_of_nil|done]. }
  assert (id ∈ (queue c).*1) as ([id' sh] & -> & Hin)%list_elem_of_fmap
    by (apply Hsub, list_elem_of_here). cbn in *.
  assert (locked sh = false) as Hl.
  { destruct (locked sh) eqn:Hl; [|done]. exfalso.
    assert (id' ∈ fl_held f); [|set_solver]. apply (rel_held _ _ _ (proj1 HR)). eauto. }
  destruct (sync_entry_unlocked c f id' sh HR Hin Hl)
    as (c1 & sh1 & Hrun & HR1 & Hkeys & Hin1 & Hm1 & Hl1 & Hoth).
  destruct (IH c1 HR1) as (c2 & Hrun2 & HR2 & Hkeys2 & Hmod).
  { rewrite Hkeys. clear -Hsub. set_solver. }
  exists c2. split_and!; [|done|congruence|].
  - unfold mfor. cbn. by rewrite (bind_Ok _ _ _ _ _ Hrun).
  - intros k shk Hk Hmk. destruct (Hmod k shk Hk Hmk) as [Hnl Hk1].
    assert (k ≠ id').
    { intros ->. assert (shk = sh1) as ->; [|congruence].
      destruct (queue_find_elem _ _ _ (rel_nodup _ _ _ (proj1 HR1)) Hk1) as (i & Hf & _).
      destruct (queue_find_elem _ _ _ (rel_nodup _ _ _ (proj1 HR1)) Hin1) as (j & Hf' & _).
      congruence. }
    split; [by apply not_elem_of_cons|]. by apply Hoth.
Qed.

Lemma sync_loop_locked f l (c : St) :
  Rel c f → l.*1 ⊆ (queue c).*1 → (∃ id, id ∈ l.*1 ∧ id ∈ fl_held f) →
  mfor (λ p : Z * Shared, sync_entry p.1) l c = Fail Deadlocked.
Proof.
  revert c. induction l as [|[id x] l IH]; intros c HR Hsub (k & Hk & Hh); [by apply elem_of_nil in Hk|].
  pose proof (rel_nodup _ _ _ (proj1 HR)) as Hnd.
  assert (id ∈ (queue c).*1) as ([id' sh] & -> & Hin)%list_elem_of_fmap
    by (apply Hsub, list_elem_of_here). cbn in *.
  unfold mfor. cbn. destruct (locked sh) eqn:Hl.
  { apply bind_Fail. by eapply sync_entry_locked. }
  destruct (sync_entry_unlocked c f id' sh HR Hin Hl) as (c1 & sh1 & Hrun & HR1 & Hkeys & _).
  rewrite (bind_Ok _ _ _ _ _ Hrun). apply IH; [done|rewrite Hkeys; clear -Hsub; set_solver|].
  exists k. split; [|done]. apply elem_of_cons in Hk as [->|Hk]; [|done].
  apply (rel_held _ _ _ (proj1 HR)) in Hh as (sh0 & Hin0 & Hl0).
  destruct (queue_find_elem _ _ _ Hnd Hin) as (i & Hf & _).
  destruct (queue_find_elem _ _ _ Hnd Hin0) as (j & Hf' & _). congruence.
Qed.

Lemma cached_sim_sync_all : cached_sim block_cache_sync_all bs_sync_all.
Proof.
  intros c f HR. cbn. unfold mbind, M_bind. cbn. case_decide as Hh.
  - destruct (sync_loop f (queue c) c HR Hh) as (c' & Hrun & HR' & _); [done|].
    cbn. exists c'. split_and!; [exact Hrun|done|done|].
    intros id sh Hin Hl. exfalso. assert (id ∈ fl_held f); [|set_solver].
    apply (rel_held _ _ _ (proj1 HR)). eauto.
  - cbn. apply (sync_loop_locked f); [done|done|].
    apply set_choose_L in Hh as [id Hid]. exists id. split; [|done].
    apply (rel_held _ _ _ (proj1 HR)) in Hid as (sh & Hin & _). by eapply elem_of_keys.
Qed.

Lemma cached_sim_bind {A B} (m1 : M St A) m2 (g1 : A → M St B) (g2 : A → M Flat B) :
  cached_sim m1 m2 → (∀ a, cached_sim (g1 a) (g2 a)) → cached_sim (m1 ≫= g1) (m2 ≫= g2).
Proof.
  intros Hm Hk c f HR. specialize (Hm c f HR). unfold mbind, M_bind.
  destruct (m2 f) as [[a f']|e]; [|by rewrite Hm].
  destruct Hm as (c' & -> & HR' & Hheld & Hpin). specialize (Hk a c' f' HR').
  destruct (g2 a f') as [[b f'']|e]; [|done].
  destruct Hk as (c'' & -> & HR'' & Hheld' & Hpin').
  exists c''. split_and!; [done|done|congruence|]. intros id sh Hin Hl. apply Hpin'; [by apply Hpin|done].
Qed.

Lemma release_all (c0 c : St) f0 f id :
  Rel c f → Rel c0 f0 → fl_held f = {[id]} ∪ fl_held f0 → id ∉ fl_held f0 →
  (∀ k sh, k ≠ id → (k, sh) ∈ queue c0 → locked sh = true → (k, sh) ∈ queue c) →
  ∃ c', release id c = Ok ((), c') ∧
    Rel c' (MkFlat (fl_blocks f) (fl_held f ∖ {[id]}) (fl_fs_locked f)) ∧
    fl_held f ∖ {[id]} = fl_held f0 ∧ pinned c0 c'.
Proof.
  intros HR HR0 Hheld Hid Hpin.
  destruct (release_spec c f id HR) as (c' & Hrun & HR' & Hoth); [set_solver|].
  exists c'. split_and!; [done|done|set_solver|].
  intros k sh Hk Hl. assert (k ≠ id).
  { intros ->. apply Hid, (rel_held _ _ _ (proj1 HR0)). eauto. }
  apply Hoth; [done|by apply Hpin].
Qed.

Lemma cached_sim_read {A} id (f1 : block → M St A) (f2 : block → M Flat A) :
  (∀ b, cached_sim (f1 b) (f2 b)) → cached_sim (bs_read id f1) (bs_read id f2).
Proof.
  intros Hf c f HR. pose proof (open_block_spec c f id HR) as Hopen. unfold opens in Hopen.
  cbn. unfold mbind, M_bind. destruct (flat_open id f) as [[b f1']|e]; [|by rewrite Hopen].
  destruct Hopen as ((c1 & -> & HR1 & Hpin1) & Hnh & Hheld1).
  specialize (Hf b c1 f1' HR1). destruct (f2 b f1') as [[a f2']|e]; [|by rewrite Hf].
  destruct Hf as (c2 & -> & HR2 & Hheld2 & Hpin2).
  destruct (release_all c c2 f f2' id) as (c3 & -> & HR3 & Hheld3 & Hpin3); [done|done|congruence|done| |].
  { intros k sh _ Hk Hl. apply Hpin2; [by apply Hpin1|done]. }
  cbn. exists c3. by split_and!.
Qed.

Lemma cached_sim_modify {A} id (f1 : block → M St (A * block)) (f2 : block → M Flat (A * block)) :
  (∀ b, cached_sim (f1 b) (f2 b)) → cached_sim (bs_modify id f1) (bs_modify id f2).
Proof.
  intros Hf c f HR. pose proof (open_block_spec c f id HR) as Hopen. unfold opens in Hopen.
  cbn. unfold mbind, M_bind. destruct (flat_open id f) as [[b f1']|e]; [|by rewrite Hopen].
  destruct Hopen as ((c1 & -> & HR1 & Hpin1) & Hnh & Hheld1).
  destruct (mark_modified_spec c1 f1' id HR1) as (c2 & sh & -> & HR2 & Hin2 & Hm & Hl & Hoth2);
    [set_solver|].
  specialize (Hf b c2 f1' HR2). destruct (f2 b f1') as [[[a b'] f2']|e]; [|by rewrite Hf].
  destruct Hf as (c3 & -> & HR3 & Hheld3 & Hpin3).
  pose proof (store_cache_spec c3 f2' id sh b' HR3 (Hpin3 _ _ Hin2 Hl) Hm Hl) as Hst.
  destruct (flat_store id b' f2') as [[[] f3']|e]; [|by rewrite Hst].
  destruct Hst as (c4 & -> & HR4 & Hheld4 & Hoth4).
  destruct (release_all c c4 f f3' id) as (c5 & -> & HR5 & Hheld5 & Hpin5);
    [done|done|congruence|done| |].
  { intros k shk Hk Hkin Hkl. apply Hoth4; [done|]. apply Hpin3; [|done]. apply Hoth2; [done|].
    by apply Hpin1. }
  cbn. exists c5. by split_and!.
Qed.

Lemma cached_sim_fs_lock {A} (m1 : M St A) m2 :
  cached_sim m1 m2 → cached_sim (bs_fs_lock m1) (bs_fs_lock m2).
Proof.
  intros Hm c f HR. pose proof HR as [Hrel Hfs]. cbn. unfold mbind, M_bind. cbn. rewrite Hfs.
  destruct (fl_fs_locked f) eqn:HL; [done|].
  assert (Rel (MkCacheState (device c) (queue c) true) (MkFlat (fl_blocks f) (fl_held f) true)) as HR1.
  { split; [|done]. cbn. by destruct Hrel. }
  specialize (Hm _ _ HR1). cbn.
  destruct (m2 _) as [[a f']|e]; [|by rewrite Hm].
  destruct Hm as (c' & -> & [Hrel' _] & Hheld & Hpin). cbn in *.
  exists (MkCacheState (device c') (queue c') false). split_and!; [done| |done|done].
  split; [|done]. cbn. by destruct Hrel'.
Qed.

#[export] Instance Cached_sim : StoreSim St Flat.
Proof.
  refine (Build_StoreSim _ _ _ _ (@cached_sim) _ _ _ _ _ _ _).
  - intros A a c f HR. cbn. exists c. split_and!; try done. by intros ?.
  - done.
  - intros. by apply cached_sim_bind.
  - intros. by apply cached_sim_read.
  - intros. by apply cached_sim_modify.
  - apply cached_sim_sync_all.
  - intros. by apply cached_sim_fs_lock.
Defined.

(** An empty cache over a device, against the device's own contents. *)
Lemma Rel_init d f :
  (∀ id, fl_blocks f !! id = read_block d id) → fl_held f = ∅ →
  Rel (MkCacheState d [] (fl_fs_locked f)) f.
Proof.
  intros HB HH. split; [|done]. split; cbn; [constructor|unfold BLOCK_CACHE_MAX_NUM; lia|constructor|..].
  - intros id sh Hin. by apply elem_of_nil in Hin.
  - done.
  - intros id. rewrite HH. split; [set_solver|]. intros (sh & Hin & _). by apply elem_of_nil in Hin.
Qed.

(** Running [m1] on the cached device and [m2] on the abstract store gives the
    same result, and again related states. *)
Lemma sim_run {A} (m1 : M St A) (m2 : M Flat A) c f a f' :
  sim m1 m2 → Rel c f → m2 f = Ok (a, f') →
  ∃ c', m1 c = Ok (a, c') ∧ Rel c' f'.
Proof. intros Hsim HR Hrun. specialize (Hsim c f HR). rewrite Hrun in Hsim. naive_solver. Qed.
End refinement.

(** The contents of a file-backed device. *)
Definition BlockFile_blocks (d : BlockFile) : gmap Z block :=
  list_to_map ((λ i, (i, sub_list (Z.to_nat (i * BLOCK_SZ)) (Z.to_nat BLOCK_SZ) (file d)))
                 <$> range 0 (Z.of_nat (length (file d)) / BLOCK_SZ)).

Lemma BlockFile_blocks_spec d id : BlockFile_blocks d !! id = read_block d id.
Proof.
  cbn. unfold BlockFile_blocks. set (n := Z.of_nat (length (file d)) / BLOCK_SZ).
  set (g := λ i, sub_list (Z.to_nat (i * BLOCK_SZ)) (Z.to_nat BLOCK_SZ) (file d)).
  assert (NoDup ((λ i, (i, g i)) <$> range 0 n).*1) as Hnd.
  { rewrite <-list_fmap_compose. replace (fst ∘ _) with (@Datatypes.id Z) by done.
    unfold range. rewrite list_fmap_id. apply NoDup_seqZ. }
  destruct (BlockFile_read_block d id) as [b|] eqn:Hb.
  - apply BlockFile_read_inv in Hb as (Hid & Hbl & Hlen & ->).
    apply elem_of_list_to_map; [done|]. apply list_elem_of_fmap. exists id. split; [done|].
    unfold range. apply elem_of_seqZ. split; [done|]. unfold n, BLOCK_SZ.
    assert (id + 1 ≤ Z.of_nat (length (file d)) / 512); [|lia].
    apply Z.div_le_lower_bound; lia.
  - apply not_elem_of_list_to_map. rewrite <-list_fmap_compose.
    replace (fst ∘ _) with (@Datatypes.id Z) by done. unfold range. rewrite list_fmap_id, elem_of_seqZ.
    intros [Hid Hlt]. unfold BlockFile_read_block in Hb.
    destruct (0 <=? id) eqn:E; [|lia].
    destruct (is_block _) eqn:Hbl; [done|]. unfold is_block in Hbl. apply Z.eqb_neq in Hbl.
    apply Hbl. rewrite length_sub_list; [done|]. unfold n, BLOCK_SZ in *.
    assert (512 * (Z.of_nat (length (file d)) / 512) ≤ Z.of_nat (length (file d)))
      by (apply Z.mul_div_le; lia).
    lia.
Qed.
Definition mount (d : BlockFile) : CacheState BlockFile := MkCacheState d [] false.
Definition flat_of (d : BlockFile) : Flat := MkFlat (BlockFile_blocks d) ∅ false.

Lemma mount_Rel d : Rel (mount d) (flat_of d).
Proof. apply (Rel_init d (flat_of d)); [apply BlockFile_blocks_spec|done]. Qed.

Lemma sync_all_durable {D : Type} `{!BlockDevice D, !BlockDeviceLaws D}
    (c c' : CacheState D) (f : Flat) :
  Rel c f → block_cache_sync_all c = Ok ((), c') →
  ∀ id, read_block (device c') id = fl_blocks f !! id.
Proof.
  intros HR Hrun id. pose proof (cached_sim_sync_all c f HR) as Hsim. cbn in Hsim.
  unfold mbind, M_bind in Hsim. cbn in Hsim. case_decide as Hh; cbn in Hsim; [|congruence].
  destruct (sync_loop f (queue c) c HR Hh) as (c'' & Hrun' & [HR' _] & Hkeys & Hclean); [done|].
  unfold block_cache_sync_all, mbind, M_bind in Hrun. cbn in Hrun.
  assert (c'' = c') as -> by congruence.
  destruct (decide (id ∈ (queue c').*1)) as [([k sh] & -> & Hin)%list_elem_of_fmap|Hid].
  - cbn. rewrite (rel_cached _ _ _ HR' _ _ Hin).
    pose proof (rel_entries _ _ _ HR') as Hent. rewrite Forall_forall in Hent.
    destruct (Hent _ Hin) as [_ _ _ Hcl _]. apply Hcl. cbn.
    destruct (modified (inner sh)) eqn:Hm; [|done].
    destruct (Hclean _ _ Hin Hm) as [Hn _]. rewrite <-Hkeys in Hn.
    exfalso. by eapply Hn, elem_of_keys.
  - by rewrite (rel_disk _ _ _ HR').
Qed.

(** * Properties *)

(** C1: a [modify] of a block through the cache (hit, miss, eviction with write
    back) acts exactly as on the abstract block map, including when it panics
    (block unreadable, all 16 slots pinned) or deadlocks (block already locked),
    whatever related computation its closure runs. *)
Theorem block_cache_modify_refines {D A : Type} `{!BlockDevice D, !BlockDeviceLaws D}
    (id : Z) (f1 : block → M (CacheState D) (A * block)) (f2 : block → M Flat (A * block))
    (c : CacheState D) (f : Flat) :
  (∀ b, cached_sim (f1 b) (f2 b)) → Rel c f →
  match bs_modify id f2 f with
  | Ok (a, f') => ∃ c', bs_modify id f1 c = Ok (a, c') ∧ Rel c' f'
  | Fail e => bs_modify id f1 c = Fail e
  end.
Proof.
  intros Hf HR. pose proof (cached_sim_modify id f1 f2 Hf c f HR) as Hsim.
  destruct (bs_modify id f2 f) as [[a f']|e]; naive_solver.
Qed.

(** C2: when [block_cache_sync_all] returns, every block is on the device: the
    device's contents are exactly the abstract ones. *)
Theorem block_cache_sync_all_durable {D : Type} `{!BlockDevice D, !BlockDeviceLaws D}
    (c c' : CacheState D) (f : Flat) :
  Rel c f → block_cache_sync_all c = Ok ((), c') →
  ∀ id, read_block (device c') id = fl_blocks f !! id.
Proof. apply sync_all_durable. Qed.

(** ** Witnesses *)

Definition demo_disk : BlockFile := MkBlockFile (replicate 1024 7).

Lemma block_cache_modify_refines_witness :
  ∃ c' f', bs_modify 1 (λ b, mret (length b, <[O := 9]> b)) (mount demo_disk) = Ok (512%nat, c') ∧
    Rel c' f' ∧ fl_blocks f' !! 1 = Some (9 :: replicate 511 7).
Proof.
  pose proof (block_cache_modify_refines (A:=nat) 1
    (λ b, mret (length b, <[O := 9]> b)) (λ b, mret (length b, <[O := 9]> b))
    (mount demo_disk) (flat_of demo_disk)
    (λ b, sim_ret (S1:=CacheState BlockFile) (S2:=Flat) _ _) (mount_Rel demo_disk)) as H.
  assert (∃ f', bs_modify 1 (λ b, mret (length b, <[O := 9]> b)) (flat_of demo_disk)
                = Ok (512%nat, f') ∧ fl_blocks f' !! 1 = Some (9 :: replicate 511 7)) as (f' & E & HB).
  { eexists. split; vm_compute; reflexivity. }
  rewrite E in H. destruct H as (c' & Hrun & HR). by exists c', f'.
Defined.

Definition demo_write {St} `{BlockStore St} : M St nat :=
  bs_modify 1 (λ b, mret (length b, <[O := 9]> b)).
Lemma demo_write_sim : sim (S1:=CacheState BlockFile) (S2:=Flat) demo_write demo_write.
Proof. unfold demo_write. sim_auto. Qed.

Lemma block_cache_sync_all_durable_witness :
  ∃ c c', demo_write (mount demo_disk) = Ok (512%nat, c) ∧
    read_block (device c) 1 = Some (replicate 512 7) ∧
    block_cache_sync_all c = Ok ((), c') ∧
    read_block (device c') 1 = Some (9 :: replicate 511 7).
Proof.
  assert (∃ f', demo_write (flat_of demo_disk) = Ok (512%nat, f') ∧
                fl_blocks f' !! 1 = Some (9 :: replicate 511 7)) as (f' & Ef & HB).
  { eexists. split; vm_compute; reflexivity. }
  destruct (sim_run _ _ _ _ _ _ demo_write_sim (mount_Rel demo_disk) Ef) as (c & Ec & HR).
  assert (∃ c', block_cache_sync_all c = Ok ((), c') ∧ read_block (device c) 1 = Some (replicate 512 7))
    as (c' & Es & E1).
  { vm_compute in Ec. injection Ec as <-. eexists. split; vm_compute; reflexivity. }
  exists c, c'. split_and!; [exact Ec|exact E1|exact Es|].
  rewrite (block_cache_sync_all_durable _ _ _ HR Es 1). exact HB.
Defined.
