(* ===== verification/Bitmap.v ===== *)
(** The on-disk allocation bitmaps (easy-fs/src/bitmap.rs): [Bitmap::alloc]
    takes the first clear bit of the first non-full word, [dealloc] clears a
    set bit.  The abstract view is the set of bits, [bit_of]. *)

From S2P Require Export BlockStore.

Definition BLOCK_BITS : Z := BLOCK_SZ * 8.

(** [type BitmapBlock = [u64; 64]] *)
Definition BitmapBlock : codec (list Z) := words_codec 8 64.

(** [u64::trailing_ones] *)
Fixpoint trailing_ones_fuel (n : nat) (v : Z) : Z :=
  match n with
  | O => 0
  | S n => if Z.odd v then 1 + trailing_ones_fuel n (v / 2) else 0
  end.
Definition trailing_ones (v : Z) : Z := trailing_ones_fuel 64 v.
#[global] Arguments trailing_ones : simpl never.

(** Return (block_pos, bits64_pos, inner_pos) *)
Definition decomposition (bit : Z) : Z * Z * Z :=
  let block_pos := bit / BLOCK_BITS in
  let bit := bit mod BLOCK_BITS in
  (block_pos, bit / 64, bit mod 64).

Record Bitmap : Type := MkBitmap {
  start_block_id : Z;
  blocks : Z }.
Definition Bitmap_new (start_block_id blocks : Z) : Bitmap := MkBitmap start_block_id blocks.

Section ops.
Context {St : Type} `{!BlockStore St}.

(** The closure of [alloc] on one bitmap block. *)
Definition alloc_in_block (block_id : Z) (bitmap_block : list Z)
    : M St (option Z * list Z) :=
  match find_index (λ bits64, negb (bits64 =? u64_max)) bitmap_block with
  | Some (bits64_pos, bits64) =>
      let inner_pos := trailing_ones bits64 in
      bitmap_block' ←
        set_index bitmap_block (Z.of_nat bits64_pos)
          (Z.lor bits64 (wrap 64 (Z.shiftl 1 inner_pos)));
      mret (Some (block_id *₆₄ BLOCK_BITS +₆₄ (Z.of_nat bits64_pos *₆₄ 64) +₆₄ inner_pos),
            bitmap_block')
  | None => mret (None, bitmap_block)
  end.

Definition Bitmap_alloc (bm : Bitmap) : M St (option Z) :=
  mfind (λ block_id,
    modify BitmapBlock (start_block_id bm +₆₄ block_id) 0 (alloc_in_block block_id))
    (range 0 (blocks bm)).

Definition dealloc_in_block (bits64_pos inner_pos : Z) (bitmap_block : list Z)
    : M St (() * list Z) :=
  bits64 ← index bitmap_block bits64_pos;
  assert_ (0 <? Z.land bits64 (wrap 64 (Z.shiftl 1 inner_pos)));;
  bitmap_block' ←
    set_index bitmap_block bits64_pos (bits64 -₆₄ wrap 64 (Z.shiftl 1 inner_pos));
  mret ((), bitmap_block').

Definition Bitmap_dealloc (bm : Bitmap) (bit : Z) : M St () :=
  let '(block_pos, bits64_pos, inner_pos) := decomposition bit in
  modify BitmapBlock (start_block_id bm +₆₄ block_pos) 0 (dealloc_in_block bits64_pos inner_pos).

Definition Bitmap_max_bits (bm : Bitmap) : Z := blocks bm *₆₄ BLOCK_BITS.
End ops.

(** * The same on every store *)

Lemma sim_Bitmap_alloc `{StoreSim S1 S2} bm : sim (S1:=S1) (Bitmap_alloc bm) (Bitmap_alloc bm).
Proof. unfold Bitmap_alloc, alloc_in_block. sim_auto. Qed.
Lemma sim_Bitmap_dealloc `{StoreSim S1 S2} bm i :
  sim (S1:=S1) (Bitmap_dealloc bm i) (Bitmap_dealloc bm i).
Proof. unfold Bitmap_dealloc, dealloc_in_block. sim_auto. Qed.
#[export] Hint Resolve sim_Bitmap_alloc sim_Bitmap_dealloc : sim.

(** * Bits of a word *)

Lemma trailing_ones_fuel_spec n v :
  0 ≤ v < 2 ^ Z.of_nat n → v ≠ 2 ^ Z.of_nat n - 1 →
  0 ≤ trailing_ones_fuel n v < Z.of_nat n ∧
  Z.testbit v (trailing_ones_fuel n v) = false ∧
  ∀ j, 0 ≤ j < trailing_ones_fuel n v → Z.testbit v j = true.
Proof.
  revert v. induction n as [|n IH]; intros v Hv Hne; [cbn in *; lia|].
  rewrite Nat2Z.inj_succ, Z.pow_succ_r in * by lia. cbn [trailing_ones_fuel].
  pose proof (Z.div_mod v 2 ltac:(lia)) as Hdm. rewrite Zmod_odd in Hdm.
  destruct (Z.odd v) eqn:Hodd.
  - destruct (IH (v / 2)) as (Hr & Hf & Ht); [lia|lia|].
    split; [lia|]. rewrite Z.add_comm. split; [rewrite <-testbit_half by lia; exact Hf|].
    intros j Hj. destruct (decide (j = 0)) as [->|]; [by rewrite Z.bit0_odd|].
    rewrite <-(Ht (j - 1)), testbit_half by lia. f_equal. lia.
  - split; [lia|]. split; [by rewrite Z.bit0_odd|]. lia.
Qed.
Lemma trailing_ones_spec v :
  0 ≤ v < 2 ^ 64 → v ≠ u64_max →
  0 ≤ trailing_ones v < 64 ∧ Z.testbit v (trailing_ones v) = false ∧
  ∀ j, 0 ≤ j < trailing_ones v → Z.testbit v j = true.
Proof. intros Hv Hne. by apply (trailing_ones_fuel_spec 64). Qed.

Lemma shiftl_1_small i : 0 ≤ i < 64 → wrap 64 (Z.shiftl 1 i) = 2 ^ i.
Proof.
  intros Hi. rewrite Z.shiftl_1_l. apply Z.mod_small. split; [lia|].
  apply Z.pow_lt_mono_r; lia.
Qed.
Lemma testbit_set v i j :
  0 ≤ i < 64 → Z.testbit (Z.lor v (wrap 64 (Z.shiftl 1 i))) j = bool_decide (i = j) || Z.testbit v j.
Proof.
  intros Hi. rewrite shiftl_1_small, Z.lor_spec, testbit_pow2 by lia. apply orb_comm.
Qed.
Lemma set_bit_u64 v i : 0 ≤ v < 2 ^ 64 → 0 ≤ i < 64 →
  0 ≤ Z.lor v (wrap 64 (Z.shiftl 1 i)) < 2 ^ 64.
Proof. intros Hv Hi. apply lor_bound; [lia|done|]. apply Z.mod_pos_bound. lia. Qed.
(** Subtracting a set bit clears it and nothing else. *)
Lemma sub_bit v i :
  0 ≤ v < 2 ^ 64 → 0 ≤ i < 64 → Z.testbit v i = true →
  v -₆₄ wrap 64 (Z.shiftl 1 i) = Z.ldiff v (2 ^ i).
Proof.
  intros Hv Hi Ht. rewrite shiftl_1_small by done.
  assert (Z.ldiff (2 ^ i) v = 0) as Hld.
  { apply Z.bits_inj'. intros j Hj. rewrite Z.bits_0, Z.ldiff_spec, testbit_pow2 by lia.
    case_bool_decide; subst; [by rewrite Ht|done]. }
  rewrite Z.sub_nocarry_ldiff by done.
  apply Z.mod_small. split; [apply Z.ldiff_nonneg; lia|].
  pose proof (Z.sub_nocarry_ldiff v (2 ^ i) Hld). pose proof (Z.pow_nonneg 2 i). lia.
Qed.

(** * The abstract view: a set of bits *)

Definition bit_in_words (ws : list Z) (i : Z) : bool :=
  match ws !! Z.to_nat (i / 64) with
  | Some w => Z.testbit w (i mod 64)
  | None => false
  end.

Definition bitmap_words (b : block) : list Z := words_dec 8 64 (sub_list 0 512 b).

Definition bit_of (bm : Bitmap) (f : Flat) (i : Z) : bool :=
  match fl_blocks f !! (start_block_id bm + i / BLOCK_BITS) with
  | Some b => bit_in_words (bitmap_words b) (i mod BLOCK_BITS)
  | None => false
  end.

(** The bitmap's blocks exist and none is locked. *)
Record bitmap_ok (bm : Bitmap) (f : Flat) : Prop := {
  bo_start : 0 ≤ start_block_id bm;
  bo_blocks : 0 ≤ blocks bm;
  bo_end : start_block_id bm + blocks bm ≤ 2 ^ 32;
  bo_open k : 0 ≤ k < blocks bm → ∃ b, can_open (start_block_id bm + k) f b }.

Lemma bitmap_stored id f b :
  can_open id f b → stored BitmapBlock id 0 f b (bitmap_words b).
Proof. intros Hop. split; [done|lia|cbn; unfold BLOCK_SZ; lia|done]. Qed.

Lemma bitmap_words_valid b : block_ok b → words_valid 8 64 (bitmap_words b).
Proof.
  intros [Hl Hb]. apply words_dec_valid; [by apply length_sub_list; lia|].
  by apply Forall_sub_list.
Qed.
Lemma bitmap_words_put_back ws b :
  words_valid 8 64 ws → block_ok b → bitmap_words (put_back BitmapBlock 0 ws b) = ws.
Proof.
  intros Hv Hb.
  pose proof (dec_put_back BitmapBlock (words_valid 8 64) 0 ws b Hv ltac:(lia)
    ltac:(cbn; unfold BLOCK_SZ; lia) Hb) as Hdec.
  by injection Hdec.
Qed.

Lemma put_back_bitmap_words b :
  block_ok b → put_back BitmapBlock 0 (bitmap_words b) b = b.
Proof.
  intros [Hl Hb]. unfold put_back, bitmap_words, BitmapBlock, words_codec. cbn [cenc csize].
  change (8 * 64)%nat with 512%nat.
  rewrite words_enc_dec by (apply Forall_sub_list || apply length_sub_list; done || lia).
  apply splice_self. lia.
Qed.

(** ** One block *)

Lemma words_index i : 0 ≤ i < BLOCK_BITS → (Z.to_nat (i / 64) < 64)%nat ∧ 0 ≤ i mod 64 < 64.
Proof. unfold BLOCK_BITS, BLOCK_SZ. intros Hi. split; [|apply Z.mod_pos_bound; lia]. lia. Qed.

Lemma bit_in_words_insert ws n w j :
  (n < length ws)%nat → 0 ≤ j →
  bit_in_words (<[n := w]> ws) j =
    if decide (Z.to_nat (j / 64) = n) then Z.testbit w (j mod 64) else bit_in_words ws j.
Proof.
  intros Hn Hj. unfold bit_in_words. case_decide as Hd.
  - by rewrite Hd, list_lookup_insert_eq.
  - by rewrite list_lookup_insert_ne.
Qed.

Lemma alloc_in_block_full {St} `{!BlockStore St} k ws (s : St) :
  words_valid 8 64 ws → find_index (λ v, negb (v =? u64_max)) ws = None →
  alloc_in_block k ws s = Ok ((None, ws), s) ∧
  ∀ i, 0 ≤ i < BLOCK_BITS → bit_in_words ws i = true.
Proof.
  intros [Hl Hv] Hf. unfold alloc_in_block. rewrite Hf. split; [done|].
  intros i Hi. destruct (words_index i Hi) as [Hn Hm]. unfold bit_in_words.
  destruct (lookup_lt_is_Some_2 ws (Z.to_nat (i / 64))) as [w Hw]; [lia|]. rewrite Hw.
  pose proof (proj1 (find_index_None _ _) Hf w (list_elem_of_lookup_2 _ _ _ Hw)) as Hmax.
  apply negb_false_iff, Z.eqb_eq in Hmax as ->.
  change u64_max with (Z.ones 64). by apply Z.ones_spec_low.
Qed.

Lemma alloc_bit_number k i t :
  0 ≤ k < 2 ^ 32 → 0 ≤ i < 64 → 0 ≤ t < 64 →
  k *₆₄ BLOCK_BITS +₆₄ (i *₆₄ 64) +₆₄ t = k * BLOCK_BITS + (i * 64 + t).
Proof.
  unfold BLOCK_BITS, BLOCK_SZ. intros.
  rewrite (wrap_small 64 (k * _)), (wrap_small 64 (i * 64)) by lia.
  rewrite (wrap_small 64 (_ + i * 64)) by lia. rewrite wrap_small; lia.
Qed.

Lemma alloc_in_block_free {St} `{!BlockStore St} k ws i w :
  words_valid 8 64 ws → 0 ≤ k < 2 ^ 32 → find_index (λ v, negb (v =? u64_max)) ws = Some (i, w) →
  ∃ p ws', (∀ s : St, alloc_in_block k ws s = Ok ((Some (k * BLOCK_BITS + p), ws'), s)) ∧
    words_valid 8 64 ws' ∧ 0 ≤ p < BLOCK_BITS ∧ bit_in_words ws p = false ∧
    (∀ j, 0 ≤ j < p → bit_in_words ws j = true) ∧
    (∀ j, 0 ≤ j → bit_in_words ws' j = bool_decide (j = p) || bit_in_words ws j).
Proof.
  intros Hws Hk Hf. pose proof Hf as (Hi & Hne & Hlow)%find_index_Some.
  apply negb_true_iff, Z.eqb_neq in Hne.
  pose proof (words_valid_lookup _ _ _ _ _ Hws Hi) as Hw.
  change (256 ^ Z.of_nat 8) with (2 ^ 64) in Hw.
  destruct (trailing_ones_spec w Hw Hne) as (Ht & Hclr & Hset).
  pose proof (lookup_lt_Some _ _ _ Hi) as Hil. pose proof Hws as [Hl Hv].
  set (t := trailing_ones w) in *.
  exists (Z.of_nat i * 64 + t), (<[i := Z.lor w (wrap 64 (Z.shiftl 1 t))]> ws).
  pose proof (div_mul_add (Z.of_nat i) 64 t Ht) as Hd.
  pose proof (mod_mul_add (Z.of_nat i) 64 t Ht) as Hm. split_and!; unfold BLOCK_BITS, BLOCK_SZ; try lia.
  - intros s. unfold alloc_in_block. rewrite Hf. fold t. unfold set_index, mbind, M_bind.
    rewrite Nat2Z.id. destruct (_ && _) eqn:Hb; [|lia]. cbn.
    by rewrite alloc_bit_number by lia.
  - apply words_valid_insert; [done|]. by apply set_bit_u64.
  - unfold bit_in_words. by rewrite Hd, Hm, Nat2Z.id, Hi.
  - intros j Hj. unfold bit_in_words. destruct (decide (j / 64 = Z.of_nat i)) as [Hji|Hji].
    + rewrite Hji, Nat2Z.id, Hi. apply Hset. split; [apply Z.mod_pos_bound; lia|].
      pose proof (Z.div_mod j 64 ltac:(lia)). lia.
    + assert (Z.to_nat (j / 64) < i)%nat as Hlt by (clear -Hj Hji Ht; lia).
      destruct (lookup_lt_is_Some_2 ws (Z.to_nat (j / 64))) as [v Hjv]; [lia|]. rewrite Hjv.
      pose proof (Hlow _ _ Hlt Hjv) as Hmax. apply negb_false_iff, Z.eqb_eq in Hmax as ->.
      change u64_max with (Z.ones 64). apply Z.ones_spec_low. apply Z.mod_pos_bound. lia.
  - intros j Hj. rewrite bit_in_words_insert by done. case_decide as Hji.
    + rewrite testbit_set by done. unfold bit_in_words. rewrite Hji, Hi. f_equal.
      apply bool_decide_ext. lia.
    + rewrite bool_decide_eq_false_2; [done|]. intros ->. rewrite Hd, Nat2Z.id in Hji. done.
Qed.

(** ** The whole bitmap *)

Lemma range_cons l r : l < r → range l r = l :: range (l + 1) r.
Proof.
  intros Hlt. unfold range. rewrite seqZ_cons by lia.
  replace (Z.succ l) with (l + 1) by lia. by replace (Z.pred (r - l)) with (r - (l + 1)) by lia.
Qed.
Lemma range_nil l r : r ≤ l → range l r = [].
Proof. intros. apply seqZ_nil. lia. Qed.

Lemma bit_of_set_block bm f k b j :
  0 ≤ j → bit_of bm (set_block (start_block_id bm + k) b f) j =
    if decide (j / BLOCK_BITS = k) then bit_in_words (bitmap_words b) (j mod BLOCK_BITS)
    else bit_of bm f j.
Proof.
  intros Hj. unfold bit_of. cbn. case_decide as Hk.
  - by rewrite Hk, lookup_insert_eq.
  - by rewrite lookup_insert_ne by lia.
Qed.

(** What [alloc] may do to the store. *)
Definition alloc_post (bm : Bitmap) (f : Flat) (r : option Z) (f' : Flat) : Prop :=
  match r with
  | Some i =>
      0 ≤ i < blocks bm * BLOCK_BITS ∧ bit_of bm f i = false ∧
      (∀ j, 0 ≤ j < i → bit_of bm f j = true) ∧
      (∀ j, 0 ≤ j → bit_of bm f' j = bool_decide (j = i) || bit_of bm f j) ∧
      ∃ k b, 0 ≤ k < blocks bm ∧ block_ok b ∧ f' = set_block (start_block_id bm + k) b f
  | None => f' = f ∧ ∀ i, 0 ≤ i < blocks bm * BLOCK_BITS → bit_of bm f i = true
  end.

Lemma bitmap_block_bits bm f k b j :
  fl_blocks f !! (start_block_id bm + k) = Some b → 0 ≤ j < BLOCK_BITS →
  bit_of bm f (k * BLOCK_BITS + j) = bit_in_words (bitmap_words b) j.
Proof.
  intros Hb Hj. unfold bit_of. unfold BLOCK_BITS, BLOCK_SZ in *.
  rewrite div_mul_add, mod_mul_add, Hb by lia. done.
Qed.
Lemma bits_below bm f k b :
  fl_blocks f !! (start_block_id bm + k) = Some b → 0 ≤ k →
  (∀ j, 0 ≤ j < k * BLOCK_BITS → bit_of bm f j = true) → ∀ m, 0 ≤ m ≤ BLOCK_BITS →
  (∀ j, 0 ≤ j < m → bit_in_words (bitmap_words b) j = true) →
  ∀ j, 0 ≤ j < k * BLOCK_BITS + m → bit_of bm f j = true.
Proof.
  intros Hb Hk Hlow m Hm Hbits j Hj. destruct (decide (j < k * BLOCK_BITS)); [apply Hlow; lia|].
  replace j with (k * BLOCK_BITS + (j - k * BLOCK_BITS)) by lia.
  rewrite (bitmap_block_bits _ _ _ b) by (done || lia). apply Hbits. lia.
Qed.

Lemma alloc_loop bm f k :
  bitmap_ok bm f → 0 ≤ k ≤ blocks bm →
  (∀ j, 0 ≤ j < k * BLOCK_BITS → bit_of bm f j = true) →
  wp (mfind (λ block_id,
    modify BitmapBlock (start_block_id bm +₆₄ block_id) 0 (alloc_in_block block_id))
    (range k (blocks bm))) f (alloc_post bm f).
Proof.
  intros Hok. remember (Z.to_nat (blocks bm - k)) as n eqn:Hn. revert k Hn.
  induction n as [|n IH]; intros k Hn Hk Hlow.
  { rewrite range_nil by lia. assert (k = blocks bm) as -> by lia. by split. }
  destruct Hok as [Hs Hb He Hop]. destruct (Hop k) as [b Hbk]; [lia|].
  rewrite range_cons by lia. cbn [mfind].
  replace (start_block_id bm +₆₄ k) with (start_block_id bm + k)
    by (unfold wrap; rewrite Z.mod_small; lia).
  pose proof (bitmap_words_valid b (co_ok _ _ _ Hbk)) as Hws.
  pose proof (co_here _ _ _ Hbk) as Hhere.
  destruct (find_index (λ v, negb (v =? u64_max)) (bitmap_words b)) as [[i w]|] eqn:Hf.
  - destruct (alloc_in_block_free (St:=Flat) k _ i w Hws ltac:(lia) Hf)
      as (p & ws' & Hrun & Hws' & Hp & Hclr & Hset & Hnew).
    unfold wp. rewrite (bind_Ok _ _ _ (Some (k * BLOCK_BITS + p))
      (set_block (start_block_id bm + k) (put_back BitmapBlock 0 ws' b) f)).
    2:{ by eapply (modify_pure BitmapBlock (words_valid 8 64)); [apply bitmap_stored|..]. }
    cbn. assert (bit_of bm f (k * BLOCK_BITS + p) = false) as Hbit
      by (by rewrite (bitmap_block_bits _ _ _ b)).
    assert (0 < BLOCK_BITS) as HBB by done.
    split_and!; [nia|nia|done|by eapply bits_below; eauto with lia| |].
    + intros j Hj. rewrite bit_of_set_block, bitmap_words_put_back by (done || by destruct Hbk).
      case_decide as Hjk.
      * rewrite Hnew by (apply Z.mod_pos_bound; done). f_equal; [apply bool_decide_ext; lia|].
        unfold bit_of. by rewrite Hjk, Hhere.
      * rewrite bool_decide_eq_false_2; [done|]. intros ->. apply Hjk.
        by rewrite div_mul_add.
    + exists k, (put_back BitmapBlock 0 ws' b). split_and!; [lia..| |done].
      apply (put_back_ok BitmapBlock (words_valid 8 64)); [done|lia|done|by destruct Hbk].
  - destruct (alloc_in_block_full (St:=Flat) k _ f Hws Hf) as [_ Hfull].
    unfold wp. rewrite (bind_Ok _ _ _ None (set_block (start_block_id bm + k)
      (put_back BitmapBlock 0 (bitmap_words b) b) f)).
    2:{ eapply (modify_pure BitmapBlock (words_valid 8 64)); [by apply bitmap_stored| |done].
        intros s. by apply (alloc_in_block_full (St:=Flat) k _ s). }
    cbn. rewrite put_back_bitmap_words, set_block_id by (by destruct Hbk).
    apply IH; [lia|lia|]. rewrite Z.mul_add_distr_r, Z.mul_1_l.
    eapply bits_below; [done|lia|done| |done]. unfold BLOCK_BITS, BLOCK_SZ; lia.
Qed.

Lemma in_u64 x : 0 ≤ x < 2 ^ 62 → wrap 64 x = x.
Proof. intros. apply wrap_small. lia. Qed.

Lemma dealloc_in_block_set {St} `{!BlockStore St} ws i :
  words_valid 8 64 ws → 0 ≤ i < BLOCK_BITS → bit_in_words ws i = true →
  ∃ ws', (∀ s : St, dealloc_in_block (i / 64) (i mod 64) ws s = Ok (((), ws'), s)) ∧
    words_valid 8 64 ws' ∧
    ∀ j, 0 ≤ j → bit_in_words ws' j = negb (bool_decide (j = i)) && bit_in_words ws j.
Proof.
  intros Hws Hi Hset. destruct (words_index i Hi) as [Hn Hm]. unfold bit_in_words in Hset.
  destruct (ws !! Z.to_nat (i / 64)) as [w|] eqn:Hw; [|done].
  pose proof (words_valid_lookup _ _ _ _ _ Hws Hw) as Hb.
  change (256 ^ Z.of_nat 8) with (2 ^ 64) in Hb.
  pose proof (sub_bit w (i mod 64) Hb Hm Hset) as Hsub.
  exists (<[Z.to_nat (i / 64) := Z.ldiff w (2 ^ (i mod 64))]> ws). pose proof Hws as [Hl _].
  assert (0 ≤ i / 64 < Z.of_nat (length ws)) as Hidx by lia.
  split_and!.
  - intros s. unfold dealloc_in_block, index, set_index, mbind, M_bind.
    rewrite (proj2 (Z.leb_le _ _)), (proj2 (Z.ltb_lt _ _)) by lia. cbn. rewrite Hw. cbn.
    rewrite shiftl_1_small in * by done. rewrite land_pow2_pos, Hset by lia. cbn.
    by rewrite Hsub.
  - apply words_valid_insert; [done|]. rewrite <-Hsub. change (256 ^ Z.of_nat 8) with (2 ^ 64).
    by apply wrap_bound.
  - intros j Hj. rewrite bit_in_words_insert by lia. case_decide as Hji.
    + rewrite Z.ldiff_spec, testbit_pow2 by lia. unfold bit_in_words. rewrite Hji, Hw, andb_comm.
      do 2 f_equal. apply bool_decide_ext. lia.
    + rewrite bool_decide_eq_false_2 by (intros ->; done). done.
Qed.

Lemma dealloc_in_block_clear {St} `{!BlockStore St} ws i (s : St) :
  words_valid 8 64 ws → 0 ≤ i < BLOCK_BITS → bit_in_words ws i = false →
  dealloc_in_block (i / 64) (i mod 64) ws s = Fail Panicked.
Proof.
  intros [Hl Hv] Hi Hclr. destruct (words_index i Hi) as [Hn Hm]. unfold bit_in_words in Hclr.
  destruct (lookup_lt_is_Some_2 ws (Z.to_nat (i / 64))) as [w Hw]; [lia|]. rewrite Hw in Hclr.
  unfold dealloc_in_block, index, mbind, M_bind.
  rewrite (proj2 (Z.leb_le _ _)), (proj2 (Z.ltb_lt _ _)) by lia. cbn. rewrite Hw. cbn.
  rewrite shiftl_1_small, land_pow2_pos, Hclr by lia. done.
Qed.

(** [dealloc] opens the block of the bit. *)
Lemma dealloc_modify bm f i :
  bitmap_ok bm f → 0 ≤ i < blocks bm * BLOCK_BITS →
  ∃ b, can_open (start_block_id bm + i / BLOCK_BITS) f b ∧
    bit_of bm f i = bit_in_words (bitmap_words b) (i mod BLOCK_BITS) ∧
    Bitmap_dealloc bm i = modify BitmapBlock (start_block_id bm + i / BLOCK_BITS) 0
      (dealloc_in_block (i mod BLOCK_BITS / 64) ((i mod BLOCK_BITS) mod 64)).
Proof.
  intros [Hs Hb He Hop] Hi. assert (0 ≤ i / BLOCK_BITS < blocks bm) as Hk
    by (unfold BLOCK_BITS, BLOCK_SZ in *; lia).
  destruct (Hop _ Hk) as [b Hbk]. exists b. split; [done|]. split.
  - unfold bit_of. by rewrite (co_here _ _ _ Hbk).
  - unfold Bitmap_dealloc, decomposition. rewrite in_u64 by lia. done.
Qed.

Definition dealloc_post (bm : Bitmap) (f : Flat) (i : Z) (f' : Flat) : Prop :=
  (∀ j, 0 ≤ j → bit_of bm f' j = negb (bool_decide (j = i)) && bit_of bm f j) ∧
  ∃ k b, 0 ≤ k < blocks bm ∧ block_ok b ∧ f' = set_block (start_block_id bm + k) b f.

Lemma dealloc_clears bm f i :
  bitmap_ok bm f → 0 ≤ i < blocks bm * BLOCK_BITS → bit_of bm f i = true →
  wp (Bitmap_dealloc bm i) f (λ _ f', dealloc_post bm f i f').
Proof.
  intros Hok Hi Hset. destruct (dealloc_modify bm f i Hok Hi) as (b & Hop & Hbit & ->).
  pose proof (co_ok _ _ _ Hop) as Hbok. rewrite Hbit in Hset.
  assert (0 ≤ i mod BLOCK_BITS < BLOCK_BITS) as Hm by (apply Z.mod_pos_bound; done).
  destruct (dealloc_in_block_set (St:=Flat) _ _ (bitmap_words_valid b Hbok) Hm Hset)
    as (ws' & Hrun & Hws' & Hnew).
  unfold wp. rewrite (modify_pure BitmapBlock (words_valid 8 64) _ _ _ _ b _ () ws'
    (bitmap_stored _ _ _ Hop) Hrun Hws'). split.
  - intros j Hj. rewrite bit_of_set_block, bitmap_words_put_back by done. case_decide as Hji.
    + rewrite Hnew by (apply Z.mod_pos_bound; done). unfold bit_of at 1.
      rewrite Hji, (co_here _ _ _ Hop). do 2 f_equal. apply bool_decide_ext.
      unfold BLOCK_BITS, BLOCK_SZ in *. lia.
    + rewrite bool_decide_eq_false_2 by congruence. done.
  - eexists _, _. split_and!; [..|reflexivity].
    + apply Z.div_pos; [lia|done].
    + apply Z.div_lt_upper_bound; [done|lia].
    + apply (put_back_ok BitmapBlock (words_valid 8 64)); [done|lia|done|done].
Qed.

Lemma bitmap_ok_set_block bm f id b :
  bitmap_ok bm f → block_ok b → bitmap_ok bm (set_block id b f).
Proof.
  intros [Hs Hb He Hop] Hbk. split; [done..|]. intros k Hk. destruct (Hop k Hk) as [b' Hb'].
  eexists. by apply can_open_set_block.
Qed.

Lemma bitmap_alloc_spec bm f : bitmap_ok bm f → wp (Bitmap_alloc bm) f (alloc_post bm f).
Proof.
  intros Hok. apply alloc_loop; [done|pose proof (bo_blocks _ _ Hok); lia|]. intros j Hj. lia.
Qed.

(** * What the bitmap promises *)

(** C3: [Bitmap::alloc] returns the lowest clear bit of the bitmap and sets
    exactly that bit, writing one bitmap block; it returns [None], changing
    nothing, only when every bit is set.  It never panics. *)
Theorem Bitmap_alloc_lowest bm f :
  bitmap_ok bm f → wp (Bitmap_alloc bm) f (alloc_post bm f).
Proof. apply bitmap_alloc_spec. Qed.

(** [Bitmap::dealloc] of a bit clears exactly that bit when it was set and
    panics when it was already clear (a double free). *)
Theorem Bitmap_dealloc_once bm f i :
  bitmap_ok bm f → 0 ≤ i < blocks bm * BLOCK_BITS →
  if bit_of bm f i then wp (Bitmap_dealloc bm i) f (λ _ f', dealloc_post bm f i f')
  else Bitmap_dealloc bm i f = Fail Panicked.
Proof.
  intros Hok Hi. destruct (bit_of bm f i) eqn:Hbit; [by apply dealloc_clears|].
  destruct (dealloc_modify bm f i Hok Hi) as (b & Hop & Hbit' & ->).
  rewrite Hbit' in Hbit. unfold modify. cbn.
  rewrite (bind_Ok _ _ _ _ _ (flat_open_Ok _ _ _ Hop)). apply bind_Fail.
  rewrite (bind_Ok _ _ _ (bitmap_words b) (hold (start_block_id bm + i / BLOCK_BITS) f)) by
    (by apply get_ref_Ok; cbn; unfold BLOCK_SZ; try lia).
  apply bind_Fail. apply dealloc_in_block_clear; [by apply bitmap_words_valid, Hop| |done].
  by apply Z.mod_pos_bound.
Qed.

(** Giving back the bit that [alloc] returned restores the allocation state
    of every bit, so the next [alloc] returns the same one. *)
Theorem Bitmap_alloc_dealloc bm f i f' :
  bitmap_ok bm f → Bitmap_alloc bm f = Ok (Some i, f') →
  wp (Bitmap_dealloc bm i;; Bitmap_alloc bm) f' (λ r f'', r = Some i ∧
    ∀ j, 0 ≤ j → bit_of bm f'' j = bit_of bm f' j).
Proof.
  intros Hok Hrun. pose proof (bitmap_alloc_spec bm f Hok) as Ha. unfold wp in Ha. rewrite Hrun in Ha.
  destruct Ha as (Hi & Hclr & Hlow & Hnew & k & b & Hk & Hb & ->).
  pose proof (bitmap_ok_set_block bm f (start_block_id bm + k) b Hok Hb) as Hok'.
  set (f1 := set_block _ b f) in *. apply wp_bind. eapply wp_mono.
  { apply dealloc_clears; [done|done|]. by rewrite Hnew, bool_decide_eq_true_2 by lia. }
  intros [] f2 (Hclr2 & k2 & b2 & _ & Hb2 & Hf2).
  assert (bitmap_ok bm f2) as Hok2 by (subst f2; by apply bitmap_ok_set_block).
  assert (∀ j, 0 ≤ j → bit_of bm f2 j = bit_of bm f j) as Hback.
  { intros j Hj. rewrite Hclr2, Hnew by done. case_bool_decide; [subst; by rewrite Hclr|done]. }
  eapply wp_mono; [by apply bitmap_alloc_spec|]. intros [i2|] f3; cbn.
  - intros (Hi2 & Hc2 & Hl2 & Hn2 & _). rewrite Hback in Hc2 by lia.
    assert (i2 = i) as ->.
    { destruct (Z.lt_trichotomy i2 i) as [Hlt|[Heq|Hlt]]; [|done|].
      - rewrite Hlow in Hc2 by lia. done.
      - specialize (Hl2 i ltac:(lia)). rewrite Hback, Hclr in Hl2 by lia. done. }
    split; [done|]. intros j Hj. by rewrite Hn2, Hnew, Hback.
  - intros [_ Hfull]. specialize (Hfull i Hi). rewrite Hback, Hclr in Hfull by lia. done.
Qed.

(** * Witnesses: a one-block bitmap whose bits 0 and 1 are taken *)

Definition ex_block : block := 3 :: replicate 511 0.
Definition ex_flat : Flat := MkFlat {[1 := ex_block]} ∅ false.
Definition ex_bm : Bitmap := Bitmap_new 1 1.

Lemma ex_bitmap_ok : bitmap_ok ex_bm ex_flat.
Proof.
  split; cbn; [lia..|]. intros k Hk. assert (k = 0) as -> by lia. exists ex_block.
  split; [set_solver|vm_compute; lia|reflexivity|]. by apply block_okb_ok.
Qed.

Lemma Bitmap_alloc_lowest_witness :
  wp (Bitmap_alloc ex_bm) ex_flat (alloc_post ex_bm ex_flat).
Proof. apply (Bitmap_alloc_lowest ex_bm ex_flat ex_bitmap_ok). Defined.

Lemma Bitmap_dealloc_once_witness :
  wp (Bitmap_dealloc ex_bm 1) ex_flat (λ _ f', dealloc_post ex_bm ex_flat 1 f') ∧
  Bitmap_dealloc ex_bm 2 ex_flat = Fail Panicked.
Proof.
  split.
  - apply (Bitmap_dealloc_once ex_bm ex_flat 1 ex_bitmap_ok). unfold BLOCK_BITS, BLOCK_SZ. cbn. lia.
  - apply (Bitmap_dealloc_once ex_bm ex_flat 2 ex_bitmap_ok). unfold BLOCK_BITS, BLOCK_SZ. cbn. lia.
Defined.

Definition ex_flat_2 : Flat := set_block 1 (7 :: replicate 511 0) ex_flat.

Lemma Bitmap_alloc_dealloc_witness :
  Bitmap_alloc ex_bm ex_flat = Ok (Some 2, ex_flat_2) ∧
  wp (Bitmap_dealloc ex_bm 2;; Bitmap_alloc ex_bm) ex_flat_2 (λ r f'', r = Some 2 ∧
    ∀ j, 0 ≤ j → bit_of ex_bm f'' j = bit_of ex_bm ex_flat_2 j).
Proof.
  assert (Bitmap_alloc ex_bm ex_flat = Ok (Some 2, ex_flat_2)) as H by (vm_compute; reflexivity).
  split; [exact H|]. apply (Bitmap_alloc_dealloc ex_bm ex_flat 2 ex_flat_2 ex_bitmap_ok H).
Defined.
