(* ===== verification/Layout.v ===== *)
(** The on-disk structures (easy-fs/src/layout.rs): [SuperBlock], [DiskInode]
    with its direct, indirect and doubly indirect block table, [DirEntry], with
    their [repr(C)] layouts, and every operation on them.  The correctness of
    the block table is in InodeTree.v. *)

From S2P Require Export BlockStore.

Definition EFS_MAGIC : Z := 0x3b800001.
Definition NAME_LENGTH_LIMIT : Z := 27.
Definition INODE_DIRECT_COUNT : Z := 28.
Definition DIRENT_SZ : Z := 32.
Definition INODE_INDIRECT1_COUNT : Z := BLOCK_SZ / 4.
Definition INODE_INDIRECT2_COUNT : Z := INODE_INDIRECT1_COUNT * INODE_INDIRECT1_COUNT.
Definition DIRECT_BOUND : Z := INODE_DIRECT_COUNT.
Definition INDIRECT1_BOUND : Z := DIRECT_BOUND + INODE_INDIRECT1_COUNT.
Definition INDIRECT2_BOUND : Z := INDIRECT1_BOUND + INODE_INDIRECT2_COUNT.

(** [type IndirectBlock = [u32; BLOCK_SZ / 4]] *)
Definition IndirectBlock : codec (list Z) := words_codec 4 128.
(** [type DataBlock = [u8; BLOCK_SZ]] *)
Definition DataBlock : codec (list Z) := bytes_codec 512.

(** * SuperBlock *)

Record SuperBlock : Type := MkSuperBlock {
  sb_magic : Z;
  sb_total_blocks : Z;
  sb_inode_bitmap_blocks : Z;
  sb_inode_area_blocks : Z;
  sb_data_bitmap_blocks : Z;
  sb_data_area_blocks : Z }.

Definition SuperBlock_words (sb : SuperBlock) : list Z :=
  [sb_magic sb; sb_total_blocks sb; sb_inode_bitmap_blocks sb; sb_inode_area_blocks sb;
   sb_data_bitmap_blocks sb; sb_data_area_blocks sb].
Definition SuperBlock_codec : codec SuperBlock := Codec 24
  (λ l, match words_dec 4 6 l with
        | [a; b; c; d; e; f] => Some (MkSuperBlock a b c d e f)
        | _ => None
        end)
  (λ sb _, words_enc 4 (SuperBlock_words sb)).

Definition SuperBlock_initialize (total_blocks inode_bitmap_blocks inode_area_blocks
    data_bitmap_blocks data_area_blocks : Z) : SuperBlock :=
  MkSuperBlock EFS_MAGIC total_blocks inode_bitmap_blocks inode_area_blocks
    data_bitmap_blocks data_area_blocks.
Definition SuperBlock_is_valid (sb : SuperBlock) : bool := sb_magic sb =? EFS_MAGIC.

(** * DiskInode *)

Inductive DiskInodeType : Type := File | Directory.
#[global] Instance DiskInodeType_eq_dec : EqDecision DiskInodeType.
Proof. solve_decision. Defined.

Record DiskInode : Type := MkDiskInode {
  inode_id : Z;
  di_size : Z;
  direct : list Z;
  indirect1 : Z;
  indirect2 : Z;
  nlink : Z;
  type_ : DiskInodeType }.

(** [repr(C)]: 33 words, the type byte, three bytes of padding. *)
Definition DiskInode_size_of : Z := 136.
Definition type_byte (t : DiskInodeType) : Z := match t with File => 0 | Directory => 1 end.
Definition DiskInode_words (d : DiskInode) : list Z :=
  inode_id d :: di_size d :: direct d ++ [indirect1 d; indirect2 d; nlink d].
Definition DiskInode_codec : codec DiskInode := Codec 136
  (λ l, match words_dec 4 33 (sub_list 0 132 l), sub_list 132 1 l with
        | id :: sz :: ws, [t] =>
            match drop 28 ws with
            | [i1; i2; nl] =>
                if t =? 0 then Some (MkDiskInode id sz (take 28 ws) i1 i2 nl File)
                else if t =? 1 then Some (MkDiskInode id sz (take 28 ws) i1 i2 nl Directory)
                else None
            | _ => None
            end
        | _, _ => None
        end)
  (λ d old, words_enc 4 (DiskInode_words d) ++ [type_byte (type_ d)] ++ drop 133 old).

Definition set_size (n : Z) (d : DiskInode) : DiskInode :=
  MkDiskInode (inode_id d) n (direct d) (indirect1 d) (indirect2 d) (nlink d) (type_ d).
Definition set_direct (l : list Z) (d : DiskInode) : DiskInode :=
  MkDiskInode (inode_id d) (di_size d) l (indirect1 d) (indirect2 d) (nlink d) (type_ d).
Definition set_indirect1 (b : Z) (d : DiskInode) : DiskInode :=
  MkDiskInode (inode_id d) (di_size d) (direct d) b (indirect2 d) (nlink d) (type_ d).
Definition set_indirect2 (b : Z) (d : DiskInode) : DiskInode :=
  MkDiskInode (inode_id d) (di_size d) (direct d) (indirect1 d) b (nlink d) (type_ d).
Definition set_nlink (n : Z) (d : DiskInode) : DiskInode :=
  MkDiskInode (inode_id d) (di_size d) (direct d) (indirect1 d) (indirect2 d) n (type_ d).

Definition DiskInode_initialize (d : DiskInode) (id : Z) (t : DiskInodeType) : DiskInode :=
  MkDiskInode id 0 (replicate (length (direct d)) 0) 0 0 1 t.
Definition DiskInode_inc_nlink (d : DiskInode) : DiskInode := set_nlink (nlink d +₃₂ 1) d.
Definition DiskInode_dec_nlink (d : DiskInode) : DiskInode := set_nlink (nlink d -₃₂ 1) d.
Definition DiskInode_is_dir (d : DiskInode) : bool := bool_decide (type_ d = Directory).
Definition DiskInode_is_file (d : DiskInode) : bool := bool_decide (type_ d = File).

Definition DiskInode__data_blocks (size : Z) : Z := (size +₃₂ BLOCK_SZ -₃₂ 1) / BLOCK_SZ.
Definition DiskInode_data_blocks (d : DiskInode) : Z := DiskInode__data_blocks (di_size d).

Definition DiskInode_total_blocks (size : Z) : Z :=
  let data_blocks := DiskInode__data_blocks size in
  let total := data_blocks in
  let total := if INODE_DIRECT_COUNT <? data_blocks then total +₆₄ 1 else total in
  let total := if INDIRECT1_BOUND <? data_blocks then
      total +₆₄ 1 +₆₄
      (data_blocks - INDIRECT1_BOUND + INODE_INDIRECT1_COUNT - 1) / INODE_INDIRECT1_COUNT
    else total in
  u32 total.

Section ops.
Context {St : Type} `{!BlockStore St}.

Definition DiskInode_get_block_id (d : DiskInode) (inner_id : Z) : M St Z :=
  if inner_id <? INODE_DIRECT_COUNT then index (direct d) inner_id
  else if inner_id <? INDIRECT1_BOUND then
    read IndirectBlock (indirect1 d) 0 (λ indirect_block,
      index indirect_block (inner_id - INODE_DIRECT_COUNT))
  else if inner_id <? INDIRECT2_BOUND then
    let last := inner_id - INDIRECT1_BOUND in
    indirect1 ← read IndirectBlock (indirect2 d) 0 (λ indirect2,
      index indirect2 (last / INODE_INDIRECT1_COUNT));
    read IndirectBlock indirect1 0 (λ indirect1,
      index indirect1 (last mod INODE_INDIRECT1_COUNT))
  else panic.

Definition DiskInode_blocks_num_needed (d : DiskInode) (new_size : Z) : M St Z :=
  assert_ (di_size d <=? new_size);;
  mret (DiskInode_total_blocks new_size -₃₂ DiskInode_total_blocks (di_size d)).

(** [while current < limit { table[current] = new_blocks.next().unwrap(); current += 1 }];
    every round takes one block from the iterator. *)
Definition fill_blocks (limit current : Z) (table new_blocks : list Z)
    : M St (Z * list Z * list Z) :=
  mwhile (S (length new_blocks))
    (λ '(current, _, _), current <? limit)
    (λ '(current, table, new_blocks),
      '(b, new_blocks') ← vec_next new_blocks;
      table' ← set_index table current b;
      mret (current +₃₂ 1, table', new_blocks'))
    (current, table, new_blocks).

(** One round of the loop that fills the doubly indirect block at (a0, b0). *)
Definition fill_indirect2_body (st : Z * Z * list Z * list Z) : M St (Z * Z * list Z * list Z) :=
  let '(a0, b0, indirect2, new_blocks) := st in
  '(indirect2, new_blocks) ←
    (if b0 =? 0 then
       '(b, new_blocks') ← vec_next new_blocks;
       indirect2' ← set_index indirect2 a0 b;
       mret (indirect2', new_blocks')
     else mret (indirect2, new_blocks));
  id ← index indirect2 a0;
  new_blocks ← modify IndirectBlock id 0 (λ indirect1,
    '(b, new_blocks') ← vec_next new_blocks;
    indirect1' ← set_index indirect1 b0 b;
    mret (new_blocks', indirect1'));
  let b0 := b0 + 1 in
  if b0 =? INODE_INDIRECT1_COUNT
  then mret (a0 + 1, 0, indirect2, new_blocks)
  else mret (a0, b0, indirect2, new_blocks).

(** The closure that fills it from (a0, b0) to (a1, b1). *)
Definition fill_indirect2 (a0 b0 a1 b1 : Z) (indirect2 new_blocks : list Z)
    : M St (() * list Z) :=
  '(_, _, indirect2', _) ←
    mwhile (S (length new_blocks))
      (λ '(a0, b0, _, _), (a0 <? a1) || ((a0 =? a1) && (b0 <? b1)))
      fill_indirect2_body (a0, b0, indirect2, new_blocks);
  mret ((), indirect2').

Definition DiskInode_increase_size (d : DiskInode) (new_size : Z) (new_blocks : list Z)
    : M St DiskInode :=
  let current_blocks := DiskInode_data_blocks d in
  let d := set_size new_size d in
  let total_blocks := DiskInode_data_blocks d in
  '(current_blocks, direct', new_blocks) ←
    fill_blocks (Z.min total_blocks INODE_DIRECT_COUNT) current_blocks (direct d) new_blocks;
  let d := set_direct direct' d in
  if INODE_DIRECT_COUNT <? total_blocks then
    '(d, new_blocks) ←
      (if current_blocks =? INODE_DIRECT_COUNT then
         '(b, new_blocks') ← vec_next new_blocks;
         mret (set_indirect1 b d, new_blocks')
       else mret (d, new_blocks));
    let current_blocks := current_blocks -₃₂ INODE_DIRECT_COUNT in
    let total_blocks := total_blocks -₃₂ INODE_DIRECT_COUNT in
    '(current_blocks, new_blocks) ← modify IndirectBlock (indirect1 d) 0 (λ indirect1,
      '(current_blocks, indirect1', new_blocks) ←
        fill_blocks (Z.min total_blocks INODE_INDIRECT1_COUNT) current_blocks indirect1 new_blocks;
      mret ((current_blocks, new_blocks), indirect1'));
    if INODE_INDIRECT1_COUNT <? total_blocks then
      '(d, new_blocks) ←
        (if current_blocks =? INODE_INDIRECT1_COUNT then
           '(b, new_blocks') ← vec_next new_blocks;
           mret (set_indirect2 b d, new_blocks')
         else mret (d, new_blocks));
      let current_blocks := current_blocks -₃₂ INODE_INDIRECT1_COUNT in
      let total_blocks := total_blocks -₃₂ INODE_INDIRECT1_COUNT in
      modify IndirectBlock (indirect2 d) 0 (λ indirect2,
        fill_indirect2 (current_blocks / INODE_INDIRECT1_COUNT) (current_blocks mod INODE_INDIRECT1_COUNT)
          (total_blocks / INODE_INDIRECT1_COUNT) (total_blocks mod INODE_INDIRECT1_COUNT)
          indirect2 new_blocks);;
      mret d
    else mret d
  else mret d.

(** The first [n] entries of a block: [for entry in indirect.iter().take(n) { v.push( *entry) }]. *)
Definition push_entries (id n : Z) (v : list Z) : M St (list Z) :=
  modify IndirectBlock id 0 (λ indirect1, mret (v ++ take (Z.to_nat n) indirect1, indirect1)).

Definition DiskInode_clear_size (d : DiskInode) : M St (list Z * DiskInode) :=
  let data_blocks := DiskInode_data_blocks d in
  let d := set_size 0 d in
  '(_, v, direct') ←
    mwhile 29
      (λ '(current_blocks, _, _), current_blocks <? Z.min data_blocks INODE_DIRECT_COUNT)
      (λ '(current_blocks, v, direct),
        b ← index direct current_blocks;
        direct' ← set_index direct current_blocks 0;
        mret (current_blocks + 1, v ++ [b], direct'))
      (0, [], direct d);
  let d := set_direct direct' d in
  if INODE_DIRECT_COUNT <? data_blocks then
    let v := v ++ [indirect1 d] in
    let data_blocks := data_blocks - INODE_DIRECT_COUNT in
    v ← modify IndirectBlock (indirect1 d) 0 (λ indirect1,
      '(_, v) ←
        mwhile 129
          (λ '(current_blocks, _), current_blocks <? Z.min data_blocks INODE_INDIRECT1_COUNT)
          (λ '(current_blocks, v),
            b ← index indirect1 current_blocks;
            mret (current_blocks + 1, v ++ [b]))
          (0, v);
      mret (v, indirect1));
    let d := set_indirect1 0 d in
    if INODE_INDIRECT1_COUNT <? data_blocks then
      let v := v ++ [indirect2 d] in
      let data_blocks := data_blocks - INODE_INDIRECT1_COUNT in
      assert_ (data_blocks <=? INODE_INDIRECT2_COUNT);;
      let a1 := data_blocks / INODE_INDIRECT1_COUNT in
      let b1 := data_blocks mod INODE_INDIRECT1_COUNT in
      v ← modify IndirectBlock (indirect2 d) 0 (λ indirect2,
        v ← mfold (λ entry v, push_entries entry INODE_INDIRECT1_COUNT (v ++ [entry]))
              (take (Z.to_nat a1) indirect2) v;
        v ← (if 0 <? b1 then
               last ← index indirect2 a1;
               push_entries last b1 (v ++ [last])
             else mret v);
        mret (v, indirect2));
      mret (v, set_indirect2 0 d)
    else mret (v, d)
  else mret (v, d).

(** One round of the loop of [read_at] fills the part of [buf] that lies in the
    current block; rounds: one per block of the file the range touches. *)
Definition DiskInode_read_at (d : DiskInode) (offset : Z) (buf : list Z) : M St (Z * list Z) :=
  let end_ := Z.min (offset +₆₄ Z.of_nat (length buf)) (di_size d) in
  if end_ <=? offset then mret (0, buf) else
  mloop (Z.to_nat ((end_ - offset) / BLOCK_SZ + 2)) (λ '(current_pos, current_inner_block, read_size, buf),
    let end_current_block := Z.min ((current_pos / BLOCK_SZ + 1) * BLOCK_SZ) end_ in
    let block_read_size := end_current_block - current_pos in
    _ ← slice buf read_size (read_size + block_read_size);
    block_id ← DiskInode_get_block_id d (u32 current_inner_block);
    buf ← read DataBlock block_id 0 (λ data_block,
      src ← slice data_block (current_pos mod BLOCK_SZ) (current_pos mod BLOCK_SZ + block_read_size);
      copy_into buf read_size (read_size + block_read_size) src);
    let read_size := read_size + block_read_size in
    if end_current_block =? end_ then mret (inr (read_size, buf))
    else mret (inl (end_current_block, current_inner_block + 1, read_size, buf)))
    (offset, offset / BLOCK_SZ, 0, buf).

Definition DiskInode_write_at (d : DiskInode) (offset : Z) (buf : list Z) : M St Z :=
  let end_ := Z.min (offset +₆₄ Z.of_nat (length buf)) (di_size d) in
  assert_ (offset <=? end_);;
  mloop (Z.to_nat ((end_ - offset) / BLOCK_SZ + 2)) (λ '(start, start_block, write_size),
    let end_current_block := Z.min ((start / BLOCK_SZ + 1) * BLOCK_SZ) end_ in
    let block_write_size := end_current_block - start in
    block_id ← DiskInode_get_block_id d (u32 start_block);
    modify DataBlock block_id 0 (λ data_block,
      src ← slice buf write_size (write_size + block_write_size);
      data_block' ← copy_into data_block (start mod BLOCK_SZ) (start mod BLOCK_SZ + block_write_size) src;
      mret ((), data_block'));;
    let write_size := write_size + block_write_size in
    if end_current_block =? end_ then mret (inr write_size)
    else mret (inl (end_current_block, start_block + 1, write_size)))
    (offset, offset / BLOCK_SZ, 0).
End ops.

(** * DirEntry *)

Record DirEntry : Type := MkDirEntry {
  de_name : list Z;            (** [[u8; NAME_LENGTH_LIMIT + 1]] *)
  inode_number : Z }.

Definition DirEntry_new_zeros : DirEntry := MkDirEntry (replicate 28 0) 0.
Definition DirEntry_new {S} (name : list Z) (inode_number : Z) : M S DirEntry :=
  bytes ← copy_into (replicate 28 0) 0 (Z.of_nat (length name)) name;
  mret (MkDirEntry bytes inode_number).
Definition DirEntry_as_bytes (e : DirEntry) : list Z := de_name e ++ le_enc 4 (inode_number e).
(** The entry after [as_bytes_mut] was overwritten with [l]. *)
Definition DirEntry_of_bytes (l : list Z) : DirEntry :=
  MkDirEntry (sub_list 0 28 l) (le_dec (sub_list 28 4 l)).
(** [(0usize..).find(|i| self.name[ *i] == 0).unwrap()] panics past the array. *)
Definition DirEntry_name {S} (e : DirEntry) : M S (list Z) :=
  match find_index (λ b, b =? 0) (de_name e) with
  | Some (len, _) =>
      let s := take len (de_name e) in
      if utf8_valid s then mret s else panic
  | None => panic
  end.

(** * The same on every store *)

Section sim_layout.
Context `{StoreSim S1 S2}.
Lemma sim_get_block_id d k :
  sim (S1:=S1) (DiskInode_get_block_id d k) (DiskInode_get_block_id d k).
Proof. unfold DiskInode_get_block_id. sim_auto. Qed.
Lemma sim_blocks_num_needed d n :
  sim (S1:=S1) (DiskInode_blocks_num_needed d n) (DiskInode_blocks_num_needed d n).
Proof. unfold DiskInode_blocks_num_needed. sim_auto. Qed.
Lemma sim_fill_blocks l c t nb :
  sim (S1:=S1) (fill_blocks l c t nb) (fill_blocks l c t nb).
Proof. unfold fill_blocks. sim_auto. Qed.
Lemma sim_fill_indirect2 a b c d t nb :
  sim (S1:=S1) (fill_indirect2 a b c d t nb) (fill_indirect2 a b c d t nb).
Proof. unfold fill_indirect2, fill_indirect2_body. sim_auto. Qed.
Hint Resolve sim_get_block_id sim_fill_blocks sim_fill_indirect2 : sim.
Lemma sim_DiskInode_increase_size d n nb :
  sim (S1:=S1) (DiskInode_increase_size d n nb) (DiskInode_increase_size d n nb).
Proof. unfold DiskInode_increase_size. cbn zeta. sim_auto. Qed.
Lemma sim_push_entries id n v : sim (S1:=S1) (push_entries id n v) (push_entries id n v).
Proof. unfold push_entries. sim_auto. Qed.
Hint Resolve sim_push_entries : sim.
Lemma sim_clear_size d : sim (S1:=S1) (DiskInode_clear_size d) (DiskInode_clear_size d).
Proof. unfold DiskInode_clear_size. cbn zeta. sim_auto. Qed.
Lemma sim_DiskInode_read_at d off buf :
  sim (S1:=S1) (DiskInode_read_at d off buf) (DiskInode_read_at d off buf).
Proof. unfold DiskInode_read_at. cbn zeta. sim_auto. Qed.
Lemma sim_DiskInode_write_at d off buf :
  sim (S1:=S1) (DiskInode_write_at d off buf) (DiskInode_write_at d off buf).
Proof. unfold DiskInode_write_at. cbn zeta. sim_auto. Qed.
Lemma sim_DirEntry_new name i : sim (S1:=S1) (DirEntry_new name i) (DirEntry_new name i).
Proof. unfold DirEntry_new. sim_auto. Qed.
Lemma sim_DirEntry_name e : sim (S1:=S1) (DirEntry_name e) (DirEntry_name e).
Proof. unfold DirEntry_name. sim_auto. Qed.
End sim_layout.
#[export] Hint Resolve sim_get_block_id sim_blocks_num_needed sim_DiskInode_increase_size
  sim_clear_size sim_DiskInode_read_at sim_DiskInode_write_at sim_DirEntry_new
  sim_DirEntry_name : sim.

(** * Layout laws *)

Definition is_u32 (v : Z) : Prop := 0 ≤ v < 2 ^ 32.

Lemma words_valid_4 n vs : length vs = n → Forall is_u32 vs → words_valid 4 n vs.
Proof. intros. by split. Qed.
Lemma words_valid_u32 n vs i v : words_valid 4 n vs → vs !! i = Some v → is_u32 v.
Proof. intros [_ Hv] Hi. by eapply Forall_lookup_1 in Hv. Qed.

Definition SuperBlock_valid (sb : SuperBlock) : Prop := Forall is_u32 (SuperBlock_words sb).

#[export] Instance SuperBlock_laws : CodecLaws SuperBlock_codec SuperBlock_valid.
Proof.
  split; cbn.
  - intros sb old _ _. by rewrite length_words_enc.
  - intros sb old _ _ _. apply words_enc_bytes.
  - intros sb old Hv _. rewrite words_dec_enc by (by apply words_valid_4). by destruct sb.
  - intros sb l Hl Hb Hdec. pose proof (words_dec_valid 4 6 l Hl Hb) as [_ Hw].
    destruct (words_dec 4 6 l) as [|a [|b [|c [|d [|e [|f [|g r]]]]]]]; try done.
    injection Hdec as <-. done.
Qed.

Definition DiskInode_valid (d : DiskInode) : Prop :=
  length (direct d) = 28%nat ∧ Forall is_u32 (DiskInode_words d).

Lemma DiskInode_words_length d : DiskInode_valid d → length (DiskInode_words d) = 33%nat.
Proof. intros [Hl _]. unfold DiskInode_words. cbn. rewrite length_app, Hl. done. Qed.

Lemma DiskInode_words_dec d : DiskInode_valid d → words_dec 4 33 (words_enc 4 (DiskInode_words d)) = DiskInode_words d.
Proof. intros Hv. apply words_dec_enc, words_valid_4; [by apply DiskInode_words_length|by destruct Hv]. Qed.

Lemma length_sub_list_any {A} off n (c : list A) : length (sub_list off n c) = Nat.min n (length c - off).
Proof. unfold sub_list. by rewrite length_take, length_drop. Qed.
Lemma sub_list_prefix {A} n (l r : list A) : length l = n → sub_list 0 n (l ++ r) = l.
Proof. intros <-. unfold sub_list. rewrite drop_0, take_app_length. done. Qed.
Lemma sub_list_middle {A} k n (l m r : list A) :
  length l = k → length m = n → sub_list k n (l ++ m ++ r) = m.
Proof. intros <- <-. unfold sub_list. by rewrite drop_app_length, take_app_length. Qed.

#[export] Instance DiskInode_laws : CodecLaws DiskInode_codec DiskInode_valid.
Proof.
  assert (∀ d, DiskInode_valid d → length (words_enc 4 (DiskInode_words d)) = 132%nat) as Hlen
    by (intros d Hd; by rewrite length_words_enc, DiskInode_words_length).
  split; cbn -[sub_list DiskInode_words take drop].
  - intros d old Hd Hl. rewrite length_app, Hlen by done. cbn -[drop]. rewrite length_drop. lia.
  - intros d old Hd Hl Hb. apply Forall_app_2; [apply words_enc_bytes|].
    constructor; [destruct (type_ d); unfold is_byte; cbn; lia|by apply Forall_drop].
  - intros d old Hd Hl. rewrite sub_list_prefix, DiskInode_words_dec by auto.
    change (type_byte (type_ d) :: drop 133 old) with ([type_byte (type_ d)] ++ drop 133 old).
    rewrite sub_list_middle by auto. unfold DiskInode_words. destruct Hd as [Hd _].
    rewrite drop_app_length', take_app_length' by done. by destruct d as [? ? ? ? ? ? []].
  - intros d l Hl Hb Hdec.
    pose proof (words_dec_valid 4 33 (sub_list 0 132 l)
      (length_sub_list 0 132 l ltac:(lia)) (Forall_sub_list _ 0 132 l Hb)) as [Hwl Hw].
    destruct (words_dec 4 33 (sub_list 0 132 l)) as [|id [|sz ws]]; try done.
    destruct (sub_list 132 1 l) as [|t [|]]; try done.
    destruct (drop 28 ws) as [|i1 [|i2 [|nl [|]]]] eqn:Hdrop; try done.
    assert (DiskInode_valid (MkDiskInode id sz (take 28 ws) i1 i2 nl File)) as Hv.
    { split; cbn [direct]; [rewrite length_take; cbn in Hwl; lia|]. unfold DiskInode_words. cbn [inode_id di_size direct indirect1 indirect2 nlink].
      rewrite <-Hdrop, take_drop. exact Hw. }
    repeat case_match; try done; by injection Hdec as <-.
Qed.

(** ** Names in directory entries *)

Lemma DirEntry_new_Ok {S} name i (s : S) :
  (length name ≤ 28)%nat →
  DirEntry_new name i s = Ok (MkDirEntry (name ++ replicate (28 - length name) 0) i, s).
Proof.
  intros Hl. unfold DirEntry_new, copy_into. rewrite length_replicate.
  rewrite (proj2 (Z.leb_le _ (Z.of_nat (length name)))), (proj2 (Z.leb_le _ (Z.of_nat 28))) by lia.
  rewrite Z.sub_0_r, Z.eqb_refl. unfold mbind, M_bind. cbn -[replicate splice].
  unfold splice. by rewrite take_0, drop_replicate.
Qed.

Lemma find_index_zero (name : list Z) n :
  Forall (λ b, b ≠ 0) name → (0 < n)%nat →
  find_index (λ b, b =? 0) (name ++ replicate n 0) = Some (length name, 0).
Proof.
  intros Hn Hpos. induction Hn as [|b name Hb Hn IH]; [destruct n; [lia|done]|].
  cbn. rewrite (proj2 (Z.eqb_neq b 0)) by done. by rewrite IH.
Qed.

(** C7: a directory entry keeps its name: for a name of at most 27 bytes,
    without NUL bytes and valid UTF-8, [DirEntry::new] succeeds and [name]
    gives it back, also after the trip through the bytes on disk; a name of 28
    bytes is accepted by [new] but makes every later [name] call panic; a
    longer one panics in [new]. *)
Theorem DirEntry_name_new {St} name i (s : St) :
  Forall (λ b, 0 < b < 256) name → utf8_valid name = true → is_u32 i →
  if decide (length name ≤ 27)%nat then
    ∃ e, DirEntry_new name i s = Ok (e, s) ∧
      DirEntry_name (DirEntry_of_bytes (DirEntry_as_bytes e)) s = Ok (name, s)
  else if decide (length name = 28)%nat then
    ∃ e, DirEntry_new name i s = Ok (e, s) ∧ DirEntry_name e s = Fail Panicked
  else DirEntry_new name i s = Fail Panicked.
Proof.
  intros Hb Hu Hi. assert (Forall (λ b, b ≠ 0) name) as Hnz by (eapply Forall_impl; [exact Hb|]; cbn; lia).
  case_decide as H27; [|case_decide as H28].
  - eexists. split; [apply DirEntry_new_Ok; lia|].
    assert (DirEntry_of_bytes (DirEntry_as_bytes (MkDirEntry (name ++ replicate (28 - length name) 0) i))
      = MkDirEntry (name ++ replicate (28 - length name) 0) i) as ->.
    { unfold DirEntry_of_bytes, DirEntry_as_bytes. cbn [de_name inode_number].
      rewrite sub_list_prefix by (rewrite length_app, length_replicate; lia).
      rewrite <-(app_nil_r (le_enc 4 _)), sub_list_middle
        by (rewrite ?length_app, ?length_replicate, ?length_le_enc; lia).
      by rewrite le_dec_enc_small. }
    unfold DirEntry_name. cbn [de_name]. rewrite find_index_zero by (done || lia).
    by rewrite take_app_length, Hu.
  - eexists. split; [apply DirEntry_new_Ok; lia|]. unfold DirEntry_name. cbn [de_name].
    rewrite H28, app_nil_r. destruct (find_index _ name) as [[n b]|] eqn:Hf; [|done].
    apply find_index_Some in Hf as (Hn & Hz & _). apply Z.eqb_eq in Hz as ->.
    by apply (Forall_lookup_1 _ _ _ _ Hnz) in Hn.
  - unfold DirEntry_new, copy_into. rewrite length_replicate.
    rewrite (proj2 (Z.leb_gt (Z.of_nat (length name)) (Z.of_nat 28))) by lia.
    by rewrite andb_false_r.
Qed.

Lemma DirEntry_name_new_witness :
  (∃ e, DirEntry_new [97; 98] 3 () = Ok (e, ()) ∧
     DirEntry_name (DirEntry_of_bytes (DirEntry_as_bytes e)) () = Ok ([97; 98], ())) ∧
  (∃ e, DirEntry_new (replicate 28 97) 3 () = Ok (e, ()) ∧ DirEntry_name e () = Fail Panicked) ∧
  DirEntry_new (replicate 29 97) 3 () = Fail Panicked.
Proof.
  split_and!.
  - apply (DirEntry_name_new [97; 98] 3 ()); [repeat constructor; lia|reflexivity|unfold is_u32; lia].
  - apply (DirEntry_name_new (replicate 28 97) 3 ()); [repeat constructor; lia|reflexivity|unfold is_u32; lia].
  - apply (DirEntry_name_new (replicate 29 97) 3 ()); [repeat constructor; lia|reflexivity|unfold is_u32; lia].
Defined.
