(* ===== verification/InodeTree.v ===== *)
(** The block table of a [DiskInode] (easy-fs/src/layout.rs) as a tree: which
    blocks it owns, in which order, and the bytes of the file.  [get_block_id]
    follows the tree, [read_at] and [write_at] are reads and writes of the byte
    sequence [content], [increase_size] appends exactly the new blocks and
    [clear_size] returns exactly the blocks owned. *)

From S2P Require Export Layout.

(** * The tree *)

Definition block_at (f : Flat) (id : Z) : block := default [] (fl_blocks f !! id).
Definition ind_words (f : Flat) (id : Z) : list Z := words_dec 4 128 (sub_list 0 512 (block_at f id)).

Record tree : Type := Tree {
  t_direct : list Z;
  t_id1 : Z;
  t_ind1 : list Z;
  t_id2 : Z;
  t_ind2 : list Z;
  t_sub : Z → list Z }.

Definition tree_of (d : DiskInode) (f : Flat) : tree :=
  Tree (direct d) (indirect1 d) (ind_words f (indirect1 d)) (indirect2 d)
    (ind_words f (indirect2 d)) (ind_words f).

(** The second-level table block on the path to data block [k]. *)
Definition t_mid (t : tree) (k : nat) : Z := t_ind2 t !!! ((k - 156) / 128)%nat.

(** The [k]-th data block. *)
Definition t_block (t : tree) (k : nat) : Z :=
  if (k <? 28)%nat then t_direct t !!! k
  else if (k <? 156)%nat then t_ind1 t !!! (k - 28)%nat
  else t_sub t (t_mid t k) !!! ((k - 156) mod 128)%nat.

(** The table blocks that come into use together with data block [k]. *)
Definition t_table (t : tree) (k : nat) : list Z :=
  if (k =? 28)%nat then [t_id1 t]
  else if (k <? 156)%nat then []
  else (if (k =? 156)%nat then [t_id2 t] else []) ++
       (if ((k - 156) mod 128 =? 0)%nat then [t_mid t k] else []).

(** All blocks used by data blocks [a..b], tables before what they index. *)
Definition slot (t : tree) (k : nat) : list Z := t_table t k ++ [t_block t k].
Definition slots (t : tree) (a b : nat) : list Z := seq a (b - a) ≫= slot t.

Definition nblocks (d : DiskInode) : nat := Z.to_nat (DiskInode_data_blocks d).
Definition owned (d : DiskInode) (f : Flat) : list Z := slots (tree_of d f) 0 (nblocks d).
Definition data_blocks (d : DiskInode) (f : Flat) : list Z :=
  map (t_block (tree_of d f)) (seq 0 (nblocks d)).

(** The bytes of the file. *)
Definition content (d : DiskInode) (f : Flat) : list Z :=
  take (Z.to_nat (di_size d)) (data_blocks d f ≫= block_at f).

Definition max_file_size : Z := INDIRECT2_BOUND * BLOCK_SZ.

(** Block [id] exists and no running closure has it locked. *)
Record avail (id : Z) (f : Flat) : Prop := {
  av_free : id ∉ fl_held f;
  av_here : fl_blocks f !! id = Some (block_at f id);
  av_ok : block_ok (block_at f id) }.
(** Room in the cache for [n] more blocks. *)
Definition room (n : nat) (f : Flat) : Prop := (size (fl_held f) + n ≤ BLOCK_CACHE_MAX_NUM)%nat.

(** A well-formed inode: its size is one the table can hold, and the blocks it
    owns are distinct and accessible. *)
Record inode_wf (d : DiskInode) (f : Flat) : Prop := {
  wf_valid : DiskInode_valid d;
  wf_size : di_size d ≤ max_file_size;
  wf_nodup : NoDup (owned d f);
  wf_avail : Forall (λ id, avail id f) (owned d f) }.

(** * Lemmas on the tree *)

Lemma slots_nil t a : slots t a a = [].
Proof. unfold slots. by rewrite Nat.sub_diag. Qed.
Lemma slots_app t a b c : (a ≤ b ≤ c)%nat → slots t a c = slots t a b ++ slots t b c.
Proof.
  intros. unfold slots. replace (c - a)%nat with (b - a + (c - b))%nat by lia.
  rewrite seq_app, bind_app. by replace (a + (b - a))%nat with b by lia.
Qed.
Lemma slots_one t k : slots t k (S k) = slot t k.
Proof. unfold slots. replace (S k - k)%nat with 1%nat by lia. cbn. by rewrite app_nil_r. Qed.
Lemma slots_ext t t' a b :
  (∀ k, (a ≤ k < b)%nat → slot t k = slot t' k) → slots t a b = slots t' a b.
Proof.
  intros Hext. unfold slots.
  assert (∀ l, (∀ k, k ∈ l → slot t k = slot t' k) → l ≫= slot t = l ≫= slot t') as Hl.
  { induction l as [|k l IH]; intros Hl; [done|]. cbn. rewrite Hl by apply list_elem_of_here.
    f_equal. apply IH. intros j Hj. apply Hl. by apply list_elem_of_further. }
  apply Hl. intros k Hk%elem_of_seq. apply Hext. lia.
Qed.
Lemma slots_no_table t a b :
  (∀ k, (a ≤ k < b)%nat → t_table t k = []) → slots t a b = map (t_block t) (seq a (b - a)).
Proof.
  intros Hnt. unfold slots. remember (b - a)%nat as n eqn:Hn. revert a Hn Hnt.
  induction n as [|n IH]; intros a Hn Hnt; [done|]. cbn. unfold slot at 1.
  rewrite Hnt by lia. cbn. f_equal. apply IH; [lia|]. intros; apply Hnt; lia.
Qed.
Lemma t_table_length t t' k : length (t_table t k) = length (t_table t' k).
Proof. unfold t_table. repeat case_match; cbn; done. Qed.
Lemma slots_length t t' a b : length (slots t a b) = length (slots t' a b).
Proof.
  unfold slots. induction (seq a (b - a)) as [|k l IH]; [done|]. cbn.
  unfold slot at 1 3. rewrite !length_app, IH. cbn. by rewrite (t_table_length t t').
Qed.
Lemma slots_elem t a b x :
  x ∈ slots t a b ↔ ∃ k, (a ≤ k < b)%nat ∧ x ∈ slot t k.
Proof.
  unfold slots. rewrite list_elem_of_bind. split.
  - intros (k & Hx & Hk%elem_of_seq). exists k. split; [lia|done].
  - intros (k & Hk & Hx). exists k. split; [done|]. apply elem_of_seq. lia.
Qed.
Lemma t_block_in_slot t k : t_block t k ∈ slot t k.
Proof. unfold slot. set_solver. Qed.
(** Equal slots give equal data blocks. *)
Lemma slot_inj_block t t' k : slot t k = slot t' k → t_block t k = t_block t' k.
Proof. unfold slot. intros Heq. apply app_inj_2 in Heq as [_ [= ->]]; done. Qed.
Lemma slots_inj t t' a b k :
  slots t a b = slots t' a b → (a ≤ k < b)%nat → slot t k = slot t' k.
Proof.
  intros Heq Hk. rewrite (slots_app t a k b), (slots_app t' a k b) in Heq by lia.
  apply app_inj_1 in Heq as [_ Heq]; [|apply slots_length].
  rewrite (slots_app t k (S k) b), (slots_app t' k (S k) b), !slots_one in Heq by lia.
  apply app_inj_1 in Heq as [Heq _]; [done|].
  rewrite <-!slots_one. apply slots_length.
Qed.

Lemma t_id1_table t : t_id1 t ∈ t_table t 28.
Proof. unfold t_table. cbn. set_solver. Qed.
Lemma t_id2_table t : t_id2 t ∈ t_table t 156.
Proof. unfold t_table. cbn. set_solver. Qed.
Lemma t_mid_table' t k : (156 ≤ k)%nat → t_mid t k ∈ t_table t (156 + 128 * ((k - 156) / 128))%nat.
Proof.
  intros Hk. set (q := ((k - 156) / 128)%nat) in *. set (j := (156 + 128 * q)%nat).
  assert ((j - 156) / 128 = q ∧ (j - 156) mod 128 = 0)%nat as [Hjq Hj0].
  { unfold j. replace (156 + 128 * q - 156)%nat with (q * 128)%nat by lia.
    rewrite Nat.div_mul, Nat.Div0.mod_mul by lia. done. }
  unfold t_table. destruct (Nat.eqb_spec j 28); [lia|]. destruct (Nat.ltb_spec j 156); [lia|].
  rewrite Hj0. cbn [Nat.eqb]. apply elem_of_app. right. unfold t_mid. rewrite Hjq. apply list_elem_of_here.
Qed.
Lemma t_mid_table t k : (156 ≤ k)%nat → ∃ j, (156 ≤ j ≤ k)%nat ∧ t_mid t k ∈ t_table t j.
Proof. intros Hk. eexists. split; [|by apply t_mid_table']. lia. Qed.
Lemma table_in_slots t n j x : (j < n)%nat → x ∈ t_table t j → x ∈ slots t 0 n.
Proof. intros Hj Hx. apply slots_elem. exists j. split; [lia|]. apply elem_of_app. by left. Qed.

(** Slots of a duplicate-free tree are disjoint, and a table is not a data block. *)
Lemma slot_disjoint t n j k x :
  NoDup (slots t 0 n) → (j < n)%nat → (k < n)%nat → x ∈ slot t j → x ∈ slot t k → j = k.
Proof.
  assert (∀ j k, NoDup (slots t 0 n) → (j < k < n)%nat → x ∈ slot t j → x ∈ slot t k → False) as Hlt.
  { intros i l Hnd Hil Hi Hl. rewrite (slots_app t 0 l n) in Hnd by lia.
    apply NoDup_app in Hnd as (_ & Hd & _). apply (Hd x); apply slots_elem.
    - exists i. split; [lia|done].
    - exists l. split; [lia|done]. }
  intros Hnd Hj Hk Hxj Hxk. destruct (Nat.lt_trichotomy j k) as [?|[?|?]]; [|done|].
  - exfalso. by apply (Hlt j k).
  - exfalso. by apply (Hlt k j).
Qed.
Lemma t_block_inj t n j k :
  NoDup (slots t 0 n) → (j < n)%nat → (k < n)%nat → t_block t j = t_block t k → j = k.
Proof.
  intros Hnd Hj Hk Heq. apply (slot_disjoint t n j k (t_block t j)); try done; [apply t_block_in_slot|].
  rewrite Heq. apply t_block_in_slot.
Qed.
Lemma table_not_block t n j k :
  NoDup (slots t 0 n) → (j < n)%nat → (k < n)%nat → (t_block t k ∉ t_table t j).
Proof.
  intros Hnd Hj Hk Hx. assert (j = k) as ->.
  { apply (slot_disjoint t n j k (t_block t k)); try done; [|apply t_block_in_slot].
    apply elem_of_app. by left. }
  rewrite (slots_app t 0 k n) in Hnd by lia. apply NoDup_app in Hnd as (_ & _ & Hnd).
  rewrite (slots_app t k (S k) n), slots_one in Hnd by lia. apply NoDup_app in Hnd as (Hnd & _ & _).
  unfold slot in Hnd. apply NoDup_app in Hnd as (_ & Hd & _). apply (Hd _ Hx). apply list_elem_of_here.
Qed.

(** * Blocks and sizes *)

Lemma data_blocks_div sz : 0 ≤ sz ≤ max_file_size →
  DiskInode__data_blocks sz = (sz + 511) / 512.
Proof.
  change max_file_size with 8468480. intros Hsz.
  unfold DiskInode__data_blocks, BLOCK_SZ.
  rewrite (wrap_small 32 (sz + 512)), wrap_small by lia. f_equal. lia.
Qed.
Lemma nblocks_spec d : DiskInode_valid d → di_size d ≤ max_file_size →
  nblocks d = ((Z.to_nat (di_size d) + 511) / 512)%nat ∧ Z.of_nat (nblocks d) ≤ 16540.
Proof.
  intros [_ Hv] Hsz. assert (is_u32 (di_size d)) as Hu.
  { apply (Forall_lookup_1 _ _ 1 _ Hv). done. }
  unfold is_u32 in Hu. unfold nblocks, DiskInode_data_blocks. rewrite data_blocks_div by lia.
  change max_file_size with 8468480 in Hsz.
  lia.
Qed.
Lemma nblocks_pos d p : DiskInode_valid d → di_size d ≤ max_file_size →
  (Z.of_nat p < di_size d) → (p / 512 < nblocks d)%nat.
Proof. intros Hv Hsz Hp. destruct (nblocks_spec d Hv Hsz) as [-> _]. lia. Qed.

Lemma avail_open id f : avail id f → room 1 f → can_open id f (block_at f id).
Proof. intros [Hf Hh Hok] Hr. split; try done. unfold room in Hr. lia. Qed.

Lemma stored_ind id f : can_open id f (block_at f id) → stored IndirectBlock id 0 f (block_at f id) (ind_words f id).
Proof. intros Hop. split; [done|lia|cbn; unfold BLOCK_SZ; lia|done]. Qed.
Lemma ind_words_valid id f : avail id f → words_valid 4 128 (ind_words f id).
Proof.
  intros [_ _ [Hl Hb]]. apply words_dec_valid; [by apply length_sub_list; lia|].
  by apply Forall_sub_list.
Qed.
Lemma ind_words_length id f : length (ind_words f id) = 128%nat.
Proof. apply length_words_dec. Qed.

Lemma index_Ok {St A} `{!Inhabited A} (l : list A) i n (s : St) :
  i = Z.of_nat n → (n < length l)%nat → index l i s = Ok (l !!! n, s).
Proof.
  intros -> Hn. unfold index. rewrite (proj2 (Z.leb_le _ _)), (proj2 (Z.ltb_lt _ _)) by lia. cbn.
  by rewrite Nat2Z.id, list_lookup_lookup_total_lt.
Qed.

Lemma read_ind id f i n :
  avail id f → room 1 f → i = Z.of_nat n → (n < 128)%nat →
  read IndirectBlock id 0 (λ ws, index ws i) f = Ok (ind_words f id !!! n, f).
Proof.
  intros Ha Hr Hi Hn. eapply (read_pure IndirectBlock).
  - apply stored_ind. by apply avail_open.
  - intros s. apply index_Ok; [done|]. by rewrite ind_words_length.
Qed.

(** [get_block_id] follows the tree. *)
Lemma get_block_id_spec d f k :
  DiskInode_valid d → room 1 f → (k < nblocks d)%nat → Z.of_nat (nblocks d) ≤ 16540 →
  Forall (λ id, avail id f) (owned d f) →
  DiskInode_get_block_id d (Z.of_nat k) f = Ok (t_block (tree_of d f) k, f).
Proof.
  intros [Hl _] Hr Hk Hn Hav. rewrite Forall_forall in Hav.
  set (t := tree_of d f). change (owned d f) with (slots t 0 (nblocks d)) in Hav.
  unfold DiskInode_get_block_id, t_block.
  change INDIRECT1_BOUND with 156. change INDIRECT2_BOUND with 16540.
  change INODE_DIRECT_COUNT with 28. change INODE_INDIRECT1_COUNT with 128.
  destruct (Nat.ltb_spec k 28); [rewrite (proj2 (Z.ltb_lt _ _)) by lia; apply index_Ok; cbn; lia|].
  rewrite (proj2 (Z.ltb_ge _ 28)) by lia. destruct (Nat.ltb_spec k 156).
  - rewrite (proj2 (Z.ltb_lt _ _)) by lia. apply read_ind; [|done|lia|lia].
    apply (Hav (t_id1 t)). eapply table_in_slots, t_id1_table. lia.
  - rewrite (proj2 (Z.ltb_ge _ 156)), (proj2 (Z.ltb_lt _ _)) by lia.
    rewrite (bind_Ok _ _ _ (t_mid t k) f); [apply read_ind; [|done|lia|lia]|].
    + destruct (t_mid_table t k) as (j & Hj & Hmid); [lia|].
      apply Hav. eapply table_in_slots, Hmid. lia.
    + apply read_ind; [|done|lia|lia]. apply (Hav (t_id2 t)).
      eapply table_in_slots, t_id2_table. lia.
Qed.

(** * The bytes of a file *)

Definition fblock (d : DiskInode) (f : Flat) (k : nat) : Z := t_block (tree_of d f) k.

Lemma fblock_owned d f k : (k < nblocks d)%nat → fblock d f k ∈ owned d f.
Proof. intros Hk. apply slots_elem. exists k. split; [lia|]. apply t_block_in_slot. Qed.
Lemma data_blocks_lookup d f k : (k < nblocks d)%nat → data_blocks d f !!! k = fblock d f k.
Proof.
  intros Hk. apply list_lookup_total_correct. unfold data_blocks.
  rewrite list_lookup_fmap, lookup_seq_lt by done. done.
Qed.
Lemma data_blocks_length d f : length (data_blocks d f) = nblocks d.
Proof. unfold data_blocks. by rewrite length_map, length_seq. Qed.

Section content.
Context (d : DiskInode) (f : Flat) (Hwf : inode_wf d f).

Lemma wf_nblocks : nblocks d = ((Z.to_nat (di_size d) + 511) / 512)%nat ∧ Z.of_nat (nblocks d) ≤ 16540.
Proof. apply nblocks_spec; apply Hwf. Qed.
Lemma wf_size_nonneg : 0 ≤ di_size d < 2 ^ 32.
Proof. destruct (wf_valid _ _ Hwf) as [_ Hv]. by apply (Forall_lookup_1 _ _ 1 _ Hv). Qed.
Lemma wf_owned_avail id : id ∈ owned d f → avail id f.
Proof. pose proof (wf_avail _ _ Hwf) as Hav. rewrite Forall_forall in Hav. apply Hav. Qed.
Lemma fblock_avail k : (k < nblocks d)%nat → avail (fblock d f k) f.
Proof. intros Hk. by apply wf_owned_avail, fblock_owned. Qed.
Lemma piece_length x : x ∈ data_blocks d f → length (block_at f x) = 512%nat.
Proof.
  intros (k & -> & Hk%elem_of_seq)%list_elem_of_fmap. apply (fblock_avail k). lia.
Qed.
Lemma length_content : length (content d f) = Z.to_nat (di_size d).
Proof.
  unfold content. rewrite length_take, (length_bind_pieces _ 512) by apply piece_length.
  rewrite data_blocks_length. destruct wf_nblocks as [-> _]. lia.
Qed.
Lemma lookup_content p :
  Z.of_nat p < di_size d →
  content d f !! p = block_at f (fblock d f (p / 512)) !! (p mod 512)%nat.
Proof.
  intros Hp. assert (p / 512 < nblocks d)%nat as Hk by (apply nblocks_pos; apply Hwf || done).
  unfold content. rewrite lookup_take_lt by lia.
  rewrite (lookup_bind_pieces _ 512); [|lia|apply piece_length|by rewrite data_blocks_length].
  by rewrite data_blocks_lookup.
Qed.
(** A range within one block. *)
Lemma content_chunk p n :
  Z.of_nat (p + n) ≤ di_size d → (p mod 512 + n ≤ 512)%nat →
  sub_list p n (content d f) = sub_list (p mod 512) n (block_at f (fblock d f (p / 512))).
Proof.
  intros Hp Hn. apply list_eq. intros i. rewrite !lookup_sub_list. case_decide; [|done].
  rewrite lookup_content by lia.
  replace ((p + i) / 512)%nat with (p / 512)%nat by lia.
  by replace ((p + i) mod 512)%nat with (p mod 512 + i)%nat by lia.
Qed.
End content.

(** The range [pos, end) of the current block, as [read_at] and [write_at]
    compute it. *)
Lemma chunk_end p e :
  (p < e)%nat →
  ∃ n, Z.min ((Z.of_nat p / BLOCK_SZ + 1) * BLOCK_SZ) (Z.of_nat e) - Z.of_nat p = Z.of_nat n ∧
    (0 < n)%nat ∧ (p mod 512 + n ≤ 512)%nat ∧ (p + n ≤ e)%nat ∧
    Z.min ((Z.of_nat p / BLOCK_SZ + 1) * BLOCK_SZ) (Z.of_nat e) = Z.of_nat (p + n) ∧
    ((p + n < e)%nat → (p + n) mod 512 = 0 ∧ (p + n) / 512 = S (p / 512))%nat.
Proof.
  intros Hpe. exists (Nat.min ((p / 512 + 1) * 512) e - p)%nat. unfold BLOCK_SZ.
  pose proof (Nat.div_mod p 512 ltac:(lia)). pose proof (Nat.mod_upper_bound p 512 ltac:(lia)).
  split_and!; [lia..|]. intros Hlt.
  replace (p + _)%nat with ((p / 512 + 1) * 512)%nat by lia.
  rewrite Nat.Div0.mod_mul, Nat.div_mul by lia. lia.
Qed.

Lemma splice_sub_list_app {A} off n m (c buf : list A) :
  (off + (n + m) ≤ length c)%nat → (n + m ≤ length buf)%nat →
  splice n (sub_list (off + n) m c) (splice 0 (sub_list off n c) buf) =
  splice 0 (sub_list off (n + m) c) buf.
Proof.
  intros Hc Hb. rewrite sub_list_app. unfold splice.
  rewrite !take_0, !app_nil_l, length_app, !length_sub_list by lia.
  rewrite take_app_length' by (rewrite length_sub_list; lia).
  rewrite <-app_assoc. do 2 f_equal.
  rewrite drop_app_ge by (rewrite length_sub_list by lia; lia).
  rewrite length_sub_list, drop_drop by lia. f_equal. lia.
Qed.

Lemma stored_data id f : avail id f → room 1 f → stored DataBlock id 0 f (block_at f id) (block_at f id).
Proof.
  intros Ha Hr. split; [by apply avail_open|lia|cbn; unfold BLOCK_SZ; lia|]. cbn. unfold sub_list.
  rewrite drop_0, take_ge; [done|]. destruct (av_ok _ _ Ha). lia.
Qed.

Lemma slice_Ok {St A} (l : list A) a b (s : St) :
  (a ≤ b ≤ length l)%nat → slice l (Z.of_nat a) (Z.of_nat b) s = Ok (sub_list a (b - a) l, s).
Proof.
  intros. unfold slice. destruct (_ && _) eqn:E; [|lia]. cbn. rewrite Nat2Z.id.
  by replace (Z.to_nat (Z.of_nat b - Z.of_nat a)) with (b - a)%nat by lia.
Qed.
Lemma copy_into_Ok {St A} (l src : list A) a b (s : St) :
  (a ≤ b ≤ length l)%nat → length src = (b - a)%nat →
  copy_into l (Z.of_nat a) (Z.of_nat b) src s = Ok (splice a src l, s).
Proof.
  intros ? Hs. unfold copy_into. destruct (_ && _) eqn:E; [|lia]. cbn. by rewrite Nat2Z.id.
Qed.

(** ** Reading *)

Lemma block_id_Ok d f k :
  inode_wf d f → room 1 f → (k < nblocks d)%nat →
  DiskInode_get_block_id d (u32 (Z.of_nat k)) f = Ok (fblock d f k, f).
Proof.
  intros Hwf Hr Hk. destruct (wf_nblocks d f Hwf) as [_ Hn].
  rewrite wrap_small by lia. apply get_block_id_spec; try done; apply Hwf.
Qed.

Lemma read_chunk d f buf p rs n :
  inode_wf d f → room 1 f → Z.of_nat (p + n) ≤ di_size d → (0 < n)%nat → (p mod 512 + n ≤ 512)%nat →
  (rs + n ≤ length buf)%nat →
  (block_id ← DiskInode_get_block_id d (u32 (Z.of_nat (p / 512)));
   read DataBlock block_id 0 (λ data_block,
     src ← slice data_block (Z.of_nat p mod BLOCK_SZ) (Z.of_nat p mod BLOCK_SZ + Z.of_nat n);
     copy_into buf (Z.of_nat rs) (Z.of_nat rs + Z.of_nat n) src)) f =
  Ok (splice rs (sub_list p n (content d f)) buf, f).
Proof.
  intros Hwf Hr Hp Hpos Hn Hb. assert (p / 512 < nblocks d)%nat as Hk
    by (apply nblocks_pos; [apply Hwf..|lia]).
  rewrite (bind_Ok _ _ _ (fblock d f (p / 512)) f) by (by apply block_id_Ok).
  pose proof (fblock_avail d f Hwf _ Hk) as Hav.
  eapply (read_pure DataBlock); [by apply stored_data|]. intros s.
  replace (Z.of_nat p mod BLOCK_SZ) with (Z.of_nat (p mod 512)) by (unfold BLOCK_SZ; lia).
  rewrite <-!Nat2Z.inj_add. destruct (av_ok _ _ Hav) as [Hl _].
  erewrite bind_Ok by (apply slice_Ok; lia).
  rewrite content_chunk by done. replace (p mod 512 + n - p mod 512)%nat with n by lia.
  apply copy_into_Ok; [lia|]. rewrite length_sub_list; lia.
Qed.

(** How many bytes [read_at] can deliver. *)
Definition avail_len (d : DiskInode) (off len : nat) : nat :=
  Nat.min len (Z.to_nat (di_size d) - off).

Lemma splice_nil {A} off (l : list A) : splice off [] l = l.
Proof. unfold splice. cbn. rewrite Nat.add_0_r. apply take_drop. Qed.

Lemma bind_assoc_M {St A B C} (m : M St A) (k1 : A → M St B) (k2 : B → M St C) s :
  (m ≫= λ a, k1 a ≫= k2) s = ((m ≫= k1) ≫= k2) s.
Proof. unfold mbind, M_bind. by destruct (m s) as [[a s']|]. Qed.

Lemma read_at_spec d f off buf :
  inode_wf d f → room 1 f → Z.of_nat (off + length buf) < 2 ^ 64 →
  let n := avail_len d off (length buf) in
  DiskInode_read_at d (Z.of_nat off) buf f =
    Ok ((Z.of_nat n, splice 0 (sub_list off n (content d f)) buf), f).
Proof.
  intros Hwf Hr H64 n. pose proof (wf_size_nonneg d f Hwf) as Hsz. unfold DiskInode_read_at.
  rewrite <-Nat2Z.inj_add, wrap_small by lia.
  destruct (Z.leb_spec (Z.min (Z.of_nat (off + length buf)) (di_size d)) (Z.of_nat off)) as [Hle|Hlt].
  { assert (n = 0%nat) as -> by (unfold n, avail_len; lia). unfold sub_list. by rewrite take_0, splice_nil. }
  assert ((0 < n)%nat ∧ Z.of_nat (off + n) ≤ di_size d ∧ (n ≤ length buf)%nat ∧
    Z.min (Z.of_nat (off + length buf)) (di_size d) = Z.of_nat (off + n))
    as (Hn & Hend & Hnb & ->) by (unfold n, avail_len; lia).
  match goal with |- ?m f = Ok (?r, f) => assert (wp m f (λ r0 f0, r0 = r ∧ f0 = f)) as Hwp end.
  2:{ unfold wp in Hwp. destruct (mloop _ _ _ f) as [[r0 f0]|]; [|done]. by destruct Hwp as [-> ->]. }
  apply (wp_mloop (λ '(pos, inner, rs, b) g, ∃ m, g = f ∧ (m < n)%nat ∧ pos = Z.of_nat (off + m) ∧
      inner = Z.of_nat ((off + m) / 512) ∧ rs = Z.of_nat m ∧
      b = splice 0 (sub_list off m (content d f)) buf)
    (λ '(pos, _, _, _), Z.to_nat ((Z.of_nat (off + n) - 1) / BLOCK_SZ - pos / BLOCK_SZ))).
  - exists 0%nat. unfold BLOCK_SZ. rewrite !Nat.add_0_r. split_and!; [done|done|done|lia|done|].
    symmetry. apply splice_nil.
  - unfold BLOCK_SZ. lia.
  - intros [[[pos inner] rs] b] g (m & -> & Hm & -> & -> & -> & ->).
    destruct (chunk_end (off + m) (off + n) ltac:(lia)) as (c & Hc & Hc0 & Hc512 & Hce & Hmin & Hnext).
    rewrite Hc, Hmin, <-!Nat2Z.inj_add. clear Hc Hmin.
    assert (length (splice 0 (sub_list off m (content d f)) buf) = length buf) as Hlb.
    { assert (off + m ≤ length (content d f))%nat by (rewrite length_content by done; lia).
      rewrite length_splice; [done|]. clear Hnext. rewrite length_sub_list; lia. }
    unfold wp. erewrite bind_Ok by (apply slice_Ok; clear Hnext; lia). rewrite bind_assoc_M.
    erewrite bind_Ok by (rewrite Nat2Z.inj_add; apply read_chunk; try done; clear Hnext; lia).
    rewrite splice_sub_list_app by (rewrite ?length_content by done; clear Hnext; lia).
    destruct (Z.eqb_spec (Z.of_nat (off + m + c)) (Z.of_nat (off + n))) as [|Hne].
    + assert (m + c = n)%nat as -> by (clear Hnext; lia). done.
    + destruct (Hnext ltac:(clear Hnext; lia)) as [Hz Hq]. clear Hnext. split.
      * exists (m + c)%nat. rewrite Nat.add_assoc, Hq, Nat2Z.inj_succ. split_and!; try done; lia.
      * unfold BLOCK_SZ. clear Hz Hc512. lia.
Qed.

(** ** Changing the store around a file *)

(** [f'] differs from [f] at most in the contents of the blocks [ids]. *)
Record same_outside (ids : list Z) (f f' : Flat) : Prop := {
  so_held : fl_held f' = fl_held f;
  so_lock : fl_fs_locked f' = fl_fs_locked f;
  so_out x : (x ∉ ids) → fl_blocks f' !! x = fl_blocks f !! x;
  so_in x : x ∈ ids → avail x f → avail x f' }.

Lemma same_outside_refl ids f : same_outside ids f f.
Proof. by split. Qed.
Lemma same_outside_trans ids f g h : same_outside ids f g → same_outside ids g h → same_outside ids f h.
Proof.
  intros [H1 L1 O1 I1] [H2 L2 O2 I2]. split; [congruence..| |auto].
  intros x Hx. rewrite O2 by done. by apply O1.
Qed.
Lemma block_at_out ids f f' x : same_outside ids f f' → (x ∉ ids) → block_at f' x = block_at f x.
Proof. intros Hs Hx. unfold block_at. by rewrite (so_out _ _ _ Hs). Qed.
Lemma avail_same ids f f' x : same_outside ids f f' → avail x f → avail x f'.
Proof.
  intros Hs Ha. destruct (decide (x ∈ ids)) as [Hx|Hx]; [by apply (so_in _ _ _ Hs)|].
  destruct Ha as [Hf Hh Hok]. pose proof (block_at_out _ _ _ _ Hs Hx) as Hb.
  split; [by rewrite (so_held _ _ _ Hs)|by rewrite Hb, (so_out _ _ _ Hs)|by rewrite Hb].
Qed.
Lemma same_outside_weaken ids ids' f f' :
  (∀ x, x ∈ ids → x ∈ ids') → same_outside ids f f' → same_outside ids' f f'.
Proof.
  intros Hsub Hs. split; [apply Hs..| |].
  - intros x Hx. apply (so_out _ _ _ Hs). auto.
  - intros x _. by apply (avail_same ids).
Qed.
Lemma room_same ids n f f' : same_outside ids f f' → room n f → room n f'.
Proof. intros Hs. unfold room. by rewrite (so_held _ _ _ Hs). Qed.
Lemma block_at_set_same id b f : block_at (set_block id b f) id = b.
Proof. unfold block_at. cbn. by rewrite lookup_insert_eq. Qed.
Lemma block_at_set_other id b f x : x ≠ id → block_at (set_block id b f) x = block_at f x.
Proof. intros. unfold block_at. cbn. by rewrite lookup_insert_ne. Qed.
Lemma set_block_same_outside ids id b f :
  id ∈ ids → block_ok b → same_outside ids f (set_block id b f).
Proof.
  intros Hid Hb. split; [done|done| |].
  - intros x Hx. cbn. apply lookup_insert_ne. by intros ->.
  - intros x _ [Hf Hh Hok]. destruct (decide (x = id)) as [->|Hne].
    + split; [done| |]; rewrite block_at_set_same; [|done]. cbn. apply lookup_insert_eq.
    + split; [done| |]; rewrite block_at_set_other by done; [|done]. cbn. by rewrite lookup_insert_ne.
Qed.

(** The tree only depends on the contents of its tables. *)
Lemma tree_frame d f f' n :
  (∀ j x, (j < n)%nat → x ∈ t_table (tree_of d f) j → block_at f' x = block_at f x) →
  ∀ k, (k < n)%nat → slot (tree_of d f') k = slot (tree_of d f) k.
Proof.
  intros Htab k Hk. set (t := tree_of d f) in *. set (t' := tree_of d f').
  assert (∀ j x, (j < n)%nat → x ∈ t_table t j → ind_words f' x = ind_words f x) as Hind
    by (intros; unfold ind_words; by erewrite Htab).
  assert ((156 < n)%nat → t_ind2 t' = t_ind2 t) as H2 by (intros; apply (Hind 156%nat), (t_id2_table t); lia).
  assert ((156 ≤ k)%nat → t_mid t' k = t_mid t k) as Hm by (intros; unfold t_mid; by rewrite H2 by lia).
  assert ((28 < n)%nat → t_ind1 t' = t_ind1 t) as H1 by (intros; apply (Hind 28%nat), (t_id1_table t); lia).
  assert ((156 ≤ k)%nat → t_sub t' (t_mid t k) = t_sub t (t_mid t k)) as H3.
  { intros. destruct (t_mid_table t k) as (j & Hj & Hmid); [done|]. apply (Hind j); [lia|done]. }
  unfold slot, t_block, t_table.
  destruct (Nat.ltb_spec k 28), (Nat.eqb_spec k 28), (Nat.ltb_spec k 156); try (exfalso; lia).
  - reflexivity.
  - by rewrite H1 by lia.
  - by rewrite H1 by lia.
  - by rewrite Hm, H3 by done.
Qed.
Lemma owned_frame d f f' :
  (∀ j x, (j < nblocks d)%nat → x ∈ t_table (tree_of d f) j → block_at f' x = block_at f x) →
  owned d f' = owned d f ∧ ∀ k, (k < nblocks d)%nat → fblock d f' k = fblock d f k.
Proof.
  intros Htab. pose proof (tree_frame d f f' _ Htab) as Hs. split.
  - apply slots_ext. intros k Hk. apply Hs. lia.
  - intros k Hk. by apply slot_inj_block, Hs.
Qed.

(** ** Writing *)

Lemma data_block_elem d f k : (k < nblocks d)%nat → fblock d f k ∈ data_blocks d f.
Proof. intros Hk. apply list_elem_of_fmap. exists k. split; [done|]. apply elem_of_seq. lia. Qed.

(** Rewriting one data block changes neither the tree nor the other blocks. *)
Lemma set_data_block d f k b :
  inode_wf d f → (k < nblocks d)%nat → block_ok b →
  let f' := set_block (fblock d f k) b f in
  inode_wf d f' ∧ owned d f' = owned d f ∧ (∀ j, (j < nblocks d)%nat → fblock d f' j = fblock d f j).
Proof.
  intros Hwf Hk Hb f'. destruct Hwf as [Hv Hsz Hnd Hav].
  assert (owned d f' = owned d f ∧ ∀ j, (j < nblocks d)%nat → fblock d f' j = fblock d f j) as [Ho Hf].
  { apply owned_frame. intros j x Hj Hx. apply block_at_set_other. intros ->.
    by apply (table_not_block _ _ j k Hnd). }
  split; [|done]. split; [done|done|by rewrite Ho|]. rewrite Ho.
  eapply Forall_impl; [exact Hav|]. intros x. apply (avail_same [fblock d f k]).
  apply set_block_same_outside; [set_solver|done].
Qed.

Lemma content_set_block d f p src b :
  inode_wf d f → Z.of_nat (p + length src) ≤ di_size d → (0 < length src)%nat →
  (p mod 512 + length src ≤ 512)%nat →
  b = splice (p mod 512) src (block_at f (fblock d f (p / 512))) → block_ok b →
  content d (set_block (fblock d f (p / 512)) b f) = splice p src (content d f).
Proof.
  intros Hwf Hp Hpos Hn Hb Hbok. assert (p / 512 < nblocks d)%nat as Hk
    by (apply nblocks_pos; [apply Hwf..|lia]).
  destruct (set_data_block d f _ b Hwf Hk Hbok) as (Hwf' & _ & Hfb).
  pose proof (length_content d f Hwf) as Hlc.
  assert (length (block_at f (fblock d f (p / 512))) = 512%nat) as Hlb
    by (by destruct (av_ok _ _ (fblock_avail d f Hwf _ Hk))).
  apply list_eq. intros i. destruct (decide (Z.of_nat i < di_size d)) as [Hi|Hi].
  2:{ rewrite !lookup_ge_None_2; [done| |]; rewrite ?length_splice, ?length_content by (done || lia); lia. }
  assert (i / 512 < nblocks d)%nat as Hki by (apply nblocks_pos; apply Hwf || done).
  rewrite lookup_content, Hfb by done.
  destruct (decide (i / 512 = p / 512)%nat) as [Heq|Hne].
  - rewrite Heq, block_at_set_same, Hb.
    destruct (decide (p ≤ i < p + length src)%nat) as [Hin|Hout].
    + rewrite !lookup_splice_new by lia. f_equal. lia.
    + rewrite !lookup_splice_old by lia. by rewrite lookup_content, Heq.
  - rewrite block_at_set_other by (intros Hx; apply Hne, (t_block_inj _ _ _ _ (wf_nodup _ _ Hwf) Hki Hk Hx)).
    rewrite lookup_splice_old by lia. by rewrite lookup_content.
Qed.

Lemma put_back_data b v : block_ok v → block_ok b → put_back DataBlock 0 v b = v.
Proof.
  intros [Hv _] [Hb _]. unfold put_back. cbn. unfold splice. rewrite take_0, drop_ge by lia.
  by rewrite app_nil_r.
Qed.

Lemma write_chunk d f buf p ws n :
  inode_wf d f → room 1 f → Z.of_nat (p + n) ≤ di_size d → (0 < n)%nat → (p mod 512 + n ≤ 512)%nat →
  (ws + n ≤ length buf)%nat → Forall is_byte buf →
  let b := splice (p mod 512) (sub_list ws n buf) (block_at f (fblock d f (p / 512))) in
  block_ok b ∧
  (block_id ← DiskInode_get_block_id d (u32 (Z.of_nat (p / 512)));
   modify DataBlock block_id 0 (λ data_block,
     src ← slice buf (Z.of_nat ws) (Z.of_nat (ws + n));
     data_block' ← copy_into data_block (Z.of_nat p mod BLOCK_SZ) (Z.of_nat p mod BLOCK_SZ + Z.of_nat n) src;
     mret ((), data_block'))) f =
  Ok ((), set_block (fblock d f (p / 512)) b f).
Proof.
  intros Hwf Hr Hp Hpos Hn Hb Hbytes b. assert (p / 512 < nblocks d)%nat as Hk
    by (apply nblocks_pos; [apply Hwf..|lia]).
  pose proof (fblock_avail d f Hwf _ Hk) as Hav. pose proof (av_ok _ _ Hav) as [Hl Hby].
  assert (length (sub_list ws n buf) = n) as Hls by (apply length_sub_list; lia).
  assert (block_ok b) as Hbok.
  { split; [unfold b; rewrite length_splice; lia|]. apply Forall_splice; [done|by apply Forall_sub_list]. }
  split; [done|].
  rewrite (bind_Ok _ _ _ (fblock d f (p / 512)) f) by (by apply block_id_Ok).
  rewrite <-(put_back_data (block_at f (fblock d f (p / 512))) b) by done.
  eapply (modify_pure DataBlock _); [by apply stored_data| |exact Hbok].
  intros s. replace (Z.of_nat p mod BLOCK_SZ) with (Z.of_nat (p mod 512)) by (unfold BLOCK_SZ; lia).
  rewrite <-!Nat2Z.inj_add. erewrite bind_Ok by (apply slice_Ok; lia).
  replace (ws + n - ws)%nat with n by lia.
  by erewrite bind_Ok by (apply copy_into_Ok; lia).
Qed.

Lemma splice_splice_app {A} off (a b l : list A) :
  (off + (length a + length b) ≤ length l)%nat →
  splice (off + length a) b (splice off a l) = splice off (a ++ b) l.
Proof.
  intros Hl. unfold splice. rewrite (app_assoc (take off l) a).
  rewrite take_app_length' by (rewrite length_app, length_take; lia).
  rewrite drop_app_ge by (rewrite length_app, length_take; lia).
  rewrite length_app, length_take, drop_drop, length_app, <-!app_assoc. do 4 f_equal. lia.
Qed.

Lemma take_sub_list {A} n m (l : list A) : take (n + m) l = take n l ++ sub_list n m l.
Proof. unfold sub_list. by rewrite take_take_drop. Qed.

(** What [write_at] leaves behind. *)
Record written (d : DiskInode) (off n : nat) (buf : list Z) (f f' : Flat) : Prop := {
  wr_wf : inode_wf d f';
  wr_owned : owned d f' = owned d f;
  wr_fblock k : (k < nblocks d)%nat → fblock d f' k = fblock d f k;
  wr_content : content d f' = splice off (take n buf) (content d f);
  wr_same : same_outside (data_blocks d f) f f' }.

Lemma written_step d off m n buf f g k b :
  written d off m buf f g → (k < nblocks d)%nat → block_ok b →
  content d (set_block (fblock d g k) b g) = splice off (take n buf) (content d f) →
  written d off n buf f (set_block (fblock d g k) b g).
Proof.
  intros [Hwf Ho Hfb Hc Hs] Hk Hb Hcont.
  destruct (set_data_block d g k b Hwf Hk Hb) as (Hwf' & Ho' & Hfb').
  split; [exact Hwf'|by rewrite Ho'| |exact Hcont|].
  - intros j Hj. by rewrite Hfb', Hfb.
  - eapply same_outside_trans; [exact Hs|]. apply set_block_same_outside; [|done].
    rewrite Hfb by done. by apply data_block_elem.
Qed.

Lemma write_at_spec d f off buf :
  inode_wf d f → room 1 f → Z.of_nat (off + length buf) < 2 ^ 64 →
  Z.of_nat off < di_size d → (0 < length buf)%nat → Forall is_byte buf →
  let n := avail_len d off (length buf) in
  wp (DiskInode_write_at d (Z.of_nat off) buf) f (λ r f',
    r = Z.of_nat n ∧ written d off n buf f f').
Proof.
  intros Hwf Hr H64 Hoff Hbuf Hbytes n. pose proof (wf_size_nonneg d f Hwf) as Hsz.
  pose proof (length_content d f Hwf) as Hlc. unfold DiskInode_write_at.
  rewrite <-Nat2Z.inj_add, wrap_small by lia.
  assert ((0 < n)%nat ∧ Z.of_nat (off + n) ≤ di_size d ∧ (n ≤ length buf)%nat ∧
    Z.min (Z.of_nat (off + length buf)) (di_size d) = Z.of_nat (off + n))
    as (Hn & Hend & Hnb & ->) by (unfold n, avail_len; lia).
  rewrite wp_bind, wp_assert. split; [apply Z.leb_le; lia|].
  apply (wp_mloop (λ '(pos, blk, ws) g, ∃ m, (m < n)%nat ∧ pos = Z.of_nat (off + m) ∧
      blk = Z.of_nat ((off + m) / 512) ∧ ws = Z.of_nat m ∧ written d off m buf f g)
    (λ '(pos, _, _), Z.to_nat ((Z.of_nat (off + n) - 1) / BLOCK_SZ - pos / BLOCK_SZ))).
  - exists 0%nat. unfold BLOCK_SZ. rewrite !Nat.add_0_r. split_and!; [done|done|lia|done|].
    split; [done..| |apply same_outside_refl]. symmetry. apply splice_nil.
  - unfold BLOCK_SZ. lia.
  - intros [[pos blk] ws] g (m & Hm & -> & -> & -> & Hwr).
    destruct (chunk_end (off + m) (off + n) ltac:(lia)) as (c & Hc & Hc0 & Hc512 & Hce & Hmin & Hnext).
    rewrite Hc, Hmin, <-!Nat2Z.inj_add. clear Hc Hmin.
    pose proof (wr_wf _ _ _ _ _ _ Hwr) as Hwfg.
    pose proof (room_same _ _ _ _ (wr_same _ _ _ _ _ _ Hwr) Hr) as Hrg.
    destruct (write_chunk d g buf (off + m) m c) as [Hbok Hrun]; try done; [clear Hnext; lia..|].
    unfold wp. rewrite bind_assoc_M, (bind_Ok _ _ _ _ _ Hrun).
    assert (length (sub_list m c buf) = c) as Hls by (apply length_sub_list; clear Hnext; lia).
    assert (written d off (m + c) buf f (set_block (fblock d g ((off + m) / 512))
      (splice ((off + m) mod 512) (sub_list m c buf) (block_at g (fblock d g ((off + m) / 512)))) g)) as Hwr'.
    { apply (written_step _ _ m); [done|apply nblocks_pos; [apply Hwf..|lia]|done|].
      rewrite (content_set_block d g (off + m) (sub_list m c buf)) by (done || (clear Hnext; lia)).
      rewrite (wr_content _ _ _ _ _ _ Hwr). rewrite take_sub_list.
      assert (length (take m buf) = m) as Htm by (rewrite length_take; clear Hnext; lia).
      rewrite <-Htm at 1. apply splice_splice_app. clear Hnext. lia. }
    destruct (Z.eqb_spec (Z.of_nat (off + m + c)) (Z.of_nat (off + n))) as [|Hne].
    + assert (m + c = n)%nat as Hmc by (clear Hnext; lia). split; [f_equal; lia|].
      rewrite <-Hmc. exact Hwr'.
    + destruct (Hnext ltac:(clear Hnext; lia)) as [Hz Hq]. clear Hnext. split.
      * exists (m + c)%nat. rewrite Nat.add_assoc, Hq, Nat2Z.inj_succ. split_and!; try done; lia.
      * unfold BLOCK_SZ. clear Hz Hc512. lia.
Qed.
