(* ===== verification/InodeLoop.v ===== *)
(** The loops of [increase_size] (easy-fs/src/layout.rs) and what each adds to the
    tree: [fill_blocks] on the direct and the indirect block, and the loop that
    fills the doubly indirect block. *)

From S2P Require Export InodeTree.

(** * How many blocks *)

Lemma slot_length t k :
  length (slot t k) = (1 + (if decide (k = 28) then 1 else 0) + (if decide (k = 156) then 1 else 0) +
    (if decide (156 ≤ k ∧ (k - 156) mod 128 = 0) then 1 else 0))%nat.
Proof.
  unfold slot, t_table. rewrite length_app.
  destruct (Nat.eqb_spec k 28), (Nat.ltb_spec k 156), (Nat.eqb_spec k 156),
    (Nat.eqb_spec ((k - 156) mod 128) 0); repeat case_decide; cbn; lia.
Qed.

Definition count_slots (n : nat) : nat :=
  (n + (if decide (28 < n) then 1 else 0) +
   (if decide (156 < n) then 1 + (n - 156 + 127) / 128 else 0))%nat.

Lemma slots_count t n : length (slots t 0 n) = count_slots n.
Proof.
  induction n as [|n IH]; [done|].
  rewrite (slots_app t 0 n (S n)), slots_one, length_app, IH, slot_length by lia.
  unfold count_slots. repeat case_decide; lia.
Qed.

Lemma total_blocks_count sz : 0 ≤ sz ≤ max_file_size →
  DiskInode_total_blocks sz = Z.of_nat (count_slots (Z.to_nat (DiskInode__data_blocks sz))).
Proof.
  intros Hsz. unfold DiskInode_total_blocks. rewrite data_blocks_div by done.
  change max_file_size with 8468480 in Hsz. change INODE_DIRECT_COUNT with 28.
  change INDIRECT1_BOUND with 156. change INODE_INDIRECT1_COUNT with 128.
  assert (0 ≤ (sz + 511) / 512 ≤ 16540) as Hn by lia.
  set (n := (sz + 511) / 512) in *. clearbody n. unfold count_slots.
  rewrite !(decide_ext _ (28 < n)), !(decide_ext (156 < Z.to_nat n)%nat (156 < n)) by lia.
  destruct (Z.ltb_spec 28 n), (Z.ltb_spec 156 n); repeat case_decide; try (exfalso; lia);
    rewrite ?(wrap_small 64 (n + 1)), ?(wrap_small 64) by (rewrite ?(wrap_small 64) by lia; lia);
    rewrite wrap_small by lia; lia.
Qed.

(** * The fill loops *)

Lemma set_index_Ok {St A} (l : list A) i n x (s : St) :
  i = Z.of_nat n → (n < length l)%nat → set_index l i x s = Ok (<[n := x]> l, s).
Proof.
  intros -> Hn. unfold set_index. rewrite (proj2 (Z.leb_le _ _)), (proj2 (Z.ltb_lt _ _)) by lia. cbn.
  by rewrite Nat2Z.id.
Qed.

Lemma insert_splice {A} n x (xs l : list A) :
  (n + S (length xs) ≤ length l)%nat → splice (S n) xs (<[n := x]> l) = splice n (x :: xs) l.
Proof.
  intros Hl. apply list_eq. intros i.
  destruct (decide (n < i < n + S (length xs))%nat) as [Hin|Hout].
  - rewrite !lookup_splice_new by (cbn; rewrite ?length_insert; lia).
    by replace (i - n)%nat with (S (i - S n)) by lia.
  - rewrite lookup_splice_old by (rewrite ?length_insert; lia).
    destruct (decide (i = n)) as [->|Hne].
    + rewrite list_lookup_insert_eq by lia. rewrite lookup_splice_new by (cbn; lia).
      by rewrite Nat.sub_diag.
    + rewrite list_lookup_insert_ne by done. rewrite lookup_splice_old by (cbn; lia). done.
Qed.

Lemma fill_blocks_spec {St} (lim cur : nat) table nb (s : St) :
  ((cur < lim)%nat → (lim ≤ length table)%nat) → (lim - cur ≤ length nb)%nat →
  Z.of_nat lim < 2 ^ 31 → 
  fill_blocks (Z.of_nat lim) (Z.of_nat cur) table nb s =
    Ok (Z.of_nat (Nat.max cur lim), splice cur (take (lim - cur) nb) table, drop (lim - cur) nb, s).
Proof.
  unfold fill_blocks, mwhile. intros Hlim Hnb H31.
  assert (length nb < S (length nb))%nat as Hfuel by lia. revert Hfuel.
  generalize (S (length nb)) as fuel. intros fuel. revert cur table nb Hlim Hnb.
  induction fuel as [|fuel IH]; intros cur table nb Hlim Hnb Hfuel; [lia|]. cbn [mloop].
  destruct (Z.ltb_spec (Z.of_nat cur) (Z.of_nat lim)) as [Hlt|Hge].
  - destruct nb as [|x nb]; [cbn in Hnb; lia|]. cbn [vec_next].
    erewrite bind_Ok; [|erewrite bind_Ok; [reflexivity|]].
    2:{ erewrite bind_Ok by reflexivity. cbn beta iota.
        by erewrite bind_Ok by (apply (set_index_Ok _ _ cur); [done|lia]). }
    cbn beta iota. rewrite wrap_small by lia.
    replace (Z.of_nat cur + 1) with (Z.of_nat (S cur)) by lia.
    cbn in Hnb, Hfuel. rewrite IH; [|rewrite length_insert; lia|lia|lia].
    replace (lim - cur)%nat with (S (lim - S cur)) by lia. cbn [take drop].
    rewrite insert_splice by (rewrite length_take; lia). by replace (Nat.max (S cur) lim) with (Nat.max cur lim) by lia.
  - replace (lim - cur)%nat with 0%nat by lia. rewrite take_0, drop_0, splice_nil.
    by replace (Nat.max cur lim) with cur by lia.
Qed.

(** * Extending the tree *)

Lemma map_seq_eq (g : nat → Z) m xs :
  (∀ i, (i < length xs)%nat → g (m + i)%nat = xs !!! i) → map g (seq m (length xs)) = xs.
Proof.
  revert m. induction xs as [|x xs IH]; intros m Hg; [done|]. cbn. f_equal.
  - specialize (Hg 0%nat ltac:(cbn; lia)). by rewrite Nat.add_0_r in Hg.
  - apply IH. intros i Hi. specialize (Hg (S i) ltac:(cbn; lia)).
    by rewrite Nat.add_succ_r in Hg.
Qed.

(** Slots below the first table block, and below the second. *)
Lemma slots_direct t a b : (b ≤ 28)%nat → slots t a b = map (t_block t) (seq a (b - a)).
Proof.
  intros. apply slots_no_table. intros k Hk. unfold t_table.
  destruct (Nat.eqb_spec k 28), (Nat.ltb_spec k 156); lia || done.
Qed.
Lemma slots_ind1 t a b : (28 ≤ a)%nat → (a < b)%nat → (b ≤ 156)%nat →
  slots t a b = (if decide (a = 28%nat) then [t_id1 t] else []) ++ map (t_block t) (seq a (b - a)).
Proof.
  intros Ha Hab Hb. case_decide as H28.
  - subst a. rewrite (slots_app t 28 29 b), slots_one, (slots_no_table t 29 b) by
      (lia || (intros k Hk; unfold t_table; destruct (Nat.eqb_spec k 28), (Nat.ltb_spec k 156); lia || done)).
    replace (b - 28)%nat with (S (b - 29)) by lia. done.
  - apply slots_no_table. intros k Hk. unfold t_table.
    destruct (Nat.eqb_spec k 28), (Nat.ltb_spec k 156); lia || done.
Qed.

(** What a slot depends on. *)
Lemma slot_ext t t' k :
  ((k < 28)%nat → t_direct t !!! k = t_direct t' !!! k) →
  ((28 = k)%nat → t_id1 t = t_id1 t') →
  ((28 ≤ k < 156)%nat → t_ind1 t !!! (k - 28)%nat = t_ind1 t' !!! (k - 28)%nat) →
  ((156 = k)%nat → t_id2 t = t_id2 t') →
  ((156 ≤ k)%nat → t_mid t k = t_mid t' k ∧
     t_sub t (t_mid t k) !!! ((k - 156) mod 128)%nat = t_sub t' (t_mid t' k) !!! ((k - 156) mod 128)%nat) →
  slot t k = slot t' k.
Proof.
  intros Hd H1 Hi1 H2 Hs. unfold slot, t_table, t_block.
  destruct (Nat.ltb_spec k 28), (Nat.eqb_spec k 28), (Nat.ltb_spec k 156), (Nat.eqb_spec k 156);
    try (exfalso; lia); rewrite ?Hd, ?H1, ?Hi1, ?H2 by lia; try reflexivity;
    destruct (Hs ltac:(lia)) as [-> ->]; reflexivity.
Qed.

Lemma splice_total_new (off i : nat) (new l : list Z) :
  (off + length new ≤ length l)%nat → (i < length new)%nat → splice off new l !!! (off + i)%nat = new !!! i.
Proof.
  intros. rewrite !list_lookup_total_alt, lookup_splice_new by lia. do 2 f_equal. lia.
Qed.
Lemma splice_total_old (off i : nat) (new l : list Z) :
  (off + length new ≤ length l)%nat → (i < off)%nat → splice off new l !!! i = l !!! i.
Proof. intros. by rewrite !list_lookup_total_alt, lookup_splice_old by lia. Qed.

Definition with_direct (l : list Z) (t : tree) : tree :=
  Tree l (t_id1 t) (t_ind1 t) (t_id2 t) (t_ind2 t) (t_sub t).
Definition with_ind1 (id : Z) (l : list Z) (t : tree) : tree :=
  Tree (t_direct t) id l (t_id2 t) (t_ind2 t) (t_sub t).

Lemma extend_direct t n xs :
  length (t_direct t) = 28%nat → (n + length xs ≤ 28)%nat →
  slots (with_direct (splice n xs (t_direct t)) t) 0 (n + length xs) = slots t 0 n ++ xs.
Proof.
  intros Hl Hn. set (t' := with_direct _ t). rewrite (slots_app t' 0 n) by lia. f_equal.
  - apply slots_ext. intros k Hk. apply slot_ext; intros; try lia. cbn.
    apply splice_total_old; lia.
  - rewrite slots_direct by lia. replace (n + length xs - n)%nat with (length xs) by lia.
    apply map_seq_eq. intros i Hi. unfold t_block. destruct (Nat.ltb_spec (n + i) 28); [|lia].
    apply splice_total_new; lia.
Qed.

Lemma extend_ind1 t n id l xs :
  length l = 128%nat → (28 ≤ n)%nat → (n + length xs ≤ 156)%nat → (0 < length xs)%nat →
  ((28 < n)%nat → id = t_id1 t ∧ l = t_ind1 t) →
  slots (with_ind1 id (splice (n - 28) xs l) t) 0 (n + length xs) =
    slots t 0 n ++ (if decide (n = 28%nat) then [id] else []) ++ xs.
Proof.
  intros Hl H28 Hn Hpos Heq. set (t' := with_ind1 _ _ t). rewrite (slots_app t' 0 n) by lia. f_equal.
  - apply slots_ext. intros k Hk. apply slot_ext; intros; try lia; [done|..]; cbn.
    + by destruct (Heq ltac:(lia)).
    + destruct (Heq ltac:(lia)) as [_ <-]. apply splice_total_old; lia.
  - rewrite slots_ind1 by lia. replace (n + length xs - n)%nat with (length xs) by lia. f_equal.
    apply map_seq_eq. intros i Hi. unfold t_block.
    destruct (Nat.ltb_spec (n + i) 28); [lia|]. destruct (Nat.ltb_spec (n + i) 156); [|lia].
    replace (n + i - 28)%nat with (n - 28 + i)%nat by lia. apply splice_total_new; lia.
Qed.

Definition pend (t : tree) (m : nat) : list Z := if decide (m = 156%nat) then [t_id2 t] else [].

Lemma extend_sub t ind2' sub' m id y :
  (156 ≤ m)%nat →
  let q := ((m - 156) / 128)%nat in
  let r := ((m - 156) mod 128)%nat in
  let t' := Tree (t_direct t) (t_id1 t) (t_ind1 t) (t_id2 t) ind2' sub' in
  ind2' !!! q = id →
  (∀ p, (p < q)%nat → ind2' !!! p = t_ind2 t !!! p) →
  (r ≠ 0%nat → t_ind2 t !!! q = id) →
  (∀ z, z ≠ id → sub' z = t_sub t z) →
  (∀ p, (p < r)%nat → sub' id !!! p = t_sub t id !!! p) →
  sub' id !!! r = y →
  (∀ k, (156 ≤ k < m)%nat → ((k - 156) / 128 < q)%nat → t_mid t k ≠ id) →
  slots t' 0 (S m) = slots t 0 m ++ pend t m ++ (if decide (r = 0%nat) then [id] else []) ++ [y].
Proof.
  intros Hm q r t' Hq Hlow Hr Hsub Hrow Hy Hfresh.
  rewrite (slots_app t' 0 m), slots_one by lia. f_equal.
  - apply slots_ext. intros k Hk. apply slot_ext; try done. intros Hk156.
    assert ((k - 156) / 128 ≤ q)%nat as Hkq by (apply Nat.Div0.div_le_mono; lia).
    unfold t_mid. cbn [t_ind2 t_sub t'].
    destruct (decide ((k - 156) / 128 = q)%nat) as [Heq|Hne].
    + assert ((k - 156) mod 128 < r)%nat as Hkr by (unfold q, r in *; lia).
      rewrite Heq, Hq, Hr by lia. split; [done|]. by apply Hrow.
    + rewrite Hlow by lia. split; [done|]. rewrite Hsub; [done|]. apply Hfresh; lia.
  - unfold slot, t_table, t_block, t_mid. cbn [t_ind2 t_sub t' t_id2]. fold q r.
    rewrite Hq, Hy. destruct (Nat.eqb_spec m 28); [lia|]. destruct (Nat.ltb_spec m 156); [lia|].
    destruct (Nat.ltb_spec m 28); [lia|]. unfold pend.
    destruct (Nat.eqb_spec m 156), (Nat.eqb_spec r 0); repeat case_decide; try lia; done.
Qed.

(** ** Writing one entry of a table block *)

Lemma ind_words_put_back ws b id f :
  words_valid 4 128 ws → block_ok b → ind_words (set_block id (put_back IndirectBlock 0 ws b) f) id = ws.
Proof.
  intros Hv Hb. unfold ind_words. rewrite block_at_set_same.
  pose proof (dec_put_back IndirectBlock (words_valid 4 128) 0 ws b Hv ltac:(lia)
    ltac:(cbn; unfold BLOCK_SZ; lia) Hb) as Hdec. by injection Hdec.
Qed.
Lemma ind_words_set_other id b f x : x ≠ id → ind_words (set_block id b f) x = ind_words f x.
Proof. intros. unfold ind_words. by rewrite block_at_set_other. Qed.

(** A [modify] of a table block that computes. *)
Lemma modify_ind {A} id (g : list Z → M Flat (A * list Z)) f r ws :
  avail id f → room 1 f → (∀ s, g (ind_words f id) s = Ok ((r, ws), s)) → words_valid 4 128 ws →
  ∃ b, block_ok b ∧ modify IndirectBlock id 0 g f = Ok (r, set_block id b f) ∧
    ind_words (set_block id b f) id = ws.
Proof.
  intros Ha Hr Hg Hv. exists (put_back IndirectBlock 0 ws (block_at f id)).
  pose proof (av_ok _ _ Ha) as Hb. split_and!.
  - apply (put_back_ok IndirectBlock (words_valid 4 128)); [done|lia|cbn; unfold BLOCK_SZ; lia|done].
  - eapply (modify_pure IndirectBlock (words_valid 4 128)); [|exact Hg|exact Hv].
    by apply stored_ind, avail_open.
  - by apply ind_words_put_back.
Qed.

Lemma words_valid_splice w n off xs ws :
  words_valid w n ws → Forall (λ v, 0 ≤ v < 256 ^ Z.of_nat w) xs →
  ((0 < length xs)%nat → (off + length xs ≤ n)%nat) → words_valid w n (splice off xs ws).
Proof.
  intros [Hl Hv] Hx Hn. destruct xs as [|x xs]; [by rewrite splice_nil|].
  split; [rewrite length_splice; [done|]; specialize (Hn ltac:(cbn; lia)); lia|]. by apply Forall_splice.
Qed.

(** * The doubly indirect loop *)

Section fill2.
Context (dir : list Z) (id1 : Z) (ind1 : list Z) (id2 : Z) (L : list Z) (f0 : Flat).
Context (HND : NoDup L) (HL : Forall is_u32 L).
Context (Hav : ∀ x, x ∈ L → x ≠ id2 → avail x f0) (Hroom : room 1 f0).

Definition mk (ind2 : list Z) (g : Flat) : tree := Tree dir id1 ind1 id2 ind2 (ind_words g).

(** The loop's invariant with [m] blocks in the tree. *)
Record filling (m : nat) (ind2 nb : list Z) (g : Flat) : Prop := {
  fi_m : (156 ≤ m)%nat;
  fi_slots : slots (mk ind2 g) 0 m ++ pend (mk ind2 g) m ++ nb = L;
  fi_id2 : id2 ∈ slots (mk ind2 g) 0 m ++ pend (mk ind2 g) m;
  fi_mids : (id2 ∉ t_mid (mk ind2 g) <$> seq 156 (m - 156));
  fi_valid : words_valid 4 128 ind2;
  fi_same : same_outside (t_mid (mk ind2 g) <$> seq 156 (m - 156)) f0 g }.

Lemma L_u32 x : x ∈ L → is_u32 x.
Proof. by apply (proj1 (Forall_forall _ _) HL). Qed.

Lemma nodup_split (l1 l2 : list Z) x : l1 ++ l2 = L → x ∈ l1 → x ∈ l2 → False.
Proof. intros Hl H1 H2. pose proof HND as H. rewrite <-Hl in H. apply NoDup_app in H as (_ & H & _). by apply (H x). Qed.

Lemma mid_in_slots t k m : (156 ≤ k < m)%nat → t_mid t k ∈ slots t 0 m.
Proof. intros Hk. destruct (t_mid_table t k) as (j & Hj & Hx); [lia|]. eapply table_in_slots, Hx. lia. Qed.

(** The second-level table the next entry goes to. *)
Definition next_mid (m : nat) (ind2 nb : list Z) : Z :=
  if decide ((m - 156) mod 128 = 0)%nat then hd 0 nb else ind2 !!! ((m - 156) / 128)%nat.

Lemma next_mid_fresh m ind2 nb g x :
  filling m ind2 nb g → ((m - 156) mod 128 = 0)%nat → x ∈ nb →
  x ≠ id2 ∧ ∀ k, (156 ≤ k < m)%nat → t_mid (mk ind2 g) k ≠ x.
Proof.
  intros [Hm Hs Hid2 _ _ _] Hr Hx. rewrite app_assoc in Hs. split.
  - intros ->. by apply (nodup_split _ _ _ Hs Hid2).
  - intros k Hk <-. eapply (nodup_split _ _ _ Hs); [|exact Hx].
    apply elem_of_app. left. by apply mid_in_slots.
Qed.

Lemma next_mid_old m ind2 nb g :
  filling m ind2 nb g → ((m - 156) mod 128 ≠ 0)%nat →
  let id := ind2 !!! ((m - 156) / 128)%nat in
  id ∈ t_mid (mk ind2 g) <$> seq 156 (m - 156) ∧ id ∈ L ∧
  ∀ k, (156 ≤ k < m)%nat → ((k - 156) / 128 < (m - 156) / 128)%nat → t_mid (mk ind2 g) k ≠ id.
Proof.
  intros [Hm Hs _ _ _ _] Hr id. set (t := mk ind2 g) in *.
  assert (m ≠ 156%nat) as Hne by (intros ->; done).
  assert ((m - 1 - 156) / 128 = (m - 156) / 128)%nat as Hq by lia.
  assert (t_mid t (m - 1) = id) as Hid by (unfold t_mid; rewrite Hq; done).
  assert (NoDup (slots t 0 m)) as Hnd by (pose proof HND as H; rewrite <-Hs in H; by apply NoDup_app in H as (? & _ & _)).
  split; [|split].
  - rewrite <-Hid. apply list_elem_of_fmap. exists (m - 1)%nat. split; [done|]. apply elem_of_seq. lia.
  - rewrite <-Hs. apply elem_of_app. left. rewrite <-Hid. apply mid_in_slots. lia.
  - intros k Hk Hlt Heq. rewrite <-Hid in Heq.
    assert (156 + 128 * ((k - 156) / 128) = 156 + 128 * ((m - 1 - 156) / 128))%nat; [|lia].
    apply (slot_disjoint t m _ _ (t_mid t k)); [done|lia|lia| |]; apply elem_of_app; left.
    + apply t_mid_table'. lia.
    + rewrite Heq. apply t_mid_table'. lia.
Qed.

Lemma mids_snoc t t' m id :
  (156 ≤ m)%nat → (∀ k, (156 ≤ k < m)%nat → t_mid t' k = t_mid t k) → t_mid t' m = id →
  t_mid t' <$> seq 156 (S m - 156) = (t_mid t <$> seq 156 (m - 156)) ++ [id].
Proof.
  intros Hm Hk Hid. replace (S m - 156)%nat with (m - 156 + 1)%nat by lia.
  rewrite seq_app, fmap_app. f_equal.
  - apply list_fmap_ext. intros i k Hi. apply Hk. apply lookup_seq in Hi. lia.
  - replace (156 + (m - 156))%nat with m by lia. change ([t_mid t' m] = [id]). by rewrite Hid.
Qed.

(** One entry is written to the second-level table [id]. *)
Lemma fill_write m ind2 ind2' id y nb nb' g :
  let q := ((m - 156) / 128)%nat in
  let r := ((m - 156) mod 128)%nat in
  filling m ind2 nb g → ind2' !!! q = id →
  (∀ p, (p < q)%nat → ind2' !!! p = ind2 !!! p) → (r ≠ 0%nat → ind2 !!! q = id) →
  words_valid 4 128 ind2' →
  nb = (if decide (r = 0%nat) then [id] else []) ++ y :: nb' → id ∈ L → id ≠ id2 →
  (∀ k, (156 ≤ k < m)%nat → ((k - 156) / 128 < q)%nat → t_mid (mk ind2 g) k ≠ id) →
  ∃ g', modify IndirectBlock id 0 (λ ws, '(b, nb'') ← vec_next (y :: nb');
      ws' ← set_index ws (Z.of_nat r) b; mret (nb'', ws')) g = Ok (nb', g') ∧
    filling (S m) ind2' nb' g'.
Proof.
  intros q r [Hm Hs Hid2 Hmids Hv Hsame] Hq Hlow Hr Hv' Hnb HidL Hne Hfresh.
  assert (r < 128)%nat as Hr128 by (apply Nat.mod_upper_bound; lia).
  assert (y ∈ L) as HyL.
  { rewrite <-Hs, Hnb. apply elem_of_app; right. apply elem_of_app; right.
    apply elem_of_app; right. apply list_elem_of_here. }
  assert (avail id g) as Hid by (eapply avail_same; [exact Hsame|by apply Hav]).
  pose proof (room_same _ _ _ _ Hsame Hroom) as Hrg.
  pose proof (ind_words_valid id g Hid) as Hvid.
  edestruct (modify_ind (A:=list Z) id (λ ws, '(b, nb'') ← vec_next (y :: nb');
      ws' ← set_index ws (Z.of_nat r) b; mret (nb'', ws')) g nb' (<[r := y]> (ind_words g id)))
    as (b & Hb & Hrun & Hw); [done|done| |by apply words_valid_insert, L_u32|].
  { intros s. cbn [vec_next]. erewrite bind_Ok by reflexivity. cbn beta iota.
    by erewrite bind_Ok by (apply (set_index_Ok _ _ r); [done|by rewrite ind_words_length]). }
  exists (set_block id b g). split; [exact Hrun|].
  assert (∀ z, z ≠ id → ind_words (set_block id b g) z = ind_words g z) as Hoth
    by (intros; by apply ind_words_set_other).
  assert (slots (mk ind2' (set_block id b g)) 0 (S m) =
    slots (mk ind2 g) 0 m ++ pend (mk ind2 g) m ++ (if decide (r = 0%nat) then [id] else []) ++ [y]) as Hext.
  { apply (extend_sub (mk ind2 g) ind2' _ m id y); try done; cbn [t_sub mk].
    - intros p Hp. rewrite Hw. apply list_lookup_total_insert_ne. fold r in Hp. lia.
    - rewrite Hw. apply list_lookup_total_insert_eq. by rewrite ind_words_length. }
  assert (t_mid (mk ind2' (set_block id b g)) <$> seq 156 (S m - 156) =
    (t_mid (mk ind2 g) <$> seq 156 (m - 156)) ++ [id]) as Hmid.
  { apply mids_snoc; [done| |exact Hq]. intros k Hk. unfold t_mid. cbn [t_ind2 mk].
    destruct (decide ((k - 156) / 128 = q)%nat) as [Heq|Hneq].
    - rewrite Heq, Hq, Hr; [done|]. unfold q, r in *. lia.
    - apply Hlow. assert ((k - 156) / 128 ≤ q)%nat by (apply Nat.Div0.div_le_mono; lia). lia. }
  assert (pend (mk ind2' (set_block id b g)) (S m) = []) as Hpend
    by (unfold pend; by rewrite decide_False by lia).
  split.
  - lia.
  - rewrite Hpend, Hext, <-Hs, Hnb, <-!app_assoc. done.
  - rewrite Hpend, Hext, app_nil_r, app_assoc. apply elem_of_app. by left.
  - rewrite Hmid. intros [?|Heq%list_elem_of_singleton]%elem_of_app; [done|]. by apply Hne.
  - done.
  - rewrite Hmid. eapply same_outside_trans.
    + eapply same_outside_weaken; [|exact Hsame]. intros; apply elem_of_app; by left.
    + apply set_block_same_outside; [|done]. apply elem_of_app. right. apply list_elem_of_here.
Qed.

Lemma next_position m :
  (156 ≤ m)%nat →
  (if Z.of_nat ((m - 156) mod 128) + 1 =? INODE_INDIRECT1_COUNT
   then (Z.of_nat ((m - 156) / 128) + 1, 0)
   else (Z.of_nat ((m - 156) / 128), Z.of_nat ((m - 156) mod 128) + 1)) =
  (Z.of_nat ((S m - 156) / 128), Z.of_nat ((S m - 156) mod 128)).
Proof.
  intros Hm. change INODE_INDIRECT1_COUNT with 128.
  pose proof (Nat.mod_upper_bound (m - 156) 128 ltac:(lia)).
  replace (S m - 156)%nat with (S (m - 156)) by lia. generalize dependent (m - 156)%nat. intros k Hk.
  destruct (Z.eqb_spec (Z.of_nat (k mod 128) + 1) 128); f_equal; lia.
Qed.

(** One round of the loop, with and without a new second-level table. *)
Definition round_ok (m : nat) (ind2 nb : list Z) (g : Flat) : Prop :=
  ∃ ind2' nb' g',
    fill_indirect2_body (Z.of_nat ((m - 156) / 128), Z.of_nat ((m - 156) mod 128), ind2, nb) g =
      Ok ((Z.of_nat ((S m - 156) / 128), Z.of_nat ((S m - 156) mod 128), ind2', nb'), g') ∧
    filling (S m) ind2' nb' g' ∧ (length nb' < length nb)%nat.

Lemma fill_step_new m ind2 nb g :
  filling m ind2 nb g → ((m - 156) / 128 < 128)%nat → ((m - 156) mod 128 = 0)%nat →
  (2 ≤ length nb)%nat → round_ok m ind2 nb g.
Proof.
  intros Hf Hq Hr Hnb. pose proof (fi_m _ _ _ _ Hf) as Hm. pose proof (fi_valid _ _ _ _ Hf) as Hv.
  pose proof (next_position m Hm) as Hnext. pose proof Hv as [Hl2 _].
  destruct nb as [|x [|y nb']]; try (cbn in Hnb; lia).
  destruct (next_mid_fresh m _ _ g x Hf Hr) as [Hne Hfresh]; [apply list_elem_of_here|].
  assert (x ∈ L) as HxL by (rewrite <-(fi_slots _ _ _ _ Hf); set_solver).
  set (q := ((m - 156) / 128)%nat) in *.
  destruct (fill_write m ind2 (<[q := x]> ind2) x y (x :: y :: nb') nb' g) as (g' & Hrun & Hf').
  all: fold q; try done.
  - apply list_lookup_total_insert_eq. lia.
  - intros p Hp. apply list_lookup_total_insert_ne. lia.
  - by apply words_valid_insert, L_u32.
  - by rewrite decide_True.
  - auto.
  - exists (<[q := x]> ind2), nb', g'. split; [|split; [done|cbn; lia]].
    unfold fill_indirect2_body. fold q. rewrite Hr in *. change (Z.of_nat 0 =? 0) with true. cbn iota.
    erewrite bind_Ok; [|erewrite bind_Ok by reflexivity; cbn beta iota;
      erewrite bind_Ok by (apply (set_index_Ok _ _ q); [done|lia]); reflexivity].
    cbn beta iota. erewrite bind_Ok by (apply (index_Ok _ _ q); [done|rewrite length_insert; lia]).
    rewrite list_lookup_total_insert_eq by lia. erewrite bind_Ok by exact Hrun.
    cbn zeta. destruct (_ =? INODE_INDIRECT1_COUNT); apply pair_equal_spec in Hnext as [<- <-]; done.
Qed.

Lemma fill_step_old m ind2 nb g :
  filling m ind2 nb g → ((m - 156) / 128 < 128)%nat → ((m - 156) mod 128 ≠ 0)%nat →
  (1 ≤ length nb)%nat → round_ok m ind2 nb g.
Proof.
  intros Hf Hq Hr Hnb. pose proof (fi_m _ _ _ _ Hf) as Hm. pose proof (fi_valid _ _ _ _ Hf) as Hv.
  pose proof (next_position m Hm) as Hnext. pose proof Hv as [Hl2 _].
  destruct nb as [|y nb']; [cbn in Hnb; lia|].
  destruct (next_mid_old m _ _ g Hf Hr) as (Hin & HidL & Hfresh).
  set (q := ((m - 156) / 128)%nat) in *. set (r := ((m - 156) mod 128)%nat) in *.
  destruct (fill_write m ind2 ind2 (ind2 !!! q) y (y :: nb') nb' g) as (g' & Hrun & Hf').
  all: fold q; try done.
  - by rewrite decide_False.
  - intros Heq. apply (fi_mids _ _ _ _ Hf). by rewrite <-Heq.
  - exists ind2, nb', g'. split; [|split; [done|cbn; lia]].
    unfold fill_indirect2_body. fold q r. rewrite (proj2 (Z.eqb_neq (Z.of_nat r) 0)) by lia.
    erewrite bind_Ok by reflexivity. cbn beta iota.
    erewrite bind_Ok by (apply (index_Ok _ _ q); [done|lia]). erewrite bind_Ok by exact Hrun.
    cbn zeta. destruct (_ =? INODE_INDIRECT1_COUNT); apply pair_equal_spec in Hnext as [<- <-]; done.
Qed.

Lemma count_slots_step m :
  (156 ≤ m)%nat →
  count_slots (S m) = (count_slots m + 1 + (if decide (m = 156%nat) then 1 else 0) +
    (if decide ((m - 156) mod 128 = 0) then 1 else 0))%nat.
Proof. intros Hm. unfold count_slots. repeat case_decide; lia. Qed.
Lemma count_slots_mono m n : (156 ≤ m)%nat → (m ≤ n)%nat → (count_slots m ≤ count_slots n)%nat.
Proof. intros Hm Hmn. induction Hmn as [|n Hmn IH]; [done|]. rewrite count_slots_step by lia. lia. Qed.

Lemma round_runs m n ind2 nb g :
  filling m ind2 nb g → (m < n)%nat → Z.of_nat n ≤ 16540 → length L = count_slots n →
  round_ok m ind2 nb g.
Proof.
  intros Hf Hmn Hmax Hcount. pose proof (fi_m _ _ _ _ Hf) as Hm.
  pose proof (f_equal length (fi_slots _ _ _ _ Hf)) as Hlen.
  rewrite !length_app, slots_count, Hcount in Hlen.
  assert (length (pend (mk ind2 g) m) = if decide (m = 156%nat) then 1%nat else 0%nat) as Hp
    by (unfold pend; by case_decide).
  pose proof (count_slots_step m Hm) as Hstep.
  pose proof (count_slots_mono (S m) n ltac:(lia) Hmn) as Hmono.
  assert ((m - 156) / 128 < 128)%nat as Hq by (clear -Hmn Hmax Hm; lia).
  destruct (decide ((m - 156) mod 128 = 0)%nat) as [Hr|Hr].
  - apply fill_step_new; try done. lia.
  - apply fill_step_old; try done. lia.
Qed.

Lemma position_lt m n :
  (156 ≤ m ≤ n)%nat →
  (Z.of_nat ((m - 156) / 128) <? Z.of_nat ((n - 156) / 128)) ||
    ((Z.of_nat ((m - 156) / 128) =? Z.of_nat ((n - 156) / 128)) &&
     (Z.of_nat ((m - 156) mod 128) <? Z.of_nat ((n - 156) mod 128))) = bool_decide (m < n)%nat.
Proof.
  intros Hmn. rewrite (bool_decide_ext _ (m - 156 < n - 156)%nat) by lia.
  generalize (m - 156)%nat (n - 156)%nat. intros k j.
  pose proof (Nat.div_mod k 128 ltac:(lia)). pose proof (Nat.div_mod j 128 ltac:(lia)).
  pose proof (Nat.mod_upper_bound k 128 ltac:(lia)). pose proof (Nat.mod_upper_bound j 128 ltac:(lia)).
  set (qk := (k / 128)%nat) in *. set (rk := (k mod 128)%nat) in *.
  set (qj := (j / 128)%nat) in *. set (rj := (j mod 128)%nat) in *. clearbody qk rk qj rj.
  destruct (Z.ltb_spec (Z.of_nat qk) (Z.of_nat qj)), (Z.eqb_spec (Z.of_nat qk) (Z.of_nat qj)),
    (Z.ltb_spec (Z.of_nat rk) (Z.of_nat rj)); case_bool_decide; try done; exfalso; lia.
Qed.

(** The whole loop, from [m] to [n] blocks. *)
Lemma fill_loop fuel m n ind2 nb g :
  filling m ind2 nb g → (m ≤ n)%nat → (156 < n)%nat → Z.of_nat n ≤ 16540 → (length nb < fuel)%nat →
  length L = count_slots n →
  ∃ ind2' g' a b,
    mwhile fuel (λ '(a0, b0, _, _), (a0 <? Z.of_nat ((n - 156) / 128)) ||
        ((a0 =? Z.of_nat ((n - 156) / 128)) && (b0 <? Z.of_nat ((n - 156) mod 128))))
      fill_indirect2_body (Z.of_nat ((m - 156) / 128), Z.of_nat ((m - 156) mod 128), ind2, nb) g =
    Ok ((a, b, ind2', []), g') ∧ filling n ind2' [] g'.
Proof.
  intros Hf Hmn H156 Hmax Hfuel Hcount. revert m ind2 nb g Hf Hmn Hfuel.
  induction fuel as [|fuel IH]; intros m ind2 nb g Hf Hmn Hfuel; [lia|].
  pose proof (fi_m _ _ _ _ Hf) as Hm. unfold mwhile. cbn [mloop].
  rewrite position_lt by lia. case_bool_decide as Hlt.
  - destruct (round_runs m n ind2 nb g Hf Hlt Hmax Hcount) as (ind2' & nb' & g' & Hrun & Hf' & Hl).
    destruct (IH (S m) ind2' nb' g' Hf' ltac:(lia) ltac:(lia)) as (i2 & h & a & b & Hrest & Hfin).
    exists i2, h, a, b. split; [|done]. erewrite bind_Ok by (erewrite bind_Ok by exact Hrun; reflexivity).
    exact Hrest.
  - assert (m = n) as -> by lia. pose proof (f_equal length (fi_slots _ _ _ _ Hf)) as Hlen.
    rewrite !length_app, slots_count, Hcount in Hlen. destruct nb; [|cbn in Hlen; lia].
    do 4 eexists. split; [reflexivity|exact Hf].
Qed.
End fill2.

(** * Working under an open table block *)

Lemma avail_hold id x f : avail x f → x ≠ id → avail x (hold id f).
Proof. intros [Hf Hh Hok] Hne. split; [|done|done]. cbn. set_solver. Qed.
Lemma size_hold id f : (size (fl_held (hold id f)) ≤ 1 + size (fl_held f))%nat.
Proof.
  cbn. pose proof (size_union_alt {[id]} (fl_held f)) as H. rewrite size_singleton in H.
  rewrite H. pose proof (subseteq_size (fl_held f ∖ {[id]}) (fl_held f) ltac:(set_solver)). lia.
Qed.

Lemma id2_not_mid t n k :
  NoDup (slots t 0 n) → (156 ≤ k < n)%nat → t_id2 t ≠ t_mid t k.
Proof.
  intros Hnd Hk Heq. pose proof (t_mid_table' t k ltac:(lia)) as Hin.
  assert (156 = 156 + 128 * ((k - 156) / 128))%nat as Hq.
  { apply (slot_disjoint t n _ _ (t_id2 t)); [done|lia|lia| |].
    - apply elem_of_app. left. apply t_id2_table.
    - rewrite Heq. apply elem_of_app. by left. }
  assert (t_mid t 156 = t_mid t k) as Hm by (unfold t_mid; f_equal; lia).
  rewrite (slots_app t 0 156 n), (slots_app t 156 157 n), slots_one in Hnd by lia.
  apply NoDup_app in Hnd as (_ & _ & Hnd). apply NoDup_app in Hnd as (Hnd & _ & _).
  change (slot t 156) with (t_id2 t :: t_mid t 156 :: [t_block t 156]) in Hnd.
  rewrite Hm, <-Heq in Hnd.
  apply NoDup_cons in Hnd as [Hnin _]. apply Hnin, list_elem_of_here.
Qed.

Lemma modify_ind_hold {A} id (g : list Z → M Flat (A * list Z)) f r ws s' :
  avail id f → room 1 f → g (ind_words f id) (hold id f) = Ok ((r, ws), s') → words_valid 4 128 ws →
  ∃ b, block_ok b ∧ modify IndirectBlock id 0 g f = Ok (r, unhold id (set_block id b s')) ∧
    ∀ s, ind_words (set_block id b s) id = ws.
Proof.
  intros Ha Hr Hg Hv. exists (put_back IndirectBlock 0 ws (block_at f id)).
  pose proof (av_ok _ _ Ha) as Hb. split_and!.
  - apply (put_back_ok IndirectBlock (words_valid 4 128)); [done|lia|cbn; unfold BLOCK_SZ; lia|done].
  - match goal with |- ?m f = Ok ?x => assert (wp m f (λ a s, (a, s) = x)) as Hwp end.
    { eapply (wp_modify IndirectBlock (words_valid 4 128)); [by apply stored_ind, avail_open|].
      unfold wp. by rewrite Hg. }
    unfold wp in Hwp. destruct (modify _ _ _ _ f) as [[? ?]|]; [|done]. by rewrite Hwp.
  - intros s. by apply ind_words_put_back.
Qed.

Lemma same_outside_close ids id f g b :
  same_outside ids (hold id f) g → (id ∉ fl_held f) → block_ok b → 
  same_outside (id :: ids) f (unhold id (set_block id b g)).
Proof.
  intros Hs Hid Hb. pose proof (so_held _ _ _ Hs) as Hh. cbn in Hh. split.
  - cbn. rewrite Hh. set_solver.
  - apply (so_lock _ _ _ Hs).
  - intros x [Hne Hx]%not_elem_of_cons. cbn. rewrite lookup_insert_ne by done.
    by rewrite (so_out _ _ _ Hs).
  - intros x _ Ha. destruct (decide (x = id)) as [->|Hne].
    + assert (block_at (unhold id (set_block id b g)) id = b) as Hat by apply block_at_set_same.
      split; [cbn; set_solver| |by rewrite Hat]. rewrite Hat. cbn. apply lookup_insert_eq.
    + pose proof (avail_same _ _ _ x Hs (avail_hold id x f Ha Hne)) as [Hf Hhere Hok].
      assert (block_at (unhold id (set_block id b g)) x = block_at g x) as Hat by (by apply block_at_set_other).
      split; [cbn; set_solver| |by rewrite Hat]. rewrite Hat. cbn. by rewrite lookup_insert_ne.
Qed.
