(* ===== verification/InodeGrow.v ===== *)
(** Growing and clearing a file (easy-fs/src/layout.rs): [increase_size] appends
    exactly the given blocks, in order, to the blocks the inode owns, and keeps
    the data; [clear_size] returns exactly the blocks owned. *)

From S2P Require Export InodeLoop.

(** * Growing an inode *)

Definition t_tables (t : tree) (n : nat) : list Z := seq 0 n ≫= t_table t.
Lemma t_tables_elem t n x : x ∈ t_tables t n ↔ ∃ k, (k < n)%nat ∧ x ∈ t_table t k.
Proof.
  unfold t_tables. rewrite list_elem_of_bind. split.
  - intros (k & Hx & Hk%elem_of_seq). exists k. split; [lia|done].
  - intros (k & Hk & Hx). exists k. split; [done|]. apply elem_of_seq. lia.
Qed.

Lemma slot_inj_table t t' k : slot t k = slot t' k → t_table t k = t_table t' k.
Proof. unfold slot. intros Heq. by apply app_inj_1 in Heq as [? _]; [|apply t_table_length]. Qed.
(** Two trees with the same blocks: the tables of a prefix. *)
Lemma t_tables_prefix t t' m m' r r' x :
  slots t 0 m ++ r = slots t' 0 m' ++ r' → (m ≤ m')%nat → x ∈ t_tables t m → x ∈ t_tables t' m'.
Proof.
  intros Heq Hm (k & Hk & Hx)%t_tables_elem. apply t_tables_elem. exists k. split; [lia|].
  rewrite (slots_app t' 0 m m'), <-app_assoc in Heq by lia.
  apply app_inj_1 in Heq as [Heq _]; [|apply slots_length].
  by rewrite <-(slot_inj_table t t' k) by (apply (slots_inj _ _ 0 m); [done|lia]).
Qed.

Lemma DiskInode_valid_iff d :
  DiskInode_valid d ↔ length (direct d) = 28%nat ∧ Forall is_u32 (direct d) ∧ is_u32 (inode_id d) ∧
    is_u32 (di_size d) ∧ is_u32 (indirect1 d) ∧ is_u32 (indirect2 d) ∧ is_u32 (nlink d).
Proof.
  unfold DiskInode_valid, DiskInode_words. rewrite !Forall_cons, Forall_app, !Forall_cons, Forall_nil.
  naive_solver.
Qed.

(** Everything about the inode but its block table and size. *)
Definition same_meta (d d' : DiskInode) : Prop :=
  inode_id d' = inode_id d ∧ nlink d' = nlink d ∧ type_ d' = type_ d.

Section grow.
Context (L : list Z) (f0 : Flat) (new : Z).
Context (HND : NoDup L) (HL : Forall is_u32 L) (Hav : Forall (λ x, avail x f0) L).
Context (Hroom : room 2 f0).

(** [m] blocks are in the table, [nb] are still to be used. *)
Record growing (m : nat) (d : DiskInode) (f : Flat) (nb : list Z) : Prop := {
  gw_slots : slots (tree_of d f) 0 m ++ nb = L;
  gw_valid : DiskInode_valid d;
  gw_size : di_size d = new;
  gw_same : same_outside (t_tables (tree_of d f) m) f0 f }.

Lemma growing_avail m d f nb x : growing m d f nb → x ∈ L → avail x f.
Proof.
  intros Hg Hx. eapply avail_same; [apply (gw_same _ _ _ _ Hg)|].
  rewrite Forall_forall in Hav. by apply Hav.
Qed.
Lemma growing_room m d f nb : growing m d f nb → room 2 f.
Proof. intros Hg. eapply room_same; [apply (gw_same _ _ _ _ Hg)|done]. Qed.
Lemma growing_count m d f nb n :
  growing m d f nb → length L = count_slots n → (count_slots m + length nb = count_slots n)%nat.
Proof. intros Hg <-. rewrite <-(gw_slots _ _ _ _ Hg), length_app, slots_count. done. Qed.

Lemma L_elem_u32 x : x ∈ L → is_u32 x.
Proof. by apply (proj1 (Forall_forall _ _) HL). Qed.

Lemma Forall_take_L n d f nb m : growing m d f nb → Forall is_u32 (take n nb).
Proof.
  intros Hg. apply Forall_take. pose proof HL as H. rewrite <-(gw_slots _ _ _ _ Hg) in H.
  by apply Forall_app in H as [_ H].
Qed.

(** The direct blocks. *)
Lemma grow_direct m d f nb n :
  growing m d f nb → (length nb ≥ Nat.min n 28 - m)%nat →
  growing (Nat.max m (Nat.min n 28))
    (set_direct (splice m (take (Nat.min n 28 - m) nb) (direct d)) d) f (drop (Nat.min n 28 - m) nb).
Proof.
  intros Hg Hlen. destruct (decide (Nat.min n 28 - m = 0)%nat) as [H0|H0].
  { rewrite H0, take_0, drop_0, splice_nil. replace (Nat.max m (Nat.min n 28)) with m by lia.
    by destruct d. }
  pose proof Hg as [Hs Hv Hsz Hsame]. apply DiskInode_valid_iff in Hv as (Hl & Hd & Hv).
  set (xs := take (Nat.min n 28 - m) nb).
  assert (length xs = Nat.min n 28 - m)%nat as Hxs by (unfold xs; rewrite length_take; lia).
  replace (Nat.max m (Nat.min n 28)) with (m + length xs)%nat by lia.
  pose proof (extend_direct (tree_of d f) m xs Hl ltac:(lia)) as Hext.
  split.
  - change (tree_of (set_direct (splice m xs (direct d)) d) f)
      with (with_direct (splice m xs (t_direct (tree_of d f))) (tree_of d f)).
    rewrite Hext, <-app_assoc. unfold xs. by rewrite take_drop.
  - apply DiskInode_valid_iff. cbn. rewrite length_splice by lia. split_and!; try apply Hv; [done|].
    apply Forall_splice; [done|]. by eapply Forall_take_L.
  - done.
  - apply (same_outside_weaken (t_tables (tree_of d f) m)); [|exact Hsame].
    intros x (k & Hk & Hx)%t_tables_elem. apply t_tables_elem. exists k. split; [lia|exact Hx].
Qed.

(** The inode and the blocks left once the index block [indirect1] is there. *)
Definition take_indirect1 (m : nat) (d : DiskInode) (nb : list Z) : DiskInode * list Z :=
  if decide (m = 28%nat) then (set_indirect1 (hd 0 nb) d, tl nb) else (d, nb).

(** Rewriting a table block with the words it has changes nothing. *)
Lemma slots_same_words d f f' m :
  (∀ x, ind_words f' x = ind_words f x) → slots (tree_of d f') 0 m = slots (tree_of d f) 0 m.
Proof.
  intros Hw. apply slots_ext. intros k _. unfold slot, t_table, t_block, t_mid. cbn. by rewrite !Hw.
Qed.
Lemma ind_words_set_same id b f :
  ind_words (set_block id b f) id = ind_words f id →
  ∀ x, ind_words (set_block id b f) x = ind_words f x.
Proof. intros Heq x. destruct (decide (x = id)) as [->|]; [done|by apply ind_words_set_other]. Qed.

Lemma fill_indirect1_run m n i1 nb1 (s : Flat) :
  length i1 = 128%nat → (28 ≤ m)%nat → (28 < n)%nat → Z.of_nat m ≤ 16540 → Z.of_nat n ≤ 16540 →
  (Nat.min n 156 - m ≤ length nb1)%nat →
  ('(current_blocks, indirect1', new_blocks) ←
     fill_blocks (Z.min (Z.of_nat n -₃₂ 28) 128) (Z.of_nat m -₃₂ 28) i1 nb1;
   mret ((current_blocks, new_blocks), indirect1')) s =
  Ok ((Z.of_nat (Nat.max m (Nat.min n 156)) -₃₂ 28, drop (Nat.min n 156 - m) nb1,
       splice (m - 28) (take (Nat.min n 156 - m) nb1) i1), s).
Proof.
  intros Hl Hm Hn Hm' Hn' Hnb. rewrite !(wrap_small 32) by lia.
  replace (Z.min (Z.of_nat n - 28) 128) with (Z.of_nat (Nat.min n 156 - 28)) by lia.
  replace (Z.of_nat m - 28) with (Z.of_nat (m - 28)) by lia.
  erewrite bind_Ok by (apply fill_blocks_spec; lia). cbn beta iota.
  replace (Nat.min n 156 - 28 - (m - 28))%nat with (Nat.min n 156 - m)%nat by lia.
  by replace (Z.of_nat (Nat.max (m - 28) (Nat.min n 156 - 28)))
    with (Z.of_nat (Nat.max m (Nat.min n 156)) - 28) by lia.
Qed.

Lemma grow_indirect1 m d f nb n :
  growing m d f nb → (28 ≤ m ≤ n)%nat → (28 < n)%nat → Z.of_nat n ≤ 16540 →
  (Nat.min n 156 - m + (if decide (m = 28%nat) then 1 else 0) ≤ length nb)%nat →
  let '(d1, nb1) := take_indirect1 m d nb in
  ∃ f', modify IndirectBlock (indirect1 d1) 0 (λ i1,
      '(current_blocks, indirect1', new_blocks) ←
        fill_blocks (Z.min (Z.of_nat n -₃₂ 28) 128) (Z.of_nat m -₃₂ 28) i1 nb1;
      mret ((current_blocks, new_blocks), indirect1')) f =
    Ok ((Z.of_nat (Nat.max m (Nat.min n 156)) -₃₂ 28, drop (Nat.min n 156 - m) nb1), f') ∧
    growing (Nat.max m (Nat.min n 156)) d1 f' (drop (Nat.min n 156 - m) nb1).
Proof.
  intros Hg Hm Hn Hmax Hlen. pose proof Hg as [Hs Hv Hsz Hsame].
  destruct (take_indirect1 m d nb) as [d1 nb1] eqn:Htake. unfold take_indirect1 in Htake.
  assert (length nb1 = length nb - (if decide (m = 28%nat) then 1 else 0))%nat as Hl1
    by (case_decide; injection Htake as <- <-; [destruct nb; cbn in *; lia|lia]).
  assert (nb = (if decide (m = 28%nat) then [indirect1 d1] else []) ++ nb1) as Hnb
    by (case_decide; injection Htake as <- <-; [destruct nb; cbn in *; [lia|done]|done]).
  assert ((28 < m)%nat → d1 = d) as Hd1 by (intros; case_decide; [lia|congruence]).
  assert (set_indirect1 (indirect1 d1) d = d1) as Hset
    by (case_decide; injection Htake as <- <-; [done|by destruct d]).
  assert (indirect1 d1 ∈ L) as HinL.
  { rewrite <-Hs, Hnb. destruct (decide (m = 28%nat)); [set_solver|]. apply elem_of_app. left.
    rewrite (Hd1 ltac:(lia)). apply (table_in_slots _ _ 28), (t_id1_table (tree_of d f)). lia. }
  pose proof (growing_avail _ _ _ _ _ Hg HinL) as Ha.
  set (xs := take (Nat.min n 156 - m) nb1).
  assert (length xs = Nat.min n 156 - m)%nat as Hxs by (unfold xs; rewrite length_take; lia).
  assert (Forall is_u32 xs) as Hxu.
  { apply Forall_take. pose proof HL as H. rewrite <-Hs, Hnb in H. rewrite !Forall_app in H. apply H. }
  edestruct (modify_ind (indirect1 d1) (λ i1,
      '(current_blocks, indirect1', new_blocks) ←
        fill_blocks (Z.min (Z.of_nat n -₃₂ 28) 128) (Z.of_nat m -₃₂ 28) i1 nb1;
      mret ((current_blocks, new_blocks), indirect1')) f
      (Z.of_nat (Nat.max m (Nat.min n 156)) -₃₂ 28, drop (Nat.min n 156 - m) nb1)
      (splice (m - 28) xs (ind_words f (indirect1 d1)))) as (b & Hb & Hrun & Hw);
    [done|pose proof (growing_room _ _ _ _ Hg) as Hr; unfold room in *; lia| |
     apply words_valid_splice; [by apply ind_words_valid|exact Hxu|lia]|].
  { intros s. apply fill_indirect1_run; rewrite ?ind_words_length; lia. }
  eexists. split; [exact Hrun|]. fold xs in Hw.
  destruct (decide (length xs = 0%nat)) as [Hx0|Hx0].
  - assert (28 < m)%nat as H28 by lia. rewrite (Hd1 H28) in *.
    apply nil_length_inv in Hx0. rewrite Hx0, splice_nil in Hw.
    pose proof (slots_same_words d f _ m (ind_words_set_same _ b f Hw)) as Hsame'.
    replace (Nat.max m (Nat.min n 156)) with m by (rewrite Hx0 in Hxs; cbn in Hxs; lia).
    assert (drop (Nat.min n 156 - m) nb1 = nb) as ->.
    { rewrite <-Hxs, Hx0, Hnb. case_decide; [lia|done]. }
    split; [by rewrite Hsame'|done|done|].
    eapply same_outside_trans; [|apply set_block_same_outside; [|exact Hb]].
    + eapply same_outside_weaken; [|exact Hsame]. intros x.
      apply (t_tables_prefix _ _ _ _ nb nb); [by rewrite Hsame'|done].
    + apply t_tables_elem. exists 28%nat. split; [lia|]. apply (t_id1_table (tree_of d _)).
  - replace (Nat.max m (Nat.min n 156)) with (m + length xs)%nat by lia.
    assert (slots (tree_of d1 (set_block (indirect1 d1) b f)) 0 (m + length xs) ++
      drop (Nat.min n 156 - m) nb1 = L) as Hnew.
    { rewrite (slots_ext _ (with_ind1 (indirect1 d1) (splice (m - 28) xs (ind_words f (indirect1 d1)))
        (tree_of d f))).
      - rewrite extend_ind1; [|apply ind_words_length|lia..|].
        + rewrite <-Hs, Hnb, <-!app_assoc. do 2 f_equal. apply take_drop.
        + intros. by rewrite (Hd1 ltac:(lia)).
      - intros k Hk. apply slot_ext; intros; try lia; cbn; [by rewrite <-Hset|done|by rewrite Hw]. }
    split; [exact Hnew| | |].
    + rewrite <-Hset. apply DiskInode_valid_iff in Hv. apply DiskInode_valid_iff. cbn.
      split_and!; try apply Hv. by apply L_elem_u32.
    + by rewrite <-Hset.
    + eapply same_outside_trans; [|apply set_block_same_outside; [|exact Hb]].
      * eapply same_outside_weaken; [|exact Hsame]. intros x.
        eapply t_tables_prefix; [by rewrite Hnew|lia].
      * apply t_tables_elem. exists 28%nat. split; [lia|]. apply (t_id1_table (tree_of d1 _)).
Qed.

(** ** The doubly indirect block *)

Definition take_indirect2 (m : nat) (d : DiskInode) (nb : list Z) : DiskInode * list Z :=
  if decide (m = 156%nat) then (set_indirect2 (hd 0 nb) d, tl nb) else (d, nb).

(** What the loop leaves, once the doubly indirect block is written back. *)
Lemma close_indirect2 d f g ind2 b n :
  (156 < n)%nat →
  slots (mk (direct d) (indirect1 d) (ind_words f (indirect1 d)) (indirect2 d) ind2 g) 0 n = L →
  (indirect2 d ∉ t_mid (mk (direct d) (indirect1 d) (ind_words f (indirect1 d)) (indirect2 d) ind2 g)
    <$> seq 156 (n - 156)) →
  same_outside (t_mid (mk (direct d) (indirect1 d) (ind_words f (indirect1 d)) (indirect2 d) ind2 g)
    <$> seq 156 (n - 156)) (hold (indirect2 d) f) g →
  ind_words (set_block (indirect2 d) b g) (indirect2 d) = ind2 →
  slots (tree_of d (unhold (indirect2 d) (set_block (indirect2 d) b g))) 0 n = L.
Proof.
  intros Hn Hs Hmid Hsame Hw. transitivity (slots (mk (direct d) (indirect1 d) (ind_words f (indirect1 d)) (indirect2 d) ind2 g) 0 n); [|exact Hs].
  set (t := mk _ _ _ _ _ _) in *. set (f' := unhold _ _).
  assert (NoDup (slots t 0 n)) as Hnd by by rewrite Hs.
  assert (∀ x, x ≠ indirect2 d → ind_words f' x = ind_words g x) as Hoth
    by (intros; by apply ind_words_set_other).
  assert (ind_words f' (indirect1 d) = ind_words f (indirect1 d)) as H1.
  { assert (∀ j, (156 ≤ j < n)%nat → indirect1 d ∈ slot t j → False) as Hno.
    { intros j Hj Hin. assert (28%nat = j); [|lia].
      apply (slot_disjoint t n _ _ (indirect1 d)); try done; [lia|lia|].
      apply elem_of_app. left. apply (t_id1_table t). }
    rewrite Hoth.
    - unfold ind_words. f_equal. f_equal. apply (block_at_out _ (hold (indirect2 d) f) g _ Hsame).
      intros (k & Heq & Hk%elem_of_seq)%list_elem_of_fmap.
      apply (Hno (156 + 128 * ((k - 156) / 128))%nat); [lia|].
      rewrite Heq. apply elem_of_app. left. apply t_mid_table'. lia.
    - intros Heq. apply (Hno 156%nat); [lia|]. rewrite Heq. apply elem_of_app. left. apply (t_id2_table t). }
  apply slots_ext. intros k Hk. apply slot_ext; try done.
  - intros _. cbn. by rewrite H1.
  - intros Hk'. unfold t_mid. cbn. change (ind_words f' (indirect2 d)) with
      (ind_words (set_block (indirect2 d) b g) (indirect2 d)). rewrite Hw. split; [done|].
    rewrite Hoth; [done|]. intros Heq. apply Hmid. apply list_elem_of_fmap. exists k.
    split; [by rewrite <-Heq|]. apply elem_of_seq. lia.
Qed.

(** The loop's invariant holds when the doubly indirect block is opened. *)
Lemma filling_start m d f nb d1 nb1 :
  growing m d f nb → (156 ≤ m)%nat → (m = 156%nat → nb ≠ []) → take_indirect2 m d nb = (d1, nb1) →
  d1 = set_indirect2 (indirect2 d1) d ∧ indirect2 d1 ∈ L ∧
  filling (direct d) (indirect1 d) (ind_words f (indirect1 d)) (indirect2 d1) L (hold (indirect2 d1) f)
    m (ind_words f (indirect2 d1)) nb1 (hold (indirect2 d1) f).
Proof.
  intros Hg Hm Hnb Htake. pose proof Hg as [Hs Hv Hsz Hsame]. unfold take_indirect2 in Htake.
  assert (d1 = set_indirect2 (indirect2 d1) d) as Hd1
    by (case_decide; injection Htake as <- <-; by destruct d).
  assert (slots (tree_of d1 f) 0 m = slots (tree_of d f) 0 m) as Hslots.
  { case_decide as H156; injection Htake as <- <-; [|done]. apply slots_ext. intros k Hk.
    apply slot_ext; intros; first [exfalso; lia|reflexivity]. }
  assert (slots (tree_of d1 f) 0 m ++ pend (tree_of d1 f) m ++ nb1 = L) as Hs1.
  { rewrite Hslots, <-Hs. f_equal. unfold pend. case_decide; injection Htake as <- <-; [|done].
    destruct nb; [by destruct Hnb|done]. }
  assert (indirect2 d1 ∈ slots (tree_of d1 f) 0 m ++ pend (tree_of d1 f) m) as Hin.
  { apply elem_of_app. destruct (decide (m = 156%nat)) as [->|Hne].
    - right. unfold pend. rewrite decide_True by done. apply list_elem_of_here.
    - left. apply (table_in_slots _ _ 156); [lia|]. apply (t_id2_table (tree_of d1 f)). }
  split; [done|]. split; [rewrite <-Hs1, app_assoc; apply elem_of_app; by left|].
  assert (mk (direct d) (indirect1 d) (ind_words f (indirect1 d)) (indirect2 d1)
    (ind_words f (indirect2 d1)) (hold (indirect2 d1) f) = tree_of d1 f) as Hmk by by rewrite Hd1.
  assert (Forall (λ x, avail x f) (slots (tree_of d1 f) 0 m ++ pend (tree_of d1 f) m)) as Hall.
  { apply Forall_forall. intros x Hx. apply (growing_avail _ _ _ _ _ Hg). rewrite <-Hs1, app_assoc.
    apply elem_of_app. by left. }
  rewrite Forall_forall in Hall.
  split; [done|by rewrite Hmk|by rewrite Hmk| |by apply ind_words_valid, Hall|by apply same_outside_refl].
  rewrite Hmk. intros (k & Heq & Hk%elem_of_seq)%list_elem_of_fmap.
  apply (id2_not_mid (tree_of d1 f) m k); [|lia|done].
  pose proof HND as H. rewrite <-Hs1 in H. by apply NoDup_app in H as (H & _ & _).
Qed.

Lemma grow_indirect2 m d f nb n :
  growing m d f nb → (156 ≤ m ≤ n)%nat → (156 < n)%nat → Z.of_nat n ≤ 16540 →
  length L = count_slots n →
  let '(d1, nb1) := take_indirect2 m d nb in
  ∃ f', modify IndirectBlock (indirect2 d1) 0 (λ i2,
      fill_indirect2 (Z.of_nat ((m - 156) / 128)) (Z.of_nat ((m - 156) mod 128))
        (Z.of_nat ((n - 156) / 128)) (Z.of_nat ((n - 156) mod 128)) i2 nb1) f = Ok ((), f') ∧
    growing n d1 f' [].
Proof.
  intros Hg Hm Hn Hmax Hcount. pose proof Hg as [Hs Hv Hsz Hsame].
  assert (m = 156%nat → nb ≠ []) as Hnb.
  { intros -> ->. pose proof (growing_count _ _ _ _ n Hg Hcount) as Hc.
    pose proof (count_slots_mono 157 n ltac:(lia) ltac:(lia)).
    assert (count_slots 157 = 3 + count_slots 156)%nat by reflexivity. cbn [length] in Hc. lia. }
  destruct (take_indirect2 m d nb) as [d1 nb1] eqn:Htake.
  destruct (filling_start m d f nb d1 nb1 Hg ltac:(lia) Hnb Htake) as (Hd1 & HinL & Hfill).
  pose proof (growing_avail _ _ _ _ _ Hg HinL) as Ha. pose proof (growing_room _ _ _ _ Hg) as Hr.
  destruct (fill_loop (direct d) (indirect1 d) (ind_words f (indirect1 d)) (indirect2 d1) L
    (hold (indirect2 d1) f) HND HL) with (fuel := S (length nb1)) (n := n) (m := m) (nb := nb1)
    (ind2 := ind_words f (indirect2 d1)) (g := hold (indirect2 d1) f)
    as (i2 & g & a & b & Hrun & [_ Hsl _ Hmid Hv2 Hsg]); try done; [|pose proof (size_hold (indirect2 d1) f);
      unfold room in *; lia|lia..|].
  { intros x Hx Hne. apply avail_hold; [|done]. by apply (growing_avail _ _ _ _ _ Hg). }
  destruct (modify_ind_hold (indirect2 d1) (λ i2, fill_indirect2 (Z.of_nat ((m - 156) / 128))
    (Z.of_nat ((m - 156) mod 128)) (Z.of_nat ((n - 156) / 128)) (Z.of_nat ((n - 156) mod 128)) i2 nb1)
    f () i2 g Ha) as (bk & Hbk & Hmod & Hw); [unfold room in *; lia| |done|].
  { unfold fill_indirect2. by erewrite bind_Ok by exact Hrun. }
  eexists. split; [exact Hmod|].
  assert (direct d1 = direct d ∧ indirect1 d1 = indirect1 d) as [Hdd Hdi] by by rewrite Hd1.
  rewrite <-Hdd, <-Hdi in *.
  assert (slots (tree_of d1 (unhold (indirect2 d1) (set_block (indirect2 d1) bk g))) 0 n = L) as Hfin.
  { apply (close_indirect2 d1 f g i2 bk n); try done.
    unfold pend in Hsl. rewrite decide_False, !app_nil_r in Hsl by lia. done. }
  split.
  - by rewrite app_nil_r.
  - rewrite Hd1. apply DiskInode_valid_iff in Hv. apply DiskInode_valid_iff. cbn.
    split_and!; try apply Hv. by apply L_elem_u32.
  - by rewrite Hd1.
  - unfold pend in Hsl. rewrite decide_False, !app_nil_r in Hsl by lia.
    eapply same_outside_trans; [eapply same_outside_weaken; [|exact Hsame]|
      eapply same_outside_weaken; [|by apply same_outside_close; [exact Hsg|apply Ha|]]].
    + intros x. apply (t_tables_prefix _ _ _ _ nb []); [|lia]. by rewrite Hfin, app_nil_r.
    + intros x [->|(k & -> & Hk%elem_of_seq)%list_elem_of_fmap]%elem_of_cons.
      * apply t_tables_elem. exists 156%nat. split; [lia|]. apply (t_id2_table (tree_of d1 _)).
      * apply (t_tables_prefix (mk (direct d1) (indirect1 d1) (ind_words f (indirect1 d1))
          (indirect2 d1) i2 g) _ n n [] []); [by rewrite Hsl, Hfin|done|].
        apply t_tables_elem. eexists. split; [|apply t_mid_table'; lia]. lia.
Qed.
End grow.

(** * [increase_size] *)

(** What [increase_size] leaves behind. *)
Record grown (d : DiskInode) (f : Flat) (new : Z) (nb : list Z) (d' : DiskInode) (f' : Flat) : Prop := {
  gr_wf : inode_wf d' f';
  gr_size : di_size d' = new;
  gr_owned : owned d' f' = owned d f ++ nb;
  gr_blocks k : (k < nblocks d)%nat → fblock d' f' k = fblock d f k;
  gr_same : same_outside (t_tables (tree_of d' f') (nblocks d')) f f';
  gr_meta : same_meta d d' }.

Lemma owned_u32 d f : inode_wf d f → Forall is_u32 (owned d f).
Proof.
  intros Hwf. apply Forall_forall. intros x (k & Hk & Hx)%slots_elem. set (t := tree_of d f) in *.
  pose proof (wf_valid _ _ Hwf) as (Hl & Hd & _ & _ & H1 & H2 & _)%DiskInode_valid_iff.
  assert (∀ j y, (j < nblocks d)%nat → y ∈ t_table t j → words_valid 4 128 (ind_words f y)) as Hw.
  { intros j y Hj Hy. apply ind_words_valid, (wf_owned_avail d f Hwf).
    by apply (table_in_slots t _ j). }
  assert (∀ ws i, words_valid 4 128 ws → (i < 128)%nat → is_u32 (ws !!! i)) as Hlook.
  { intros ws i Hv Hi. apply (words_valid_u32 128 ws i); [done|].
    apply list_lookup_lookup_total_lt. destruct Hv as [-> _]. done. }
  destruct (wf_nblocks d f Hwf) as [_ Hmax].
  assert ((156 ≤ k)%nat → is_u32 (t_mid t k)) as Hm.
  { intros. apply Hlook; [apply (Hw 156%nat), (t_id2_table t); lia|]. lia. }
  unfold slot, t_table, t_block in Hx. apply elem_of_app in Hx as [Hx|Hx].
  - destruct (Nat.eqb_spec k 28); [by apply list_elem_of_singleton in Hx as ->|].
    destruct (Nat.ltb_spec k 156); [by apply elem_of_nil in Hx|].
    apply elem_of_app in Hx as [Hx|Hx]; case_match; try (by apply elem_of_nil in Hx);
      apply list_elem_of_singleton in Hx as ->; [done|by apply Hm].
  - apply list_elem_of_singleton in Hx as ->.
    destruct (Nat.ltb_spec k 28); [|destruct (Nat.ltb_spec k 156)].
    + apply (Forall_lookup_1 _ (direct d) k); [done|]. apply list_lookup_lookup_total_lt. cbn. lia.
    + apply Hlook; [apply (Hw 28%nat), (t_id1_table t); lia|lia].
    + destruct (t_mid_table t k) as (j & Hj & Hmid); [done|].
      apply Hlook; [apply (Hw j); [lia|done]|]. apply Nat.mod_upper_bound. lia.
Qed.

Lemma growing_start d f new nb :
  inode_wf d f → 0 ≤ new ≤ max_file_size →
  growing (owned d f ++ nb) f new (nblocks d) (set_size new d) f nb.
Proof.
  intros Hwf Hnew. split; [done| |done|apply same_outside_refl].
  pose proof (wf_valid _ _ Hwf) as Hv. apply DiskInode_valid_iff in Hv. apply DiskInode_valid_iff.
  cbn. split_and!; try apply Hv; unfold is_u32; change max_file_size with 8468480 in Hnew; lia.
Qed.

Lemma growing_end d f new nb d' f' :
  inode_wf d f → di_size d ≤ new ≤ max_file_size →
  NoDup (owned d f ++ nb) → Forall (λ x, avail x f) (owned d f ++ nb) →
  growing (owned d f ++ nb) f new (nblocks (set_size new d)) d' f' [] → same_meta d d' →
  grown d f new nb d' f'.
Proof.
  intros Hwf Hnew Hnd Hav Hg Hmeta. pose proof Hg as [Hs Hv Hsz Hsame]. rewrite app_nil_r in Hs.
  assert (nblocks d' = nblocks (set_size new d)) as Hn
    by (unfold nblocks, DiskInode_data_blocks; by rewrite Hsz).
  assert (owned d' f' = owned d f ++ nb) as Ho by (unfold owned; by rewrite Hn).
  assert (nblocks d ≤ nblocks d')%nat as Hle.
  { destruct (wf_nblocks d f Hwf) as [-> _]. pose proof (wf_size_nonneg d f Hwf).
    destruct (nblocks_spec d' Hv) as [-> _]; [lia|]. rewrite Hsz.
    apply Nat.Div0.div_le_mono. lia. }
  split; [|done|done| |by rewrite Hn|done].
  - split; [done|lia|by rewrite Ho|]. rewrite Ho. eapply Forall_impl; [exact Hav|].
    intros x Hx. by eapply avail_same.
  - intros k Hk. apply slot_inj_block, (slots_inj _ _ 0 (nblocks d)); [|lia].
    unfold owned in Ho. rewrite (slots_app _ 0 (nblocks d)) in Ho by lia.
    apply app_inj_1 in Ho as [Ho _]; [done|apply slots_length].
Qed.

Lemma take_indirect1_run {St} m d nb (s : St) :
  (m = 28%nat → nb ≠ []) →
  (if Z.of_nat m =? INODE_DIRECT_COUNT then
     '(b, new_blocks') ← vec_next nb; mret (set_indirect1 b d, new_blocks')
   else mret (d, nb)) s = Ok (take_indirect1 m d nb, s).
Proof.
  intros Hnb. change INODE_DIRECT_COUNT with 28. unfold take_indirect1.
  destruct (Z.eqb_spec (Z.of_nat m) 28), (decide (m = 28%nat)); try (exfalso; lia); [|done].
  destruct nb; [by destruct Hnb|done].
Qed.
Lemma take_indirect2_run {St} m d nb (s : St) :
  (156 ≤ m)%nat → Z.of_nat m ≤ 16540 → (m = 156%nat → nb ≠ []) →
  (if Z.of_nat m -₃₂ 28 =? INODE_INDIRECT1_COUNT then
     '(b, new_blocks') ← vec_next nb; mret (set_indirect2 b d, new_blocks')
   else mret (d, nb)) s = Ok (take_indirect2 m d nb, s).
Proof.
  intros Hm Hmax Hnb. change INODE_INDIRECT1_COUNT with 128. unfold take_indirect2.
  rewrite wrap_small by lia.
  destruct (Z.eqb_spec (Z.of_nat m - 28) 128), (decide (m = 156%nat)); try (exfalso; lia); [|done].
  destruct nb; [by destruct Hnb|done].
Qed.
Lemma take_indirect1_meta m d nb : same_meta d (take_indirect1 m d nb).1.
Proof. unfold take_indirect1. by case_decide. Qed.
Lemma take_indirect2_meta m d nb : same_meta d (take_indirect2 m d nb).1.
Proof. unfold take_indirect2. by case_decide. Qed.
Lemma same_meta_trans d1 d2 d3 : same_meta d1 d2 → same_meta d2 d3 → same_meta d1 d3.
Proof. unfold same_meta. intuition congruence. Qed.

Section increase.
Context (L : list Z) (f0 : Flat) (new : Z).
Context (HND : NoDup L) (HL : Forall is_u32 L) (Hav : Forall (λ x, avail x f0) L).
Context (Hroom : room 2 f0).

(** The part of [increase_size] beyond the direct blocks. *)
Lemma increase_indirect m n d f nb :
  growing L f0 new m d f nb → (28 ≤ m ≤ n)%nat → (28 < n)%nat → Z.of_nat n ≤ 16540 →
  length L = count_slots n →
  ∃ d' f',
    ('(d, new_blocks) ←
      (if Z.of_nat m =? INODE_DIRECT_COUNT then
         '(b, new_blocks') ← vec_next nb; mret (set_indirect1 b d, new_blocks')
       else mret (d, nb));
    '(current_blocks, new_blocks) ← modify IndirectBlock (indirect1 d) 0 (λ indirect1,
      '(current_blocks, indirect1', new_blocks) ←
        fill_blocks (Z.min (Z.of_nat n -₃₂ INODE_DIRECT_COUNT) INODE_INDIRECT1_COUNT)
          (Z.of_nat m -₃₂ INODE_DIRECT_COUNT) indirect1 new_blocks;
      mret ((current_blocks, new_blocks), indirect1'));
    if INODE_INDIRECT1_COUNT <? Z.of_nat n -₃₂ INODE_DIRECT_COUNT then
      '(d, new_blocks) ←
        (if current_blocks =? INODE_INDIRECT1_COUNT then
           '(b, new_blocks') ← vec_next new_blocks; mret (set_indirect2 b d, new_blocks')
         else mret (d, new_blocks));
      modify IndirectBlock (indirect2 d) 0 (λ indirect2,
        fill_indirect2 ((current_blocks -₃₂ INODE_INDIRECT1_COUNT) / INODE_INDIRECT1_COUNT)
          ((current_blocks -₃₂ INODE_INDIRECT1_COUNT) mod INODE_INDIRECT1_COUNT)
          ((Z.of_nat n -₃₂ INODE_DIRECT_COUNT -₃₂ INODE_INDIRECT1_COUNT) / INODE_INDIRECT1_COUNT)
          ((Z.of_nat n -₃₂ INODE_DIRECT_COUNT -₃₂ INODE_INDIRECT1_COUNT) mod INODE_INDIRECT1_COUNT)
          indirect2 new_blocks);;
      mret d
    else mret d) f = Ok (d', f') ∧ growing L f0 new n d' f' [] ∧ same_meta d d'.
Proof.
  intros Hg Hm Hn Hmax Hcount. pose proof (growing_count _ _ _ _ _ _ _ n Hg Hcount) as Hc.
  assert (count_slots n ≥ count_slots m + (Nat.min n 156 - m) + (if decide (m = 28%nat) then 1 else 0))%nat as Hcm
    by (unfold count_slots; repeat case_decide; lia).
  erewrite bind_Ok by (apply take_indirect1_run; intros -> ->; rewrite decide_True in Hcm by done; cbn [length] in Hc; lia).
  pose proof (grow_indirect1 L f0 new HND HL Hav Hroom m d f nb n Hg Hm Hn Hmax ltac:(lia)) as H1.
  pose proof (take_indirect1_meta m d nb) as Hmeta1.
  destruct (take_indirect1 m d nb) as [d1 nb1]. destruct H1 as (f1 & Hrun1 & Hg1).
  cbn beta iota. erewrite bind_Ok by exact Hrun1. cbn beta iota.
  change INODE_DIRECT_COUNT with 28. change INODE_INDIRECT1_COUNT with 128.
  rewrite !(wrap_small 32 (Z.of_nat n - 28)) by lia.
  set (m2 := Nat.max m (Nat.min n 156)) in *. set (nb2 := drop _ nb1) in *.
  destruct (Z.ltb_spec 128 (Z.of_nat n - 28)) as [H156|H156].
  2:{ exists d1, f1. split; [done|]. split; [|done]. assert (m2 = n) as Hm2 by lia.
      rewrite Hm2 in Hg1. pose proof (growing_count _ _ _ _ _ _ _ n Hg1 Hcount) as Hc1.
      destruct nb2; [done|cbn [length] in Hc1; lia]. }
  assert (156 ≤ m2 ≤ n)%nat as Hm2 by lia.
  pose proof (growing_count _ _ _ _ _ _ _ n Hg1 Hcount) as Hc1.
  erewrite bind_Ok by (apply take_indirect2_run; [lia..|]; intros Heq Hnil; rewrite Heq, Hnil in Hc1;
    pose proof (count_slots_mono 157 n ltac:(lia) ltac:(lia));
    assert (count_slots 157 = 3 + count_slots 156)%nat by reflexivity; cbn [length] in Hc1; lia).
  pose proof (grow_indirect2 L f0 new HND HL Hav Hroom m2 d1 f1 nb2 n Hg1 Hm2 ltac:(lia) Hmax Hcount) as H2.
  pose proof (take_indirect2_meta m2 d1 nb2) as Hmeta2.
  destruct (take_indirect2 m2 d1 nb2) as [d2 nb3]. destruct H2 as (f2 & Hrun2 & Hg2).
  cbn beta iota. exists d2, f2. split; [|split; [done|by eapply same_meta_trans]].
  rewrite !(wrap_small 32) by (rewrite ?(wrap_small 32) by lia; lia).
  replace (Z.of_nat m2 - 28 - 128) with (Z.of_nat (m2 - 156)) by lia.
  replace (Z.of_nat n - 28 - 128) with (Z.of_nat (n - 156)) by lia.
  rewrite !Nat2Z.inj_div, !Nat2Z.inj_mod in Hrun2. by erewrite bind_Ok by exact Hrun2.
Qed.
End increase.

Lemma increase_size_spec d f new nb :
  inode_wf d f → room 2 f → di_size d ≤ new ≤ max_file_size →
  NoDup (owned d f ++ nb) → Forall is_u32 nb → Forall (λ x, avail x f) nb →
  Z.of_nat (length nb) = DiskInode_total_blocks new - DiskInode_total_blocks (di_size d) →
  ∃ d' f', DiskInode_increase_size d new nb f = Ok (d', f') ∧ grown d f new nb d' f'.
Proof.
  intros Hwf Hroom Hnew Hnd Hu Hav Hcnt. pose proof (wf_size_nonneg d f Hwf) as Hsz.
  pose proof (growing_start d f new nb Hwf ltac:(lia)) as Hg.
  assert (Forall is_u32 (owned d f ++ nb)) as HL by (apply Forall_app_2; [by apply owned_u32|done]).
  assert (Forall (λ x, avail x f) (owned d f ++ nb)) as HA by (apply Forall_app_2; [apply Hwf|done]).
  rewrite !total_blocks_count in Hcnt by lia. set (n := nblocks (set_size new d)).
  assert (length (owned d f ++ nb) = count_slots n) as Hcount.
  { unfold owned. rewrite length_app, slots_count. unfold nblocks, DiskInode_data_blocks in *.
    change (di_size (set_size new d)) with new in *. subst n. cbn [di_size set_size]. lia. }
  assert (Z.of_nat n = DiskInode__data_blocks new ∧ Z.of_nat n ≤ 16540 ∧ (nblocks d ≤ n)%nat) as (Hn & Hmax & Hle).
  { pose proof (data_blocks_div new ltac:(lia)) as Hd. pose proof (data_blocks_div (di_size d) ltac:(lia)) as Hd0.
    subst n. unfold nblocks, DiskInode_data_blocks. cbn [di_size set_size]. rewrite Hd, Hd0.
    change max_file_size with 8468480 in Hnew. lia. }
  assert (Z.of_nat (nblocks d) = DiskInode_data_blocks d) as Hn0.
  { pose proof (data_blocks_div (di_size d) ltac:(lia)). unfold nblocks, DiskInode_data_blocks in *. lia. }
  pose proof (growing_count _ _ _ _ _ _ _ n Hg Hcount) as Hc.
  assert (count_slots n ≥ count_slots (nblocks d) + (Nat.min n 28 - nblocks d))%nat as Hcm
    by (unfold count_slots; repeat case_decide; lia).
  pose proof (grow_direct _ _ _ HL _ _ _ _ n Hg ltac:(lia)) as Hg1.
  pose proof (wf_valid _ _ Hwf) as (Hl & _)%DiskInode_valid_iff.
  unfold DiskInode_increase_size. cbn zeta.
  change (DiskInode_data_blocks (set_size new d)) with (DiskInode__data_blocks new). rewrite <-Hn, <-Hn0.
  change INODE_DIRECT_COUNT with 28. replace (Z.min (Z.of_nat n) 28) with (Z.of_nat (Nat.min n 28)) by lia.
  erewrite bind_Ok by (apply fill_blocks_spec; cbn; lia). cbn beta iota.
  destruct (Z.ltb_spec 28 (Z.of_nat n)) as [H28|H28].
  - destruct (increase_indirect _ f new Hnd HL HA Hroom _ n _ f _ Hg1 ltac:(lia) ltac:(lia) Hmax Hcount)
      as (d' & f' & Hrun & Hg2 & Hmeta).
    exists d', f'. split; [exact Hrun|]. by apply growing_end.
  - eexists _, f. split; [reflexivity|]. apply growing_end; try done.
    replace (Nat.max (nblocks d) (Nat.min n 28)) with n in Hg1 by lia.
    pose proof (growing_count _ _ _ _ _ _ _ n Hg1 Hcount) as Hc1.
    destruct (drop _ nb); [exact Hg1|cbn [length] in Hc1; lia].
Qed.
