(* ===== verification/InodeClear.v ===== *)
(** [clear_size] (easy-fs/src/layout.rs) returns exactly the blocks the inode
    owns, in order, and leaves an empty inode; growing keeps the file's bytes. *)

From S2P Require Export InodeGrow.

(** * Growing keeps the bytes *)

Lemma grown_content d f new nb d' f' :
  inode_wf d f → di_size d ≤ new → grown d f new nb d' f' →
  take (Z.to_nat (di_size d)) (content d' f') = content d f.
Proof.
  intros Hwf Hnew [Hwf' Hsz Ho Hb Hs _]. pose proof (length_content d f Hwf) as Hl.
  pose proof (wf_size_nonneg d f Hwf) as Hs0.
  apply list_eq. intros p. destruct (decide (Z.of_nat p < di_size d)) as [Hp|Hp].
  2:{ rewrite !lookup_ge_None_2; [done|lia|rewrite length_take; lia]. }
  rewrite lookup_take_lt, !lookup_content by (done || lia).
  assert (p / 512 < nblocks d)%nat as Hk by (apply nblocks_pos; apply Hwf || done).
  assert (p / 512 < nblocks d')%nat as Hk' by (apply nblocks_pos; [apply Hwf'..|lia]).
  rewrite <-(Hb _ Hk). f_equal. apply (block_at_out _ _ _ _ Hs).
  intros (j & Hj & Hin)%t_tables_elem. by apply (table_not_block _ _ j _ (wf_nodup _ _ Hwf') Hj Hk').
Qed.

(** * Clearing *)

Lemma sub_list_cons `{Inhabited A} i n (l : list A) :
  (i < length l)%nat → sub_list i (S n) l = l !!! i :: sub_list (S i) n l.
Proof.
  intros Hi. unfold sub_list.
  rewrite (drop_S l (l !!! i) i) by (by apply list_lookup_lookup_total_lt). done.
Qed.
Lemma sub_list_ext {A} i n (l l' : list A) :
  (∀ j, (i ≤ j)%nat → l !! j = l' !! j) → sub_list i n l = sub_list i n l'.
Proof. intros Heq. apply list_eq. intros j. rewrite !lookup_sub_list. case_decide; [|done]. apply Heq. lia. Qed.

(** A closure that hands back the table it was given. *)
Lemma modify_ind_same {A} id (g : list Z → M Flat (A * list Z)) f r :
  avail id f → room 1 f → g (ind_words f id) (hold id f) = Ok ((r, ind_words f id), hold id f) →
  modify IndirectBlock id 0 g f = Ok (r, f).
Proof.
  intros Ha Hr Hg. pose proof (av_ok _ _ Ha) as [Hl Hb].
  assert (put_back IndirectBlock 0 (ind_words f id) (block_at f id) = block_at f id) as Hpb.
  { unfold put_back, ind_words, IndirectBlock, words_codec. cbn [cenc csize].
    change (4 * 128)%nat with 512%nat.
    rewrite words_enc_dec by (apply Forall_sub_list || apply length_sub_list; done || lia).
    apply splice_self. lia. }
  match goal with |- ?m f = Ok ?x => assert (wp m f (λ a s, (a, s) = x)) as Hwp end.
  { eapply (wp_modify IndirectBlock (words_valid 4 128)); [by apply stored_ind, avail_open|].
    unfold wp. rewrite Hg. split; [by apply ind_words_valid|]. cbn [fst snd]. rewrite Hpb. f_equal.
    rewrite set_block_id by apply (av_here _ _ Ha). apply unhold_hold, Ha. }
  unfold wp in Hwp. destruct (modify _ _ _ _ f) as [[? ?]|]; [|done]. by rewrite Hwp.
Qed.

Lemma push_entries_run id n v f :
  avail id f → room 1 f → push_entries id n v f = Ok (v ++ take (Z.to_nat n) (ind_words f id), f).
Proof. intros Ha Hr. by apply modify_ind_same. Qed.

(** [while cur < n { v.push(table[cur]); cur += 1 }] *)
Lemma push_loop {St} (table : list Z) n fuel i v (s : St) :
  (i ≤ n ≤ length table)%nat → (n - i < fuel)%nat →
  mwhile fuel (λ '(cur, _), cur <? Z.of_nat n)
    (λ '(cur, v), b ← index table cur; mret (cur + 1, v ++ [b])) (Z.of_nat i, v) s =
  Ok ((Z.of_nat n, v ++ sub_list i (n - i) table), s).
Proof.
  revert i v. induction fuel as [|fuel IH]; intros i v Hi Hf; [lia|]. unfold mwhile. cbn [mloop].
  destruct (Z.ltb_spec (Z.of_nat i) (Z.of_nat n)) as [Hlt|Hge].
  - erewrite bind_Ok by (erewrite bind_Ok by (erewrite bind_Ok by (apply (index_Ok _ _ i); [done|lia]); reflexivity); reflexivity).
    cbn beta iota. replace (Z.of_nat i + 1) with (Z.of_nat (S i)) by lia.
    unfold mwhile in IH. rewrite IH by lia. rewrite <-app_assoc. do 4 f_equal.
    replace (n - i)%nat with (S (n - S i)) by lia. by rewrite sub_list_cons by lia.
  - assert (i = n) as -> by lia. rewrite Nat.sub_diag. unfold sub_list. by rewrite take_0, app_nil_r.
Qed.

(** [while cur < n { v.push(direct[cur]); direct[cur] = 0; cur += 1 }] *)
Lemma clear_direct_loop {St} n fuel i v (table : list Z) (s : St) :
  (i ≤ n ≤ length table)%nat → (n - i < fuel)%nat →
  mwhile fuel (λ '(cur, _, _), cur <? Z.of_nat n)
    (λ '(cur, v, direct),
      b ← index direct cur; direct' ← set_index direct cur 0; mret (cur + 1, v ++ [b], direct'))
    (Z.of_nat i, v, table) s =
  Ok ((Z.of_nat n, v ++ sub_list i (n - i) table, splice i (replicate (n - i) 0) table), s).
Proof.
  revert i v table. induction fuel as [|fuel IH]; intros i v table Hi Hf; [lia|]. unfold mwhile. cbn [mloop].
  destruct (Z.ltb_spec (Z.of_nat i) (Z.of_nat n)) as [Hlt|Hge].
  - erewrite bind_Ok by (erewrite bind_Ok by (erewrite bind_Ok by (apply (index_Ok _ _ i); [done|lia]);
      erewrite bind_Ok by (apply (set_index_Ok _ _ i); [done|lia]); reflexivity); reflexivity).
    cbn beta iota. replace (Z.of_nat i + 1) with (Z.of_nat (S i)) by lia.
    unfold mwhile in IH. rewrite IH by (rewrite ?length_insert; lia). rewrite <-app_assoc.
    replace (n - i)%nat with (S (n - S i)) by lia. cbn [replicate].
    rewrite <-insert_splice by (rewrite length_replicate; lia). rewrite sub_list_cons by lia.
    rewrite (sub_list_ext (S i) _ (<[i:=0]> table) table); [done|].
    intros j Hj. by rewrite list_lookup_insert_ne by lia.
  - assert (i = n) as -> by lia. rewrite Nat.sub_diag. unfold sub_list.
    cbn [replicate]. by rewrite take_0, app_nil_r, splice_nil.
Qed.

(** ** The blocks under the doubly indirect block *)

Definition row_slot (t : tree) (k : nat) : list Z :=
  (if decide ((k - 156) mod 128 = 0)%nat then [t_mid t k] else []) ++ [t_block t k].

Lemma slots_rows t n :
  (156 < n)%nat → slots t 156 n = t_id2 t :: (seq 156 (n - 156) ≫= row_slot t).
Proof.
  intros Hn. rewrite (slots_app t 156 157 n), slots_one by lia.
  replace (n - 156)%nat with (S (n - 157)) by lia. cbn [seq mbind list_bind].
  change (slot t 156) with (t_id2 t :: row_slot t 156). cbn [app]. do 2 f_equal.
  unfold slots. assert (∀ l, (∀ k, k ∈ l → (156 < k)%nat) → l ≫= slot t = l ≫= row_slot t) as Hl.
  { induction l as [|k l IH]; intros Hl; [done|]. cbn. rewrite IH by (intros j Hj; apply Hl; by apply list_elem_of_further).
    specialize (Hl k (list_elem_of_here _ _)). f_equal. unfold slot, t_table, row_slot.
    destruct (Nat.eqb_spec k 28), (Nat.ltb_spec k 156), (Nat.eqb_spec k 156); try (exfalso; lia).
    destruct (Nat.eqb_spec ((k - 156) mod 128) 0); by case_decide. }
  apply Hl. intros k Hk%elem_of_seq. lia.
Qed.

(** One second-level table and its first [len] entries. *)
Lemma row_slots t q len :
  (0 < len ≤ 128)%nat → length (t_sub t (t_ind2 t !!! q)) = 128%nat →
  seq (156 + 128 * q) len ≫= row_slot t = t_ind2 t !!! q :: take len (t_sub t (t_ind2 t !!! q)).
Proof.
  intros Hlen Hl. set (sub := t_sub t (t_ind2 t !!! q)) in *.
  assert (∀ r, (r < 128)%nat → row_slot t (156 + 128 * q + r) =
    (if decide (r = 0%nat) then [t_ind2 t !!! q] else []) ++ [sub !!! r]) as Hrow.
  { intros r Hr. unfold row_slot, t_block, t_mid.
    assert ((156 + 128 * q + r - 156) / 128 = q ∧ (156 + 128 * q + r - 156) mod 128 = r)%nat as [-> ->]
      by (split; lia).
    destruct (Nat.ltb_spec (156 + 128 * q + r) 28); [lia|].
    destruct (Nat.ltb_spec (156 + 128 * q + r) 156); [lia|]. done. }
  assert (∀ r len, (0 < r)%nat → (r + len ≤ 128)%nat →
    seq (156 + 128 * q + r) len ≫= row_slot t = sub_list r len sub) as Htail.
  { intros r l. revert r. induction l as [|l IH]; intros r Hr Hrl; [done|]. cbn [seq mbind list_bind].
    rewrite Hrow, decide_False by lia. cbn [app].
    replace (S (156 + 128 * q + r)) with (156 + 128 * q + S r)%nat by lia. rewrite IH by lia.
    by rewrite sub_list_cons by lia. }
  destruct len as [|len]; [lia|]. cbn [seq mbind list_bind].
  replace (156 + 128 * q)%nat with (156 + 128 * q + 0)%nat at 1 by lia.
  rewrite Hrow, decide_True by lia. cbn [app].
  replace (S (156 + 128 * q)) with (156 + 128 * q + 1)%nat by lia. rewrite Htail by lia.
  destruct sub as [|x sub]; [done|]. done.
Qed.

(** The tables the loops of [clear_size] visit. *)
Definition mids_avail (t : tree) (g : Flat) (n : nat) : Prop :=
  ∀ q, (q < n)%nat → avail (t_ind2 t !!! q) g.

Lemma push_rows (t : tree) g m q v :
  t_sub t = ind_words g → mids_avail t g (q + m) → room 1 g → (q + m ≤ length (t_ind2 t))%nat →
  mfold (λ entry v, push_entries entry INODE_INDIRECT1_COUNT (v ++ [entry]))
    (sub_list q m (t_ind2 t)) v g =
  Ok (v ++ (seq (156 + 128 * q) (128 * m) ≫= row_slot t), g).
Proof.
  intros Hsub Hav Hr. revert q v Hav. induction m as [|m IH]; intros q v Hav Hl.
  { rewrite Nat.mul_0_r. cbn. by rewrite app_nil_r. }
  rewrite sub_list_cons by lia. cbn [mfold].
  erewrite bind_Ok by (apply push_entries_run; [apply Hav; lia|done]).
  rewrite IH; [|intros p Hp; apply Hav; lia|lia]. do 2 f_equal.
  replace (128 * S m)%nat with (128 + 128 * m)%nat by lia.
  rewrite seq_app, bind_app, (row_slots t q 128) by (rewrite ?Hsub, ?ind_words_length; lia).
  change (Z.to_nat INODE_INDIRECT1_COUNT) with 128%nat.
  rewrite Hsub, <-!app_assoc. cbn [app]. do 4 f_equal.
  by replace (156 + 128 * S q)%nat with (156 + 128 * q + 128)%nat by lia.
Qed.

Lemma push_last (t : tree) g a b v :
  t_sub t = ind_words g → mids_avail t g (a + (if decide (b = 0%nat) then 0 else 1)) → room 1 g →
  (a < length (t_ind2 t))%nat ∨ b = 0%nat → (b < 128)%nat →
  (if 0 <? Z.of_nat b then
     last ← index (t_ind2 t) (Z.of_nat a); push_entries last (Z.of_nat b) (v ++ [last])
   else mret v) g =
  Ok (v ++ (seq (156 + 128 * a) b ≫= row_slot t), g).
Proof.
  intros Hsub Hav Hr Ha Hb. destruct (decide (b = 0%nat)) as [->|Hb0].
  { cbn. by rewrite app_nil_r. }
  rewrite (proj2 (Z.ltb_lt _ _)) by lia.
  erewrite bind_Ok by (apply (index_Ok _ _ a); [done|lia]).
  rewrite push_entries_run by (done || (apply Hav; lia)).
  rewrite row_slots by (rewrite ?Hsub, ?ind_words_length; lia).
  by rewrite Hsub, Nat2Z.id, <-app_assoc.
Qed.

Lemma owned_split d f n :
  n = nblocks d → (156 < n)%nat →
  owned d f = slots (tree_of d f) 0 156 ++ indirect2 d :: (seq 156 (n - 156) ≫= row_slot (tree_of d f)).
Proof.
  intros -> Hn. unfold owned. by rewrite (slots_app _ 0 156), slots_rows by lia.
Qed.
Lemma slots_28 d f n : length (direct d) = 28%nat → (n ≤ 28)%nat →
  slots (tree_of d f) 0 n = sub_list 0 n (direct d).
Proof.
  intros Hl Hn. rewrite slots_direct, Nat.sub_0_r by done.
  assert (length (sub_list 0 n (direct d)) = n) as Hls by (apply length_sub_list; lia).
  rewrite <-Hls at 1. apply map_seq_eq. intros i Hi. rewrite Hls in Hi. unfold t_block.
  destruct (Nat.ltb_spec (0 + i) 28); [|lia].
  by rewrite !list_lookup_total_alt, lookup_sub_list, decide_True.
Qed.
Lemma slots_156 d f n : (28 < n ≤ 156)%nat →
  slots (tree_of d f) 28 n = indirect1 d :: sub_list 0 (n - 28) (ind_words f (indirect1 d)).
Proof.
  intros Hn. rewrite slots_ind1 by lia. rewrite decide_True by done. cbn [app]. f_equal.
  assert (length (sub_list 0 (n - 28) (ind_words f (indirect1 d))) = n - 28)%nat as Hls
    by (apply length_sub_list; rewrite ind_words_length; lia).
  rewrite <-Hls at 1. apply map_seq_eq. intros i Hi. rewrite Hls in Hi. unfold t_block.
  destruct (Nat.ltb_spec (28 + i) 28); [lia|]. destruct (Nat.ltb_spec (28 + i) 156); [|lia].
  rewrite !list_lookup_total_alt, lookup_sub_list, decide_True by done. cbn. do 2 f_equal. lia.
Qed.

(** The inode [clear_size] leaves behind. *)
Definition cleared (d : DiskInode) (n : nat) : DiskInode :=
  let d := set_direct (splice 0 (replicate (Nat.min n 28) 0) (direct d)) (set_size 0 d) in
  if (28 <? n)%nat then
    if (156 <? n)%nat then set_indirect2 0 (set_indirect1 0 d) else set_indirect1 0 d
  else d.

(** The closure run on the doubly indirect block. *)
Lemma clear_indirect2 d f n v :
  inode_wf d f → room 2 f → n = nblocks d → (156 < n)%nat →
  modify IndirectBlock (indirect2 d) 0 (λ indirect2,
    v ← mfold (λ entry v, push_entries entry INODE_INDIRECT1_COUNT (v ++ [entry]))
          (take (Z.to_nat (Z.of_nat (n - 156) / INODE_INDIRECT1_COUNT)) indirect2) v;
    v ← (if 0 <? Z.of_nat (n - 156) mod INODE_INDIRECT1_COUNT then
           last ← index indirect2 (Z.of_nat (n - 156) / INODE_INDIRECT1_COUNT);
           push_entries last (Z.of_nat (n - 156) mod INODE_INDIRECT1_COUNT) (v ++ [last])
         else mret v);
    mret (v, indirect2)) f =
  Ok (v ++ (seq 156 (n - 156) ≫= row_slot (tree_of d f)), f).
Proof.
  intros Hwf Hr Hn Hn156. change INODE_INDIRECT1_COUNT with 128.
  destruct (wf_nblocks d f Hwf) as [_ Hmax]. rewrite <-Hn in Hmax.
  replace (Z.of_nat (n - 156) / 128) with (Z.of_nat ((n - 156) / 128)) by lia.
  replace (Z.of_nat (n - 156) mod 128) with (Z.of_nat ((n - 156) mod 128)) by lia. rewrite Nat2Z.id.
  set (a := ((n - 156) / 128)%nat). set (b := ((n - 156) mod 128)%nat).
  assert (n - 156 = 128 * a + b ∧ b < 128)%nat as [Hab Hb] by (unfold a, b; lia). clearbody a b.
  set (t := tree_of d f). assert (t_id2 t = indirect2 d) as Hid by done.
  assert (NoDup (slots t 0 n)) as Hnd by (rewrite Hn; apply Hwf).
  assert (mids_avail t (hold (indirect2 d) f) (a + (if decide (b = 0%nat) then 0 else 1))) as Hav.
  { intros q Hq. assert (t_ind2 t !!! q = t_mid t (156 + 128 * q)) as Heq
      by (unfold t_mid; f_equal; lia).
    assert (156 + 128 * q < n)%nat as Hqn by (case_decide; lia).
    rewrite Heq. apply avail_hold.
    - apply (wf_owned_avail d f Hwf). destruct (t_mid_table t (156 + 128 * q)) as (j & Hj & Hin); [lia|].
      unfold owned. rewrite <-Hn. apply (table_in_slots t n j); [lia|done].
    - rewrite <-Hid. intros Hbad. symmetry in Hbad. revert Hbad. apply (id2_not_mid t n); [done|lia]. }
  assert (room 1 (hold (indirect2 d) f)) as Hr' by (pose proof (size_hold (indirect2 d) f); unfold room in *; lia).
  pose proof (ind_words_length (indirect2 d) f) as Hl2.
  apply modify_ind_same; [|unfold room in *; lia|].
  { apply (wf_owned_avail d f Hwf). unfold owned. rewrite <-Hn.
    apply (table_in_slots _ _ 156), (t_id2_table t). lia. }
  assert (take a (ind_words f (indirect2 d)) = sub_list 0 a (t_ind2 t)) as -> by done.
  erewrite bind_Ok by (apply (push_rows t); [done|intros q Hq; apply Hav; lia|done|change (length (t_ind2 t)) with (length (ind_words f (indirect2 d))); lia]).
  erewrite bind_Ok by (apply (push_last t); [done|exact Hav|done|change (length (t_ind2 t)) with (length (ind_words f (indirect2 d))); lia|done]).
  rewrite <-app_assoc. do 3 f_equal. rewrite Hab, seq_app, bind_app. done.
Qed.

(** The closure run on the indirect block. *)
Lemma clear_indirect1 d f n k v :
  inode_wf d f → room 2 f → n = nblocks d → (28 < n)%nat → k = (Nat.min n 156 - 28)%nat →
  modify IndirectBlock (indirect1 d) 0 (λ indirect1,
    '(_, v) ←
      mwhile 129 (λ '(current_blocks, _), current_blocks <? Z.of_nat k)
        (λ '(current_blocks, v), b ← index indirect1 current_blocks; mret (current_blocks + 1, v ++ [b]))
        (0, v);
    mret (v, indirect1)) f =
  Ok (v ++ sub_list 0 k (ind_words f (indirect1 d)), f).
Proof.
  intros Hwf Hr Hn H28 Hk. apply modify_ind_same; [|unfold room in *; lia|].
  - apply (wf_owned_avail d f Hwf). unfold owned. rewrite <-Hn.
    apply (table_in_slots _ _ 28), (t_id1_table (tree_of d f)). lia.
  - erewrite bind_Ok by (apply (push_loop _ k 129 0); rewrite ?ind_words_length; lia).
    by rewrite Nat.sub_0_r.
Qed.

Lemma clear_size_spec d f :
  inode_wf d f → room 2 f →
  DiskInode_clear_size d f = Ok ((owned d f, cleared d (nblocks d)), f).
Proof.
  intros Hwf Hr. destruct (wf_nblocks d f Hwf) as [Hn Hmax]. pose proof (wf_size_nonneg d f Hwf) as Hsz.
  pose proof (wf_valid _ _ Hwf) as (Hl & _)%DiskInode_valid_iff.
  assert (DiskInode_data_blocks d = Z.of_nat (nblocks d)) as Hdb.
  { pose proof (wf_size _ _ Hwf). unfold nblocks, DiskInode_data_blocks. rewrite data_blocks_div by lia. lia. }
  unfold DiskInode_clear_size. cbn zeta. rewrite Hdb. clear Hdb. remember (nblocks d) as n eqn:Hnd.
  change INODE_DIRECT_COUNT with 28. change INODE_INDIRECT1_COUNT with 128. change INODE_INDIRECT2_COUNT with 16384.
  replace (Z.min (Z.of_nat n) 28) with (Z.of_nat (Nat.min n 28)) by lia.
  erewrite bind_Ok by (apply (clear_direct_loop _ 29 0); cbn; lia). cbn beta iota. rewrite !Nat.sub_0_r.
  change ([] ++ sub_list 0 (Nat.min n 28) (direct (set_size 0 d))) with (sub_list 0 (Nat.min n 28) (direct d)).
  rewrite <-(slots_28 d f) by lia. unfold cleared.
  destruct (Z.ltb_spec 28 (Z.of_nat n)) as [H28|H28], (Nat.ltb_spec 28 n) as [H28'|H28']; try (exfalso; lia).
  2:{ rewrite Nat.min_l by lia. by unfold owned; rewrite <-Hnd. }
  rewrite Nat.min_r by lia.
  replace (Z.min (Z.of_nat n - 28) 128) with (Z.of_nat (Nat.min n 156 - 28)) by lia.
  cbn [indirect1 indirect2 set_direct set_size set_indirect1].
  erewrite bind_Ok by (by apply (clear_indirect1 d f n)).
  assert ((slots (tree_of d f) 0 28 ++ [indirect1 d]) ++
    sub_list 0 (Nat.min n 156 - 28) (ind_words f (indirect1 d)) = slots (tree_of d f) 0 (Nat.min n 156)) as ->.
  { rewrite <-app_assoc. cbn [app]. by rewrite <-slots_156, <-slots_app by lia. }
  destruct (Z.ltb_spec 128 (Z.of_nat n - 28)) as [H156|H156], (Nat.ltb_spec 156 n) as [H156'|H156']; try (exfalso; lia).
  2:{ rewrite Nat.min_l by lia. by unfold owned; rewrite <-Hnd. }
  rewrite Nat.min_r by lia. unfold assert_. rewrite (proj2 (Z.leb_le _ _)) by lia.
  erewrite bind_Ok by reflexivity. replace (Z.of_nat n - 28 - 128) with (Z.of_nat (n - 156)) by lia.
  erewrite bind_Ok by (by apply (clear_indirect2 d f n)).
  rewrite <-app_assoc. cbn [app]. by rewrite <-owned_split.
Qed.
