(* ===== verification/InodeSpec.v ===== *)
(** What the block table of an inode promises (easy-fs/src/layout.rs): the
    theorems on [read_at], [write_at], [increase_size] and [clear_size], and the
    decision procedures with which they are run on concrete images. *)

From S2P Require Export InodeClear.

(** * Deciding well-formedness of a concrete image *)

Definition availb (f : Flat) (id : Z) : bool :=
  bool_decide (id ∉ fl_held f) &&
  match fl_blocks f !! id with Some b => block_okb b | None => false end.
Definition DiskInode_validb (d : DiskInode) : bool :=
  (length (direct d) =? 28)%nat && forallb (λ v, (0 <=? v) && (v <? 2 ^ 32)) (DiskInode_words d).
Definition inode_wfb (d : DiskInode) (f : Flat) : bool :=
  DiskInode_validb d && (di_size d <=? max_file_size) &&
  bool_decide (NoDup (owned d f)) && forallb (availb f) (owned d f).

Lemma forallb_Forall_1 {A} (p : A → bool) (P : A → Prop) l :
  (∀ x, p x = true → P x) → forallb p l = true → Forall P l.
Proof.
  intros Hp Hall. apply Forall_forall. intros x Hx. apply Hp.
  rewrite forallb_forall in Hall. apply Hall. by apply list_elem_of_In.
Qed.
Lemma availb_avail f id : availb f id = true → avail id f.
Proof.
  unfold availb. intros [Hf Hb]%andb_true_iff. apply bool_decide_eq_true in Hf.
  destruct (fl_blocks f !! id) as [b|] eqn:Heq; [|done]. apply block_okb_ok in Hb.
  assert (block_at f id = b) as Hat by (unfold block_at; by rewrite Heq). by split; rewrite ?Hat.
Qed.
Lemma DiskInode_validb_ok d : DiskInode_validb d = true → DiskInode_valid d.
Proof.
  unfold DiskInode_validb. intros [Hl Hw]%andb_true_iff. split; [by apply Nat.eqb_eq|].
  eapply forallb_Forall_1; [|exact Hw]. intros x. unfold is_u32. lia.
Qed.
Lemma inode_wfb_wf d f : inode_wfb d f = true → inode_wf d f.
Proof.
  unfold inode_wfb. intros [[[Hv Hs]%andb_true_iff Hn]%andb_true_iff Ha]%andb_true_iff.
  split; [by apply DiskInode_validb_ok|lia|by apply bool_decide_eq_true in Hn|].
  eapply forallb_Forall_1; [apply availb_avail|exact Ha].
Qed.

Lemma total_blocks_grow a b :
  0 ≤ a ≤ b → b ≤ max_file_size → 0 ≤ DiskInode_total_blocks b - DiskInode_total_blocks a < 2 ^ 32.
Proof.
  intros Ha Hb. rewrite !total_blocks_count by lia. change max_file_size with 8468480 in Hb.
  rewrite !data_blocks_div by (change max_file_size with 8468480; lia).
  unfold count_slots. repeat case_decide; lia.
Qed.

(** * The theorems *)

(** [DiskInode::read_at] is a read of the byte sequence of the file: it
    returns the number of bytes available from [offset], at most [buf.len()],
    copies exactly those bytes to the front of the buffer, leaves the rest of
    the buffer alone and changes nothing on disk; it neither panics nor loops,
    for files of every size up to the doubly indirect limit. *)
Theorem DiskInode_read_at_content d f off buf :
  inode_wf d f → room 1 f → Z.of_nat (off + length buf) < 2 ^ 64 →
  let n := Nat.min (length buf) (length (content d f) - off) in
  DiskInode_read_at d (Z.of_nat off) buf f =
    Ok ((Z.of_nat n, sub_list off n (content d f) ++ drop n buf), f).
Proof.
  intros Hwf Hr H64. rewrite read_at_spec, length_content by done.
  fold (avail_len d off (length buf)). cbn zeta. unfold splice.
  destruct (decide (off ≤ Z.to_nat (di_size d))%nat) as [Hle|Hgt].
  - rewrite length_sub_list; [by rewrite take_0|]. rewrite length_content by done. unfold avail_len. lia.
  - assert (avail_len d off (length buf) = 0%nat) as -> by (unfold avail_len; lia).
    unfold sub_list. by rewrite !take_0.
Qed.

(** [DiskInode::write_at] within the file overwrites exactly the bytes of
    the range, up to the end of the file: the new contents are the old ones with
    the data spliced in, the file still owns the same blocks, and no block
    outside the file's data blocks changes. *)
Theorem DiskInode_write_at_content d f off buf :
  inode_wf d f → room 1 f → Z.of_nat (off + length buf) < 2 ^ 64 →
  Z.of_nat off < di_size d → (0 < length buf)%nat → Forall is_byte buf →
  let n := Nat.min (length buf) (length (content d f) - off) in
  wp (DiskInode_write_at d (Z.of_nat off) buf) f (λ r f',
    r = Z.of_nat n ∧ inode_wf d f' ∧ content d f' = splice off (take n buf) (content d f) ∧
    owned d f' = owned d f ∧ same_outside (data_blocks d f) f f').
Proof.
  intros Hwf Hr H64 Hoff Hlen Hb n. unfold n. rewrite length_content by done.
  eapply wp_mono; [by apply write_at_spec|]. intros r f' [-> [Hwf' Ho _ Hc Hs]]. done.
Qed.

(** Reading back what was just written gives the data. *)
Theorem DiskInode_write_read d f off buf buf' :
  inode_wf d f → room 1 f → Z.of_nat (off + length buf) ≤ di_size d →
  (0 < length buf)%nat → Forall is_byte buf → length buf' = length buf →
  wp (DiskInode_write_at d (Z.of_nat off) buf;; DiskInode_read_at d (Z.of_nat off) buf') f
    (λ r _, r = (Z.of_nat (length buf), buf)).
Proof.
  intros Hwf Hr Hfit Hlen Hb Hl'. pose proof (wf_size_nonneg d f Hwf) as Hsz.
  pose proof (length_content d f Hwf) as Hlc.
  apply wp_bind. eapply wp_mono; [apply write_at_spec; done || lia|].
  intros r f' [_ [Hwf' _ _ Hc Hs]]. unfold wp.
  rewrite read_at_spec by (done || lia || by eapply room_same).
  assert (avail_len d off (length buf) = length buf) as Hn by (unfold avail_len; lia).
  rewrite Hl', Hn. f_equal. rewrite Hc, Hn, take_ge by lia.
  rewrite sub_list_splice_same by lia. unfold splice. rewrite take_0, drop_ge by lia. by rewrite app_nil_r.
Qed.

(** [DiskInode::increase_size] with the number of blocks that
    [blocks_num_needed] asks for succeeds, uses every new block exactly once, in
    order (tables before what they index), across the direct, indirect and doubly
    indirect levels; the old bytes of the file are kept and only blocks that are
    tables of the file are written. *)
Theorem DiskInode_increase_size_appends d f new nb n :
  inode_wf d f → room 2 f → new ≤ max_file_size →
  DiskInode_blocks_num_needed d new f = Ok (n, f) → Z.of_nat (length nb) = n →
  NoDup (owned d f ++ nb) → Forall is_u32 nb → Forall (λ x, avail x f) nb →
  wp (DiskInode_increase_size d new nb) f (λ d' f',
    inode_wf d' f' ∧ di_size d' = new ∧ owned d' f' = owned d f ++ nb ∧
    take (length (content d f)) (content d' f') = content d f ∧
    same_outside (t_tables (tree_of d' f') (nblocks d')) f f' ∧ same_meta d d').
Proof.
  intros Hwf Hr Hnew Hneed Hlen Hnd Hu Hav. unfold DiskInode_blocks_num_needed, assert_ in Hneed.
  destruct (di_size d <=? new) eqn:Hassert; [|done]. injection Hneed as <-. apply Z.leb_le in Hassert. pose proof (wf_size_nonneg d f Hwf) as Hsz.
  pose proof (total_blocks_grow (di_size d) new ltac:(lia) ltac:(lia)) as Hbound.
  rewrite wrap_small in Hlen by done.
  destruct (increase_size_spec d f new nb) as (d' & f' & Hrun & Hg); try done.
  unfold wp. rewrite Hrun. pose proof (grown_content d f new nb d' f' Hwf Hassert Hg) as Hc.
  rewrite length_content by done. by destruct Hg.
Qed.

(** [DiskInode::clear_size] returns exactly the blocks the file owns, data
    and tables, each once; their number is [total_blocks(size)], so the
    assertion in [Inode::clear] holds; the inode left behind has size 0 and owns
    nothing, and no block is changed. *)
Theorem DiskInode_clear_size_owned d f :
  inode_wf d f → room 2 f →
  ∃ d', DiskInode_clear_size d f = Ok ((owned d f, d'), f) ∧
    Z.of_nat (length (owned d f)) = DiskInode_total_blocks (di_size d) ∧
    di_size d' = 0 ∧ owned d' f = [].
Proof.
  intros Hwf Hr. exists (cleared d (nblocks d)). pose proof (wf_size_nonneg d f Hwf) as Hsz.
  split; [by apply clear_size_spec|]. split.
  - pose proof (wf_size _ _ Hwf). rewrite total_blocks_count by lia. unfold owned. by rewrite slots_count.
  - assert (di_size (cleared d (nblocks d)) = 0) as H0 by (unfold cleared; by repeat case_match).
    generalize dependent (cleared d (nblocks d)). intros d' H0. split; [done|].
    unfold owned, nblocks, DiskInode_data_blocks. by rewrite H0.
Qed.

(** * Witnesses: a disk of 64 blocks *)

Definition zblock : block := replicate 512 0.
Definition ex_disk : Flat :=
  MkFlat (list_to_map ((λ i, (i, zblock)) <$> seqZ 0 64)) ∅ false.
(** Three blocks, 1500 bytes. *)
Definition ex_file : DiskInode :=
  MkDiskInode 3 1500 ([40; 41; 42] ++ replicate 25 0) 0 0 1 File.

Lemma ex_file_wf : inode_wf ex_file ex_disk.
Proof. apply inode_wfb_wf. vm_compute. reflexivity. Qed.
Lemma ex_disk_room n : (n ≤ 16)%nat → room n ex_disk.
Proof. unfold room, BLOCK_CACHE_MAX_NUM. change (size (fl_held ex_disk)) with 0%nat. lia. Qed.
Lemma ex_file_length : length (content ex_file ex_disk) = 1500%nat.
Proof. rewrite (length_content _ _ ex_file_wf). reflexivity. Qed.

Lemma DiskInode_read_at_content_witness :
  DiskInode_read_at ex_file 500 (replicate 20 7) ex_disk =
    Ok ((20, sub_list 500 20 (content ex_file ex_disk) ++ []), ex_disk).
Proof.
  pose proof (DiskInode_read_at_content ex_file ex_disk 500 (replicate 20 7) ex_file_wf
    (ex_disk_room 1 ltac:(lia)) ltac:(cbn; lia)) as H.
  cbn zeta in H. rewrite ex_file_length in H. exact H.
Defined.
Lemma DiskInode_write_at_content_witness :
  wp (DiskInode_write_at ex_file 500 (replicate 20 7)) ex_disk (λ r f',
    r = 20 ∧ inode_wf ex_file f' ∧
    content ex_file f' = splice 500 (take 20 (replicate 20 7)) (content ex_file ex_disk) ∧
    owned ex_file f' = owned ex_file ex_disk ∧
    same_outside (data_blocks ex_file ex_disk) ex_disk f').
Proof.
  pose proof (DiskInode_write_at_content ex_file ex_disk 500 (replicate 20 7) ex_file_wf
    (ex_disk_room 1 ltac:(lia)) ltac:(cbn; lia) ltac:(cbn; lia) ltac:(cbn; lia)
    ltac:(apply Forall_replicate; unfold is_byte; lia)) as H.
  cbn zeta in H. rewrite ex_file_length in H. exact H.
Defined.
Lemma DiskInode_write_read_witness :
  wp (DiskInode_write_at ex_file 500 (replicate 20 7);; DiskInode_read_at ex_file 500 (replicate 20 0))
    ex_disk (λ r _, r = (20, replicate 20 7)).
Proof.
  apply (DiskInode_write_read ex_file ex_disk 500 (replicate 20 7) (replicate 20 0) ex_file_wf
    (ex_disk_room 1 ltac:(lia))); [cbn; lia|cbn; lia|apply Forall_replicate; unfold is_byte; lia|reflexivity].
Defined.
Lemma DiskInode_increase_size_appends_witness :
  wp (DiskInode_increase_size ex_file 15000 (seqZ 1 28)) ex_disk (λ d' f',
    inode_wf d' f' ∧ di_size d' = 15000 ∧ owned d' f' = owned ex_file ex_disk ++ seqZ 1 28 ∧
    take (length (content ex_file ex_disk)) (content d' f') = content ex_file ex_disk ∧
    same_outside (t_tables (tree_of d' f') (nblocks d')) ex_disk f' ∧ same_meta ex_file d').
Proof.
  apply (DiskInode_increase_size_appends ex_file ex_disk 15000 (seqZ 1 28) 28 ex_file_wf
    (ex_disk_room 2 ltac:(lia))).
  - change max_file_size with 8468480. lia.
  - vm_compute. reflexivity.
  - reflexivity.
  - apply (bool_decide_unpack _). vm_compute. exact I.
  - eapply (forallb_Forall_1 (λ v, (0 <=? v) && (v <? 2 ^ 32))); [unfold is_u32; intros; lia|reflexivity].
  - eapply (forallb_Forall_1 (availb ex_disk)); [apply availb_avail|vm_compute; reflexivity].
Defined.
Lemma DiskInode_clear_size_owned_witness :
  ∃ d', DiskInode_clear_size ex_file ex_disk = Ok ((owned ex_file ex_disk, d'), ex_disk) ∧
    Z.of_nat (length (owned ex_file ex_disk)) = DiskInode_total_blocks 1500 ∧
    di_size d' = 0 ∧ owned d' ex_disk = [].
Proof. apply (DiskInode_clear_size_owned ex_file ex_disk ex_file_wf (ex_disk_room 2 ltac:(lia))). Defined.
