(* ===== verification/Efs.v ===== *)
(** The file system's disk layout and its allocators (easy-fs/src/efs.rs):
    [EasyFileSystem::create], [open], the position of an inode on disk, and the
    allocation of inodes and data blocks.  The fields of an [EasyFileSystem] do
    not change once it is built; what its mutex protects is the disk. *)

From S2P Require Export Bitmap InodeSpec.

Record EasyFileSystem : Type := MkEasyFileSystem {
  inode_bitmap : Bitmap;
  data_bitmap : Bitmap;
  inode_area_start_block : Z;
  data_area_start_block : Z }.

(** Return the actual position (block id, inner offset) *)
Definition EasyFileSystem_get_disk_inode_pos (efs : EasyFileSystem) (inode_id : Z) : Z * Z :=
  let inode_size := DiskInode_size_of in
  let inodes_per_block := u32 (BLOCK_SZ / inode_size) in
  let block_id := inode_area_start_block efs +₃₂ inode_id / inodes_per_block in
  (block_id, inode_id mod inodes_per_block *₆₄ inode_size).

Definition EasyFileSystem_get_data_block_id (efs : EasyFileSystem) (data_block_id : Z) : Z :=
  data_area_start_block efs +₃₂ data_block_id.

(** The positions of the areas for a disk of [total_blocks] blocks: the file
    system and the superblock that describes it. *)
Definition EasyFileSystem_layout (total_blocks inode_bitmap_blocks : Z) : EasyFileSystem * SuperBlock :=
  let inode_bitmap := Bitmap_new 1 inode_bitmap_blocks in
  let inode_num := Bitmap_max_bits inode_bitmap in
  let inode_area_blocks := u32 ((inode_num *₆₄ DiskInode_size_of +₆₄ BLOCK_SZ -₆₄ 1) / BLOCK_SZ) in
  let inode_total_blocks := inode_bitmap_blocks +₃₂ inode_area_blocks in
  let data_total_blocks := total_blocks -₃₂ 1 -₃₂ inode_total_blocks in
  let data_bitmap_blocks := (data_total_blocks +₃₂ 4096) / 4097 in
  let data_area_blocks := data_total_blocks -₃₂ data_bitmap_blocks in
  let data_bitmap :=
    Bitmap_new (1 +₃₂ inode_bitmap_blocks +₃₂ inode_area_blocks) data_bitmap_blocks in
  (MkEasyFileSystem inode_bitmap data_bitmap (1 +₃₂ inode_bitmap_blocks)
     (1 +₃₂ inode_total_blocks +₃₂ data_bitmap_blocks),
   SuperBlock_initialize total_blocks inode_bitmap_blocks inode_area_blocks
     data_bitmap_blocks data_area_blocks).

Section ops.
Context {St : Type} `{!BlockStore St}.

Definition EasyFileSystem_alloc_inode (efs : EasyFileSystem) : M St Z :=
  r ← Bitmap_alloc (inode_bitmap efs);
  id ← unwrap r;
  mret (u32 id).

(** Return a block ID, not an ID in the data area. *)
Definition EasyFileSystem_alloc_data (efs : EasyFileSystem) : M St Z :=
  r ← Bitmap_alloc (data_bitmap efs);
  id ← unwrap r;
  mret (u32 id +₃₂ data_area_start_block efs).

Definition EasyFileSystem_dealloc_data (efs : EasyFileSystem) (block_id : Z) : M St () :=
  modify DataBlock block_id 0 (λ data_block, mret ((), map (λ _, 0) data_block));;
  Bitmap_dealloc (data_bitmap efs) (block_id -₃₂ data_area_start_block efs).

Definition EasyFileSystem_create (total_blocks inode_bitmap_blocks : Z) : M St EasyFileSystem :=
  let '(efs, super_block) := EasyFileSystem_layout total_blocks inode_bitmap_blocks in
  mfor (λ i, modify DataBlock i 0 (λ data_block, mret ((), map (λ _, 0) data_block)))
    (range 0 total_blocks);;
  modify SuperBlock_codec 0 0 (λ _, mret ((), super_block));;
  root_id ← EasyFileSystem_alloc_inode efs;
  assert_ (root_id =? 0);;
  let '(root_inode_block_id, root_inode_offset) := EasyFileSystem_get_disk_inode_pos efs 0 in
  modify DiskInode_codec root_inode_block_id root_inode_offset (λ disk_inode,
    mret ((), DiskInode_initialize disk_inode 0 Directory));;
  bs_sync_all;;
  mret efs.

(** Open an existing easy-fs from a block device. *)
Definition EasyFileSystem_open : M St EasyFileSystem :=
  read SuperBlock_codec 0 0 (λ super_block,
    assert_ (SuperBlock_is_valid super_block);;
    let inode_total_blocks := sb_inode_bitmap_blocks super_block +₃₂ sb_inode_area_blocks super_block in
    mret (MkEasyFileSystem
      (Bitmap_new 1 (sb_inode_bitmap_blocks super_block))
      (Bitmap_new (1 +₃₂ inode_total_blocks) (sb_data_bitmap_blocks super_block))
      (1 +₃₂ sb_inode_bitmap_blocks super_block)
      (1 +₃₂ inode_total_blocks +₃₂ sb_data_bitmap_blocks super_block))).
End ops.

Section sim_efs.
Context `{StoreSim S1 S2}.
Lemma sim_alloc_inode efs : sim (S1:=S1) (EasyFileSystem_alloc_inode efs) (EasyFileSystem_alloc_inode efs).
Proof. unfold EasyFileSystem_alloc_inode. sim_auto. Qed.
Lemma sim_alloc_data efs : sim (S1:=S1) (EasyFileSystem_alloc_data efs) (EasyFileSystem_alloc_data efs).
Proof. unfold EasyFileSystem_alloc_data. sim_auto. Qed.
Lemma sim_dealloc_data efs b :
  sim (S1:=S1) (EasyFileSystem_dealloc_data efs b) (EasyFileSystem_dealloc_data efs b).
Proof. unfold EasyFileSystem_dealloc_data. sim_auto. Qed.
Hint Resolve sim_alloc_inode : sim.
Lemma sim_EasyFileSystem_create t n :
  sim (S1:=S1) (EasyFileSystem_create t n) (EasyFileSystem_create t n).
Proof.
  unfold EasyFileSystem_create. cbv beta zeta delta [EasyFileSystem_layout EasyFileSystem_get_disk_inode_pos].
  sim_auto.
Qed.
Lemma sim_EasyFileSystem_open : sim (S1:=S1) EasyFileSystem_open EasyFileSystem_open.
Proof. unfold EasyFileSystem_open. sim_auto. Qed.
End sim_efs.
#[export] Hint Resolve sim_alloc_inode sim_alloc_data sim_dealloc_data sim_EasyFileSystem_create
  sim_EasyFileSystem_open : sim.
