(* ===== verification/Vfs.v ===== *)
(** The inodes clients work with (easy-fs/src/vfs.rs): directory lookup, file
    creation, reads and writes through the file system's lock, links.  A Rust
    [Inode] is a position on disk; the [EasyFileSystem] it points to is shared
    and constant. *)

From S2P Require Export Efs.

Record Inode : Type := MkInode {
  in_block_id : Z;
  in_block_offset : Z }.
#[global] Instance Inode_eq_dec : EqDecision Inode.
Proof. solve_decision. Defined.

Definition Inode_new (pos : Z * Z) : Inode := MkInode pos.1 pos.2.

Definition EasyFileSystem_root_inode {St} `{!BlockStore St} (efs : EasyFileSystem) : M St Inode :=
  bs_fs_lock (mret ());;
  pos ← bs_fs_lock (mret (EasyFileSystem_get_disk_inode_pos efs 0));
  mret (Inode_new pos).

Section ops.
Context {St : Type} `{!BlockStore St} (efs : EasyFileSystem).

Definition Inode_read_disk_inode {V} (self : Inode) (f : DiskInode → M St V) : M St V :=
  read DiskInode_codec (in_block_id self) (in_block_offset self) f.
Definition Inode_modify_disk_inode {V} (self : Inode) (f : DiskInode → M St (V * DiskInode)) : M St V :=
  modify DiskInode_codec (in_block_id self) (in_block_offset self) f.

Definition Inode_inode_id (self : Inode) : M St Z :=
  Inode_read_disk_inode self (λ d, mret (inode_id d)).
Definition Inode_nlink (self : Inode) : M St Z :=
  Inode_read_disk_inode self (λ d, mret (nlink d)).
Definition Inode_mode (self : Inode) : M St DiskInodeType :=
  Inode_read_disk_inode self (λ d, mret (if DiskInode_is_dir d then Directory else File)).

(** One round of the directory loops: entry [i] read over [dirent]. *)
Definition read_dirent (d : DiskInode) (i : Z) (dirent : DirEntry) : M St DirEntry :=
  '(n, buf) ← DiskInode_read_at d (DIRENT_SZ *₆₄ i) (DirEntry_as_bytes dirent);
  assert_ (n =? DIRENT_SZ);;
  mret (DirEntry_of_bytes buf).

Definition Inode_find_inode_id (name : list Z) (d : DiskInode) : M St (option Z) :=
  assert_ (DiskInode_is_dir d);;
  let file_count := di_size d / DIRENT_SZ in
  mloop (Z.to_nat file_count + 1) (λ '(i, dirent),
    if i <? file_count then
      dirent ← read_dirent d i dirent;
      dname ← DirEntry_name dirent;
      if bool_decide (dname = name) then mret (inr (Some (inode_number dirent)))
      else mret (inl (i + 1, dirent))
    else mret (inr None)) (0, DirEntry_new_zeros).

Definition Inode_find (self : Inode) (name : list Z) : M St (option Inode) :=
  bs_fs_lock (
    Inode_read_disk_inode self (λ disk_inode,
      r ← Inode_find_inode_id name disk_inode;
      mret ((λ id, Inode_new (EasyFileSystem_get_disk_inode_pos efs id)) <$> r))).

Definition Inode_ls (self : Inode) : M St (list (list Z)) :=
  bs_fs_lock (
    Inode_read_disk_inode self (λ disk_inode,
      let file_count := di_size disk_inode / DIRENT_SZ in
      mfold (λ i v,
        dirent ← read_dirent disk_inode i DirEntry_new_zeros;
        dname ← DirEntry_name dirent;
        mret (v ++ [dname])) (range 0 file_count) [])).

Definition Inode_increase_size (new_size : Z) (disk_inode : DiskInode) : M St DiskInode :=
  if new_size <? di_size disk_inode then mret disk_inode else
  blocks_needed ← DiskInode_blocks_num_needed disk_inode new_size;
  v ← mfold (λ _ v, b ← EasyFileSystem_alloc_data efs; mret (v ++ [b])) (range 0 blocks_needed) [];
  DiskInode_increase_size disk_inode new_size v.

(** Append a directory entry to the root directory. *)
Definition append_dirent (root_inode : DiskInode) (mk : M St DirEntry) : M St DiskInode :=
  let file_count := di_size root_inode / DIRENT_SZ in
  let new_size := (file_count +₆₄ 1) *₆₄ DIRENT_SZ in
  root_inode ← Inode_increase_size (u32 new_size) root_inode;
  dirent ← mk;
  DiskInode_write_at root_inode (file_count *₆₄ DIRENT_SZ) (DirEntry_as_bytes dirent);;
  mret root_inode.

Definition Inode_create (self : Inode) (name : list Z) : M St (option Inode) :=
  bs_fs_lock (
    existing ← Inode_read_disk_inode self (λ root_inode,
      assert_ (DiskInode_is_dir root_inode);;
      Inode_find_inode_id name root_inode);
    match existing with
    | Some _ => mret None
    | None =>
        new_inode_id ← EasyFileSystem_alloc_inode efs;
        let '(new_inode_block_id, new_inode_block_offset) :=
          EasyFileSystem_get_disk_inode_pos efs new_inode_id in
        modify DiskInode_codec new_inode_block_id new_inode_block_offset (λ new_inode,
          mret ((), DiskInode_initialize new_inode new_inode_id File));;
        Inode_modify_disk_inode self (λ root_inode,
          root_inode ← append_dirent root_inode (DirEntry_new name new_inode_id);
          mret ((), root_inode));;
        let '(block_id, block_offset) := EasyFileSystem_get_disk_inode_pos efs new_inode_id in
        assert_ ((block_id =? new_inode_block_id) && (block_offset =? new_inode_block_offset));;
        bs_sync_all;;
        mret (Some (Inode_new (block_id, block_offset)))
    end).

Definition Inode_clear (self : Inode) : M St () :=
  bs_fs_lock (
    Inode_modify_disk_inode self (λ disk_inode,
      let size := di_size disk_inode in
      '(data_blocks_dealloc, disk_inode) ← DiskInode_clear_size disk_inode;
      assert_ (Z.of_nat (length data_blocks_dealloc) =? DiskInode_total_blocks size);;
      mfor (EasyFileSystem_dealloc_data efs) data_blocks_dealloc;;
      mret ((), disk_inode));;
    bs_sync_all).

Definition Inode_read_at (self : Inode) (offset : Z) (buf : list Z) : M St (Z * list Z) :=
  bs_fs_lock (
    Inode_read_disk_inode self (λ disk_inode, DiskInode_read_at disk_inode offset buf)).

Definition Inode_write_at (self : Inode) (offset : Z) (buf : list Z) : M St Z :=
  bs_fs_lock (
    size ← Inode_modify_disk_inode self (λ disk_inode,
      disk_inode ← Inode_increase_size (u32 (offset +₆₄ Z.of_nat (length buf))) disk_inode;
      n ← DiskInode_write_at disk_inode offset buf;
      mret (n, disk_inode));
    bs_sync_all;;
    mret size).

(** [linkat]: the lookups run without the file system's lock. *)
Definition Inode_linkat (self : Inode) (oldpath newpath : list Z) (flags : Z) : M St Z :=
  assert_ (flags =? 0);;
  existing ← Inode_read_disk_inode self (λ root_inode,
    assert_ (DiskInode_is_dir root_inode);;
    Inode_find_inode_id newpath root_inode);
  match existing with
  | Some _ => mret (-1)
  | None =>
      old ← Inode_read_disk_inode self (λ root_inode,
        assert_ (DiskInode_is_dir root_inode);;
        Inode_find_inode_id oldpath root_inode);
      match old with
      | Some old_inode_id =>
          target ← Inode_find self oldpath;
          target ← unwrap target;
          Inode_read_disk_inode target (λ old_disk_node, assert_ (DiskInode_is_file old_disk_node));;
          target ← Inode_find self oldpath;
          target ← unwrap target;
          Inode_modify_disk_inode target (λ disk_inode, mret ((), DiskInode_inc_nlink disk_inode));;
          bs_fs_lock (
            dirent ← DirEntry_new newpath old_inode_id;
            Inode_modify_disk_inode self (λ root_inode,
              root_inode ← append_dirent root_inode (mret dirent);
              mret ((), root_inode)));;
          mret 0
      | None => mret (-1)
      end
  end.

(** [unlinkat]: the entry is searched again while the directory's block is
    held; the "empty block to cover the old one" is written at the end of the
    directory, not over the entry. *)
Definition Inode_unlinkat (self : Inode) (path : list Z) (flags : Z) : M St Z :=
  assert_ (flags =? 0);;
  existing ← Inode_read_disk_inode self (λ root_inode,
    assert_ (DiskInode_is_dir root_inode);;
    Inode_find_inode_id path root_inode);
  match existing with
  | Some _ =>
      res ← Inode_modify_disk_inode self (λ root_inode,
        let file_count := di_size root_inode / DIRENT_SZ in
        res ← mloop (Z.to_nat file_count + 1) (λ '(i, dirent),
          if i <? file_count then
            dirent ← read_dirent root_inode i dirent;
            dname ← DirEntry_name dirent;
            if bool_decide (dname = path) then
              DiskInode_write_at root_inode (file_count *₆₄ DIRENT_SZ)
                (DirEntry_as_bytes DirEntry_new_zeros);;
              mret (inr 0)
            else mret (inl (i + 1, dirent))
          else mret (inr (-1))) (0, DirEntry_new_zeros);
        mret (res, root_inode));
      (if res =? 0 then
         target ← Inode_find self path;
         target ← unwrap target;
         Inode_modify_disk_inode target (λ target_inode, mret ((), DiskInode_dec_nlink target_inode))
       else mret ());;
      mret res
  | None => mret (-1)
  end.
End ops.

(** * The same on every store: the cached file system refines the flat one *)

Section sim_vfs.
Context `{StoreSim S1 S2} (efs : EasyFileSystem).
Lemma sim_root_inode : sim (S1:=S1) (EasyFileSystem_root_inode efs) (EasyFileSystem_root_inode efs).
Proof. unfold EasyFileSystem_root_inode. sim_auto. Qed.
Lemma sim_read_disk_inode {V} self (f1 : DiskInode → M S1 V) (f2 : DiskInode → M S2 V) :
  (∀ d, sim (f1 d) (f2 d)) → sim (Inode_read_disk_inode self f1) (Inode_read_disk_inode self f2).
Proof. apply sim_read. Qed.
Lemma sim_modify_disk_inode {V} self (f1 : DiskInode → M S1 (V * DiskInode)) (f2 : DiskInode → M S2 (V * DiskInode)) :
  (∀ d, sim (f1 d) (f2 d)) → sim (Inode_modify_disk_inode self f1) (Inode_modify_disk_inode self f2).
Proof. apply sim_modify. Qed.
Lemma sim_read_dirent d i e : sim (S1:=S1) (read_dirent d i e) (read_dirent d i e).
Proof. unfold read_dirent. sim_auto. Qed.
Hint Resolve sim_read_dirent : sim.
Lemma sim_find_inode_id name d : sim (S1:=S1) (Inode_find_inode_id name d) (Inode_find_inode_id name d).
Proof. unfold Inode_find_inode_id. cbn zeta. sim_auto. Qed.
Hint Resolve sim_find_inode_id : sim.
Lemma sim_Inode_find self name : sim (S1:=S1) (Inode_find efs self name) (Inode_find efs self name).
Proof. unfold Inode_find, Inode_read_disk_inode. sim_auto. Qed.
Hint Resolve sim_Inode_find : sim.
Lemma sim_Inode_ls self : sim (S1:=S1) (Inode_ls self) (Inode_ls self).
Proof. unfold Inode_ls, Inode_read_disk_inode. cbn zeta. sim_auto. Qed.
Lemma sim_Inode_increase_size n d : sim (S1:=S1) (Inode_increase_size efs n d) (Inode_increase_size efs n d).
Proof. unfold Inode_increase_size. sim_auto. Qed.
Hint Resolve sim_Inode_increase_size : sim.
Lemma sim_append_dirent d (m1 : M S1 DirEntry) (m2 : M S2 DirEntry) :
  sim m1 m2 → sim (append_dirent efs d m1) (append_dirent efs d m2).
Proof. intros Hm. unfold append_dirent. cbn zeta. sim_auto. all: exact Hm. Qed.
Ltac sim_vfs := repeat (first [apply sim_append_dirent | sim_combinator | sim_step]; cbn beta).
Lemma sim_Inode_create self name : sim (S1:=S1) (Inode_create efs self name) (Inode_create efs self name).
Proof. unfold Inode_create, Inode_read_disk_inode, Inode_modify_disk_inode. sim_vfs. Qed.
Lemma sim_Inode_clear self : sim (S1:=S1) (Inode_clear efs self) (Inode_clear efs self).
Proof. unfold Inode_clear, Inode_modify_disk_inode. cbn zeta. sim_vfs. Qed.
Lemma sim_Inode_read_at self off buf : sim (S1:=S1) (Inode_read_at self off buf) (Inode_read_at self off buf).
Proof. unfold Inode_read_at, Inode_read_disk_inode. sim_vfs. Qed.
Lemma sim_Inode_write_at self off buf :
  sim (S1:=S1) (Inode_write_at efs self off buf) (Inode_write_at efs self off buf).
Proof. unfold Inode_write_at, Inode_modify_disk_inode. sim_vfs. Qed.
Lemma sim_Inode_linkat self o n fl :
  sim (S1:=S1) (Inode_linkat efs self o n fl) (Inode_linkat efs self o n fl).
Proof. unfold Inode_linkat, Inode_read_disk_inode, Inode_modify_disk_inode. sim_vfs. Qed.
Lemma sim_Inode_unlinkat self p fl :
  sim (S1:=S1) (Inode_unlinkat efs self p fl) (Inode_unlinkat efs self p fl).
Proof. unfold Inode_unlinkat, Inode_read_disk_inode, Inode_modify_disk_inode. cbn zeta. sim_vfs. Qed.
End sim_vfs.
#[export] Hint Resolve sim_root_inode sim_Inode_find sim_Inode_ls sim_Inode_increase_size
  sim_Inode_create sim_Inode_clear sim_Inode_read_at sim_Inode_write_at sim_Inode_linkat
  sim_Inode_unlinkat : sim.
