(* ===== verification/Pack.v ===== *)
(** The image packer (easy-fs-fuse/src/main.rs): a file system of 0x4000 blocks
    with one file per application.  The host's directory and files are the
    arguments: names with extensions, and contents. *)

From S2P Require Export Vfs.

Definition TOTAL_BLOCKS : Z := 0x4000.

(** [name.drain(name.find('.').unwrap()..)] *)
Definition strip_extension {S} (name_with_ext : list Z) : M S (list Z) :=
  '(dot, _) ← unwrap (find_index (Z.eqb 46) name_with_ext); mret (take dot name_with_ext).

Section pack.
Context {St : Type} `{!BlockStore St}.

(** The round of the loop over the applications. *)
Definition pack_app (efs : EasyFileSystem) (root_inode : Inode) (app all_data : list Z) : M St () :=
  inode ← Inode_create efs root_inode app;
  inode ← unwrap inode;
  _ ← Inode_write_at efs inode 0 all_data;
  mret ().

(** [easy_fs_pack] once the image is a file of [TOTAL_BLOCKS] blocks; the host
    opens the files by the names without extension.  The result is the list it
    prints. *)
Definition easy_fs_pack (dir : list (list Z)) (host_file : list Z → list Z) : M St (list (list Z)) :=
  efs ← EasyFileSystem_create TOTAL_BLOCKS 1;
  root_inode ← EasyFileSystem_root_inode efs;
  apps ← mfold (λ dir_entry apps, app ← strip_extension dir_entry; mret (apps ++ [app])) dir [];
  mfor (λ app, pack_app efs root_inode app (host_file app)) apps;;
  Inode_ls root_inode.

(** * The tests *)

(** [assert_eq!(str, from_utf8(&buffer[..len]).unwrap())] *)
Definition assert_text (str buffer : list Z) (len : Z) : M St () :=
  got ← slice buffer 0 len; assert_ (utf8_valid got);; assert_ (bool_decide (str = got)).

(** The loop that reads a file back in pieces of at most 127 bytes. *)
Definition read_back_round (filea : Inode) : Z * list Z * list Z → M St ((Z * list Z * list Z) + list Z) :=
  λ '(offset, read_buffer, read_str),
    '(len, read_buffer) ← Inode_read_at filea offset read_buffer;
    if len =? 0 then mret (inr read_str)
    else
      let offset := offset +₆₄ len in
      got ← slice read_buffer 0 len;
      assert_ (utf8_valid got);;
      mret (inl (offset, read_buffer, read_str ++ got)).
(** [rands] are the random bytes, as many as the test asks for; the buffer is the
    one the closure captured. *)
Definition random_digit (r : Z) : Z := 48 + r mod 10.
Definition random_str_test (efs : EasyFileSystem) (filea : Inode) (rands buffer : list Z) : M St (list Z) :=
  Inode_clear efs filea;;
  '(n, buffer) ← Inode_read_at filea 0 buffer;
  assert_ (n =? 0);;
  let str := random_digit <$> rands in
  _ ← Inode_write_at efs filea 0 str;
  read_str ← mloop (S (length str)) (read_back_round filea) (0, replicate 127 0, []);
  assert_ (bool_decide (str = read_str));;
  mret buffer.

Definition find_unwrap (efs : EasyFileSystem) (root_inode : Inode) (name : list Z) : M St Inode :=
  i ← Inode_find efs root_inode name; unwrap i.
Definition nlink_of (efs : EasyFileSystem) (root_inode : Inode) (name : list Z) : M St Z :=
  i ← find_unwrap efs root_inode name; Inode_read_disk_inode i (λ disk_inode, mret (nlink disk_inode)).

Definition efs_test (rands : list (list Z)) : M St (list (list Z)) :=
  _ ← EasyFileSystem_create 4096 1;
  efs ← EasyFileSystem_open;
  root_inode ← EasyFileSystem_root_inode efs;
  _ ← Inode_create efs root_inode (text "filea");
  _ ← Inode_create efs root_inode (text "fileb");
  names ← Inode_ls root_inode;
  filea ← find_unwrap efs root_inode (text "filea");
  let greet_str := text "Hello, world!" in
  _ ← Inode_write_at efs filea 0 greet_str;
  '(len, buffer) ← Inode_read_at filea 0 (replicate 233 0);
  assert_text greet_str buffer len;;
  fileb ← find_unwrap efs root_inode (text "fileb");
  _ ← Inode_write_at efs fileb 0 greet_str;
  linkat_result ← Inode_linkat efs root_inode (text "fileb") (text "filec") 0;
  assert_ (linkat_result =? 0);;
  filec ← find_unwrap efs root_inode (text "filec");
  '(len, buffer) ← Inode_read_at filec 0 (replicate 233 0);
  assert_text greet_str buffer len;;
  n ← nlink_of efs root_inode (text "filec");
  assert_ (n =? 2);;
  unlinkat_result ← Inode_unlinkat efs root_inode (text "fileb") 0;
  n ← nlink_of efs root_inode (text "filec");
  assert_ (unlinkat_result =? 0);;
  assert_ (n =? 1);;
  '(len, buffer) ← Inode_read_at filec 0 buffer;
  assert_text greet_str buffer len;;
  _ ← mfold (λ r buffer, random_str_test efs filea r buffer) rands buffer;
  mret names.
End pack.

(** The lengths of the eight random strings. *)
Definition random_lengths : list Z :=
  [4 * BLOCK_SZ; 8 * BLOCK_SZ + BLOCK_SZ / 2; 100 * BLOCK_SZ; 70 * BLOCK_SZ + BLOCK_SZ / 7; (12 + 128) * BLOCK_SZ;
   400 * BLOCK_SZ; 1000 * BLOCK_SZ; 2000 * BLOCK_SZ].
