(* ===== verification/VfsSpec.v ===== *)
(** What the file system promises: inode slots do not overlap, a directory is
    the list of its entries, and the block cache is transparent to every
    sequence of file-system operations. *)

From S2P Require Export Vfs BlockCache.

(** * Inode positions *)

(** Inode slots never overlap: two different inodes live in different
    blocks or at least an inode's size apart, and a slot lies within its block. *)
Theorem get_disk_inode_pos_disjoint efs i j :
  0 ≤ i < 2 ^ 32 → 0 ≤ j < 2 ^ 32 → i ≠ j →
  0 ≤ inode_area_start_block efs → inode_area_start_block efs + 2 ^ 32 / 3 < 2 ^ 32 →
  let '(bi, oi) := EasyFileSystem_get_disk_inode_pos efs i in
  let '(bj, oj) := EasyFileSystem_get_disk_inode_pos efs j in
  0 ≤ oi ∧ oi + DiskInode_size_of ≤ BLOCK_SZ ∧ inode_area_start_block efs ≤ bi ∧
  (bi ≠ bj ∨ oi + DiskInode_size_of ≤ oj ∨ oj + DiskInode_size_of ≤ oi).
Proof.
  intros Hi Hj Hne H0 H1. unfold EasyFileSystem_get_disk_inode_pos, DiskInode_size_of.
  change (u32 (BLOCK_SZ / 136)) with 3. rewrite !wrap_small by lia. unfold BLOCK_SZ. lia.
Qed.
Lemma get_disk_inode_pos_disjoint_witness :
  let efs := (EasyFileSystem_layout 8192 1).1 in
  let '(bi, oi) := EasyFileSystem_get_disk_inode_pos efs 3 in
  let '(bj, oj) := EasyFileSystem_get_disk_inode_pos efs 5 in
  0 ≤ oi ∧ oi + DiskInode_size_of ≤ BLOCK_SZ ∧ inode_area_start_block efs ≤ bi ∧
  (bi ≠ bj ∨ oi + DiskInode_size_of ≤ oj ∨ oj + DiskInode_size_of ≤ oi).
Proof.
  exact (get_disk_inode_pos_disjoint (EasyFileSystem_layout 8192 1).1 3 5 ltac:(lia) ltac:(lia)
    ltac:(lia) ltac:(vm_compute; discriminate) ltac:(vm_compute; reflexivity)).
Defined.

(** The inode area is too small for the inode bitmap: [create] sizes it as
    if inodes were packed across blocks, while [get_disk_inode_pos] puts three
    in each block.  With one bitmap block, inode 3264 and all later ones (the
    bitmap hands out numbers up to 4095) lie in the data bitmap, not in the
    inode area. *)
Theorem inode_area_overlaps_data_bitmap total :
  let efs := (EasyFileSystem_layout total 1).1 in
  Bitmap_max_bits (inode_bitmap efs) = 4096 ∧
  (EasyFileSystem_get_disk_inode_pos efs 3263).1 = start_block_id (data_bitmap efs) - 1 ∧
  (EasyFileSystem_get_disk_inode_pos efs 3264).1 = start_block_id (data_bitmap efs).
Proof. split_and!; reflexivity. Qed.

(** * Directories *)

(** The name of an entry, when [DirEntry::name] does not panic. *)
Definition entry_name (e : DirEntry) : option (list Z) :=
  match find_index (λ b, b =? 0) (de_name e) with
  | Some (len, _) =>
      if utf8_valid (take len (de_name e)) then Some (take len (de_name e)) else None
  | None => None
  end.
Definition entry_at (d : DiskInode) (f : Flat) (i : nat) : DirEntry :=
  DirEntry_of_bytes (sub_list (32 * i) 32 (content d f)).
Definition entry_count (d : DiskInode) : nat := Z.to_nat (di_size d / DIRENT_SZ).

(** The directory as a list of names and inode numbers. *)
Definition dir_list (d : DiskInode) (f : Flat) : list (list Z * Z) :=
  (λ i, (default [] (entry_name (entry_at d f i)), inode_number (entry_at d f i)))
    <$> seq 0 (entry_count d).
Definition dir_lookup (name : list Z) (l : list (list Z * Z)) : option Z :=
  (λ p, p.2.2) <$> find_index (λ e, bool_decide (e.1 = name)) l.

(** A directory whose entries all have readable names. *)
Record dir_wf (d : DiskInode) (f : Flat) : Prop := {
  dw_inode : inode_wf d f;
  dw_dir : DiskInode_is_dir d = true;
  dw_names i : (i < entry_count d)%nat → is_Some (entry_name (entry_at d f i)) }.

Lemma DirEntry_name_entry {S} e nm (s : S) :
  entry_name e = Some nm → DirEntry_name e s = Ok (nm, s).
Proof.
  unfold entry_name, DirEntry_name. destruct (find_index _ _) as [[len b]|]; [|done].
  destruct (utf8_valid _); [|done]. by intros [= <-].
Qed.

Lemma read_dirent_run d f i e :
  inode_wf d f → room 1 f → (i < entry_count d)%nat → length (DirEntry_as_bytes e) = 32%nat →
  read_dirent d (Z.of_nat i) e f = Ok (entry_at d f i, f).
Proof.
  intros Hwf Hr Hi He. pose proof (wf_size_nonneg d f Hwf) as Hsz.
  unfold entry_count, DIRENT_SZ in Hi. unfold read_dirent. change DIRENT_SZ with 32.
  rewrite wrap_small by lia. replace (32 * Z.of_nat i) with (Z.of_nat (32 * i)) by lia.
  assert (avail_len d (32 * i) 32 = 32%nat) as Hn by (unfold avail_len; lia).
  erewrite bind_Ok by (apply read_at_spec; done || lia). rewrite He, Hn. cbn beta iota.
  erewrite bind_Ok by reflexivity. unfold entry_at. do 3 f_equal.
  unfold splice. rewrite take_0, length_sub_list, drop_ge, app_nil_r; [done|cbn; lia|].
  rewrite length_content by done. lia.
Qed.
Lemma as_bytes_entry_at d f i :
  inode_wf d f → (i < entry_count d)%nat → length (DirEntry_as_bytes (entry_at d f i)) = 32%nat.
Proof.
  intros Hwf Hi. pose proof (wf_size_nonneg d f Hwf) as Hsz. unfold entry_count, DIRENT_SZ in Hi.
  unfold DirEntry_as_bytes, entry_at, DirEntry_of_bytes. cbn [de_name inode_number].
  rewrite length_app, length_le_enc, length_sub_list; [done|].
  rewrite length_sub_list; [lia|]. rewrite length_content by done. lia.
Qed.

Lemma dir_list_lookup d f i :
  (i < entry_count d)%nat → dir_list d f !! i =
    Some (default [] (entry_name (entry_at d f i)), inode_number (entry_at d f i)).
Proof. intros Hi. unfold dir_list. by rewrite list_lookup_fmap, lookup_seq_lt. Qed.

Lemma find_index_drop {A} (p : A → bool) l i x :
  l !! i = Some x → find_index p (drop i l) =
    if p x then Some (0%nat, x) else (λ r, (S r.1, r.2)) <$> find_index p (drop (S i) l).
Proof.
  intros Hi. rewrite (drop_S l x i Hi). cbn. destruct (p x); [done|].
  by destruct (find_index p (drop (S i) l)) as [[j y]|].
Qed.

Lemma find_inode_id_spec name d f :
  dir_wf d f → room 1 f →
  Inode_find_inode_id name d f = Ok (dir_lookup name (dir_list d f), f).
Proof.
  intros [Hwf Hdir Hnames] Hr. unfold Inode_find_inode_id. rewrite Hdir.
  erewrite bind_Ok by reflexivity. cbn zeta.
  assert (∀ k i e, (i + k = entry_count d)%nat → length (DirEntry_as_bytes e) = 32%nat →
    mloop (k + 1) (λ '(i, dirent), if i <? di_size d / DIRENT_SZ then
      dirent ← read_dirent d i dirent; dname ← DirEntry_name dirent;
      if bool_decide (dname = name) then mret (inr (Some (inode_number dirent)))
      else mret (inl (i + 1, dirent)) else mret (inr None)) (Z.of_nat i, e) f =
    Ok (dir_lookup name (drop i (dir_list d f)), f)) as Hloop.
  { pose proof (wf_size_nonneg d f Hwf) as Hsz.
    induction k as [|k IH]; intros i e Hk He; cbn [mloop Nat.add].
    - destruct (Z.ltb_spec (Z.of_nat i) (di_size d / DIRENT_SZ)) as [Hlt|_].
      { unfold entry_count, DIRENT_SZ in *. lia. }
      rewrite drop_ge; [done|]. unfold dir_list. rewrite length_map, length_seq. lia.
    - destruct (Z.ltb_spec (Z.of_nat i) (di_size d / DIRENT_SZ)) as [_|Hge].
      2:{ unfold entry_count, DIRENT_SZ in *. lia. }
      assert (i < entry_count d)%nat as Hi by lia.
      destruct (Hnames i Hi) as [nm Hnm]. unfold dir_lookup.
      rewrite (find_index_drop _ _ _ _ (dir_list_lookup d f i Hi)). rewrite Hnm. cbn [from_option id fst].
      rewrite (bind_Ok _ _ _ (if bool_decide (nm = name) then inr (Some (inode_number (entry_at d f i)))
        else inl (Z.of_nat i + 1, entry_at d f i)) f).
      2:{ erewrite bind_Ok by (by apply read_dirent_run). cbn beta.
          erewrite bind_Ok by (by apply DirEntry_name_entry). by case_bool_decide. }
      case_bool_decide; [done|]. replace (Z.of_nat i + 1) with (Z.of_nat (S i)) by lia.
      rewrite IH by (lia || by apply as_bytes_entry_at). unfold dir_lookup.
      by destruct (find_index _ (drop (S i) _)) as [[j y]|]. }
  apply (Hloop (entry_count d) 0%nat); [done|reflexivity].
Qed.

Lemma ls_spec d f :
  dir_wf d f → room 1 f →
  mfold (λ i v, dirent ← read_dirent d i DirEntry_new_zeros; dname ← DirEntry_name dirent;
    mret (v ++ [dname])) (range 0 (di_size d / DIRENT_SZ)) [] f = Ok ((dir_list d f).*1, f).
Proof.
  intros [Hwf Hdir Hnames] Hr. pose proof (wf_size_nonneg d f Hwf) as Hsz.
  assert (∀ k i v, (i + k = entry_count d)%nat →
    mfold (λ i v, dirent ← read_dirent d i DirEntry_new_zeros; dname ← DirEntry_name dirent;
      mret (v ++ [dname])) (seqZ (Z.of_nat i) (Z.of_nat k)) v f =
    Ok (v ++ (drop i (dir_list d f)).*1, f)) as Hloop.
  { induction k as [|k IH]; intros i v Hk.
    - rewrite drop_ge; [by rewrite app_nil_r|]. unfold dir_list. rewrite length_map, length_seq. lia.
    - assert (i < entry_count d)%nat as Hi by lia. destruct (Hnames i Hi) as [nm Hnm].
      rewrite seqZ_cons by lia. cbn [mfold].
      erewrite bind_Ok by (erewrite bind_Ok by (by apply read_dirent_run);
        erewrite bind_Ok by (by apply DirEntry_name_entry); reflexivity). cbn beta.
      replace (Z.succ (Z.of_nat i)) with (Z.of_nat (S i)) by lia.
      replace (Z.pred (Z.of_nat (S k))) with (Z.of_nat k) by lia. rewrite IH by lia.
      rewrite (drop_S _ _ _ (dir_list_lookup d f i Hi)), Hnm. cbn. by rewrite <-app_assoc. }
  unfold range. rewrite Z.sub_0_r.
  replace (di_size d / DIRENT_SZ) with (Z.of_nat (entry_count d)) by (unfold entry_count, DIRENT_SZ; lia).
  by rewrite (Hloop (entry_count d) 0%nat).
Qed.

(** ** Inside the locks *)

Definition lock_fs (l : bool) (f : Flat) : Flat := MkFlat (fl_blocks f) (fl_held f) l.

Lemma fs_lock_run {A} (m : M Flat A) f r f' :
  fl_fs_locked f = false → m (lock_fs true f) = Ok (r, f') →
  bs_fs_lock m f = Ok (r, lock_fs false f').
Proof.
  intros Hl Hm. cbn. unfold mbind, M_bind. cbn. rewrite Hl. cbn.
  change (MkFlat (fl_blocks f) (fl_held f) true) with (lock_fs true f). by rewrite Hm.
Qed.
Lemma lock_fs_id f : fl_fs_locked f = false → lock_fs false (lock_fs true f) = f.
Proof. destruct f; cbn. by intros ->. Qed.

Lemma inode_wf_hold d f id l :
  inode_wf d f → (id ∉ owned d f) → inode_wf d (hold id (lock_fs l f)).
Proof.
  intros [Hv Hs Hn Ha] Hid. split; try done. apply Forall_forall. intros x Hx.
  rewrite Forall_forall in Ha. destruct (Ha x Hx) as [Hf Hh Hok].
  assert (x ≠ id) by (intros ->; done). split; [cbn; set_solver|done|done].
Qed.
Lemma room_hold n f id l : room (S n) f → room n (hold id (lock_fs l f)).
Proof. intros Hr. pose proof (size_hold id (lock_fs l f)). unfold room in *. cbn in *. lia. Qed.

(** The inode [self] of a directory or file [d] whose own block it does not use. *)
Record inode_at (self : Inode) (d : DiskInode) (f : Flat) : Prop := {
  ia_stored : ∃ b, stored DiskInode_codec (in_block_id self) (in_block_offset self) f b d;
  ia_wf : inode_wf d f;
  ia_own : (in_block_id self ∉ owned d f) }.

Lemma read_inode_run {V} self d f (k : DiskInode → M Flat V) r :
  inode_at self d f → fl_fs_locked f = false →
  k d (hold (in_block_id self) (lock_fs true f)) = Ok (r, hold (in_block_id self) (lock_fs true f)) →
  bs_fs_lock (Inode_read_disk_inode self k) f = Ok (r, f).
Proof.
  intros [[b Hst] Hwf Hown] Hl Hk. rewrite <-(lock_fs_id f Hl) at 2. apply fs_lock_run; [done|].
  assert (stored DiskInode_codec (in_block_id self) (in_block_offset self) (lock_fs true f) b d) as Hst'.
  { destruct Hst as [[? ? ? ?] ? ? ?]. by split. }
  assert (wp (Inode_read_disk_inode self k) (lock_fs true f) (λ a s, a = r ∧ s = lock_fs true f)) as Hwp.
  { eapply (wp_read DiskInode_codec); [done|]. unfold wp. rewrite Hk. split; [done|].
    apply unhold_hold. by destruct Hst as [[? ? ? ?] ? ? ?]. }
  unfold wp in Hwp. destruct (Inode_read_disk_inode self k _) as [[? ?]|]; [|done].
  by destruct Hwp as [-> ->].
Qed.

(** The search in the directory [self], with or without the file system's lock. *)
Lemma lookup_run self d f name l :
  inode_at self d f → dir_wf d f → room 2 f →
  Inode_read_disk_inode self (λ root_inode,
    assert_ (DiskInode_is_dir root_inode);; Inode_find_inode_id name root_inode) (lock_fs l f) =
  Ok (dir_lookup name (dir_list d f), lock_fs l f).
Proof.
  intros [[b Hst] _ Hown] [Hwf Hdir Hn] Hr.
  assert (dir_wf d (hold (in_block_id self) (lock_fs l f))) as Hdw by (split; [by apply inode_wf_hold|done|done]).
  assert (wp (Inode_read_disk_inode self (λ root_inode,
    assert_ (DiskInode_is_dir root_inode);; Inode_find_inode_id name root_inode)) (lock_fs l f)
    (λ a s, a = dir_lookup name (dir_list d f) ∧ s = lock_fs l f)) as Hwp.
  { eapply (wp_read DiskInode_codec); [destruct Hst as [[? ? ? ?] ? ? ?]; by split|]. rewrite Hdir. unfold wp.
    erewrite bind_Ok by reflexivity. rewrite (find_inode_id_spec name d _ Hdw (room_hold 1 f _ l Hr)). split; [done|].
    apply unhold_hold. by destruct Hst as [[? ? ? ?] ? ? ?]. }
  apply wp_Ok in Hwp as (a & s & -> & -> & ->). done.
Qed.
Lemma Inode_find_run efs self d f name :
  inode_at self d f → dir_wf d f → fl_fs_locked f = false → room 2 f →
  Inode_find efs self name f =
    Ok ((λ id, Inode_new (EasyFileSystem_get_disk_inode_pos efs id)) <$> dir_lookup name (dir_list d f), f).
Proof.
  intros Hat [Hwf Hdir Hn] Hl Hr. pose proof Hat as [_ _ Hown].
  assert (dir_wf d (hold (in_block_id self) (lock_fs true f))) as Hdw by (split; [by apply inode_wf_hold|done|done]).
  apply (read_inode_run self d f); [done|done|].
  by rewrite (bind_Ok _ _ _ _ _ (find_inode_id_spec name d _ Hdw (room_hold 1 f _ true Hr))).
Qed.

(** C15: a directory is the list of its entries: [find] returns the position of
    the inode of the first entry with the name and [None] when there is none,
    [ls] returns all the names in order; neither panics nor changes the disk. *)
Theorem Inode_find_ls_spec efs self d f name :
  inode_at self d f → dir_wf d f → fl_fs_locked f = false → room 2 f →
  Inode_find efs self name f =
    Ok ((λ id, Inode_new (EasyFileSystem_get_disk_inode_pos efs id)) <$>
          dir_lookup name (dir_list d f), f) ∧
  Inode_ls self f = Ok ((dir_list d f).*1, f).
Proof.
  intros Hat Hdw Hl Hr. split; [by apply Inode_find_run|]. destruct Hdw as [Hwf Hdir Hn]. pose proof Hat as [_ _ Hown].
  apply (read_inode_run self d f); [done|done|].
  refine (ls_spec d _ _ (room_hold 1 f (in_block_id self) true Hr)). split; [by apply inode_wf_hold|done|done].
Qed.

Lemma Inode_read_at_run self d f off buf :
  inode_at self d f → fl_fs_locked f = false → room 2 f → Z.of_nat (off + length buf) < 2 ^ 64 →
  let n := Nat.min (length buf) (length (content d f) - off) in
  Inode_read_at self (Z.of_nat off) buf f =
    Ok ((Z.of_nat n, sub_list off n (content d f) ++ drop n buf), f).
Proof.
  intros Hat Hl Hr H64 n. pose proof Hat as [[b Hst] Hwf Hown].
  pose proof (room_hold 1 f (in_block_id self) true Hr) as Hr'.
  apply (read_inode_run self d f); [done|done|].
  rewrite read_at_spec by (done || by apply inode_wf_hold).
  assert (avail_len d off (length buf) = n) as -> by (unfold n; by rewrite length_content).
  unfold splice. rewrite take_0. do 3 f_equal. cbn [app].
  change (content d (hold _ _)) with (content d f). f_equal. f_equal.
  destruct (decide (off ≤ length (content d f))%nat).
  - rewrite length_sub_list; [done|]. unfold n. lia.
  - assert (n = 0%nat) as -> by (unfold n; lia). done.
Qed.

(** [Inode::read_at] reads the contents of the file through the lock. *)
Theorem Inode_read_at_content self d f off buf :
  inode_at self d f → fl_fs_locked f = false → room 2 f → Z.of_nat (off + length buf) < 2 ^ 64 →
  let n := Nat.min (length buf) (length (content d f) - off) in
  Inode_read_at self (Z.of_nat off) buf f =
    Ok ((Z.of_nat n, sub_list off n (content d f) ++ drop n buf), f).
Proof. apply Inode_read_at_run. Qed.

(** * The block cache is transparent *)

Inductive fs_op : Type :=
| OpFind (self : Inode) (name : list Z)
| OpLs (self : Inode)
| OpCreate (self : Inode) (name : list Z)
| OpClear (self : Inode)
| OpReadAt (self : Inode) (offset : Z) (buf : list Z)
| OpWriteAt (self : Inode) (offset : Z) (buf : list Z)
| OpLinkat (self : Inode) (oldpath newpath : list Z) (flags : Z)
| OpUnlinkat (self : Inode) (path : list Z) (flags : Z).

Inductive fs_result : Type :=
| RInode (r : option Inode) | RNames (l : list (list Z)) | RUnit
| RBytes (n : Z) (buf : list Z) | RNum (n : Z).

Section trace.
Context {St : Type} `{!BlockStore St} (efs : EasyFileSystem).

Definition fs_run (op : fs_op) : M St fs_result :=
  match op with
  | OpFind self name => r ← Inode_find efs self name; mret (RInode r)
  | OpLs self => r ← Inode_ls self; mret (RNames r)
  | OpCreate self name => r ← Inode_create efs self name; mret (RInode r)
  | OpClear self => Inode_clear efs self;; mret RUnit
  | OpReadAt self off buf => '(n, b) ← Inode_read_at self off buf; mret (RBytes n b)
  | OpWriteAt self off buf => n ← Inode_write_at efs self off buf; mret (RNum n)
  | OpLinkat self o n fl => r ← Inode_linkat efs self o n fl; mret (RNum r)
  | OpUnlinkat self p fl => r ← Inode_unlinkat efs self p fl; mret (RNum r)
  end.

(** A session: a sequence of operations and their results. *)
Definition fs_session (ops : list fs_op) : M St (list fs_result) :=
  mfold (λ op rs, r ← fs_run op; mret (rs ++ [r])) ops [].
End trace.

Lemma sim_fs_session `{StoreSim S1 S2} efs ops :
  sim (S1:=S1) (fs_session efs ops) (fs_session efs ops).
Proof. unfold fs_session. apply sim_mfold. intros op rs. destruct op; cbn; sim_auto. Qed.

(** C17: the block cache is transparent to the file system: on a freshly
    mounted device, every session of file-system operations, of any length and
    touching any number of blocks, returns the same results through the
    16-entry write-back cache as on the plain blocks of the device, and fails
    in the same way if it fails; and a final [block_cache_sync_all] leaves on
    the device exactly the blocks of the plain run. *)
Theorem file_system_cache_transparent efs ops (d : BlockFile) :
  match fs_session efs ops (flat_of d) with
  | Ok (rs, f') =>
      ∃ c' c'', fs_session efs ops (mount d) = Ok (rs, c') ∧
        block_cache_sync_all c' = Ok ((), c'') ∧
        ∀ id, read_block (device c'') id = fl_blocks f' !! id
  | Fail e => fs_session efs ops (mount d) = Fail e
  end.
Proof.
  pose proof (sim_fs_session (S1:=CacheState BlockFile) (S2:=Flat) efs ops) as Hsim.
  specialize (Hsim (mount d) (flat_of d) (mount_Rel d)).
  destruct (fs_session efs ops (flat_of d)) as [[rs f']|e]; [|exact Hsim].
  destruct Hsim as (c' & Hrun & HR & Hheld & _).
  pose proof (cached_sim_sync_all c' f' HR) as Hsync. cbn in Hsync.
  unfold mbind, M_bind in Hsync. cbn in Hsync. rewrite decide_True in Hsync by done.
  destruct Hsync as (c'' & Hs & _). exists c', c''. split; [done|]. split; [done|].
  by eapply sync_all_durable.
Qed.

(** * Witnesses: a root directory with the files "a" (inode 1) and "bc" (inode 2) *)

Definition ex_root : DiskInode := MkDiskInode 0 64 ([40] ++ replicate 27 0) 0 0 1 Directory.
Definition ex_entries : list Z :=
  ([97] ++ replicate 27 0 ++ [1; 0; 0; 0]) ++ ([98; 99] ++ replicate 26 0 ++ [2; 0; 0; 0]).
Definition ex_root_disk : Flat :=
  set_block 5 (cenc DiskInode_codec ex_root (replicate 136 0) ++ replicate 376 0)
    (set_block 40 (ex_entries ++ replicate 448 0) ex_disk).
Definition ex_self : Inode := MkInode 5 0.
Definition ex_efs : EasyFileSystem := MkEasyFileSystem (Bitmap_new 1 1) (Bitmap_new 30 1) 5 31.

Lemma ex_root_at : inode_at ex_self ex_root ex_root_disk.
Proof.
  split.
  - exists (block_at ex_root_disk 5). split; cbn [in_block_id in_block_offset ex_self]; [|lia|vm_compute; discriminate|vm_compute; reflexivity].
    apply avail_open; [apply availb_avail; vm_compute; reflexivity|].
    unfold room, BLOCK_CACHE_MAX_NUM. change (size (fl_held ex_root_disk)) with 0%nat. lia.
  - apply inode_wfb_wf. vm_compute. reflexivity.
  - apply (bool_decide_unpack _). vm_compute. exact I.
Qed.
Lemma ex_root_dir : dir_wf ex_root ex_root_disk.
Proof.
  split; [apply ex_root_at|reflexivity|]. intros i Hi. change (entry_count ex_root) with 2%nat in Hi.
  destruct i as [|[|i]]; [..|lia]; vm_compute; by eexists.
Qed.
Lemma ex_root_room : room 2 ex_root_disk.
Proof. unfold room, BLOCK_CACHE_MAX_NUM. change (size (fl_held ex_root_disk)) with 0%nat. lia. Qed.

Lemma Inode_find_ls_spec_witness :
  Inode_find ex_efs ex_self [98; 99] ex_root_disk =
    Ok ((λ id, Inode_new (EasyFileSystem_get_disk_inode_pos ex_efs id)) <$>
          dir_lookup [98; 99] (dir_list ex_root ex_root_disk), ex_root_disk) ∧
  Inode_ls ex_self ex_root_disk = Ok ((dir_list ex_root ex_root_disk).*1, ex_root_disk).
Proof.
  apply (Inode_find_ls_spec ex_efs ex_self ex_root ex_root_disk [98; 99] ex_root_at ex_root_dir
    eq_refl ex_root_room).
Defined.
Example ex_dir_list : dir_list ex_root ex_root_disk = [([97], 1); ([98; 99], 2)].
Proof. vm_compute. reflexivity. Qed.

Lemma Inode_read_at_content_witness :
  Inode_read_at ex_self 32 (replicate 40 7) ex_root_disk =
    Ok ((32, sub_list 32 32 (content ex_root ex_root_disk) ++ replicate 8 7), ex_root_disk).
Proof.
  pose proof (Inode_read_at_content ex_self ex_root ex_root_disk 32 (replicate 40 7) ex_root_at
    eq_refl ex_root_room ltac:(cbn; lia)) as H.
  cbn zeta in H. rewrite (length_content _ _ (ia_wf _ _ _ ex_root_at)) in H. exact H.
Defined.

(** [unlinkat] reports success and drops the link count, but the entry stays:
    its "empty block" is written past the last entry. *)
Example unlinked_file_still_found :
  match Inode_unlinkat ex_efs ex_self [98; 99] 0 (set_block 5
    (cenc DiskInode_codec ex_root (replicate 136 0) ++ replicate 136 0 ++
     cenc DiskInode_codec (MkDiskInode 2 0 (replicate 28 0) 0 0 1 File) (replicate 136 0) ++ replicate 104 0)
    ex_root_disk) with
  | Ok (r, f') => r = 0 ∧
      match Inode_find ex_efs ex_self [98; 99] f' with
      | Ok (i, _) => i = Some (MkInode 5 272)
      | Fail _ => False
      end
  | Fail _ => False
  end.
Proof. vm_compute. split; reflexivity. Qed.
