(* ===== verification/VfsWrite.v ===== *)
(** Writing a file that grows (easy-fs/src/vfs.rs, [Inode::write_at] with
    [increase_size], and [EasyFileSystem::alloc_data] of easy-fs/src/efs.rs): the
    blocks come from the data bitmap, the lowest free ones first, and the contents
    of the file are the old ones with the data written over them. *)

From S2P Require Export VfsSpec.

(** * Allocating data blocks *)

Definition bitmap_blocks (bm : Bitmap) : list Z := seqZ (start_block_id bm) (blocks bm).
Definition data_block (efs : EasyFileSystem) (i : Z) : Z := data_area_start_block efs + i.

(** The first [L] blocks of the data area exist, the bitmap covers them, and it
    lies before the data area. *)
Record area_wf (efs : EasyFileSystem) (L : Z) (f : Flat) : Prop := {
  aw_bitmap : bitmap_ok (data_bitmap efs) f;
  aw_before : start_block_id (data_bitmap efs) + blocks (data_bitmap efs) ≤ data_area_start_block efs;
  aw_limit : 0 ≤ L ≤ blocks (data_bitmap efs) * BLOCK_BITS;
  aw_u32 : data_area_start_block efs + L ≤ 2 ^ 32;
  aw_avail i : 0 ≤ i < L → avail (data_block efs i) f }.

(** The bits of a bitmap that are clear, lowest first; the free blocks of the
    area. *)
Definition clear_bits (bm : Bitmap) (L : Z) (f : Flat) : list Z :=
  filter (λ i, bit_of bm f i = false) (seqZ 0 L).
Definition free_bits (efs : EasyFileSystem) : Z → Flat → list Z := clear_bits (data_bitmap efs).

Section area.
Context (efs : EasyFileSystem) (L : Z).

Lemma elem_of_clear_bits bm f i : i ∈ clear_bits bm L f ↔ 0 ≤ i < L ∧ bit_of bm f i = false.
Proof. unfold clear_bits. rewrite list_elem_of_filter, elem_of_seqZ. naive_solver lia. Qed.
Lemma elem_of_free_bits f i : i ∈ free_bits efs L f ↔ 0 ≤ i < L ∧ bit_of (data_bitmap efs) f i = false.
Proof. apply elem_of_clear_bits. Qed.
Lemma NoDup_free_bits f : NoDup (free_bits efs L f).
Proof. apply NoDup_filter, NoDup_seqZ. Qed.

Lemma filter_seqZ_none (P : Z → Prop) `{!∀ i, Decision (P i)} a n :
  (∀ i, a ≤ i < a + n → ¬ P i) → filter P (seqZ a n) = [].
Proof.
  intros Hn. apply list_eq_Forall2. destruct (filter P (seqZ a n)) as [|x l] eqn:E; [constructor|].
  assert (x ∈ filter P (seqZ a n)) as Hx by (rewrite E; by left).
  apply list_elem_of_filter in Hx as [HP Hx%elem_of_seqZ]. by destruct (Hn x).
Qed.
Lemma filter_seqZ_ext (P Q : Z → Prop) `{!∀ i, Decision (P i), !∀ i, Decision (Q i)} a n :
  (∀ i, a ≤ i < a + n → P i ↔ Q i) → filter P (seqZ a n) = filter Q (seqZ a n).
Proof.
  intros Hn. assert (∀ i, i ∈ seqZ a n → P i ↔ Q i) as Hl by (intros i Hi%elem_of_seqZ; by apply Hn).
  clear Hn. induction (seqZ a n) as [|x l IH]; [done|]. rewrite !filter_cons, IH by (intros; apply Hl; by right).
  pose proof (Hl x ltac:(by left)). repeat case_decide; tauto.
Qed.

(** The bit that [alloc] returns is the first of the free ones. *)
Lemma alloc_clear_bits bm f i f' :
  clear_bits bm L f ≠ [] → alloc_post bm f (Some i) f' → clear_bits bm L f = i :: clear_bits bm L f'.
Proof.
  intros Hne (Hi & Hclr & Hlow & Hnew & _).
  assert (i < L) as HiL.
  { destruct (clear_bits bm L f) as [|j l] eqn:E; [done|].
    assert (j ∈ clear_bits bm L f) as [Hj Hbit]%elem_of_clear_bits by (rewrite E; by left).
    destruct (Z.lt_ge_cases j i); [|lia]. rewrite Hlow in Hbit by lia. done. }
  assert (seqZ 0 L = seqZ 0 i ++ i :: seqZ (i + 1) (L - i - 1)) as Hsplit.
  { replace L with (i + (L - i)) at 1 by lia. rewrite seqZ_app, (seqZ_cons (0 + i)) by lia. rewrite Z.add_0_l.
    by replace (Z.succ i) with (i + 1) by lia; replace (Z.pred (L - i)) with (L - i - 1) by lia. }
  unfold clear_bits. rewrite Hsplit, !filter_app, !filter_cons.
  rewrite !(filter_seqZ_none _ 0 i) by (intros j Hj; rewrite ?Hnew, Hlow, ?orb_true_r by lia; done).
  rewrite decide_True by done. rewrite decide_False by (rewrite Hnew, bool_decide_eq_true_2 by lia; done).
  rewrite !app_nil_l. f_equal. apply filter_seqZ_ext. intros j Hj. by rewrite Hnew, bool_decide_eq_false_2 by lia.
Qed.
Lemma alloc_free_bits f i f' :
  free_bits efs L f ≠ [] → alloc_post (data_bitmap efs) f (Some i) f' → free_bits efs L f = i :: free_bits efs L f'.
Proof. apply alloc_clear_bits. Qed.

Lemma area_wf_nonneg f : area_wf efs L f → 0 ≤ data_area_start_block efs.
Proof. intros [[? ? ? _] ? ? ? _]. lia. Qed.

Lemma alloc_data_run f i l :
  area_wf efs L f → free_bits efs L f = i :: l →
  ∃ f', EasyFileSystem_alloc_data efs f = Ok (data_block efs i, f') ∧ free_bits efs L f' = l ∧
    (∀ j, 0 ≤ j → bit_of (data_bitmap efs) f' j = bool_decide (j = i) || bit_of (data_bitmap efs) f j) ∧
    area_wf efs L f' ∧ same_outside (bitmap_blocks (data_bitmap efs)) f f'.
Proof.
  intros Hwf Hfree. pose proof (area_wf_nonneg f Hwf) as Hdas. destruct Hwf as [Hbm Hbefore HL H32 Hav].
  pose proof (bitmap_alloc_spec _ f Hbm) as Hspec. unfold wp in Hspec. unfold EasyFileSystem_alloc_data.
  destruct (Bitmap_alloc (data_bitmap efs) f) as [[[i'|] f']|] eqn:Hrun; [| |done].
  - pose proof (alloc_free_bits f i' f' ltac:(by rewrite Hfree) Hspec) as Hcons.
    rewrite Hfree in Hcons. injection Hcons as <- ->.
    assert (i ∈ free_bits efs L f) as [HiL _]%elem_of_free_bits by (rewrite Hfree; by left).
    destruct Hspec as (Hi & Hclr & Hlow & Hnew & k & b & Hk & Hb & ->).
    exists (set_block (start_block_id (data_bitmap efs) + k) b f).
    assert (same_outside (bitmap_blocks (data_bitmap efs)) f
      (set_block (start_block_id (data_bitmap efs) + k) b f)) as Hsame.
    { apply set_block_same_outside; [|done]. apply elem_of_seqZ. lia. }
    split_and!; [|done|done| |done].
    + erewrite bind_Ok by done. erewrite bind_Ok by reflexivity. unfold mret, M_ret, data_block.
      rewrite (wrap_small 32 i), wrap_small by lia. by rewrite Z.add_comm.
    + split; [by apply bitmap_ok_set_block|done..|]. intros j Hj. by apply (avail_same _ _ _ _ Hsame), Hav.
  - destruct Hspec as [_ Hfull]. assert (i ∈ free_bits efs L f) as [Hi Hbit]%elem_of_free_bits by (rewrite Hfree; by left).
    rewrite Hfull in Hbit by lia. done.
Qed.

(** Blocks one after the other, as [increase_size] asks for them. *)
Lemma alloc_many l : ∀ (xs : list Z) v f rest,
  area_wf efs L f → free_bits efs L f = l ++ rest → length xs = length l →
  ∃ f', mfold (λ _ v, b ← EasyFileSystem_alloc_data efs; mret (v ++ [b])) xs v f =
      Ok (v ++ (data_block efs <$> l), f') ∧ free_bits efs L f' = rest ∧
    (∀ j, 0 ≤ j → bit_of (data_bitmap efs) f' j = bool_decide (j ∈ l) || bit_of (data_bitmap efs) f j) ∧
    area_wf efs L f' ∧ same_outside (bitmap_blocks (data_bitmap efs)) f f'.
Proof.
  induction l as [|i l IH]; intros [|x xs] v f rest Hwf Hfree Hlen; try done.
  - exists f. cbn. rewrite app_nil_r. split_and!; [done..|apply same_outside_refl].
  - destruct (alloc_data_run f i (l ++ rest) Hwf Hfree) as (f1 & Hrun & Hfree1 & Hbits1 & Hwf1 & Hs1).
    destruct (IH xs (v ++ [data_block efs i]) f1 rest Hwf1 Hfree1 ltac:(cbn in Hlen; lia)) as (f' & Hrun' & Hfree' & Hbits' & Hwf' & Hs').
    exists f'. split_and!; [|done| |done|by eapply same_outside_trans].
    + cbn [mfold]. rewrite (bind_Ok _ _ f (v ++ [data_block efs i]) f1) by (by erewrite bind_Ok by exact Hrun).
      rewrite Hrun', <-app_assoc. done.
    + intros j Hj. rewrite Hbits', Hbits1 by done. rewrite orb_assoc. f_equal.
      repeat case_bool_decide; set_solver.
Qed.
End area.

(** * Files and the blocks they do not use *)

Lemma blocks_frame d f f' :
  (∀ x, x ∈ owned d f → fl_blocks f' !! x = fl_blocks f !! x) →
  owned d f' = owned d f ∧ content d f' = content d f.
Proof.
  intros Hx. assert (∀ x, x ∈ owned d f → block_at f' x = block_at f x) as Hb by (intros; unfold block_at; by rewrite Hx).
  destruct (owned_frame d f f') as [Ho Hk].
  { intros j x Hj Hin. apply Hb. by apply (table_in_slots _ _ j). }
  split; [done|]. unfold content. f_equal. unfold data_blocks.
  assert (map (t_block (tree_of d f')) (seq 0 (nblocks d)) = map (t_block (tree_of d f)) (seq 0 (nblocks d))) as ->.
  { apply map_ext_in. intros k Hin%list_elem_of_In%elem_of_seq. apply Hk. lia. }
  assert (∀ l, (∀ x, x ∈ l → x ∈ owned d f) → l ≫= block_at f' = l ≫= block_at f) as Hl.
  { intros l. induction l as [|x l IH]; intros Hin; [done|]. cbn. rewrite Hb by (apply Hin; by left).
    f_equal. apply IH. intros y Hy. apply Hin. by right. }
  apply Hl. intros x (k & -> & Hin%elem_of_seq)%list_elem_of_fmap. apply fblock_owned. lia.
Qed.
Lemma inode_wf_frame d f f' :
  (∀ x, x ∈ owned d f → fl_blocks f' !! x = fl_blocks f !! x) → inode_wf d f →
  (∀ x, x ∈ owned d f → x ∉ fl_held f') → inode_wf d f'.
Proof.
  intros Hx [Hv Hs Hn Ha] Hh. destruct (blocks_frame d f f' Hx) as [Ho _]. split; [done|done|by rewrite Ho|].
  rewrite Ho. apply Forall_forall. intros x Hin. rewrite Forall_forall in Ha. destruct (Ha x Hin) as [_ Hb Hok].
  assert (block_at f' x = block_at f x) as He by (unfold block_at; by rewrite Hx).
  split; [auto|rewrite He, Hx by done; done|by rewrite He].
Qed.

Lemma wp_fs_lock {A} (m : M Flat A) f Q :
  fl_fs_locked f = false → wp m (lock_fs true f) (λ r g, Q r (lock_fs false g)) → wp (bs_fs_lock m) f Q.
Proof.
  intros Hl Hwp. apply wp_Ok in Hwp as (r & g & Hm & HQ). apply wp_Ok. exists r, (lock_fs false g).
  split; [by apply fs_lock_run|done].
Qed.

(** An open file on a file system at rest: its inode lies before the data
    bitmap, its blocks are allocated blocks of the data area. *)
Record file_on (efs : EasyFileSystem) (L : Z) (self : Inode) (d : DiskInode) (f : Flat) : Prop := {
  fo_inode : inode_at self d f;
  fo_area : area_wf efs L f;
  fo_held : fl_held f = ∅;
  fo_lock : fl_fs_locked f = false;
  fo_before : in_block_id self < start_block_id (data_bitmap efs);
  fo_owned x : x ∈ owned d f → ∃ i, 0 ≤ i < L ∧ x = data_block efs i ∧ bit_of (data_bitmap efs) f i = true }.

(** * Growing *)

Lemma elem_of_take_list {A} (x : A) n l : x ∈ take n l → x ∈ l.
Proof. intros Hx. rewrite <-(take_drop n l). apply elem_of_app. by left. Qed.
Lemma elem_of_drop_list {A} (x : A) n l : x ∈ drop n l → x ∈ l.
Proof. intros Hx. rewrite <-(take_drop n l). apply elem_of_app. by right. Qed.

Section grow.
Context (efs : EasyFileSystem) (L : Z).

Definition new_blocks (d : DiskInode) (new : Z) : nat :=
  Z.to_nat (DiskInode_total_blocks (Z.max (di_size d) new) - DiskInode_total_blocks (di_size d)).

(** What [increase_size] leaves behind. *)
Record enlarged (d : DiskInode) (g : Flat) (new : Z) (d' : DiskInode) (g' : Flat) : Prop := {
  en_wf : inode_wf d' g';
  en_size : di_size d' = Z.max (di_size d) new;
  en_meta : same_meta d d';
  en_owned : owned d' g' = owned d g ++ (data_block efs <$> take (new_blocks d new) (free_bits efs L g));
  en_content : take (Z.to_nat (di_size d)) (content d' g') = content d g;
  en_area : area_wf efs L g';
  en_free : free_bits efs L g' = drop (new_blocks d new) (free_bits efs L g);
  en_bits x : 0 ≤ x < L → bit_of (data_bitmap efs) g' x =
    bool_decide (x ∈ take (new_blocks d new) (free_bits efs L g)) || bit_of (data_bitmap efs) g x;
  en_same : same_outside (bitmap_blocks (data_bitmap efs) ++ owned d' g') g g' }.

Definition in_area (d : DiskInode) (g : Flat) : Prop :=
  ∀ x, x ∈ owned d g → ∃ i, 0 ≤ i < L ∧ x = data_block efs i ∧ bit_of (data_bitmap efs) g i = true.

Lemma area_not_bitmap g i : area_wf efs L g → 0 ≤ i → data_block efs i ∉ bitmap_blocks (data_bitmap efs).
Proof. intros [? ? ? ? _] Hi Hin%elem_of_seqZ. unfold data_block in Hin. lia. Qed.

(** Bits and the area survive changes outside the bitmap. *)
Lemma bit_of_frame bm g g' i :
  (∀ x, x ∈ bitmap_blocks bm → fl_blocks g' !! x = fl_blocks g !! x) → 0 ≤ i < blocks bm * BLOCK_BITS →
  bit_of bm g' i = bit_of bm g i.
Proof.
  intros Hx Hi. unfold bit_of. rewrite Hx; [done|]. apply elem_of_seqZ.
  assert (0 ≤ i / BLOCK_BITS < blocks bm); [|lia]. unfold BLOCK_BITS, BLOCK_SZ in *. lia.
Qed.
Lemma area_frame ids g g' :
  area_wf efs L g → same_outside ids g g' → (∀ x, x ∈ bitmap_blocks (data_bitmap efs) → x ∉ ids) →
  area_wf efs L g' ∧ free_bits efs L g' = free_bits efs L g ∧
  ∀ i, 0 ≤ i < L → bit_of (data_bitmap efs) g' i = bit_of (data_bitmap efs) g i.
Proof.
  intros [[Hs Hb He Hop] Hbefore HL H32 Hav] Hsame Hdisj.
  assert (∀ i, 0 ≤ i < L → bit_of (data_bitmap efs) g' i = bit_of (data_bitmap efs) g i) as Hbits.
  { intros i Hi. apply bit_of_frame; [|lia]. intros x Hx. apply (so_out _ _ _ Hsame). by apply Hdisj. }
  split_and!; [split; [split|..]| |]; try done.
  - intros k Hk. destruct (Hop k Hk) as [b [Hf Hr Hh Hok]]. exists b.
    split; [by rewrite (so_held _ _ _ Hsame)|by rewrite (so_held _ _ _ Hsame)| |done].
    rewrite (so_out _ _ _ Hsame); [done|]. apply Hdisj. apply elem_of_seqZ. lia.
  - intros i Hi. by apply (avail_same _ _ _ _ Hsame), Hav.
  - unfold free_bits, clear_bits. apply filter_seqZ_ext. intros i Hi. by rewrite Hbits by lia.
Qed.

Lemma fresh_blocks d g n :
  inode_wf d g → area_wf efs L g → in_area d g →
  let nb := data_block efs <$> take n (free_bits efs L g) in
  NoDup (owned d g ++ nb) ∧ Forall is_u32 nb ∧
  ∀ x, x ∈ nb → ∃ i, 0 ≤ i < L ∧ x = data_block efs i ∧ i ∈ take n (free_bits efs L g).
Proof.
  intros Hwf Ha Hin nb. pose proof (area_wf_nonneg efs L g Ha) as H0.
  assert (∀ x, x ∈ nb → ∃ i, 0 ≤ i < L ∧ x = data_block efs i ∧ i ∈ take n (free_bits efs L g)) as Hnb.
  { intros x (i & -> & Hi)%list_elem_of_fmap. exists i. split; [|done]. apply (elem_of_free_bits efs L g).
    by eapply elem_of_take_list. }
  split; [|split; [|done]].
  - apply NoDup_app. split; [apply Hwf|]. split.
    + intros x (i & _ & -> & Hbit)%Hin (j & Hj & Heq & Hjn)%Hnb.
      assert (i = j) as -> by (unfold data_block in Heq; lia).
      assert (j ∈ free_bits efs L g) as [_ Hf]%elem_of_free_bits by (by eapply elem_of_take_list). congruence.
    + apply NoDup_fmap_2; [intros ???; unfold data_block in *; lia|]. eapply sublist_NoDup; [apply NoDup_free_bits|apply sublist_take].
  - apply Forall_forall. intros x (i & Hi & -> & _)%Hnb. destruct Ha. unfold is_u32, data_block. lia.
Qed.

Lemma new_blocks_small d new : new ≤ di_size d → new_blocks d new = 0%nat.
Proof. intros Hn. unfold new_blocks. rewrite Z.max_l by done. lia. Qed.

Lemma increase_size_enlarged d g new :
  inode_wf d g → area_wf efs L g → in_area d g → room 2 g → 0 ≤ new ≤ max_file_size →
  (new_blocks d new ≤ length (free_bits efs L g))%nat →
  ∃ d' g', Inode_increase_size efs new d g = Ok (d', g') ∧ enlarged d g new d' g'.
Proof.
  intros Hwf Ha Hin Hroom Hnew Hfree. pose proof (wf_size_nonneg d g Hwf) as Hsz. pose proof (wf_size d g Hwf) as Hmax.
  unfold Inode_increase_size. destruct (Z.ltb_spec new (di_size d)) as [Hlt|Hge].
  - exists d, g. split; [done|]. split; rewrite ?new_blocks_small by lia; try done; rewrite ?take_0, ?drop_0.
    + lia.
    + by rewrite app_nil_r.
    + rewrite take_ge; [done|]. rewrite length_content by done. done.
  - pose proof (total_blocks_grow (di_size d) new ltac:(lia) ltac:(lia)) as Hgrow.
    assert (new_blocks d new = Z.to_nat (DiskInode_total_blocks new - DiskInode_total_blocks (di_size d))) as Hn
      by (unfold new_blocks; by rewrite Z.max_r by lia).
    set (n := new_blocks d new) in *. set (fresh := take n (free_bits efs L g)).
    assert (length fresh = n) as Hlen by (unfold fresh; rewrite length_take; lia).
    unfold DiskInode_blocks_num_needed. rewrite (proj2 (Z.leb_le _ _)) by lia.
    erewrite bind_Ok by reflexivity. rewrite wrap_small by lia.
    destruct (alloc_many efs L fresh (range 0 (DiskInode_total_blocks new - DiskInode_total_blocks (di_size d))) [] g
      (drop n (free_bits efs L g))) as (g1 & Hrun & Hfree1 & Hbits1 & Ha1 & Hs1); [done| | |].
    { unfold fresh. by rewrite take_drop. }
    { unfold range. rewrite length_seqZ, Hlen. lia. }
    erewrite bind_Ok by exact Hrun. rewrite app_nil_l.
    destruct (fresh_blocks d g n Hwf Ha Hin) as (Hnd & Hu & Hnb). fold fresh in Hnd, Hu, Hnb.
    assert (∀ x, x ∈ owned d g → fl_blocks g1 !! x = fl_blocks g !! x) as Hout.
    { intros x (i & Hi & -> & _)%Hin. apply (so_out _ _ _ Hs1). apply (area_not_bitmap g); [done|lia]. }
    destruct (blocks_frame d g g1 Hout) as [Ho1 Hc1].
    assert (inode_wf d g1) as Hwf1.
    { apply (inode_wf_frame d g); [done|done|]. intros x Hx. rewrite (so_held _ _ _ Hs1). by apply (wf_owned_avail d g Hwf). }
    destruct (increase_size_spec d g1 new (data_block efs <$> fresh)) as (d' & g' & Hrun' & Hgr).
    + done.
    + by eapply room_same.
    + lia.
    + by rewrite Ho1.
    + done.
    + apply Forall_forall. intros x (i & Hi & -> & _)%Hnb. by apply (aw_avail _ _ _ Ha1).
    + rewrite length_fmap, Hlen. lia.
    + exists d', g'. split; [exact Hrun'|].
      pose proof (grown_content d g1 new _ d' g' Hwf1 Hge Hgr) as Hc'. destruct Hgr as [Hwf' Hsz' Ho' _ Hs' Hmeta].
      assert (∀ x, x ∈ owned d' g' → ∃ i, 0 ≤ i ∧ x = data_block efs i) as Hdata.
      { intros x. rewrite Ho', Ho1, elem_of_app. intros [(i & Hi & -> & _)%Hin|(i & Hi & -> & _)%Hnb]; exists i; split; done || lia. }
      assert (∀ x, x ∈ t_tables (tree_of d' g') (nblocks d') → x ∈ owned d' g') as Htab.
      { intros x (k & Hk & Hx)%t_tables_elem. by apply (table_in_slots _ _ k). }
      assert (∀ x, x ∈ bitmap_blocks (data_bitmap efs) → x ∉ t_tables (tree_of d' g') (nblocks d')) as Hdisj.
      { intros x Hx Ht. destruct (Hdata x (Htab x Ht)) as (i & Hi & ->). by apply (area_not_bitmap g i) in Hx. }
      destruct (area_frame _ g1 g' Ha1 Hs' Hdisj) as (Ha' & Hf' & Hb').
      split; try done.
      * lia.
      * by rewrite Ho', Ho1.
      * by rewrite Hc', Hc1.
      * by rewrite Hf', Hfree1.
      * intros x Hx. rewrite Hb', Hbits1 by lia. done.
      * eapply same_outside_trans; [eapply same_outside_weaken; [|exact Hs1]|eapply same_outside_weaken; [|exact Hs']].
        -- intros x Hx. apply elem_of_app. by left.
        -- intros x Hx. apply elem_of_app. right. by apply Htab.
Qed.

(** ** Growing, then writing *)

Record rewritten (d : DiskInode) (g : Flat) (off : nat) (buf : list Z) (d' : DiskInode) (g' : Flat) : Prop := {
  rw_inode : inode_wf d' g';
  rw_size : di_size d' = Z.max (di_size d) (Z.of_nat (off + length buf));
  rw_meta : same_meta d d';
  rw_owned : owned d' g' = owned d g ++
    (data_block efs <$> take (new_blocks d (Z.of_nat (off + length buf))) (free_bits efs L g));
  rw_content : content d' g' = take off (content d g) ++ buf ++ drop (off + length buf) (content d g);
  rw_area : area_wf efs L g';
  rw_free : free_bits efs L g' = drop (new_blocks d (Z.of_nat (off + length buf))) (free_bits efs L g);
  rw_in : in_area d' g';
  rw_same : same_outside (bitmap_blocks (data_bitmap efs) ++ owned d' g') g g' }.

Lemma enlarged_in_area d g new d' g' :
  inode_wf d g → area_wf efs L g → in_area d g → enlarged d g new d' g' → in_area d' g'.
Proof.
  intros Hwf Ha Hin Hen x. rewrite (en_owned _ _ _ _ _ Hen), elem_of_app.
  intros [(i & Hi & -> & Hbit)%Hin|Hx].
  - exists i. split_and!; [lia..|done|]. rewrite (en_bits _ _ _ _ _ Hen), Hbit by done. apply orb_true_r.
  - destruct (fresh_blocks d g (new_blocks d new) Hwf Ha Hin) as (_ & _ & Hnb).
    destruct (Hnb x Hx) as (i & Hi & -> & Hit). exists i. split_and!; [lia..|done|].
    by rewrite (en_bits _ _ _ _ _ Hen), bool_decide_eq_true_2 by done.
Qed.
Lemma in_area_bitmap d g x :
  area_wf efs L g → in_area d g → x ∈ bitmap_blocks (data_bitmap efs) → x ∉ owned d g.
Proof. intros Ha Hin Hb (i & Hi & -> & _)%Hin. by apply (area_not_bitmap g i Ha ltac:(lia)). Qed.

Lemma spliced_content (c c' buf : list Z) off :
  (off ≤ length c)%nat → length c' = Nat.max (length c) (off + length buf) → take (length c) c' = c →
  splice off buf c' = take off c ++ buf ++ drop (off + length buf) c.
Proof.
  intros Hoff Hlen Htake. unfold splice. f_equal; [|f_equal].
  - rewrite <-Htake, take_take. f_equal. lia.
  - destruct (decide (length c ≤ off + length buf)%nat) as [Hle|Hgt].
    + rewrite !drop_ge by lia. done.
    + f_equal. rewrite <-Htake. symmetry. apply take_ge. lia.
Qed.

Lemma write_grown d g off buf :
  inode_wf d g → area_wf efs L g → in_area d g → room 2 g →
  (0 < length buf)%nat → Forall is_byte buf → Z.of_nat off ≤ di_size d → Z.of_nat (off + length buf) ≤ max_file_size →
  (new_blocks d (Z.of_nat (off + length buf)) ≤ length (free_bits efs L g))%nat →
  ∃ d' g', (disk_inode ← Inode_increase_size efs (Z.of_nat (off + length buf)) d;
            n ← DiskInode_write_at disk_inode (Z.of_nat off) buf; mret (n, disk_inode)) g =
      Ok ((Z.of_nat (length buf), d'), g') ∧ rewritten d g off buf d' g'.
Proof.
  intros Hwf Ha Hin Hroom Hbuf Hbytes Hoff Hmax Hfree. pose proof (wf_size_nonneg d g Hwf) as Hsz.
  destruct (increase_size_enlarged d g (Z.of_nat (off + length buf)) Hwf Ha Hin Hroom ltac:(lia) Hfree) as (d' & g1 & Hrun & Hen).
  pose proof (enlarged_in_area _ _ _ _ _ Hwf Ha Hin Hen) as Hin1.
  destruct Hen as [Hwf1 Hs1 Hmeta Ho1 Hc1 Ha1 Hf1 Hb1 Hsame1].
  change max_file_size with 8468480 in Hmax.
  pose proof (write_at_spec d' g1 off buf Hwf1 ltac:(eapply room_same; [exact Hsame1|unfold room in *; lia]) ltac:(lia) ltac:(lia) Hbuf Hbytes) as Hw.
  apply wp_Ok in Hw as (r & g2 & Hrun2 & Hr & [Hwf2 Ho2 _ Hc2 Hsame2]).
  assert (avail_len d' off (length buf) = length buf) as Hn by (unfold avail_len; lia). rewrite Hn in Hr, Hc2.
  exists d', g2. split.
  { erewrite bind_Ok by exact Hrun. erewrite bind_Ok by exact Hrun2. by rewrite Hr. }
  assert (∀ x, x ∈ data_blocks d' g1 → x ∈ owned d' g1) as Hdata.
  { intros x (k & -> & Hk%elem_of_seq)%list_elem_of_fmap. apply fblock_owned. lia. }
  destruct (area_frame _ g1 g2 Ha1 Hsame2) as (Ha2 & Hf2 & Hb2).
  { intros x Hx Hd. by apply (in_area_bitmap d' g1 x Ha1 Hin1 Hx), Hdata. }
  split; try done.
  - by rewrite Ho2.
  - rewrite Hc2, take_ge by done. pose proof (length_content d g Hwf) as Hl. pose proof (length_content d' g1 Hwf1) as Hl1.
    apply spliced_content; [lia| |].
    + rewrite Hl1, Hl, Hs1. lia.
    + by rewrite Hl.
  - by rewrite Hf2.
  - intros x. rewrite Ho2. intros (i & Hi & -> & Hbit)%Hin1. exists i. by rewrite Hb2.
  - eapply same_outside_trans; [eapply same_outside_weaken; [|exact Hsame1]|eapply same_outside_weaken; [|exact Hsame2]]; rewrite Ho2.
    + done.
    + intros x Hx. apply elem_of_app. right. by apply Hdata.
Qed.
End grow.

(** * Through the locks *)

Section file.
Context (efs : EasyFileSystem) (L : Z) (self : Inode).
Abbreviation id := (in_block_id self).

(** The state inside the closure, and the state when both locks are released and
    the inode's block is stored. *)
Definition inside (f : Flat) : Flat := hold id (lock_fs true f).
Definition outside (blk : block) (g : Flat) : Flat := lock_fs false (unhold id (set_block id blk g)).

Lemma area_inside f :
  area_wf efs L f → fl_held f = ∅ → id < start_block_id (data_bitmap efs) → area_wf efs L (inside f).
Proof.
  intros [[Hs Hb He Hop] Hbefore HL H32 Hav] Hheld Hid. split; [split|..]; try done.
  - intros k Hk. destruct (Hop k Hk) as [b [Hf Hr Hh Hok]]. exists b. split; cbn; [set_solver by lia| |done|done].
    rewrite Hheld, union_empty_r_L, size_singleton. unfold BLOCK_CACHE_MAX_NUM. lia.
  - intros i Hi. destruct (Hav i Hi) as [Hf Hh Hok]. split; [|done|done]. cbn. rewrite Hheld. unfold data_block in *. set_solver by lia.
Qed.

Section release.
Context (g : Flat) (blk : block) (Hblk : block_ok blk).
Context (Hheld : fl_held g = {[id]}).

Lemma outside_held : fl_held (outside blk g) = ∅.
Proof. cbn. rewrite Hheld. set_solver. Qed.
Lemma outside_blocks x : x ≠ id → fl_blocks (outside blk g) !! x = fl_blocks g !! x.
Proof. intros Hx. cbn. by rewrite lookup_insert_ne. Qed.
Lemma outside_avail x : avail x g ∨ x = id → avail x (outside blk g).
Proof.
  intros Hx. destruct (decide (x = id)) as [->|Hne].
  - assert (block_at (outside blk g) id = blk) as Hb by (unfold block_at; cbn; by rewrite lookup_insert_eq).
    split; [rewrite outside_held; set_solver|rewrite Hb; cbn; by rewrite lookup_insert_eq|by rewrite Hb].
  - destruct Hx as [[Hf Hh Hok]|]; [|done].
    assert (block_at (outside blk g) x = block_at g x) as Hb by (unfold block_at; by rewrite outside_blocks).
    split; [rewrite outside_held; set_solver|by rewrite Hb, outside_blocks|by rewrite Hb].
Qed.
Lemma area_outside :
  area_wf efs L g → id < start_block_id (data_bitmap efs) →
  area_wf efs L (outside blk g) ∧ free_bits efs L (outside blk g) = free_bits efs L g ∧
  ∀ i, 0 ≤ i < L → bit_of (data_bitmap efs) (outside blk g) i = bit_of (data_bitmap efs) g i.
Proof.
  intros [[Hs Hb He Hop] Hbefore HL H32 Hav] Hid.
  assert (∀ x, x ∈ bitmap_blocks (data_bitmap efs) → fl_blocks (outside blk g) !! x = fl_blocks g !! x) as Hx.
  { intros x Hin%elem_of_seqZ. apply outside_blocks. lia. }
  assert (∀ i, 0 ≤ i < L → bit_of (data_bitmap efs) (outside blk g) i = bit_of (data_bitmap efs) g i) as Hbits.
  { intros i Hi. apply bit_of_frame; [done|lia]. }
  split_and!; [split; [split|..]| |]; try done.
  - intros k Hk. destruct (Hop k Hk) as [b [Hf Hr Hh Hok]]. exists b.
    split; [rewrite outside_held; set_solver|rewrite outside_held, size_empty; unfold BLOCK_CACHE_MAX_NUM; lia| |done].
    rewrite Hx; [done|]. apply elem_of_seqZ. lia.
  - intros i Hi. apply outside_avail. left. by apply Hav.
  - unfold free_bits, clear_bits. apply filter_seqZ_ext. intros i Hi. by rewrite Hbits by lia.
Qed.
End release.

(** A changed file when the locks are released. *)
Lemma release_file d f ids d' g b :
  file_on efs L self d f → can_open id f b → inode_wf d' g → area_wf efs L g → in_area efs L d' g →
  same_outside ids (inside f) g →
  let f' := outside (put_back DiskInode_codec (in_block_offset self) d' b) g in
  file_on efs L self d' f' ∧ content d' f' = content d' g ∧ owned d' f' = owned d' g ∧
  free_bits efs L f' = free_bits efs L g ∧ same_outside (id :: ids) f f'.
Proof.
  intros [[[b0 Hst] Hwf Hown] Ha Hheld Hlock Hid Hin] Hb Hwf' Ha' Hin' Hsame f'.
  assert (b0 = b) as ->. { destruct Hst as [[_ _ H1 _] _ _ _], Hb as [_ _ H2 _]. congruence. }
  destruct Hst as [_ Hoff Hfits _]. destruct Hb as [_ _ Hb Hbok].
  assert (block_ok (put_back DiskInode_codec (in_block_offset self) d' b)) as Hblk
    by (apply (put_back_ok DiskInode_codec DiskInode_valid); try done; by apply wf_valid in Hwf').
  assert (fl_held g = {[id]}) as Hg by (rewrite (so_held _ _ _ Hsame); cbn; rewrite Hheld; set_solver).
  destruct (area_outside g (put_back DiskInode_codec (in_block_offset self) d' b) Hblk Hg Ha' Hid) as (Haf & Hff & Hbf).
  fold f' in Haf, Hff, Hbf.
  assert (∀ x, x ∈ owned d' g → x ≠ id) as Hne.
  { intros x (i & Hi & Hx & _)%Hin' ->. pose proof (aw_before _ _ _ Ha). destruct (aw_bitmap _ _ _ Ha) as [_ Hpos _ _]. unfold data_block in Hx. lia. }
  assert (∀ x, x ∈ owned d' g → fl_blocks f' !! x = fl_blocks g !! x) as Hout by (intros x Hx; apply outside_blocks; by apply Hne).
  destruct (blocks_frame d' g f' Hout) as [Ho Hc].
  assert (inode_wf d' f') as Hwff.
  { apply (inode_wf_frame d' g); [done|done|]. intros x _. unfold f'. rewrite outside_held by done. set_solver. }
  split_and!; [split| | | |]; try done.
  - split; [|done|rewrite Ho; intros Hx; by apply (Hne id Hx)]. exists (put_back DiskInode_codec (in_block_offset self) d' b).
    split; [split|done|done|].
    + unfold f'. rewrite outside_held by done. set_solver.
    + unfold f'. rewrite outside_held by done. rewrite size_empty. unfold BLOCK_CACHE_MAX_NUM. lia.
    + cbn. by rewrite lookup_insert_eq.
    + done.
    + apply (dec_put_back DiskInode_codec DiskInode_valid); try done. by apply wf_valid in Hwf'.
  - unfold f'. by rewrite outside_held.
  - intros x. rewrite Ho. intros (i & Hi & -> & Hbit)%Hin'. exists i. by rewrite Hbf.
  - split.
    + unfold f'. by rewrite outside_held, Hheld.
    + by rewrite Hlock.
    + intros x [Hx Hx']%not_elem_of_cons. unfold f'. rewrite outside_blocks by done. by rewrite (so_out _ _ _ Hsame).
    + intros x _ [Hf Hh Hok]. apply outside_avail; [done..|]. destruct (decide (x = id)) as [->|Hxid]; [by right|left].
      apply (avail_same _ _ _ _ Hsame). split; [cbn; rewrite Hheld; set_solver|done|done].
Qed.
Lemma file_on_outside d f off buf d' g b :
  file_on efs L self d f → can_open id f b → rewritten efs L d (inside f) off buf d' g →
  let f' := outside (put_back DiskInode_codec (in_block_offset self) d' b) g in
  file_on efs L self d' f' ∧ content d' f' = content d' g ∧ owned d' f' = owned d' g ∧
  free_bits efs L f' = free_bits efs L g ∧
  same_outside (id :: bitmap_blocks (data_bitmap efs) ++ owned d' f') f f'.
Proof.
  intros Hfile Hb [Hwf' _ _ _ _ Ha' _ Hin' Hsame] f'.
  destruct (release_file d f _ d' g b Hfile Hb Hwf' Ha' Hin' Hsame) as (Hon & Hc & Ho & Hf & Hs). fold f' in Hon, Hc, Ho, Hf, Hs.
  rewrite Ho. done.
Qed.
End file.

(** What a call that writes through the inode leaves behind. *)
Record file_written (efs : EasyFileSystem) (L : Z) (self : Inode) (d : DiskInode) (f : Flat) (off : nat) (buf : list Z)
    (d' : DiskInode) (f' : Flat) : Prop := {
  fw_on : file_on efs L self d' f';
  fw_meta : same_meta d d';
  fw_size : di_size d' = Z.max (di_size d) (Z.of_nat (off + length buf));
  fw_content : content d' f' = take off (content d f) ++ buf ++ drop (off + length buf) (content d f);
  fw_owned : owned d' f' =
    owned d f ++ (data_block efs <$> take (new_blocks d (Z.of_nat (off + length buf))) (free_bits efs L f));
  fw_free : free_bits efs L f' = drop (new_blocks d (Z.of_nat (off + length buf))) (free_bits efs L f);
  fw_block : block_at f' (in_block_id self) = put_back DiskInode_codec (in_block_offset self) d' (block_at f (in_block_id self));
  fw_same : same_outside (in_block_id self :: bitmap_blocks (data_bitmap efs) ++ owned d' f') f f' }.

(** A change of the inode that grows the file and writes to it. *)
Lemma modify_grown {V} efs L self d f off buf (m : DiskInode → M Flat (V * DiskInode)) (r : V) :
  file_on efs L self d f → (0 < length buf)%nat → Forall is_byte buf →
  Z.of_nat off ≤ di_size d → Z.of_nat (off + length buf) ≤ max_file_size →
  (new_blocks d (Z.of_nat (off + length buf)) ≤ length (free_bits efs L f))%nat →
  (∀ d' g, (disk_inode ← Inode_increase_size efs (Z.of_nat (off + length buf)) d;
            n ← DiskInode_write_at disk_inode (Z.of_nat off) buf; mret (n, disk_inode)) (inside self f) =
      Ok ((Z.of_nat (length buf), d'), g) → m d (inside self f) = Ok ((r, d'), g)) →
  wp (Inode_modify_disk_inode self m) (lock_fs true f) (λ x f1, x = r ∧
    ∃ d' f', f1 = lock_fs true f' ∧ file_written efs L self d f off buf d' f').
Proof.
  intros Hfile Hbuf Hbytes Hoff Hmax Hfree Hm. pose proof Hfile as [[[b Hst] Hwf Hown] Ha Hheld Hlock Hid Hin].
  assert (inode_wf d (inside self f)) as Hwf1 by by apply inode_wf_hold.
  assert (area_wf efs L (inside self f)) as Ha1 by by apply area_inside.
  assert (room 2 (inside self f)) as Hroom.
  { unfold room. cbn. rewrite Hheld, union_empty_r_L, size_singleton. unfold BLOCK_CACHE_MAX_NUM. lia. }
  destruct (write_grown efs L d (inside self f) off buf Hwf1 Ha1 Hin Hroom Hbuf Hbytes Hoff Hmax Hfree) as (d' & g & Hrun & Hrw).
  assert (can_open (in_block_id self) f b) as Hb by apply Hst.
  assert (block_at f (in_block_id self) = b) as Hbat by (unfold block_at; by rewrite (co_here _ _ _ Hb)).
  assert (stored DiskInode_codec (in_block_id self) (in_block_offset self) (lock_fs true f) b d) as Hst'.
  { destruct Hst as [[? ? ? ?] ? ? ?]. by split. }
  apply (wp_modify DiskInode_codec DiskInode_valid _ _ _ _ b d); [done|].
  apply wp_Ok. eexists _, g. split; [by apply Hm|]. cbn [fst snd].
  split; [by destruct Hrw as [[? _ _ _] _ _ _ _ _ _ _ _]|]. split; [done|].
  destruct (file_on_outside efs L self d f off buf d' g b Hfile Hb Hrw) as (Hf' & Hc & Ho & Hfr & Hs).
  exists d', (outside self (put_back DiskInode_codec (in_block_offset self) d' b) g).
  pose proof (so_lock _ _ _ (rw_same _ _ _ _ _ _ _ _ Hrw)) as Hgl. cbn in Hgl.
  split; [unfold outside, lock_fs, unhold, set_block; cbn; by rewrite Hgl|].
  destruct Hrw as [_ Hsz Hmeta Ho' Hc' _ Hfr' _ _]. split; try done; rewrite ?Hc, ?Ho, ?Hfr; try done.
  - unfold block_at at 1. cbn. by rewrite lookup_insert_eq, Hbat.
Qed.
Lemma sync_run f : fl_held f = ∅ → bs_sync_all f = Ok ((), f).
Proof. intros Hf. unfold bs_sync_all, Flat_store. erewrite bind_Ok by reflexivity. by rewrite Hf, decide_True. Qed.

Lemma Inode_write_at_run efs L self d f off buf :
  file_on efs L self d f → (0 < length buf)%nat → Forall is_byte buf →
  Z.of_nat off ≤ di_size d → Z.of_nat (off + length buf) ≤ max_file_size →
  (new_blocks d (Z.of_nat (off + length buf)) ≤ length (free_bits efs L f))%nat →
  wp (Inode_write_at efs self (Z.of_nat off) buf) f (λ r f', r = Z.of_nat (length buf) ∧ ∃ d',
    file_written efs L self d f off buf d' f').
Proof.
  intros Hfile Hbuf Hbytes Hoff Hmax Hfree. unfold Inode_write_at. apply wp_fs_lock; [apply Hfile|]. apply wp_bind.
  eapply wp_mono; [apply (modify_grown efs L self d f off buf _ (Z.of_nat (length buf))); try done|].
  - intros d' g Hrun. change max_file_size with 8468480 in Hmax. rewrite (wrap_small 64), (wrap_small 32) by lia.
    by rewrite <-Nat2Z.inj_add.
  - intros r f1 (-> & d' & f' & -> & Hw). apply wp_bind. unfold wp at 1. pose proof (fw_on _ _ _ _ _ _ _ _ _ Hw) as Hon.
    rewrite sync_run by exact (fo_held _ _ _ _ _ Hon). apply wp_ret. split; [done|]. exists d'.
    change (lock_fs false (lock_fs true f')) with (lock_fs false f'). replace (lock_fs false f') with f'; [done|].
    pose proof (fo_lock _ _ _ _ _ Hon) as Hl. destruct f'; cbn in *. by rewrite Hl.
Qed.

(** ** Writes one after the other *)

Lemma new_blocks_add d d1 a b :
  di_size d1 = Z.max (di_size d) a → 0 ≤ di_size d → Z.max a b ≤ max_file_size → di_size d ≤ max_file_size → a ≤ b →
  new_blocks d b = (new_blocks d a + new_blocks d1 b)%nat.
Proof.
  intros Hs H0 Hmax Hd Hab. unfold new_blocks. rewrite Hs.
  replace (Z.max (Z.max (di_size d) a) b) with (Z.max (di_size d) b) by lia.
  pose proof (total_blocks_grow (di_size d) (Z.max (di_size d) a)). pose proof (total_blocks_grow (Z.max (di_size d) a) (Z.max (di_size d) b)).
  lia.
Qed.

Lemma new_blocks_mono d a b :
  0 ≤ di_size d → a ≤ b → Z.max (di_size d) b ≤ max_file_size → (new_blocks d a ≤ new_blocks d b)%nat.
Proof.
  intros H0 Hab Hmax. unfold new_blocks.
  pose proof (total_blocks_grow (Z.max (di_size d) a) (Z.max (di_size d) b)). lia.
Qed.

(** What a sequence of writes through the inode leaves behind: [file_written]
    without the bytes of the inode. *)
Record file_appended (efs : EasyFileSystem) (L : Z) (self : Inode) (d : DiskInode) (f : Flat) (off : nat) (buf : list Z)
    (d' : DiskInode) (f' : Flat) : Prop := {
  fa_on : file_on efs L self d' f';
  fa_meta : same_meta d d';
  fa_size : di_size d' = Z.max (di_size d) (Z.of_nat (off + length buf));
  fa_content : content d' f' = take off (content d f) ++ buf ++ drop (off + length buf) (content d f);
  fa_owned : owned d' f' =
    owned d f ++ (data_block efs <$> take (new_blocks d (Z.of_nat (off + length buf))) (free_bits efs L f));
  fa_free : free_bits efs L f' = drop (new_blocks d (Z.of_nat (off + length buf))) (free_bits efs L f);
  fa_same : same_outside (in_block_id self :: bitmap_blocks (data_bitmap efs) ++ owned d' f') f f' }.

Lemma file_appended_nil efs L self d f off :
  file_on efs L self d f → Z.of_nat off ≤ di_size d → file_appended efs L self d f off [] d f.
Proof.
  intros Hf Hoff. assert (new_blocks d (Z.of_nat (off + length (@nil Z))) = 0%nat) as Hn.
  { unfold new_blocks. cbn. rewrite Nat.add_0_r, Z.max_l by lia. lia. }
  split; rewrite ?Hn, ?take_0, ?app_nil_r; cbn [length]; rewrite ?Nat.add_0_r; try done.
  - lia.
  - by rewrite app_nil_l, take_drop.
Qed.
Lemma file_appended_trans efs L self d f off b1 d1 f1 b2 d2 f2 :
  file_on efs L self d f → Z.of_nat off ≤ di_size d → Z.of_nat (off + length b1 + length b2) ≤ max_file_size →
  file_appended efs L self d f off b1 d1 f1 → file_written efs L self d1 f1 (off + length b1) b2 d2 f2 →
  file_appended efs L self d f off (b1 ++ b2) d2 f2.
Proof.
  intros Hf Hoff Hmax [H1 M1 S1 C1 O1 F1 E1] [H2 M2 S2 C2 O2 F2 _ E2].
  pose proof (ia_wf _ _ _ (fo_inode _ _ _ _ _ Hf)) as Hwf. pose proof (wf_size _ _ Hwf) as Hsz.
  assert (0 ≤ di_size d) as Hsz0 by lia.
  pose proof (new_blocks_add d d1 (Z.of_nat (off + length b1)) (Z.of_nat (off + length b1 + length b2)) S1 Hsz0 ltac:(lia) Hsz ltac:(lia)) as Hn.
  split; rewrite ?length_app, ?Nat.add_assoc, ?Hn.
  - done.
  - unfold same_meta in *. naive_solver congruence.
  - lia.
  - rewrite C2, C1. assert (length (take off (content d f)) = off) as Hl by (rewrite length_take, length_content by done; lia).
    rewrite (app_assoc (take off _) b1), take_app_length' by (rewrite length_app; lia).
    rewrite drop_app_ge by (rewrite !length_app; lia). rewrite drop_drop, <-!app_assoc, length_app, Hl. do 4 f_equal. lia.
  - rewrite O2, O1, F1, <-app_assoc, <-fmap_app. f_equal. by rewrite <-take_take_drop.
  - rewrite F2, F1, drop_drop. done.
  - eapply same_outside_trans; [|exact E2]. eapply same_outside_weaken; [|exact E1].
    intros x. rewrite O2. set_solver.
Qed.

(** [Inode::write_at] anywhere from the start to just past the end of a
    file, when the grown file fits the block table and the data area has enough
    free blocks: it writes all the bytes.  The contents are the old ones with the
    data written over them, the size is the larger of the old size and the end of
    the data; the file keeps its blocks and gets exactly the lowest free blocks it
    needs, which are free no longer; the inode is stored at its place, and no
    other byte of the disk changes than those of the inode, of the data bitmap and
    of the file's own blocks. *)
Theorem Inode_write_at_content efs L self d f off buf :
  file_on efs L self d f → (0 < length buf)%nat → Forall is_byte buf →
  Z.of_nat off ≤ di_size d → Z.of_nat (off + length buf) ≤ max_file_size →
  let n := new_blocks d (Z.of_nat (off + length buf)) in
  (n ≤ length (free_bits efs L f))%nat →
  wp (Inode_write_at efs self (Z.of_nat off) buf) f (λ r f', r = Z.of_nat (length buf) ∧ ∃ d',
    file_on efs L self d' f' ∧ same_meta d d' ∧ di_size d' = Z.max (di_size d) (Z.of_nat (off + length buf)) ∧
    content d' f' = take off (content d f) ++ buf ++ drop (off + length buf) (content d f) ∧
    owned d' f' = owned d f ++ (data_block efs <$> take n (free_bits efs L f)) ∧
    free_bits efs L f' = drop n (free_bits efs L f) ∧
    block_at f' (in_block_id self) = put_back DiskInode_codec (in_block_offset self) d' (block_at f (in_block_id self)) ∧
    same_outside (in_block_id self :: bitmap_blocks (data_bitmap efs) ++ owned d' f') f f').
Proof.
  intros Hfile Hbuf Hbytes Hoff Hmax n Hfree. eapply wp_mono; [by apply (Inode_write_at_run efs L self d f off buf)|].
  intros r f' (-> & d' & []). split; [done|]. by exists d'.
Qed.

(** ** A file of 600 bytes in two blocks, on the disk of 64 blocks *)

Definition ex_small : DiskInode := MkDiskInode 0 600 ([31; 32] ++ replicate 26 0) 0 0 1 File.
Definition ex_small_disk : Flat :=
  set_block 5 (cenc DiskInode_codec ex_small (replicate 136 0) ++ replicate 376 0)
    (set_block 30 (3 :: replicate 511 0) ex_disk).
Lemma ex_small_on : file_on ex_efs 33 ex_self ex_small ex_small_disk.
Proof.
  assert (∀ i, 0 ≤ i < 64 → avail i ex_small_disk) as Hav.
  { assert (Forall (λ i, avail i ex_small_disk) (seqZ 0 64)) as Hall.
    { eapply (forallb_Forall_1 (availb ex_small_disk)); [apply availb_avail|vm_compute; reflexivity]. }
    intros i Hi. rewrite Forall_forall in Hall. apply Hall, elem_of_seqZ. lia. }
  assert (∀ i, 0 ≤ i < 64 → can_open i ex_small_disk (block_at ex_small_disk i)) as Hop.
  { intros i Hi. apply avail_open; [by apply Hav|]. unfold room, BLOCK_CACHE_MAX_NUM. change (size (fl_held ex_small_disk)) with 0%nat. lia. }
  split; [split|split; [split|..]| | | |].
  - exists (block_at ex_small_disk 5). split; [by apply Hop|done|vm_compute; discriminate|vm_compute; reflexivity].
  - apply inode_wfb_wf. vm_compute. reflexivity.
  - apply (bool_decide_unpack _). vm_compute. exact I.
  - done.
  - done.
  - cbn. lia.
  - intros k Hk. cbn in Hk. eexists. apply Hop. cbn. lia.
  - cbn. lia.
  - cbn. unfold BLOCK_BITS, BLOCK_SZ. lia.
  - cbn. lia.
  - intros i Hi. apply Hav. unfold data_block. cbn. lia.
  - done.
  - done.
  - cbn. lia.
  - intros x. change (owned ex_small ex_small_disk) with [31; 32]. rewrite !elem_of_cons. intros [->|[->|Hx]].
    + exists 0. split; [lia|]. split; [done|]. vm_compute. done.
    + exists 1. split; [lia|]. split; [done|]. vm_compute. done.
    + by apply elem_of_nil in Hx.
Qed.
Lemma Inode_write_at_content_witness :
  wp (Inode_write_at ex_efs ex_self 600 (replicate 1000 7)) ex_small_disk (λ r f', r = 1000 ∧ ∃ d',
    file_on ex_efs 33 ex_self d' f' ∧ di_size d' = 1600 ∧ owned d' f' = [31; 32; 33; 34] ∧
    content d' f' = take 600 (content ex_small ex_small_disk) ++ replicate 1000 7 ++
      drop 1600 (content ex_small ex_small_disk)).
Proof.
  pose proof (Inode_write_at_content ex_efs 33 ex_self ex_small ex_small_disk 600 (replicate 1000 7) ex_small_on
    ltac:(rewrite length_replicate; lia) ltac:(apply Forall_replicate; unfold is_byte; lia) ltac:(cbn; lia)
    ltac:(rewrite length_replicate; change max_file_size with 8468480; lia)) as H.
  rewrite length_replicate in H. cbv zeta in H.
  change (new_blocks ex_small (Z.of_nat (600 + 1000))) with 2%nat in H.
  change (owned ex_small ex_small_disk) with [31; 32] in H.
  assert (take 2 (free_bits ex_efs 33 ex_small_disk) = [2; 3]) as Hfree by (vm_compute; reflexivity).
  eapply wp_mono; [apply H|].
  - assert (length (free_bits ex_efs 33 ex_small_disk) = 31%nat) as -> by (vm_compute; reflexivity). lia.
  - intros r f' (-> & d' & Hon & _ & Hsz & Hc & Ho & _). split; [reflexivity|]. exists d'. split; [exact Hon|].
    split; [exact Hsz|]. split; [|exact Hc]. rewrite Ho, Hfree. reflexivity.
Defined.
