(* ===== verification/VfsClear.v ===== *)
(** Emptying a file (easy-fs/src/vfs.rs, [Inode::clear], and
    [EasyFileSystem::dealloc_data] of easy-fs/src/efs.rs): the blocks are zeroed and
    go back to the data bitmap.  Writing after it is how a file is replaced, by
    [open] with [TRUNC] and in the tests of the image packer. *)

From S2P Require Export VfsWrite Pack.

Definition zero_block : block := replicate 512 0.
Lemma zero_block_ok : block_ok zero_block.
Proof. apply (bool_decide_unpack _). vm_compute. exact I. Qed.

Section area.
Context (efs : EasyFileSystem) (L : Z).

Lemma dealloc_data_run g i :
  area_wf efs L g → 0 ≤ i < L → bit_of (data_bitmap efs) g i = true → room 1 g →
  ∃ g', EasyFileSystem_dealloc_data efs (data_block efs i) g = Ok ((), g') ∧
    (∀ j, 0 ≤ j < L → bit_of (data_bitmap efs) g' j = negb (bool_decide (j = i)) && bit_of (data_bitmap efs) g j) ∧
    area_wf efs L g' ∧ same_outside (data_block efs i :: bitmap_blocks (data_bitmap efs)) g g' ∧
    block_at g' (data_block efs i) = zero_block.
Proof.
  intros Hwf Hi Hbit Hroom. pose proof (area_wf_nonneg efs L g Hwf) as Hdas. pose proof Hwf as [Hbm Hbefore HL H32 Hav].
  set (x := data_block efs i). set (g1 := set_block x zero_block g).
  pose proof (Hav i Hi) as Hx. destruct (av_ok _ _ Hx) as [Hlen _].
  assert (modify DataBlock x 0 (λ data_block, mret ((), map (λ _, 0) data_block)) g = Ok ((), g1)) as Hrun1.
  { rewrite (modify_pure DataBlock block_ok x 0 _ g (block_at g x) (block_at g x) () zero_block);
      [|by apply stored_data| |exact zero_block_ok].
    - by rewrite put_back_data by (exact zero_block_ok || apply Hx).
    - intros s. unfold mret, M_ret. do 3 f_equal. unfold zero_block. rewrite <-Hlen. by apply (const_fmap (λ _, 0)). }
  assert (same_outside [x] g g1) as Hs1 by (apply set_block_same_outside; [by left|exact zero_block_ok]).
  destruct (area_frame efs L [x] g g1 Hwf Hs1) as (Ha1 & _ & Hb1).
  { intros y Hy ->%list_elem_of_singleton. by apply (area_not_bitmap efs L g i Hwf ltac:(lia)). }
  pose proof (dealloc_clears (data_bitmap efs) g1 i (aw_bitmap _ _ _ Ha1) ltac:(lia) ltac:(by rewrite Hb1)) as Hd.
  apply wp_Ok in Hd as ([] & g' & Hrun2 & Hbits & k & b & Hk & Hbok & ->).
  set (g' := set_block (start_block_id (data_bitmap efs) + k) b g1) in *.
  assert (same_outside (bitmap_blocks (data_bitmap efs)) g1 g') as Hs2.
  { apply set_block_same_outside; [|done]. apply elem_of_seqZ. lia. }
  exists g'. split_and!.
  - unfold EasyFileSystem_dealloc_data. erewrite bind_Ok by exact Hrun1.
    replace (x -₃₂ data_area_start_block efs) with i; [exact Hrun2|]. unfold x, data_block. rewrite wrap_small; lia.
  - intros j Hj. by rewrite Hbits, Hb1 by lia.
  - split; [apply bitmap_ok_set_block; [apply Ha1|done]|done..|]. intros j Hj. apply (avail_same _ _ _ _ Hs2). by apply Ha1.
  - eapply same_outside_trans; (eapply same_outside_weaken; [|done]).
    + intros y ->%list_elem_of_singleton. by left.
    + intros y Hy. by right.
  - rewrite (block_at_out _ _ _ x Hs2) by (apply (area_not_bitmap efs L g i Hwf); lia). unfold g1, block_at. cbn. by rewrite lookup_insert_eq.
Qed.

(** Blocks given back one after the other. *)
Lemma dealloc_many l : ∀ g,
  area_wf efs L g → NoDup l → (∀ i, i ∈ l → 0 ≤ i < L ∧ bit_of (data_bitmap efs) g i = true) → room 1 g →
  ∃ g', mfor (EasyFileSystem_dealloc_data efs) (data_block efs <$> l) g = Ok ((), g') ∧
    (∀ j, 0 ≤ j < L → bit_of (data_bitmap efs) g' j = negb (bool_decide (j ∈ l)) && bit_of (data_bitmap efs) g j) ∧
    area_wf efs L g' ∧ same_outside (bitmap_blocks (data_bitmap efs) ++ (data_block efs <$> l)) g g' ∧
    (∀ i, i ∈ l → block_at g' (data_block efs i) = zero_block).
Proof.
  induction l as [|i l IH]; intros g Hwf Hnd Hl Hroom.
  { exists g. split_and!; [done|done|done|apply same_outside_refl|]. intros i Hi. by apply not_elem_of_nil in Hi. }
  apply NoDup_cons in Hnd as [Hnin Hnd]. destruct (Hl i ltac:(by left)) as [Hi Hbit].
  destruct (dealloc_data_run g i Hwf Hi Hbit Hroom) as (g1 & Hrun1 & Hb1 & Ha1 & Hs1 & Hz1).
  destruct (IH g1 Ha1 Hnd) as (g' & Hrun & Hb & Ha & Hs & Hz).
  - intros j Hj. destruct (Hl j ltac:(by right)) as [Hjr Hjb]. split; [done|]. rewrite Hb1, Hjb by done.
    rewrite bool_decide_eq_false_2 by congruence. done.
  - unfold room in *. by rewrite (so_held _ _ _ Hs1).
  - exists g'. split_and!; [|intros j Hj|done| |].
    + unfold mfor in *. cbn [fmap list_fmap mfold]. erewrite bind_Ok by exact Hrun1. exact Hrun.
    + rewrite Hb, Hb1 by done. rewrite andb_assoc. f_equal. repeat case_bool_decide; set_solver.
    + eapply same_outside_trans; (eapply same_outside_weaken; [|done]); cbn [fmap list_fmap]; set_solver.
    + intros j [->|Hj]%elem_of_cons; [|by apply Hz]. rewrite (block_at_out _ _ _ _ Hs); [done|].
      intros [Hin|(j & Heq & Hj)%list_elem_of_fmap]%elem_of_app.
      * by apply (area_not_bitmap efs L g i Hwf ltac:(lia)).
      * assert (i = j) as -> by (unfold data_block in Heq; lia). done.
Qed.

(** The blocks of an area that are free after it. *)
Lemma free_after l g g' :
  NoDup l → (∀ i, i ∈ l → 0 ≤ i < L ∧ bit_of (data_bitmap efs) g i = true) →
  (∀ j, 0 ≤ j < L → bit_of (data_bitmap efs) g' j = negb (bool_decide (j ∈ l)) && bit_of (data_bitmap efs) g j) →
  free_bits efs L g' ≡ₚ l ++ free_bits efs L g.
Proof.
  intros Hnd Hl Hb. apply NoDup_Permutation; [apply NoDup_free_bits| |].
  - apply NoDup_app. split; [done|]. split; [|apply NoDup_free_bits].
    intros i Hi [_ Hf]%elem_of_free_bits. destruct (Hl i Hi). congruence.
  - intros i. rewrite elem_of_app, !elem_of_free_bits. split.
    + intros [Hi Hf]. rewrite Hb in Hf by done. case_bool_decide as Hin; [by left|right]. done.
    + intros [Hi|[Hi Hf]]; [destruct (Hl i Hi) as [Hr _]|]; (split; [done|]; rewrite Hb by done).
      * by rewrite bool_decide_eq_true_2.
      * by rewrite Hf, andb_false_r.
Qed.
End area.

(** * An empty inode *)

Lemma empty_inode d f : di_size d = 0 → owned d f = [] ∧ content d f = [].
Proof.
  intros H0. assert (nblocks d = 0%nat) as Hn by (unfold nblocks, DiskInode_data_blocks; by rewrite H0).
  split; [unfold owned; by rewrite Hn|]. unfold content. by rewrite H0.
Qed.
Lemma cleared_empty d f n : DiskInode_valid d → inode_wf (cleared d n) f ∧ same_meta d (cleared d n) ∧ di_size (cleared d n) = 0.
Proof.
  intros (Hl & Hd & Hid & Hs & H1 & H2 & Hn)%DiskInode_valid_iff.
  assert (di_size (cleared d n) = 0) as H0 by (unfold cleared; by repeat case_match).
  destruct (empty_inode (cleared d n) f H0) as [Ho _]. split_and!; [split| |done].
  - apply DiskInode_valid_iff. assert (is_u32 0) as Hz by (unfold is_u32; lia).
    assert (length (splice 0 (replicate (Nat.min n 28) 0) (direct d)) = 28%nat) as Hsl.
    { rewrite length_splice; [done|]. rewrite length_replicate. lia. }
    assert (Forall is_u32 (splice 0 (replicate (Nat.min n 28) 0) (direct d))) as Hsf.
    { unfold splice. rewrite !Forall_app. split_and!; [by apply Forall_take|by apply Forall_replicate|by apply Forall_drop]. }
    unfold cleared. repeat case_match; done.
  - rewrite H0. change max_file_size with 8468480. lia.
  - rewrite Ho. constructor.
  - rewrite Ho. constructor.
  - unfold cleared, same_meta. by repeat case_match.
Qed.

(** * [Inode::clear] *)

(** What it leaves behind. *)
Record file_cleared (efs : EasyFileSystem) (L : Z) (self : Inode) (d : DiskInode) (f : Flat) (d' : DiskInode) (f' : Flat) : Prop := {
  fc_on : file_on efs L self d' f';
  fc_meta : same_meta d d';
  fc_size : di_size d' = 0;
  fc_free : data_block efs <$> free_bits efs L f' ≡ₚ owned d f ++ (data_block efs <$> free_bits efs L f);
  fc_zero x : x ∈ owned d f → block_at f' x = zero_block;
  fc_same : same_outside (in_block_id self :: bitmap_blocks (data_bitmap efs) ++ owned d f) f f' }.

Lemma owned_indices efs L d g :
  in_area efs L d g → inode_wf d g → ∃ l, owned d g = data_block efs <$> l ∧ NoDup l ∧
    ∀ i, i ∈ l → 0 ≤ i < L ∧ bit_of (data_bitmap efs) g i = true.
Proof.
  intros Hin Hwf. exists ((λ x, x - data_area_start_block efs) <$> owned d g). split_and!.
  - rewrite <-list_fmap_compose. rewrite <-(list_fmap_id (owned d g)) at 1. apply list_fmap_ext. intros j x _. cbn. unfold data_block. lia.
  - apply NoDup_fmap_2; [intros ???; lia|apply Hwf].
  - intros i (x & -> & (j & Hj & -> & Hbit)%Hin)%list_elem_of_fmap. unfold data_block.
    replace (data_area_start_block efs + j - data_area_start_block efs) with j by lia. done.
Qed.

Lemma Inode_clear_run efs L self d f :
  file_on efs L self d f → wp (Inode_clear efs self) f (λ _ f', ∃ d', file_cleared efs L self d f d' f').
Proof.
  intros Hfile. pose proof Hfile as [[[b Hst] Hwf Hown] Ha Hheld Hlock Hid Hin]. set (g := inside self f).
  assert (inode_wf d g) as Hwf1 by by apply inode_wf_hold.
  assert (area_wf efs L g) as Ha1 by by apply area_inside.
  assert (room 2 g) as Hroom.
  { unfold room. cbn. rewrite Hheld, union_empty_r_L, size_singleton. unfold BLOCK_CACHE_MAX_NUM. lia. }
  assert (owned d g = owned d f) as Hog by done.
  destruct (owned_indices efs L d g) as (l & Hl & Hnd & Hbits); [done|done|].
  destruct (dealloc_many efs L l g Ha1 Hnd Hbits ltac:(unfold room in *; lia)) as (g' & Hrun & Hb & Ha' & Hs & Hz).
  destruct (cleared_empty d g' (nblocks d) (wf_valid _ _ Hwf)) as (Hwf' & Hmeta & H0).
  set (d' := cleared d (nblocks d)) in *. destruct (empty_inode d' g' H0) as [Ho' Hc'].
  assert (can_open (in_block_id self) f b) as Hop by apply Hst.
  assert (stored DiskInode_codec (in_block_id self) (in_block_offset self) (lock_fs true f) b d) as Hst'.
  { destruct Hst as [[? ? ? ?] ? ? ?]. by split. }
  assert (in_area efs L d' g') as Hin' by (intros x; rewrite Ho'; intros Hx; by apply not_elem_of_nil in Hx).
  destruct (release_file efs L self d f _ d' g' b Hfile Hop Hwf' Ha' Hin' Hs) as (Hon & Hc & Ho & Hf & Hsame).
  set (f' := outside self (put_back DiskInode_codec (in_block_offset self) d' b) g') in *.
  unfold Inode_clear. apply wp_fs_lock; [done|]. apply wp_bind. unfold Inode_modify_disk_inode.
  apply (wp_modify DiskInode_codec DiskInode_valid _ _ _ _ b d); [done|]. fold (inside self f). fold g.
  eapply wp_bind_Ok; [by apply clear_size_spec|]. cbv beta iota.
  apply wp_bind, wp_assert. split.
  { pose proof (wf_size _ _ Hwf1). pose proof (wf_size_nonneg d g Hwf1). rewrite total_blocks_count by lia. unfold owned. rewrite slots_count. apply Z.eqb_refl. }
  eapply wp_bind_Ok; [rewrite Hl; exact Hrun|]. apply wp_ret. cbn [fst snd]. split; [apply Hwf'|].
  pose proof (so_lock _ _ _ Hs) as Hgl. cbn in Hgl. fold d'.
  assert (unhold (in_block_id self) (set_block (in_block_id self) (put_back DiskInode_codec (in_block_offset self) d' b) g') = lock_fs true f') as ->.
  { unfold f', outside, lock_fs, unhold, set_block. cbn. by rewrite Hgl. }
  unfold wp at 1. rewrite sync_run by exact (fo_held _ _ _ _ _ Hon). exists d'.
  rewrite (lock_fs_id f' (fo_lock _ _ _ _ _ Hon)).
  assert (∀ x, x ∈ owned d f → ∃ i, i ∈ l ∧ x = data_block efs i) as Hix.
  { intros x Hx. rewrite <-Hog, Hl in Hx. apply list_elem_of_fmap in Hx as (i & -> & Hi). eauto. }
  split; try done.
  - rewrite Hf. rewrite (free_after efs L l g g' Hnd Hbits Hb), fmap_app, <-Hl.
    done.
  - intros x Hx. destruct (Hix x Hx) as (i & Hi & ->). unfold f', block_at. rewrite outside_blocks; [by apply Hz|].
    intros Heq. apply Hown. by rewrite <-Heq.
  - rewrite <-Hl, Hog in Hsame. exact Hsame.
Qed.

(** C12: [Inode::clear] empties a file: the inode, its number of links and its type
    kept, has size 0 and no blocks; every block the file had, data and tables, is
    filled with zeros and free again, no block becomes free that was another
    file's, and nothing else on the disk changes. *)
Theorem Inode_clear_frees efs L self d f :
  file_on efs L self d f → wp (Inode_clear efs self) f (λ _ f', ∃ d',
    file_on efs L self d' f' ∧ same_meta d d' ∧ di_size d' = 0 ∧ owned d' f' = [] ∧ content d' f' = [] ∧
    data_block efs <$> free_bits efs L f' ≡ₚ owned d f ++ (data_block efs <$> free_bits efs L f) ∧
    (∀ x, x ∈ owned d f → block_at f' x = zero_block) ∧
    same_outside (in_block_id self :: bitmap_blocks (data_bitmap efs) ++ owned d f) f f').
Proof.
  intros Hf. eapply wp_mono; [by apply (Inode_clear_run efs L)|]. intros _ f' (d' & [H1 H2 H3 H4 H5 H6]).
  exists d'. destruct (empty_inode d' f' H3). done.
Qed.

(** * Replacing a file: the test of the image packer with random strings *)

Lemma read_back_loop self d f fuel off buf v :
  inode_at self d f → fl_fs_locked f = false → room 2 f → length buf = 127%nat → ascii (content d f) = true →
  Z.of_nat (length (content d f) + 127) < 2 ^ 64 → (length (content d f) - off < fuel)%nat → (off ≤ length (content d f))%nat →
  mloop fuel (read_back_round self) (Z.of_nat off, buf, v) f = Ok (v ++ drop off (content d f), f).
Proof.
  intros Hat Hl Hroom. revert off buf v. induction fuel as [|fuel IH]; intros off buf v Hbuf Hasc H64 Hfuel Hoff; [lia|].
  set (c := content d f) in *. cbn [mloop]. set (n := Nat.min 127 (length c - off)).
  assert (length (sub_list off n c) = n) as Hlen by (unfold n; rewrite length_sub_list_any; lia).
  assert (read_back_round self (Z.of_nat off, buf, v) f = Ok (if decide (n = 0%nat) then inr v
    else inl (Z.of_nat (off + n), sub_list off n c ++ drop n buf, v ++ sub_list off n c), f)) as Hround.
  { unfold read_back_round. erewrite bind_Ok by (apply (Inode_read_at_run self d f off buf); [done..|rewrite Hbuf; lia]).
    cbv beta iota zeta. rewrite Hbuf. fold c. fold n. case_decide as Hn; [by rewrite Hn|].
    rewrite (proj2 (Z.eqb_neq _ _)) by lia. erewrite bind_Ok.
    2:{ apply (slice_Ok _ 0 n). rewrite length_app, Hlen. lia. }
    rewrite Nat.sub_0_r, sub_list_prefix by done. unfold assert_. rewrite (utf8_ascii (sub_list off n c)) by (by apply ascii_sub).
    erewrite bind_Ok by reflexivity. rewrite wrap_small by lia. by rewrite Nat2Z.inj_add. }
  erewrite bind_Ok by exact Hround. clear Hround. case_decide as Hn.
  - rewrite drop_ge, app_nil_r by lia. done.
  - rewrite IH; [|rewrite length_app, Hlen, length_drop; lia|done|lia|lia|lia]. rewrite <-app_assoc. do 3 f_equal.
    unfold sub_list. by rewrite <-drop_drop, take_drop.
Qed.

Lemma total_blocks_0 : DiskInode_total_blocks 0 = 0.
Proof. reflexivity. Qed.
Lemma digits_ascii rands : ascii (random_digit <$> rands) = true.
Proof.
  unfold ascii. induction rands as [|r rands IH]; [done|]. cbn [fmap list_fmap forallb]. rewrite IH, andb_true_r.
  unfold random_digit. pose proof (Z.mod_pos_bound r 10 ltac:(lia)). lia.
Qed.

(** C11: What replaces a file is what it then holds.  On a file in any state, with
    as many blocks as the new contents need among those that are free and those of
    the file itself, the packer's test with a random string passes: the file is
    emptied and reads as empty, the string of digits is written, and reading it in
    pieces of 127 bytes until nothing is left - which ends within the bound -
    gives the string back; the file then holds exactly the string, whatever it held
    before. *)
Theorem random_str_test_passes efs L self d f rands buffer :
  file_on efs L self d f → rands ≠ [] → Z.of_nat (length rands) ≤ max_file_size → Z.of_nat (length buffer) < 2 ^ 63 →
  DiskInode_total_blocks (Z.of_nat (length rands)) ≤ Z.of_nat (length (owned d f) + length (free_bits efs L f)) →
  wp (random_str_test efs self rands buffer) f (λ buffer' f', buffer' = buffer ∧ ∃ d',
    file_on efs L self d' f' ∧ same_meta d d' ∧ content d' f' = random_digit <$> rands).
Proof.
  intros Hf Hne Hmax Hbuf Hfree. unfold random_str_test. apply wp_bind.
  eapply wp_mono; [by apply (Inode_clear_run efs L)|]. intros [] f1 (d1 & [Hf1 Hm1 Hs1 Hfree1 _ _]).
  destruct (empty_inode d1 f1 Hs1) as [Ho1 Hc1].
  assert (∀ g e, file_on efs L self e g → room 2 g) as Hroom.
  { intros g e Hg. unfold room, BLOCK_CACHE_MAX_NUM. rewrite (fo_held _ _ _ _ _ Hg), size_empty. lia. }
  eapply wp_bind_Ok; [apply (Inode_read_at_run self d1 f1 0 buffer); [apply Hf1|apply Hf1|by eapply Hroom|lia]|].
  cbv beta iota zeta. rewrite Hc1. change (length (@nil Z) - 0)%nat with 0%nat. rewrite Nat.min_0_r.
  apply wp_bind, wp_assert. split; [done|]. set (str := random_digit <$> rands).
  assert (length str = length rands) as Hlen by apply length_fmap.
  assert (0 < length rands)%nat as Hpos by (destruct rands; [done|cbn; lia]).
  change max_file_size with 8468480 in Hmax. apply wp_bind. eapply wp_mono.
  { apply (Inode_write_at_run efs L self d1 f1 0 str Hf1); rewrite ?Hlen; try lia.
    - apply Forall_forall. intros x (r & -> & _)%list_elem_of_fmap. unfold random_digit, is_byte.
      pose proof (Z.mod_pos_bound r 10 ltac:(lia)). lia.
    - change max_file_size with 8468480. lia.
    - apply (Permutation_length) in Hfree1. rewrite length_app, !length_fmap in Hfree1. unfold new_blocks.
      rewrite Hs1, total_blocks_0, Z.max_r by lia. cbn [Nat.add]. lia. }
  intros n f2 (-> & d2 & [Hf2 Hm2 Hs2 Hc2 _ _ _ _]). rewrite Hc1 in Hc2. cbn [take drop app] in Hc2. rewrite drop_nil, app_nil_r in Hc2.
  assert (ascii (content d2 f2) = true) as Hasc by (rewrite Hc2; apply digits_ascii).
  eapply wp_bind_Ok.
  { apply (read_back_loop self d2 f2 (S (length str)) 0); [apply Hf2|apply Hf2|by eapply Hroom|by rewrite length_replicate|done|..]; rewrite Hc2, ?Hlen; lia. }
  cbn [app drop]. rewrite Hc2. apply wp_bind, wp_assert. split; [by apply bool_decide_eq_true|]. apply wp_ret.
  split; [done|]. exists d2. split; [done|]. split; [|done].
  destruct Hm1 as (? & ? & ?), Hm2 as (? & ? & ?). unfold same_meta. by split_and!; etrans.
Qed.

(** * Witnesses: the file of 600 bytes *)

Lemma Inode_clear_frees_witness :
  wp (Inode_clear ex_efs ex_self) ex_small_disk (λ _ f', ∃ d', file_on ex_efs 33 ex_self d' f' ∧ content d' f' = [] ∧
    data_block ex_efs <$> free_bits ex_efs 33 f' ≡ₚ [31; 32] ++ (data_block ex_efs <$> free_bits ex_efs 33 ex_small_disk)).
Proof.
  eapply wp_mono; [exact (Inode_clear_frees ex_efs 33 ex_self ex_small ex_small_disk ex_small_on)|].
  intros [] f' (d' & Hon & _ & _ & _ & Hc & Hf & _). exists d'. split; [exact Hon|]. split; [exact Hc|exact Hf].
Defined.
Lemma random_str_test_passes_witness :
  wp (random_str_test ex_efs ex_self (replicate 700 5) [1; 2]) ex_small_disk (λ buffer f', buffer = [1; 2] ∧
    ∃ d', content d' f' = replicate 700 53).
Proof.
  eapply wp_mono; [apply (random_str_test_passes ex_efs 33 ex_self ex_small ex_small_disk (replicate 700 5) [1; 2] ex_small_on)|].
  - done.
  - rewrite length_replicate. change max_file_size with 8468480. lia.
  - cbn. lia.
  - rewrite length_replicate. change (owned ex_small ex_small_disk) with [31; 32]. change (DiskInode_total_blocks (Z.of_nat 700)) with 2. cbn [length]. lia.
  - intros buffer f' (-> & d' & _ & _ & Hc). split; [reflexivity|]. exists d'. rewrite Hc. reflexivity.
Defined.

(** The packer's test, run on a disk of its 4096 blocks with the first random
    strings. *)
Example efs_test_passes :
  match efs_test [replicate (Z.to_nat (4 * BLOCK_SZ)) 77; replicate (Z.to_nat (8 * BLOCK_SZ + BLOCK_SZ / 2)) 200]
    (MkFlat (list_to_map ((λ i, (i, zero_block)) <$> seqZ 0 4096)) ∅ false) with
  | Ok (names, _) => names = [text "filea"; text "fileb"]
  | Fail _ => False
  end.
Proof. vm_compute. reflexivity. Qed.
