(* ===== verification/VfsCreate.v ===== *)
(** Creating a file (easy-fs/src/vfs.rs, [Inode::create], with the allocation of
    inodes of easy-fs/src/efs.rs): what a directory, the table of inodes and the
    other files look like afterwards. *)

From S2P Require Export VfsWrite.

(** * The table of inodes *)

Definition slot_block (efs : EasyFileSystem) (j : Z) : Z := inode_area_start_block efs + j / 3.
Definition slot_offset (j : Z) : Z := j mod 3 * 136.
(** The inode in slot [j]. *)
Definition slot_value (efs : EasyFileSystem) (j : Z) (f : Flat) : option DiskInode :=
  cdec DiskInode_codec (sub_list (Z.to_nat (slot_offset j)) (csize DiskInode_codec) (block_at f (slot_block efs j))).
Definition slot_inode (efs : EasyFileSystem) (j : Z) : Inode := MkInode (slot_block efs j) (slot_offset j).
(** The free ones of the first [N] inodes, lowest first. *)
Definition free_inodes (efs : EasyFileSystem) : Z → Flat → list Z := clear_bits (inode_bitmap efs).

(** A file system at rest, whose first [N] inodes and first [L] data blocks exist:
    inode bitmap, inodes, data bitmap and data area follow each other. *)
Record fs_wf (efs : EasyFileSystem) (L N : Z) (f : Flat) : Prop := {
  fs_area : area_wf efs L f;
  fs_bitmap : bitmap_ok (inode_bitmap efs) f;
  fs_before : start_block_id (inode_bitmap efs) + blocks (inode_bitmap efs) ≤ inode_area_start_block efs;
  fs_limit : 0 ≤ N ≤ blocks (inode_bitmap efs) * BLOCK_BITS ∧ N ≤ 2 ^ 32;
  fs_end j : 0 ≤ j < N → slot_block efs j < start_block_id (data_bitmap efs);
  fs_slots j : 0 ≤ j < N → avail (slot_block efs j) f ∧ is_Some (slot_value efs j f);
  fs_held : fl_held f = ∅;
  fs_lock : fl_fs_locked f = false }.

Section slots.
Context (efs : EasyFileSystem).

Lemma slot_offset_bound j : 0 ≤ slot_offset j ∧ slot_offset j + Z.of_nat (csize DiskInode_codec) ≤ BLOCK_SZ.
Proof. unfold slot_offset, BLOCK_SZ. cbn [csize DiskInode_codec]. lia. Qed.
Lemma slot_pos L N f j :
  fs_wf efs L N f → 0 ≤ j < N → EasyFileSystem_get_disk_inode_pos efs j = (slot_block efs j, slot_offset j).
Proof.
  intros [[[? ? ? _] ? ? ? _] [? ? ? _] ? ? Hend _ _ _] Hj. specialize (Hend j Hj).
  unfold EasyFileSystem_get_disk_inode_pos, DiskInode_size_of, slot_block, slot_offset in *.
  change (u32 (BLOCK_SZ / 136)) with 3. by rewrite !wrap_small by lia.
Qed.
Lemma slot_stored L N f j v l :
  fs_wf efs L N f → 0 ≤ j < N → slot_value efs j f = Some v →
  stored DiskInode_codec (slot_block efs j) (slot_offset j) (lock_fs l f) (block_at f (slot_block efs j)) v.
Proof.
  intros Hfs Hj Hv. destruct (fs_slots _ _ _ _ Hfs j Hj) as [[Hf Hh Hok] _]. destruct (slot_offset_bound j).
  split; [|done|done|done]. split; [done| |done|done]. cbn. rewrite (fs_held _ _ _ _ Hfs), size_empty. unfold BLOCK_CACHE_MAX_NUM. lia.
Qed.
Lemma slot_value_valid L N f j v : fs_wf efs L N f → 0 ≤ j < N → slot_value efs j f = Some v → DiskInode_valid v.
Proof. intros Hfs Hj Hv. eapply (stored_valid DiskInode_codec DiskInode_valid), (slot_stored L N f j v false); done. Qed.

(** A slot depends on its bytes only, and slots do not overlap. *)
Lemma slot_value_ext j f f' : block_at f' (slot_block efs j) = block_at f (slot_block efs j) → slot_value efs j f' = slot_value efs j f.
Proof. intros E. unfold slot_value. by rewrite E. Qed.
Lemma slot_value_put i v f f' :
  DiskInode_valid v → block_ok (block_at f (slot_block efs i)) →
  block_at f' (slot_block efs i) = put_back DiskInode_codec (slot_offset i) v (block_at f (slot_block efs i)) →
  slot_value efs i f' = Some v.
Proof.
  intros Hv Hok E. unfold slot_value. rewrite E. destruct (slot_offset_bound i). by apply (dec_put_back DiskInode_codec DiskInode_valid).
Qed.
Lemma slot_value_other i j v f f' :
  i ≠ j → DiskInode_valid v → block_ok (block_at f (slot_block efs i)) →
  block_at f' (slot_block efs i) = put_back DiskInode_codec (slot_offset i) v (block_at f (slot_block efs i)) →
  (slot_block efs j ≠ slot_block efs i → block_at f' (slot_block efs j) = block_at f (slot_block efs j)) →
  slot_value efs j f' = slot_value efs j f.
Proof.
  intros Hne Hv Hok E Hother. destruct (decide (slot_block efs j = slot_block efs i)) as [Eb|Hb]; [|by apply slot_value_ext, Hother].
  unfold slot_value. rewrite Eb, E. f_equal. unfold put_back. destruct (slot_offset_bound i) as [H1 H2].
  assert (length (cenc DiskInode_codec v (sub_list (Z.to_nat (slot_offset i)) (csize DiskInode_codec) (block_at f (slot_block efs i)))) = 136%nat) as Hl.
  { apply (codec_length (c := DiskInode_codec) (valid := DiskInode_valid)); [done|]. by apply (sub_block_length DiskInode_codec). }
  destruct Hok as [Hlen _]. unfold slot_block, slot_offset in *. apply sub_list_splice_other; rewrite Hl; cbn [csize DiskInode_codec]; lia.
Qed.
End slots.

(** * Files that are left alone *)

Lemma file_on_frame efs L self d f f' X :
  file_on efs L self d f → same_outside X f f' →
  (∀ x, x ∈ X → (x ∉ bitmap_blocks (data_bitmap efs)) ∧ (x ∉ owned d f)) →
  (∃ b, stored DiskInode_codec (in_block_id self) (in_block_offset self) f' b d) →
  file_on efs L self d f' ∧ content d f' = content d f ∧ owned d f' = owned d f.
Proof.
  intros [[_ Hwf Hown] Ha Hh Hl Hid Hin] Hs HX Hst.
  destruct (area_frame efs L X f f' Ha Hs) as (Ha' & _ & Hbits); [intros x Hx Hx'; by destruct (HX x Hx')|].
  destruct (blocks_frame d f f') as [Ho Hc]; [intros x Hx; apply (so_out _ _ _ Hs); intros Hx'; by destruct (HX x Hx')|].
  split; [|done]. split; [split; [done| |by rewrite Ho]| | | |done|].
  - apply (inode_wf_frame d f f'); [|done|].
    + intros x Hx. apply (so_out _ _ _ Hs). intros Hx'. by destruct (HX x Hx').
    + intros x _. rewrite (so_held _ _ _ Hs), Hh. set_solver.
  - done.
  - by rewrite (so_held _ _ _ Hs).
  - by rewrite (so_lock _ _ _ Hs).
  - intros x. rewrite Ho. intros (i & Hi & -> & Hb)%Hin. exists i. by rewrite Hbits.
Qed.

(** * Taking an inode *)

Definition new_file (i : Z) : DiskInode := MkDiskInode i 0 (replicate 28 0) 0 0 1 File.

Lemma initialize_new old i : DiskInode_valid old → DiskInode_initialize old i File = new_file i.
Proof. intros [Hl _]. unfold DiskInode_initialize, new_file. by rewrite Hl. Qed.
Lemma new_file_valid i : 0 ≤ i < 2 ^ 32 → DiskInode_valid (new_file i).
Proof. intros Hi. apply DiskInode_valid_iff. cbn. unfold is_u32. split_and!; try done; try lia. repeat constructor; lia. Qed.
Lemma new_file_wf i f : 0 ≤ i < 2 ^ 32 → inode_wf (new_file i) f ∧ owned (new_file i) f = [] ∧ content (new_file i) f = [].
Proof.
  intros Hi. assert (owned (new_file i) f = []) as Ho by apply slots_nil. split; [|done].
  split; [by apply new_file_valid|done|rewrite Ho; constructor|by rewrite Ho].
Qed.

(** The inode [i] is allocated and its slot holds an empty file. *)
Record claimed (efs : EasyFileSystem) (L N : Z) (f : Flat) (i : Z) (f' : Flat) : Prop := {
  cl_fs : fs_wf efs L N f';
  cl_free : free_inodes efs N f = i :: free_inodes efs N f';
  cl_slot : slot_value efs i f' = Some (new_file i);
  cl_slots j : 0 ≤ j < N → j ≠ i → slot_value efs j f' = slot_value efs j f;
  cl_same : same_outside (slot_block efs i :: bitmap_blocks (inode_bitmap efs)) f f' }.

Section claim.
Context (efs : EasyFileSystem) (L N : Z).

(** Neither is in the data bitmap. *)
Lemma claimed_blocks f i x :
  fs_wf efs L N f → 0 ≤ i < N → x ∈ slot_block efs i :: bitmap_blocks (inode_bitmap efs) →
  x < start_block_id (data_bitmap efs).
Proof.
  intros [Ha [? ? ? _] Hb ? Hend _ _ _] Hi [->|Hx%elem_of_seqZ]%elem_of_cons; [by apply Hend|].
  specialize (Hend i Hi). unfold slot_block in Hend. lia.
Qed.
Lemma slot_not_bitmap f j : fs_wf efs L N f → 0 ≤ j → slot_block efs j ∉ bitmap_blocks (inode_bitmap efs).
Proof. intros [_ ? Hb _ _ _ _ _] Hj Hin%elem_of_seqZ. unfold slot_block in Hin. lia. Qed.

Lemma fs_wf_frame f f' X :
  fs_wf efs L N f → same_outside X f f' → area_wf efs L f' →
  (∀ k, 0 ≤ k < blocks (inode_bitmap efs) → ∃ b, can_open (start_block_id (inode_bitmap efs) + k) f' b) →
  (∀ j, 0 ≤ j < N → is_Some (slot_value efs j f')) → fs_wf efs L N f'.
Proof.
  intros [_ [Hs Hb He _] Hbefore Hlim Hend Hslots Hh Hl] Hsame Ha' Hop Hsl. split; try done.
  - intros j Hj. split; [|by apply Hsl]. eapply (avail_same X); [done|]. by apply Hslots.
  - by rewrite (so_held _ _ _ Hsame).
  - by rewrite (so_lock _ _ _ Hsame).
Qed.

Lemma claim_run f i rest :
  fs_wf efs L N f → free_inodes efs N f = i :: rest →
  ∃ f1 f', EasyFileSystem_alloc_inode efs (lock_fs true f) = Ok (i, f1) ∧
    modify DiskInode_codec (slot_block efs i) (slot_offset i) (λ new_inode, mret ((), DiskInode_initialize new_inode i File)) f1 =
      Ok ((), lock_fs true f') ∧ claimed efs L N f i f'.
Proof.
  intros Hfs Hfree. pose proof (fs_limit _ _ _ _ Hfs) as [HN H32].
  assert (bitmap_ok (inode_bitmap efs) (lock_fs true f)) as Hbm.
  { destruct (fs_bitmap _ _ _ _ Hfs) as [? ? ? Hop]. split; try done. intros k Hk. destruct (Hop k Hk) as [b [? ? ? ?]]. by exists b. }
  assert (i ∈ free_inodes efs N f) as [Hi Hbit]%elem_of_clear_bits by (rewrite Hfree; by left).
  pose proof (bitmap_alloc_spec _ _ Hbm) as Hspec. apply wp_Ok in Hspec as (r & f1 & Hrun & Hspec).
  destruct r as [i'|]; [|destruct Hspec as [_ Hfull]; specialize (Hfull i ltac:(lia));
    change (bit_of (inode_bitmap efs) f i = true) in Hfull; congruence].
  pose proof (alloc_clear_bits N (inode_bitmap efs) (lock_fs true f) i' f1 ltac:(change (free_inodes efs N f ≠ []); by rewrite Hfree) Hspec) as Hcons.
  change (clear_bits (inode_bitmap efs) N (lock_fs true f)) with (free_inodes efs N f) in Hcons. rewrite Hfree in Hcons.
  injection Hcons as <- ->. destruct Hspec as (_ & _ & _ & _ & k & b & Hk & Hb & ->).
  set (kb := start_block_id (inode_bitmap efs) + k) in *.
  assert (slot_block efs i ≠ kb) as Hne.
  { intros E. apply (slot_not_bitmap f i Hfs ltac:(lia)). rewrite E. apply elem_of_seqZ. lia. }
  destruct (fs_slots _ _ _ _ Hfs i Hi) as [Hav [old Hold]].
  pose proof (slot_value_valid efs L N f i old Hfs Hi Hold) as Hvold. set (sb := block_at f (slot_block efs i)).
  set (f' := set_block (slot_block efs i) (put_back DiskInode_codec (slot_offset i) (new_file i) sb) (set_block kb b f)).
  assert (DiskInode_valid (new_file i)) as Hv by (apply new_file_valid; lia).
  destruct (slot_offset_bound i) as [Ho1 Ho2].
  assert (block_ok (put_back DiskInode_codec (slot_offset i) (new_file i) sb)) as Hpb by (apply (put_back_ok DiskInode_codec DiskInode_valid); try done; apply Hav).
  assert (same_outside (slot_block efs i :: bitmap_blocks (inode_bitmap efs)) f f') as Hsame.
  { eapply same_outside_trans; apply set_block_same_outside; try done; [right; apply elem_of_seqZ; unfold kb; lia|by left]. }
  assert (block_at f' (slot_block efs i) = put_back DiskInode_codec (slot_offset i) (new_file i) sb) as Hat by apply block_at_set_same.
  assert (∀ j, slot_block efs j ≠ slot_block efs i → 0 ≤ j → block_at f' (slot_block efs j) = block_at f (slot_block efs j)) as Hother.
  { intros j Hj H0. unfold f'. rewrite !block_at_set_other; [done| |done]. intros E. apply (slot_not_bitmap f j Hfs H0).
    rewrite E. apply elem_of_seqZ. unfold kb. lia. }
  assert (∀ j, 0 ≤ j < N → j ≠ i → slot_value efs j f' = slot_value efs j f) as Hslots.
  { intros j Hj Hji. apply (slot_value_other efs i j (new_file i)); try done; [apply Hav|]. intros E. by apply Hother; [|lia]. }
  assert (slot_value efs i f' = Some (new_file i)) as Hslot by (by apply (slot_value_put efs i (new_file i) f f'); [|apply Hav|]).
  eexists _, f'. split; [|split; [|split]].
  - unfold EasyFileSystem_alloc_inode. erewrite bind_Ok by exact Hrun. erewrite bind_Ok by reflexivity.
    unfold mret, M_ret. by rewrite wrap_small by lia.
  - erewrite (modify_pure DiskInode_codec DiskInode_valid _ _ _ _ sb old); [done| |intros s; by rewrite initialize_new by done|done].
    pose proof (slot_stored efs L N f i old true Hfs Hi Hold) as [[? ? Hh ?] ? ? ?]. split; try done. split; try done.
    cbn. rewrite lookup_insert_ne by done. exact Hh.
  - eapply (fs_wf_frame f f'); [done|exact Hsame| | |].
    + eapply (area_frame efs L _ f f'); [apply Hfs|exact Hsame|]. intros x Hx%elem_of_seqZ Hx'%(claimed_blocks f i x); [lia|done|done].
    + intros k' Hk'. unfold f'. destruct (bitmap_ok_set_block (inode_bitmap efs) _ (slot_block efs i) _
        (bitmap_ok_set_block (inode_bitmap efs) f kb b (fs_bitmap _ _ _ _ Hfs) Hb) Hpb) as [_ _ _ Hop]. by apply Hop.
    + intros j Hj. destruct (decide (j = i)) as [->|]; [by rewrite Hslot|rewrite Hslots by done; by apply Hfs].
  - rewrite Hfree. f_equal. unfold free_inodes, clear_bits. apply filter_seqZ_ext. intros j Hj.
    rewrite (bit_of_frame (inode_bitmap efs) (set_block kb b f) f'); [done| |lia]. intros x Hx. cbn. rewrite lookup_insert_ne; [done|].
    intros <-. by apply (slot_not_bitmap f i Hfs ltac:(lia)).
  - exact Hslot.
  - exact Hslots.
  - exact Hsame.
Qed.
End claim.

(** * Appending an entry *)

Definition name_ok (name : list Z) : Prop :=
  Forall (λ b, 0 < b < 256) name ∧ utf8_valid name = true ∧ (length name ≤ 27)%nat.
Definition entry_for (name : list Z) (i : Z) : DirEntry := MkDirEntry (name ++ replicate (28 - length name) 0) i.

Lemma entry_for_spec name i :
  name_ok name → 0 ≤ i < 2 ^ 32 →
  length (DirEntry_as_bytes (entry_for name i)) = 32%nat ∧ Forall is_byte (DirEntry_as_bytes (entry_for name i)) ∧
  DirEntry_of_bytes (DirEntry_as_bytes (entry_for name i)) = entry_for name i ∧ entry_name (entry_for name i) = Some name.
Proof.
  intros (Hb & Hu & Hl) Hi. unfold DirEntry_as_bytes, DirEntry_of_bytes, entry_for. cbn [de_name inode_number].
  assert (length (name ++ replicate (28 - length name) 0) = 28%nat) as H28 by (rewrite length_app, length_replicate; lia).
  split; [by rewrite length_app, H28, length_le_enc|]. split; [|split].
  - apply Forall_app. split; [|apply le_enc_bytes]. apply Forall_app. split; [|apply Forall_replicate; unfold is_byte; lia].
    eapply Forall_impl; [exact Hb|]. unfold is_byte. cbn. lia.
  - rewrite sub_list_prefix by done. f_equal. rewrite <-(app_nil_r (le_enc 4 i)), (sub_list_middle 28 4) by (done || apply length_le_enc).
    by apply le_dec_enc_small.
  - unfold entry_name. cbn [de_name]. rewrite find_index_zero by (lia || (eapply Forall_impl; [exact Hb|]; cbn; lia)).
    by rewrite take_app_length, Hu.
Qed.

Lemma dir_appended d f d' f' name i :
  dir_wf d f → di_size d mod 32 = 0 → name_ok name → 0 ≤ i < 2 ^ 32 →
  inode_wf d' f' → type_ d' = type_ d → di_size d' = di_size d + 32 →
  content d' f' = content d f ++ DirEntry_as_bytes (entry_for name i) →
  dir_wf d' f' ∧ dir_list d' f' = dir_list d f ++ [(name, i)].
Proof.
  intros [Hwf Hdir Hnames] Hmod Hname Hi Hwf' Hty Hsz Hc. pose proof (wf_size_nonneg d f Hwf) as H0.
  destruct (entry_for_spec name i Hname Hi) as (Hlen & _ & Hof & Hen). pose proof (length_content d f Hwf) as Hl.
  assert (entry_count d' = S (entry_count d)) as Hcount by (unfold entry_count, DIRENT_SZ; lia).
  assert (Z.of_nat (length (content d f)) = 32 * Z.of_nat (entry_count d)) as Hl' by (unfold entry_count, DIRENT_SZ; lia).
  assert (∀ j, (j < entry_count d)%nat → entry_at d' f' j = entry_at d f j) as Hold.
  { intros j Hj. unfold entry_at. f_equal. rewrite Hc. unfold sub_list. rewrite drop_app_le by lia.
    apply take_app_le. rewrite length_drop. lia. }
  assert (entry_at d' f' (entry_count d) = entry_for name i) as Hnew.
  { etransitivity; [|exact Hof]. unfold entry_at. f_equal. rewrite Hc. rewrite <-(app_nil_r (DirEntry_as_bytes (entry_for name i))) at 1. apply sub_list_middle; [lia|done]. }
  split.
  - split; [done| |]; [unfold DiskInode_is_dir in *; apply bool_decide_eq_true in Hdir; apply bool_decide_eq_true; congruence|]. rewrite Hcount. intros j Hj.
    destruct (decide (j = entry_count d)) as [->|]; [rewrite Hnew, Hen; by eexists|rewrite Hold by lia; apply Hnames; lia].
  - unfold dir_list. rewrite Hcount, seq_S, fmap_app. f_equal.
    + apply list_fmap_ext. intros k j [-> Hj]%lookup_seq. cbv beta. by rewrite Hold by lia.
    + cbn [fmap list_fmap Nat.add]. by rewrite Hnew, Hen.
Qed.

Lemma append_run efs L self d f name i :
  file_on efs L self d f → dir_wf d f → di_size d mod 32 = 0 → name_ok name → 0 ≤ i < 2 ^ 32 → di_size d + 32 ≤ max_file_size →
  (new_blocks d (di_size d + 32) ≤ length (free_bits efs L f))%nat →
  wp (Inode_modify_disk_inode self (λ root_inode,
        root_inode ← append_dirent efs root_inode (DirEntry_new name i); mret ((), root_inode))) (lock_fs true f)
    (λ _ f1, ∃ d' f', f1 = lock_fs true f' ∧
       file_written efs L self d f (Z.to_nat (di_size d)) (DirEntry_as_bytes (entry_for name i)) d' f' ∧
       dir_wf d' f' ∧ dir_list d' f' = dir_list d f ++ [(name, i)]).
Proof.
  intros Hon Hdw Hmod Hname Hi Hmax Hfree. pose proof Hdw as [Hwf _ _]. pose proof (wf_size_nonneg d f Hwf) as H0.
  destruct (entry_for_spec name i Hname Hi) as (Hlen & Hbytes & _ & _).
  assert (Z.of_nat (Z.to_nat (di_size d) + length (DirEntry_as_bytes (entry_for name i))) = di_size d + 32) as Hend by lia.
  eapply wp_mono; [eapply (modify_grown efs L self d f (Z.to_nat (di_size d)) (DirEntry_as_bytes (entry_for name i)) _ ()); try done; rewrite ?Hend; try done; try lia|].
  - intros d' g Hrun. change max_file_size with 8468480 in Hmax. apply bind_Ok_inv in Hrun as (d1 & g1 & H1 & Hrun).
    apply bind_Ok_inv in Hrun as (n & g2 & H2 & [= _ <- <-]). unfold append_dirent. change DIRENT_SZ with 32.
    assert (u32 ((di_size d / 32 +₆₄ 1) *₆₄ 32) = di_size d + 32) as Hnew.
    { rewrite (wrap_small 64 (di_size d / 32 + 1)) by lia. rewrite (wrap_small 64), wrap_small by lia. lia. }
    cbv zeta. rewrite Hnew. erewrite bind_Ok; [reflexivity|]. erewrite bind_Ok by exact H1.
    erewrite bind_Ok by (apply DirEntry_new_Ok; destruct Hname as (_ & _ & ?); lia).
    replace (di_size d / 32 *₆₄ 32) with (Z.of_nat (Z.to_nat (di_size d))) by (rewrite wrap_small; lia).
    by erewrite bind_Ok by exact H2.
  - intros [] f1 (_ & d' & f' & -> & Hw). exists d', f'. split; [done|]. split; [done|].
    destruct Hw as [Hon' (_ & _ & Hty) Hsz Hc _ _ _ _]. pose proof (length_content d f Hwf) as Hl.
    apply (dir_appended d f); try done; [by destruct Hon' as [[] _ _ _ _ _]|lia|].
    rewrite Hc, take_ge by lia. rewrite drop_ge by lia. by rewrite app_nil_r.
Qed.

(** * Creating *)

(** Growing a file leaves the others alone. *)
Lemma file_on_grown efs L self d f off buf d' f' other e :
  file_written efs L self d f off buf d' f' → file_on efs L self d f →
  file_on efs L other e f → owned e f ## owned d f →
  (∃ b, stored DiskInode_codec (in_block_id other) (in_block_offset other) f' b e) →
  file_on efs L other e f' ∧ content e f' = content e f ∧ owned e f' = owned e f.
Proof.
  intros [Hon' _ _ _ Ho' Hfr _ Hs] Hon [[_ Hwf Hown] Ha Hh Hl Hid Hin] Hd Hst.
  assert (∀ x, x ∈ owned e f → fl_blocks f' !! x = fl_blocks f !! x) as Hx.
  { intros x Hx. apply (so_out _ _ _ Hs). destruct (Hin x Hx) as (i & Hi & -> & Hbit).
    rewrite not_elem_of_cons, not_elem_of_app, Ho', not_elem_of_app. split_and!.
    - pose proof (fo_before _ _ _ _ _ Hon). pose proof (aw_before _ _ _ Ha). destruct (aw_bitmap _ _ _ Ha) as [? ? _ _].
      unfold data_block. lia.
    - apply (area_not_bitmap efs L f i Ha). lia.
    - intros Hx'. by apply (Hd _ Hx).
    - intros (j & Hj & [Hj' Hb]%elem_of_take_list%elem_of_free_bits)%list_elem_of_fmap. unfold data_block in Hj.
      assert (j = i) as -> by lia. congruence. }
  destruct (blocks_frame e f f' Hx) as [Ho Hc]. split; [|done].
  split; [split; [done| |by rewrite Ho]|apply Hon'|apply Hon'|apply Hon'|done|].
  - apply (inode_wf_frame e f f'); [done|done|]. intros x _. rewrite (fo_held _ _ _ _ _ Hon'). set_solver.
  - intros x. rewrite Ho. intros (i & Hi & -> & Hbit)%Hin. exists i. split; [done|]. split; [done|].
    destruct (bit_of (data_bitmap efs) f' i) eqn:E; [done|]. exfalso.
    assert (i ∈ free_bits efs L f') as Hfree by by apply elem_of_free_bits.
    rewrite Hfr in Hfree. apply elem_of_drop_list, elem_of_free_bits in Hfree as [_ ?]. congruence.
Qed.

Lemma can_open_frame X f f' x b : same_outside X f f' → x ∉ X → can_open x f b → can_open x f' b.
Proof. intros [Hh _ Ho _] Hx [? ? ? ?]. split; rewrite ?Hh; try done. by rewrite Ho. Qed.
Lemma dir_lookup_snoc name i l : dir_lookup name l = None → dir_lookup name (l ++ [(name, i)]) = Some i.
Proof.
  unfold dir_lookup. induction l as [|[n j] l IH]; cbn; [by rewrite bool_decide_eq_true_2|].
  case_bool_decide; [done|]. destruct (find_index _ l) as [[k y]|]; [done|]. intros _. specialize (IH eq_refl).
  by destruct (find_index _ (l ++ _)) as [[k y]|].
Qed.

(** The state after [name] was created as inode [i] in the directory [d], which is
    inode [r]. *)
Record created (efs : EasyFileSystem) (L N r : Z) (d : DiskInode) (f : Flat) (name : list Z) (i : Z) (d' : DiskInode) (f' : Flat) : Prop := {
  cr_fs : fs_wf efs L N f';
  cr_free : free_inodes efs N f = i :: free_inodes efs N f';
  cr_dir : file_on efs L (slot_inode efs r) d' f';
  cr_wf : dir_wf d' f';
  cr_list : dir_list d' f' = dir_list d f ++ [(name, i)];
  cr_new : file_on efs L (slot_inode efs i) (new_file i) f';
  cr_slots j : 0 ≤ j < N → j ≠ i → j ≠ r → slot_value efs j f' = slot_value efs j f;
  cr_others j e : 0 ≤ j < N → j ≠ i → j ≠ r → file_on efs L (slot_inode efs j) e f → owned e f ## owned d f →
    file_on efs L (slot_inode efs j) e f' ∧ content e f' = content e f }.

Section create.
Context (efs : EasyFileSystem) (L N r i : Z) (f fm f' : Flat) (d d' : DiskInode) (off : nat) (buf : list Z).
Context (Hr : 0 ≤ r < N) (Hi : 0 ≤ i < N) (Hne : r ≠ i).
Context (Hfs : fs_wf efs L N f) (Hdir : file_on efs L (slot_inode efs r) d f) (Hcl : claimed efs L N f i fm).

Lemma slot_value_on j e g : file_on efs L (slot_inode efs j) e g → slot_value efs j g = Some e.
Proof.
  intros [[[b [[_ _ Hb _] _ _ Hdec]] _ _] _ _ _ _ _]. unfold slot_value. cbn in *. unfold block_at. by rewrite Hb.
Qed.
Lemma stored_on g j e : fs_wf efs L N g → 0 ≤ j < N → slot_value efs j g = Some e →
  ∃ b, stored DiskInode_codec (in_block_id (slot_inode efs j)) (in_block_offset (slot_inode efs j)) g b e.
Proof.
  intros Hg Hj Hv. pose proof (slot_stored efs L N g j e false Hg Hj Hv) as Hst. eexists.
  destruct Hst as [[? ? ? ?] ? ? ?]. by split.
Qed.
(** A file whose inode is not the new one, once that is allocated. *)
Lemma file_on_claimed j e :
  0 ≤ j < N → j ≠ i → file_on efs L (slot_inode efs j) e f →
  file_on efs L (slot_inode efs j) e fm ∧ content e fm = content e f ∧ owned e fm = owned e f.
Proof.
  intros Hj Hji He. eapply file_on_frame; [exact He|apply Hcl| |].
  - intros x Hx%(claimed_blocks efs L N f i x Hfs Hi). pose proof (aw_before _ _ _ (fo_area _ _ _ _ _ He)) as Hb.
    destruct (aw_bitmap _ _ _ (fo_area _ _ _ _ _ He)) as [? ? _ _]. split.
    + intros Hx'%elem_of_seqZ. lia.
    + intros (k & Hk & -> & _)%(fo_owned _ _ _ _ _ He). unfold data_block in Hx. lia.
  - apply (stored_on fm j e (cl_fs _ _ _ _ _ _ Hcl) Hj). rewrite (cl_slots _ _ _ _ _ _ Hcl) by done. by apply slot_value_on.
Qed.

Context (Hdm : file_on efs L (slot_inode efs r) d fm) (Hw : file_written efs L (slot_inode efs r) d fm off buf d' f').

(** The other inodes, when the directory has grown. *)
Lemma slot_kept j : 0 ≤ j < N → j ≠ r → slot_value efs j f' = slot_value efs j fm.
Proof.
  intros Hj Hjr. pose proof (cl_fs _ _ _ _ _ _ Hcl) as Hfm. destruct (fs_slots _ _ _ _ Hfm r Hr) as [[_ _ Hok] _].
  eapply (slot_value_other efs r j d' fm f'); [done| |done|exact (fw_block _ _ _ _ _ _ _ _ _ Hw)|].
  - apply (ia_wf _ _ _ (fo_inode _ _ _ _ _ (fw_on _ _ _ _ _ _ _ _ _ Hw))).
  - intros Hb. unfold block_at. rewrite (so_out _ _ _ (fw_same _ _ _ _ _ _ _ _ _ Hw)); [done|].
    pose proof (fs_end _ _ _ _ Hfm j Hj) as Hlow. pose proof (fw_on _ _ _ _ _ _ _ _ _ Hw) as Hon'.
    pose proof (aw_before _ _ _ (fo_area _ _ _ _ _ Hon')). destruct (aw_bitmap _ _ _ (fo_area _ _ _ _ _ Hon')) as [? ? _ _].
    rewrite not_elem_of_cons, not_elem_of_app. split_and!; [done| |].
    + intros Hx%elem_of_seqZ. lia.
    + intros (k & Hk & Hx & _)%(fo_owned _ _ _ _ _ Hon'). unfold data_block in Hx. lia.
Qed.
Lemma inode_bitmap_kept k : 0 ≤ k < blocks (inode_bitmap efs) →
  start_block_id (inode_bitmap efs) + k ∉ in_block_id (slot_inode efs r) :: bitmap_blocks (data_bitmap efs) ++ owned d' f'.
Proof.
  intros Hk. pose proof (fs_end _ _ _ _ Hfs r Hr) as Hlow. pose proof (fs_before _ _ _ _ Hfs). unfold slot_block in Hlow.
  pose proof (fw_on _ _ _ _ _ _ _ _ _ Hw) as Hon'. pose proof (aw_before _ _ _ (fo_area _ _ _ _ _ Hon')).
  destruct (aw_bitmap _ _ _ (fo_area _ _ _ _ _ Hon')) as [? ? _ _].
  rewrite not_elem_of_cons, not_elem_of_app. cbn [in_block_id slot_inode]. unfold slot_block. split_and!; [lia| |].
  - intros Hx%elem_of_seqZ. lia.
  - intros (k' & Hk' & Hx & _)%(fo_owned _ _ _ _ _ Hon'). unfold data_block in Hx. lia.
Qed.
Lemma fs_wf_grown : fs_wf efs L N f' ∧ free_inodes efs N f' = free_inodes efs N fm.
Proof.
  pose proof (cl_fs _ _ _ _ _ _ Hcl) as Hfm. pose proof (fw_same _ _ _ _ _ _ _ _ _ Hw) as Hs. split.
  - eapply (fs_wf_frame efs L N fm f'); [done|exact Hs|apply Hw| |].
    + intros k Hk. destruct (bo_open _ _ (fs_bitmap _ _ _ _ Hfm) k Hk) as [b Hb]. exists b.
      eapply can_open_frame; [exact Hs|by apply inode_bitmap_kept|done].
    + intros j Hj. destruct (decide (j = r)) as [->|]; [|rewrite slot_kept by done; by apply Hfm].
      rewrite (slot_value_on r d' f'); [by eexists|apply Hw].
  - unfold free_inodes, clear_bits. apply filter_seqZ_ext. intros j Hj. destruct (fs_limit _ _ _ _ Hfm).
    rewrite (bit_of_frame (inode_bitmap efs) fm f'); [done| |lia]. intros x Hx%elem_of_seqZ. apply (so_out _ _ _ Hs).
    replace x with (start_block_id (inode_bitmap efs) + (x - start_block_id (inode_bitmap efs))) by lia. apply inode_bitmap_kept. lia.
Qed.

Lemma created_grown name :
  content d fm = content d f → dir_wf d' f' → dir_list d' f' = dir_list d f ++ [(name, i)] →
  created efs L N r d f name i d' f'.
Proof.
  intros Hc Hdw Hlist. destruct fs_wf_grown as [Hfs' Hfree']. pose proof (fw_on _ _ _ _ _ _ _ _ _ Hw) as Hon'.
  destruct (file_on_claimed r d Hr Hne Hdir) as (_ & _ & Hod). pose proof (fs_limit _ _ _ _ Hfs) as [_ H32].
  split; [exact Hfs'| |exact Hon'|exact Hdw|exact Hlist|..].
  - rewrite Hfree'. apply Hcl.
  - destruct (new_file_wf i f' ltac:(lia)) as (Hwf & Ho & _). split; try (by destruct Hfs'); rewrite ?Ho.
    + split; [|done|rewrite Ho; apply not_elem_of_nil]. apply (stored_on f' i _ Hfs' Hi). rewrite slot_kept by done. apply Hcl.
    + by apply Hfs'.
    + intros x Hx. by apply not_elem_of_nil in Hx.
  - intros j Hj Hji Hjr. rewrite slot_kept by done. by apply Hcl.
  - intros j e Hj Hji Hjr He Hd. destruct (file_on_claimed j e Hj Hji He) as (Hem & Hcm & Hom).
    destruct (file_on_grown efs L _ d fm off buf d' f' (slot_inode efs j) e Hw Hdm Hem) as (He' & Hc' & _).
    + by rewrite Hom, Hod.
    + apply (stored_on f' j e Hfs' Hj). rewrite slot_kept by done. by apply slot_value_on.
    + split; [done|congruence].
Qed.
End create.

Lemma Inode_create_run efs L N r d f name :
  fs_wf efs L N f → 0 ≤ r < N → bit_of (inode_bitmap efs) f r = true →
  file_on efs L (slot_inode efs r) d f → dir_wf d f → di_size d mod 32 = 0 → name_ok name →
  match dir_lookup name (dir_list d f) with
  | Some _ => Inode_create efs (slot_inode efs r) name f = Ok (None, f)
  | None => ∀ i rest, free_inodes efs N f = i :: rest → di_size d + 32 ≤ max_file_size →
      (new_blocks d (di_size d + 32) ≤ length (free_bits efs L f))%nat →
      wp (Inode_create efs (slot_inode efs r) name) f (λ res f', res = Some (slot_inode efs i) ∧
        Inode_find efs (slot_inode efs r) name f' = Ok (Some (slot_inode efs i), f') ∧
        ∃ d', same_meta d d' ∧ created efs L N r d f name i d' f')
  end.
Proof.
  intros Hfs Hr Hbit Hdir Hdw Hmod Hname. pose proof (fs_lock _ _ _ _ Hfs) as Hl.
  assert (room 2 f) as Hroom by (unfold room; rewrite (fs_held _ _ _ _ Hfs), size_empty; unfold BLOCK_CACHE_MAX_NUM; lia).
  pose proof (lookup_run (slot_inode efs r) d f name true (fo_inode _ _ _ _ _ Hdir) Hdw Hroom) as Hlook.
  destruct (dir_lookup name (dir_list d f)) as [n|] eqn:Hn.
  { rewrite <-(lock_fs_id f Hl) at 2. apply fs_lock_run; [done|]. by erewrite bind_Ok by exact Hlook. }
  intros i rest Hfree Hmax Hblocks. assert (i ∈ free_inodes efs N f) as [Hi Hclear]%elem_of_clear_bits by (rewrite Hfree; by left).
  assert (r ≠ i) as Hne by (intros ->; congruence). pose proof (fs_limit _ _ _ _ Hfs) as [_ H32].
  destruct (claim_run efs L N f i rest Hfs Hfree) as (f1 & fm & Halloc & Hinit & Hcl).
  destruct (file_on_claimed efs L N r i f fm Hr Hi Hfs Hcl r d Hr Hne Hdir) as (Hdm & Hcm & Hom).
  assert (∀ j, entry_at d fm j = entry_at d f j) as Hent by (intros j; unfold entry_at; by rewrite Hcm).
  assert (dir_list d fm = dir_list d f) as Hlm by (unfold dir_list; apply list_fmap_ext; intros; by rewrite Hent).
  assert (dir_wf d fm) as Hdwm.
  { split; [by destruct Hdm as [[] _ _ _ _ _]|apply Hdw|]. intros j Hj. rewrite Hent. by apply Hdw. }
  assert (free_bits efs L fm = free_bits efs L f) as Hfm.
  { eapply (area_frame efs L _ f fm); [apply Hfs|apply Hcl|]. intros x Hx%elem_of_seqZ Hx'%(claimed_blocks efs L N f i x Hfs Hi). lia. }
  unfold Inode_create. apply wp_fs_lock; [done|]. apply wp_bind. unfold wp at 1. rewrite Hlook.
  apply wp_bind. unfold wp at 1. rewrite Halloc. rewrite (slot_pos efs L N f i Hfs Hi). cbv iota beta.
  apply wp_bind. unfold wp at 1. rewrite Hinit. apply wp_bind.
  eapply wp_mono; [apply (append_run efs L (slot_inode efs r) d fm name i); try done; [lia|by rewrite Hfm]|].
  intros _ g (d' & f' & -> & Hw & Hdw' & Hlist). rewrite !Z.eqb_refl. cbn [andb assert_]. apply wp_bind, wp_ret.
  pose proof (fw_on _ _ _ _ _ _ _ _ _ Hw) as Hon'. apply wp_bind. unfold wp at 1. rewrite sync_run by exact (fo_held _ _ _ _ _ Hon').
  apply wp_ret. change (lock_fs false (lock_fs true f')) with (lock_fs false (lock_fs true f')). rewrite (lock_fs_id f' (fo_lock _ _ _ _ _ Hon')).
  rewrite Hlm in Hlist.
  pose proof (created_grown efs L N r i f fm f' d d' _ _ Hr Hi Hne Hfs Hdir Hcl Hdm Hw name Hcm Hdw' Hlist) as Hcr.
  split; [done|]. split; [|exists d'; split; [apply Hw|exact Hcr]].
  rewrite (Inode_find_run efs (slot_inode efs r) d' f' name (fo_inode _ _ _ _ _ Hon') Hdw' (fo_lock _ _ _ _ _ Hon')).
  - rewrite Hlist, dir_lookup_snoc by done. cbn. by rewrite (slot_pos efs L N f' i (cr_fs _ _ _ _ _ _ _ _ _ _ Hcr) Hi).
  - unfold room. rewrite (fo_held _ _ _ _ _ Hon'), size_empty. unfold BLOCK_CACHE_MAX_NUM. lia.
Qed.

(** C14: [Inode::create] in a directory of a file system at rest.  When the name is
    there it returns [None] and nothing changes.  Otherwise, with a free inode and
    the blocks the directory may need, it returns the lowest free inode: the
    directory lists its old entries and then the new one, so that a search finds
    it; the new inode is an empty file, and is free no longer; every other inode is
    as it was, and every other file keeps its blocks and its contents; the file
    system is well-formed as before. *)
Theorem Inode_create_spec efs L N r d f name :
  fs_wf efs L N f → 0 ≤ r < N → bit_of (inode_bitmap efs) f r = true →
  file_on efs L (slot_inode efs r) d f → dir_wf d f → di_size d mod 32 = 0 → name_ok name →
  match dir_lookup name (dir_list d f) with
  | Some _ => Inode_create efs (slot_inode efs r) name f = Ok (None, f)
  | None => ∀ i rest, free_inodes efs N f = i :: rest → di_size d + 32 ≤ max_file_size →
      (new_blocks d (di_size d + 32) ≤ length (free_bits efs L f))%nat →
      wp (Inode_create efs (slot_inode efs r) name) f (λ res f', res = Some (slot_inode efs i) ∧
        Inode_find efs (slot_inode efs r) name f' = Ok (Some (slot_inode efs i), f') ∧
        ∃ d', same_meta d d' ∧ created efs L N r d f name i d' f')
  end.
Proof. apply Inode_create_run. Qed.

(** ** The directory with "a" and "bc" on the disk of 64 blocks *)

Definition ex_dir_disk : Flat :=
  set_block 1 (7 :: replicate 511 0) (set_block 30 (0 :: 2 :: replicate 510 0) ex_root_disk).

Lemma ex_dir_avail i : 0 ≤ i < 64 → avail i ex_dir_disk.
Proof.
  assert (Forall (λ i, avail i ex_dir_disk) (seqZ 0 64)) as Hall.
  { eapply (forallb_Forall_1 (availb ex_dir_disk)); [apply availb_avail|vm_compute; reflexivity]. }
  intros Hi. rewrite Forall_forall in Hall. apply Hall, elem_of_seqZ. lia.
Qed.
Lemma ex_dir_open i : 0 ≤ i < 64 → can_open i ex_dir_disk (block_at ex_dir_disk i).
Proof.
  intros Hi. apply avail_open; [by apply ex_dir_avail|]. unfold room, BLOCK_CACHE_MAX_NUM.
  change (size (fl_held ex_dir_disk)) with 0%nat. lia.
Qed.
Lemma ex_dir_fs : fs_wf ex_efs 33 75 ex_dir_disk.
Proof.
  split; [split; [split|..]|split|..]; cbn [data_bitmap inode_bitmap ex_efs Bitmap_new start_block_id blocks
    inode_area_start_block data_area_start_block]; unfold BLOCK_BITS, BLOCK_SZ; try lia; try done.
  - intros k Hk. eexists. apply ex_dir_open. lia.
  - intros i Hi. apply ex_dir_avail. unfold data_block. cbn. lia.
  - intros k Hk. eexists. apply ex_dir_open. lia.
  - intros j Hj. unfold slot_block. cbn. lia.
  - intros j Hj. split; [apply ex_dir_avail; unfold slot_block; cbn; lia|].
    assert (forallb (λ j, bool_decide (is_Some (slot_value ex_efs j ex_dir_disk))) (seqZ 0 75) = true) as Hall by (vm_compute; reflexivity).
    rewrite forallb_forall in Hall. specialize (Hall j). rewrite <-list_elem_of_In, elem_of_seqZ, bool_decide_eq_true in Hall.
    apply Hall. lia.
Qed.
Lemma ex_dir_on : file_on ex_efs 33 (slot_inode ex_efs 0) ex_root ex_dir_disk.
Proof.
  split; [split|apply ex_dir_fs|done|done|vm_compute; reflexivity|].
  - apply (stored_on ex_efs 33 75 ex_dir_disk 0 ex_root ex_dir_fs); [lia|vm_compute; reflexivity].
  - apply inode_wfb_wf. vm_compute. reflexivity.
  - apply (bool_decide_unpack _). vm_compute. exact I.
  - intros x. change (owned ex_root ex_dir_disk) with [40]. intros ->%list_elem_of_singleton. exists 9. split; [lia|].
    split; [done|]. vm_compute. done.
Qed.
Lemma ex_dir_wf : dir_wf ex_root ex_dir_disk.
Proof.
  split; [apply ex_dir_on|reflexivity|]. intros i Hi. change (entry_count ex_root) with 2%nat in Hi.
  destruct i as [|[|i]]; [..|lia]; vm_compute; by eexists.
Qed.

Lemma Inode_create_spec_witness :
  wp (Inode_create ex_efs (slot_inode ex_efs 0) [100]) ex_dir_disk (λ res f', res = Some (MkInode 6 0) ∧
    Inode_find ex_efs (slot_inode ex_efs 0) [100] f' = Ok (Some (MkInode 6 0), f') ∧ ∃ d', dir_list d' f' = [([97], 1); ([98; 99], 2); ([100], 3)]).
Proof.
  pose proof (Inode_create_spec ex_efs 33 75 0 ex_root ex_dir_disk [100] ex_dir_fs ltac:(lia) ltac:(vm_compute; reflexivity)
    ex_dir_on ex_dir_wf ltac:(reflexivity) ltac:(split; [repeat constructor; lia|split; [reflexivity|cbn; lia]])) as H.
  assert (dir_list ex_root ex_dir_disk = [([97], 1); ([98; 99], 2)]) as Hl by (vm_compute; reflexivity). rewrite Hl in H.
  change (dir_lookup [100] [([97], 1); ([98; 99], 2)]) with (@None Z) in H. cbv iota in H.
  assert (free_inodes ex_efs 75 ex_dir_disk = 3 :: seqZ 4 71) as Hfree by (vm_compute; reflexivity).
  eapply wp_mono; [apply (H 3 _ Hfree)|].
  - change max_file_size with 8468480. cbn. lia.
  - change (new_blocks ex_root (di_size ex_root + 32)) with 0%nat. lia.
  - intros res f' (-> & Hf & d' & _ & Hcr). split; [reflexivity|]. split; [exact Hf|]. exists d'.
    rewrite (cr_list _ _ _ _ _ _ _ _ _ _ Hcr), Hl. reflexivity.
Defined.
