(* ===== verification/Address.v ===== *)
(** Addresses and page numbers of the Sv39 scheme (os/src/mm/address.rs,
    os/src/config.rs).  The four newtypes over [usize] are [Z]; [from] masks to
    the width of the scheme. *)

From S2P Require Export Bytes.

(** * config.rs *)

Definition USER_STACK_SIZE : Z := 4096 * 2.
Definition KERNEL_STACK_SIZE : Z := 4096 * 2.
Definition KERNEL_HEAP_SIZE : Z := 0x200000.
Definition MEMORY_END : Z := 0x80800000.
Definition PAGE_SIZE : Z := 0x1000.
Definition PAGE_SIZE_BITS : Z := 0xc.
Definition usize_MAX : Z := 2 ^ 64 - 1.
Definition TRAMPOLINE : Z := usize_MAX -₆₄ PAGE_SIZE +₆₄ 1.
Definition TRAP_CONTEXT : Z := TRAMPOLINE -₆₄ PAGE_SIZE.

(** Return (bottom, top) of a kernel stack in kernel space. *)
Definition kernel_stack_position (app_id : Z) : Z * Z :=
  let top := TRAMPOLINE -₆₄ app_id *₆₄ (KERNEL_STACK_SIZE + PAGE_SIZE) in
  let bottom := top -₆₄ KERNEL_STACK_SIZE in
  (bottom, top).

(** * address.rs *)

Definition PA_WIDTH_SV39 : Z := 56.
Definition VA_WIDTH_SV39 : Z := 39.
Definition PPN_WIDTH_SV39 : Z := PA_WIDTH_SV39 - PAGE_SIZE_BITS.
Definition VPN_WIDTH_SV39 : Z := VA_WIDTH_SV39 - PAGE_SIZE_BITS.

Definition PhysAddr_from (v : Z) : Z := Z.land v (Z.shiftl 1 PA_WIDTH_SV39 - 1).
Definition PhysPageNum_from (v : Z) : Z := Z.land v (Z.shiftl 1 PPN_WIDTH_SV39 - 1).
Definition VirtAddr_from (v : Z) : Z := Z.land v (Z.shiftl 1 VA_WIDTH_SV39 - 1).
Definition VirtPageNum_from (v : Z) : Z := Z.land v (Z.shiftl 1 VPN_WIDTH_SV39 - 1).

(** [floor], [ceil], [page_offset] and [aligned] of [VirtAddr] and [PhysAddr]. *)
Definition floor (va : Z) : Z := va / PAGE_SIZE.
Definition ceil (va : Z) : Z := (va -₆₄ 1 +₆₄ PAGE_SIZE) / PAGE_SIZE.
Definition page_offset (va : Z) : Z := Z.land va (PAGE_SIZE - 1).
Definition aligned (va : Z) : bool := page_offset va =? 0.

(** [VirtPageNum::from(VirtAddr)], [PhysPageNum::from(PhysAddr)] *)
Definition PageNum_from_Addr {S} (a : Z) : M S Z := assert_ (aligned a);; mret (floor a).
(** [VirtAddr::from(VirtPageNum)], [PhysAddr::from(PhysPageNum)] *)
Definition Addr_from_PageNum (n : Z) : Z := wrap 64 (Z.shiftl n PAGE_SIZE_BITS).

(** [VirtPageNum::indexes]: the loop fills the array from the back. *)
Definition VirtPageNum_indexes (vpn : Z) : list Z :=
  (foldl (λ '(vpn, idx) i, (Z.shiftr vpn 9, <[i := Z.land vpn 511]> idx))
     (vpn, [0; 0; 0]) [2%nat; 1%nat; 0%nat]).2.

(** [StepByOne::step] *)
Definition step (n : Z) : Z := n +₆₄ 1.

(** ** [SimpleRange] and its iterator *)

Record SimpleRange : Type := MkRange { range_l : Z; range_r : Z }.
Abbreviation VPNRange := SimpleRange.

Definition SimpleRange_new {S} (start end_ : Z) : M S SimpleRange :=
  assert_ (start <=? end_);; mret (MkRange start end_).

(** [Iterator::next]: the element and the iterator after it. *)
Definition SimpleRangeIterator_next (it : SimpleRange) : option Z * SimpleRange :=
  if range_l it =? range_r it then (None, it)
  else (Some (range_l it), MkRange (step (range_l it)) (range_r it)).

(** Everything [for x in range] visits, with a bound on the rounds. *)
Fixpoint SimpleRange_iter (fuel : nat) (it : SimpleRange) : option (list Z) :=
  match fuel with
  | O => None
  | S fuel =>
      match SimpleRangeIterator_next it with
      | (None, _) => Some []
      | (Some x, it) => cons x <$> SimpleRange_iter fuel it
      end
  end.
(** [for x in range { .. }] visits the numbers of the range (see
    [SimpleRange_iter_spec]). *)
Definition range_elems (r : SimpleRange) : list Z := range (range_l r) (range_r r).

(** * Lemmas *)

Lemma land_ones_mod v n : 0 ≤ n → Z.land v (Z.shiftl 1 n - 1) = v mod 2 ^ n.
Proof. intros Hn. rewrite Z.shiftl_1_l, <-Z.land_ones by done. by rewrite Z.ones_equiv. Qed.
Lemma VirtAddr_from_mod v : VirtAddr_from v = v mod 2 ^ 39.
Proof. by apply land_ones_mod. Qed.
Lemma PhysPageNum_from_mod v : PhysPageNum_from v = v mod 2 ^ 44.
Proof. by apply (land_ones_mod v 44). Qed.
Lemma PhysAddr_from_mod v : PhysAddr_from v = v mod 2 ^ 56.
Proof. by apply land_ones_mod. Qed.
Lemma page_offset_mod va : page_offset va = va mod 4096.
Proof. unfold page_offset. change (PAGE_SIZE - 1) with (Z.ones 12). by rewrite Z.land_ones. Qed.
Lemma land_511 v : Z.land v 511 = v mod 512.
Proof. change 511 with (Z.ones 9). by rewrite Z.land_ones. Qed.
Lemma Addr_from_PageNum_mul n : 0 ≤ n < 2 ^ 52 → Addr_from_PageNum n = n * 4096.
Proof.
  intros Hn. unfold Addr_from_PageNum. rewrite Z.shiftl_mul_pow2 by done.
  change (2 ^ PAGE_SIZE_BITS) with 4096. apply wrap_small. lia.
Qed.
Lemma indexes_eq vpn :
  VirtPageNum_indexes vpn = [vpn / 262144 mod 512; vpn / 512 mod 512; vpn mod 512].
Proof.
  unfold VirtPageNum_indexes. cbn -[Z.land Z.shiftr]. rewrite !land_511, !Z.shiftr_div_pow2 by lia.
  change (2 ^ 9) with 512. rewrite Z.div_div by lia. done.
Qed.

Lemma SimpleRange_iter_spec fuel l r :
  0 ≤ l ≤ r → r < 2 ^ 64 → r - l < Z.of_nat fuel →
  SimpleRange_iter fuel (MkRange l r) = Some (range l r).
Proof.
  revert l. induction fuel as [|fuel IH]; intros l Hl Hr Hn; [lia|]. cbn [SimpleRange_iter].
  unfold SimpleRangeIterator_next. cbn [range_l range_r]. unfold range.
  destruct (Z.eqb_spec l r) as [->|Hne]; [by rewrite Z.sub_diag|].
  unfold step. rewrite wrap_small, IH by lia. cbn. unfold range.
  rewrite (seqZ_cons l) by lia. do 2 f_equal. f_equal; lia.
Qed.

(** * Properties *)

(** The three indexes of a virtual page number are in the range of a page
    table and determine the page number. *)
Theorem indexes_roundtrip vpn :
  0 ≤ vpn < 2 ^ 27 →
  ∃ i0 i1 i2, VirtPageNum_indexes vpn = [i0; i1; i2] ∧
    0 ≤ i0 < 512 ∧ 0 ≤ i1 < 512 ∧ 0 ≤ i2 < 512 ∧ vpn = (i0 * 512 + i1) * 512 + i2.
Proof. intros Hv. rewrite indexes_eq. do 3 eexists. split; [done|]. lia. Qed.
Lemma indexes_roundtrip_witness :
  ∃ i0 i1 i2, VirtPageNum_indexes 0x7ffffff = [i0; i1; i2] ∧
    0 ≤ i0 < 512 ∧ 0 ≤ i1 < 512 ∧ 0 ≤ i2 < 512 ∧ 0x7ffffff = (i0 * 512 + i1) * 512 + i2.
Proof. apply (indexes_roundtrip 0x7ffffff). lia. Defined.

(** C19: [MapArea]s are made of whole pages: for a range of virtual addresses
    with [start <= end] below the top of the address space, the pages from
    [floor(start)] to [ceil(end)] are exactly the pages that contain an address
    of the range (and the page of [start] rounded down), the iterator visits
    each of them once, in order, and stops. *)
Theorem page_range_covers start end_ vpn :
  0 ≤ start ≤ end_ → end_ < 2 ^ 39 →
  ∃ r, (∀ (S : Type) (s : S), SimpleRange_new (floor start) (ceil end_) s = Ok (r, s)) ∧
    SimpleRange_iter (Z.to_nat (ceil end_ - floor start) + 1) r = Some (range_elems r) ∧
    NoDup (range_elems r) ∧
    (vpn ∈ range_elems r ↔ ∃ a, start - start mod 4096 ≤ a < end_ ∧ floor a = vpn).
Proof.
  intros Hs He. exists (MkRange (floor start) (ceil end_)).
  assert (floor start = start / 4096) as Hf by done.
  assert (ceil end_ = (end_ + 4095) / 4096) as Hc.
  { unfold ceil, PAGE_SIZE, wrap. destruct (decide (end_ = 0)) as [->|]; [reflexivity|].
    rewrite (Z.mod_small (end_ - 1)), Z.mod_small by lia. f_equal. lia. }
  split_and!.
  - intros S s. unfold SimpleRange_new. rewrite (proj2 (Z.leb_le _ _)) by lia. done.
  - apply SimpleRange_iter_spec; lia.
  - apply NoDup_seqZ.
  - unfold range_elems, range. cbn. rewrite elem_of_seqZ. unfold floor, PAGE_SIZE in *. split.
    + intros Hv. exists (Z.max (vpn * 4096) (start - start mod 4096)). lia.
    + intros (a & Ha & <-). lia.
Qed.
Lemma page_range_covers_witness :
  ∃ r, (∀ (S : Type) (s : S), SimpleRange_new (floor 0x10010) (ceil 0x13001) s = Ok (r, s)) ∧
    SimpleRange_iter (Z.to_nat (ceil 0x13001 - floor 0x10010) + 1) r = Some (range_elems r) ∧
    NoDup (range_elems r) ∧
    (0x13 ∈ range_elems r ↔ ∃ a, 0x10010 - 0x10010 mod 4096 ≤ a < 0x13001 ∧ floor a = 0x13).
Proof. apply (page_range_covers 0x10010 0x13001 0x13); lia. Defined.

(** Kernel stacks never overlap: for process ids below 2^20 the stacks of
    two different processes are at least a guard page apart, and all lie below
    the trampoline page. *)
Theorem kernel_stacks_disjoint i j :
  0 ≤ i < j → j < 2 ^ 20 →
  let '(bi, ti) := kernel_stack_position i in
  let '(bj, tj) := kernel_stack_position j in
  ti ≤ TRAMPOLINE ∧ bi + KERNEL_STACK_SIZE = ti ∧ 0 ≤ bj ∧ tj + PAGE_SIZE ≤ bi.
Proof.
  intros Hij Hj. unfold kernel_stack_position.
  change TRAMPOLINE with 18446744073709547520. unfold KERNEL_STACK_SIZE, PAGE_SIZE.
  rewrite !(wrap_small 64 (_ * _)) by lia.
  rewrite !(wrap_small 64 (18446744073709547520 - _)) by lia. rewrite !wrap_small by lia. lia.
Qed.
Lemma kernel_stacks_disjoint_witness :
  let '(bi, ti) := kernel_stack_position 0 in
  let '(bj, tj) := kernel_stack_position 1 in
  ti ≤ TRAMPOLINE ∧ bi + KERNEL_STACK_SIZE = ti ∧ 0 ≤ bj ∧ tj + PAGE_SIZE ≤ bi.
Proof. apply (kernel_stacks_disjoint 0 1); lia. Defined.
