(* ===== verification/Hart.v ===== *)
(** The kernel and its hart (os/src/sbi.rs, console.rs, lang_items.rs, trap/mod.rs,
    main.rs): calls to the firmware, the kernel's own console and its panic handler,
    and the registers that say where a trap goes.  What the kernel does to the hart
    is an interaction tree. *)

From ITree Require Import ITree ITreeFacts.
From S2P Require Export Bytes Address.

(** * What the kernel does to the hart *)

(** [Sbi]: an [ecall] of supervisor mode, with a7 and a0 to a2; it returns a0.
    [WriteStvec]: the address of the trap handler, in direct mode.  [SetStimer]: the
    timer interrupt is enabled in sie.  [WriteVolatile]: a byte of memory.
    [FenceJump]: [fence.i] and a jump with a0 and a1. *)
Variant hartE : Type → Type :=
| Sbi (which arg0 arg1 arg2 : Z) : hartE Z
| WriteStvec (addr : Z) : hartE ()
| SetStimer : hartE ()
| WriteVolatile (addr b : Z) : hartE ()
| FenceJump (target a0 a1 : Z) : hartE void.
Abbreviation hart := (itree hartE).
#[export] Instance hart_ret : MRet hart := λ A a, Ret a.
#[export] Instance hart_bind : MBind hart := λ A B f t, ITree.bind t f.

(** * sbi.rs *)

Definition SBI_SET_TIMER : Z := 0.
Definition SBI_CONSOLE_PUTCHAR : Z := 1.
Definition SBI_CONSOLE_GETCHAR : Z := 2.
Definition SBI_CLEAR_IPI : Z := 3.
Definition SBI_SEND_IPI : Z := 4.
Definition SBI_REMOTE_FENCE_I : Z := 5.
Definition SBI_REMOTE_SFENCE_VMA : Z := 6.
Definition SBI_REMOTE_SFENCE_VMA_ASID : Z := 7.
Definition SBI_SHUTDOWN : Z := 8.

Definition sbi_call (which arg0 arg1 arg2 : Z) : hart Z := ITree.trigger (Sbi which arg0 arg1 arg2).
Definition set_timer (timer : Z) : hart () := sbi_call SBI_SET_TIMER timer 0 0;; mret ().
Definition console_putchar (c : Z) : hart () := sbi_call SBI_CONSOLE_PUTCHAR c 0 0;; mret ().
Definition console_getchar : hart Z := sbi_call SBI_CONSOLE_GETCHAR 0 0 0.

(** * console.rs *)

(** [s.chars()] of a [&str]: the characters of valid UTF-8. *)
Fixpoint chars (s : list Z) : list Z :=
  match s with
  | [] => []
  | b :: s1 =>
      if b <? 128 then b :: chars s1
      else match s1 with
      | b1 :: s2 =>
          if b <? 224 then Z.lor (Z.shiftl (Z.land b 31) 6) (Z.land b1 63) :: chars s2
          else match s2 with
          | b2 :: s3 =>
              if b <? 240 then
                Z.lor (Z.shiftl (Z.land b 15) 12) (Z.lor (Z.shiftl (Z.land b1 63) 6) (Z.land b2 63)) :: chars s3
              else match s3 with
              | b3 :: s4 =>
                  Z.lor (Z.shiftl (Z.land b 7) 18)
                    (Z.lor (Z.shiftl (Z.land b1 63) 12) (Z.lor (Z.shiftl (Z.land b2 63) 6) (Z.land b3 63))) :: chars s4
              | [] => []
              end
          | [] => []
          end
      | [] => []
      end
  end.

(** [Stdout::write_str] *)
Fixpoint putchars (cs : list Z) : hart () :=
  match cs with
  | [] => mret ()
  | c :: cs => console_putchar c;; putchars cs
  end.
Definition Stdout_write_str (s : list Z) : hart () := putchars (chars s).
(** [write_fmt]: the pieces of the formatted text, one after the other. *)
Fixpoint Stdout_write_fmt (pieces : list (list Z)) : hart () :=
  match pieces with
  | [] => mret ()
  | s :: pieces => Stdout_write_str s;; Stdout_write_fmt pieces
  end.
Definition print (pieces : list (list Z)) : hart () := Stdout_write_fmt pieces.

(** The macros, given the pieces of their format. *)
Definition println (pieces : list (list Z)) : hart () := print (pieces ++ [[10]]).
Definition esc (color : list Z) : list Z := [27; 91] ++ color ++ [109].
Definition reset : list Z := esc [48] ++ [10].
Definition coloured (digit : Z) (pieces : list (list Z)) : list (list Z) := esc [48; 59; 51; digit] :: pieces ++ [reset].
Definition kernel_prefix : list Z := [91; 107; 101; 114; 110; 101; 108; 93; 32].
Definition kprintln (pieces : list (list Z)) : hart () := print (coloured 55 (kernel_prefix :: pieces)).
Definition error (pieces : list (list Z)) : hart () := print (coloured 49 pieces).
Definition info (pieces : list (list Z)) : hart () := print (coloured 52 pieces).
Definition debug (pieces : list (list Z)) : hart () := print (coloured 50 pieces).

(** * lang_items.rs *)

Record PanicInfo : Type := MkPanicInfo { location : option (list Z * Z); message : list Z }.
Definition panic_message (p : PanicInfo) : hart () :=
  match location p with
  | Some (file, line) => error [text "Panicked at "; file; text ":"; num line; text " "; message p]
  | None => error [text "Panicked: "; message p]
  end.

(** [shutdown] panics when the firmware returns from its call, and the panic
    handler ends with [shutdown]: [panic] is the loop the two make. *)
Definition should_shutdown : PanicInfo := MkPanicInfo (Some (text "src/sbi.rs", 45)) (text "It should shutdown!").
Definition panic_round (p : PanicInfo) : hart (PanicInfo + void) :=
  panic_message p;; sbi_call SBI_SHUTDOWN 0 0 0;; mret (inl should_shutdown).
Definition panic (p : PanicInfo) : hart void := ITree.iter panic_round p.
Definition shutdown : hart void := sbi_call SBI_SHUTDOWN 0 0 0;; panic should_shutdown.

(** heap_allocator.rs: an allocation that fails; [layout] is what [{:?}] prints. *)
Definition handle_alloc_error (layout : list Z) : hart void :=
  panic (MkPanicInfo (Some (text "src/mm/heap_allocator.rs", 9)) (text "Heap allocation error, layout = " ++ layout)).

(** * trap/mod.rs: where a trap goes *)

Section traps.
(** The addresses of the assembly and of the kernel's own handler. *)
Context (alltraps restore trap_from_kernel_addr : Z).

Definition trap_init : hart () := ITree.trigger (WriteStvec alltraps).
Definition trap_from_kernel : hart void := panic (MkPanicInfo (Some (text "src/trap/mod.rs", 33)) (text "a trap from kernel!")).
Definition set_kernel_trap_entry : hart () := ITree.trigger (WriteStvec trap_from_kernel_addr).
Definition set_user_trap_entry : hart () := ITree.trigger (WriteStvec TRAMPOLINE).
Definition enable_timer_interrupt : hart () := ITree.trigger SetStimer.
(** [user_satp] is the token of the current task. *)
Definition trap_return (user_satp : Z) : hart void :=
  set_user_trap_entry;;
  let restore_va := restore -₆₄ alltraps +₆₄ TRAMPOLINE in
  ITree.trigger (FenceJump restore_va TRAP_CONTEXT user_satp).
End traps.

(** * main.rs *)

Definition clear_bss (sbss ebss : Z) : hart () :=
  (fix go l := match l with [] => mret () | a :: l => ITree.trigger (WriteVolatile a 0);; go l end) (seqZ sbss (ebss - sbss)).

(** * Runs *)

Inductive event : Type :=
| ESbi (which arg0 arg1 arg2 : Z)
| EStvec (addr : Z)
| EStimer
| EWrite (addr b : Z)
| EJump (target a0 a1 : Z).
Inductive outcome (R : Type) : Type :=
| Done (r : R)
| Stopped       (** the firmware does not return from a call, or the kernel has jumped *)
| Unfinished.
Arguments Done {R} r.
Arguments Stopped {R}.
Arguments Unfinished {R}.

(** What the hart sees in at most [n] steps; [None] is a call the firmware [fw]
    does not return from. *)
Fixpoint hart_run {R} (fw : Z → Z → Z → Z → option Z) (n : nat) (t : itree' hartE R) : list event * outcome R :=
  match n with
  | O => ([], Unfinished)
  | S n =>
      let after e := λ r : list event * outcome R, (e :: r.1, r.2) in
      match t with
      | RetF r => ([], Done r)
      | TauF t => hart_run fw n (observe t)
      | VisF e k =>
          match e in hartE A return (A → itree hartE R) → list event * outcome R with
          | Sbi w a0 a1 a2 => λ k, after (ESbi w a0 a1 a2)
              match fw w a0 a1 a2 with Some x => hart_run fw n (observe (k x)) | None => ([], Stopped) end
          | WriteStvec a => λ k, after (EStvec a) (hart_run fw n (observe (k ())))
          | SetStimer => λ k, after EStimer (hart_run fw n (observe (k ())))
          | WriteVolatile a b => λ k, after (EWrite a b) (hart_run fw n (observe (k ())))
          | FenceJump t a0 a1 => λ _, after (EJump t a0 a1) ([], Stopped)
          end k
      end
  end.
(** [t] ends with [o] after the events [evs]. *)
Definition runs {R} fw (t : hart R) (evs : list event) (o : outcome R) : Prop :=
  o ≠ Unfinished ∧ ∃ n, hart_run fw n (observe t) = (evs, o).

(** The encoding of a character. *)
Definition utf8 (c : Z) : list Z :=
  if c <? 0x80 then [c]
  else if c <? 0x800 then [192 + c / 64; 128 + c mod 64]
  else if c <? 0x10000 then [224 + c / 4096; 128 + c / 64 mod 64; 128 + c mod 64]
  else [240 + c / 262144; 128 + c / 4096 mod 64; 128 + c / 64 mod 64; 128 + c mod 64].
Definition is_char (c : Z) : Prop := 0 ≤ c < 0x110000 ∧ ¬ (0xD800 ≤ c < 0xE000).

(** * Lemmas *)

Lemma lor_shiftl x y n : 0 ≤ n → 0 ≤ y < 2 ^ n → Z.lor (Z.shiftl x n) y = x * 2 ^ n + y.
Proof.
  intros Hn Hy. rewrite lor_disjoint; [by rewrite Z.shiftl_mul_pow2|].
  apply Z.bits_inj'. intros i Hi. rewrite Z.land_spec, Z.bits_0. destruct (decide (i < n)).
  - by rewrite Z.shiftl_spec_low by lia.
  - rewrite <-(Z.mod_small y (2 ^ n)), Z.mod_pow2_bits_high by lia. apply andb_false_r.
Qed.

Lemma chars_cons c s : is_char c → chars (utf8 c ++ s) = c :: chars s.
Proof.
  intros [Hc Hs]. unfold utf8.
  assert (∀ x n, 0 ≤ n → Z.land x (2 ^ n - 1) = x mod 2 ^ n) as Hland by (intros; rewrite <-Z.land_ones, Z.ones_equiv by done; done).
  pose proof (λ x, Hland x 6 ltac:(lia)) as H63. pose proof (λ x, Hland x 5 ltac:(lia)) as H31.
  pose proof (λ x, Hland x 4 ltac:(lia)) as H15. pose proof (λ x, Hland x 3 ltac:(lia)) as H7. clear Hland.
  change (2 ^ 6 - 1) with 63 in H63. change (2 ^ 5 - 1) with 31 in H31. change (2 ^ 4 - 1) with 15 in H15. change (2 ^ 3 - 1) with 7 in H7.
  repeat case_match; cbn [app chars].
  - by rewrite (proj2 (Z.ltb_lt _ _)) by lia.
  - rewrite (proj2 (Z.ltb_ge _ _)), (proj2 (Z.ltb_lt _ _)) by lia. f_equal. rewrite H31, H63, lor_shiftl by lia. lia.
  - rewrite (proj2 (Z.ltb_ge _ 128)), (proj2 (Z.ltb_ge _ 224)), (proj2 (Z.ltb_lt _ _)) by lia. f_equal.
    rewrite H15, !H63, (lor_shiftl _ _ 6), lor_shiftl by lia. lia.
  - rewrite (proj2 (Z.ltb_ge _ 128)), (proj2 (Z.ltb_ge _ 224)), (proj2 (Z.ltb_ge _ 240)) by lia. f_equal.
    rewrite H7, !H63, (lor_shiftl _ _ 6), (lor_shiftl _ _ 12), lor_shiftl by lia. lia.
Qed.
(** [s] spells the characters [cs]. *)
Definition spells (s : list Z) (cs : list Z) : Prop := s = cs ≫= utf8 ∧ Forall is_char cs.
Lemma spells_app s1 s2 cs1 cs2 : spells s1 cs1 → spells s2 cs2 → spells (s1 ++ s2) (cs1 ++ cs2).
Proof. intros [-> H1] [-> H2]. split; [by rewrite bind_app|by apply Forall_app]. Qed.
Lemma spells_ascii s : ascii s = true → spells s s.
Proof.
  unfold ascii. intros Hs. assert (Forall (λ c, 0 ≤ c < 128) s) as H.
  { apply Forall_forall. intros c Hc. rewrite forallb_forall in Hs. apply list_elem_of_In, Hs in Hc. lia. }
  clear Hs. induction H as [|c s Hc _ [IHs IHc]]; [by split|]. split.
  - cbn [mbind list_bind]. unfold utf8 at 1. by rewrite (proj2 (Z.ltb_lt _ _)), <-IHs by lia.
  - constructor; [|done]. unfold is_char. lia.
Qed.
Lemma chars_spells s cs : spells s cs → chars s = cs.
Proof.
  intros [-> Hcs]. induction Hcs as [|c cs Hc _ IH]; [done|]. cbn [mbind list_bind]. rewrite chars_cons by done. by f_equal.
Qed.

Section runs.
Context (fw : Z → Z → Z → Z → option Z).

Lemma hart_run_bind {A R} n (t : hart A) (k : A → hart R) evs a m evs' o :
  hart_run fw n (observe t) = (evs, Done a) → hart_run fw m (observe (k a)) = (evs', o) →
  ∃ n', hart_run fw n' (observe (ITree.bind t k)) = (evs ++ evs', o).
Proof.
  intros Ht Hk. revert t evs Ht. induction n as [|n IH]; intros t evs Ht; [done|]. cbn [hart_run] in Ht.
  rewrite observe_bind. destruct (observe t) as [a'|t'|B e h].
  - injection Ht as <- ->. by exists m.
  - destruct (IH t' evs Ht) as [n' Hn']. by exists (S n').
  - assert (∀ e x evs1, (e :: (hart_run fw n (observe (h x))).1, (hart_run fw n (observe (h x))).2) = (evs1, Done a) →
      ∃ n', (e :: (hart_run fw n' (observe (ITree.bind (h x) k))).1, (hart_run fw n' (observe (ITree.bind (h x) k))).2) = (evs1 ++ evs', o)) as Hstep.
    { intros e1 x evs1 H. destruct (hart_run fw n (observe (h x))) as [evs2 o2] eqn:E. injection H as <- ->.
      destruct (IH _ _ E) as [n' Hn']. exists n'. by rewrite Hn'. }
    destruct e as [w a0 a1 a2|ad| |ad b|tg a0 a1]; [destruct (fw w a0 a1 a2) as [x|] eqn:Hfw|..]; try done;
      destruct (Hstep _ _ _ Ht) as [n' Hn']; exists (S n'); cbn [hart_run]; cbn; rewrite ?Hfw; exact Hn'.
Qed.

Lemma runs_ret {R} (r : R) : runs fw (mret r) [] (Done r).
Proof. split; [done|]. by exists 1%nat. Qed.
Lemma runs_bind {A R} (t : hart A) (k : A → hart R) evs a evs' o :
  runs fw t evs (Done a) → runs fw (k a) evs' o → runs fw (t ≫= k) (evs ++ evs') o.
Proof. intros [_ [n Hn]] [Ho [m Hm]]. split; [done|]. by eapply hart_run_bind. Qed.
Lemma runs_putchar c : is_Some (fw SBI_CONSOLE_PUTCHAR c 0 0) →
  runs fw (console_putchar c) [ESbi SBI_CONSOLE_PUTCHAR c 0 0] (Done ()).
Proof. intros [x Hx]. split; [done|]. exists 3%nat. cbn. rewrite Hx. done. Qed.
Lemma runs_stop {R} (k : Z → hart R) w a0 a1 a2 : fw w a0 a1 a2 = None → runs fw (sbi_call w a0 a1 a2 ≫= k) [ESbi w a0 a1 a2] Stopped.
Proof. intros Hx. split; [done|]. exists 1%nat. cbn. by rewrite Hx. Qed.

(** What stops inside a program stops the program. *)
Lemma runs_bind_stopped {A R} (t : hart A) (k : A → hart R) evs : runs fw t evs Stopped → runs fw (ITree.bind t k) evs Stopped.
Proof.
  intros [_ [n Hn]]. split; [done|]. exists n. revert t evs Hn. induction n as [|n IH]; intros t evs Hn; [done|].
  cbn [hart_run] in *. rewrite observe_bind. destruct (observe t) as [a'|t'|B e h]; [done|by apply IH|].
  assert (∀ e x evs1, (e :: (hart_run fw n (observe (h x))).1, (hart_run fw n (observe (h x))).2) = (evs1, Stopped) →
    (e :: (hart_run fw n (observe (ITree.bind (h x) k))).1, (hart_run fw n (observe (ITree.bind (h x) k))).2) = (evs1, Stopped)) as Hstep.
  { intros e1 x evs1 H. destruct (hart_run fw n (observe (h x))) as [evs2 o2] eqn:E. injection H as <- ->. by rewrite (IH _ _ E). }
  destruct e as [w a0 a1 a2|ad| |ad b|tg a0 a1]; [destruct (fw w a0 a1 a2) as [x|] eqn:Hfw|..];
    cbn; rewrite ?Hfw; try (apply Hstep; exact Hn); cbn in Hn |- *; congruence.
Qed.

(** ** The console *)

Definition putchar_events (cs : list Z) : list event := (λ c, ESbi SBI_CONSOLE_PUTCHAR c 0 0) <$> cs.
Context (Hputchar : ∀ c, is_Some (fw SBI_CONSOLE_PUTCHAR c 0 0)).

Lemma runs_putchars cs : runs fw (putchars cs) (putchar_events cs) (Done ()).
Proof.
  induction cs as [|c cs IH]; [apply runs_ret|]. cbn [putchars]. change (putchar_events (c :: cs)) with ([ESbi SBI_CONSOLE_PUTCHAR c 0 0] ++ putchar_events cs).
  eapply runs_bind; [by apply runs_putchar|exact IH].
Qed.
Lemma runs_print pieces css : Forall2 spells pieces css → runs fw (print pieces) (putchar_events (concat css)) (Done ()).
Proof.
  induction 1 as [|s cs pieces css Hs _ IH]; [apply runs_ret|]. cbn [concat].
  unfold putchar_events. rewrite fmap_app. eapply runs_bind; [|exact IH]. unfold Stdout_write_str.
  rewrite (chars_spells s cs Hs). apply runs_putchars.
Qed.
End runs.

(** * What happens *)

(** [print] sends the characters of its pieces to the firmware, in order and one
    call for each, with the whole code point in the register. *)
Lemma print_sends_characters fw pieces css :
  (∀ c, is_Some (fw SBI_CONSOLE_PUTCHAR c 0 0)) → Forall2 spells pieces css →
  runs fw (print pieces) (putchar_events (concat css)) (Done ()).
Proof. intros. by apply runs_print. Qed.

(** The loop of the panic handler is what the source says: its message, then
    [shutdown]. *)
Lemma panic_is_shutdown p : eutt eq (panic p) (ITree.bind (panic_message p) (λ _, shutdown)).
Proof.
  unfold panic at 1. rewrite unfold_iter. unfold panic_round, shutdown, mbind, hart_bind, mret, hart_ret.
  rewrite bind_bind. apply eutt_eq_bind. intros []. rewrite bind_bind. apply eutt_eq_bind. intros x.
  rewrite bind_ret_l, tau_eutt. reflexivity.
Qed.

(** A panic prints its message in red and ends the machine, when the firmware does. *)
Lemma panic_stops fw file line msg cf cm :
  (∀ c, is_Some (fw SBI_CONSOLE_PUTCHAR c 0 0)) → fw SBI_SHUTDOWN 0 0 0 = None → spells file cf → spells msg cm →
  runs fw (panic (MkPanicInfo (Some (file, line)) msg))
    (putchar_events (esc (text "0;31") ++ text "Panicked at " ++ cf ++ text ":" ++ num line ++ text " " ++ cm ++ reset)
      ++ [ESbi SBI_SHUTDOWN 0 0 0]) Stopped.
Proof.
  intros Hput Hdown Hfile Hmsg. set (p := MkPanicInfo _ _).
  apply (runs_bind_stopped fw (panic_round p) (λ lr, match lr with inl q => Tau (panic q) | inr r => Ret r end)).
  subst p. eapply runs_bind; [|by apply runs_stop].
  unfold panic_message. cbn [location message].
  pose proof (runs_print fw Hput (coloured 49 [text "Panicked at "; file; text ":"; num line; text " "; msg])
    [esc (text "0;31"); text "Panicked at "; cf; text ":"; num line; text " "; cm; reset]) as H.
  cbn [concat] in H. rewrite app_nil_r in H. apply H.
  repeat (apply Forall2_cons; split); try done; apply spells_ascii; (reflexivity || apply ascii_num).
Qed.

(** On the way back to user mode the next trap goes to the trampoline, and the
    jump lands in the trampoline page, as far behind its start as [__restore] is
    behind [__alltraps]. *)
Lemma trap_return_enters_trampoline fw alltraps restore satp :
  0 ≤ alltraps → alltraps ≤ restore < alltraps + PAGE_SIZE → restore < 2 ^ 64 →
  runs fw (trap_return alltraps restore satp)
    [EStvec TRAMPOLINE; EJump (TRAMPOLINE + (restore - alltraps)) TRAP_CONTEXT satp] Stopped.
Proof.
  intros Ha Hr H64. change TRAMPOLINE with 18446744073709547520. unfold PAGE_SIZE in Hr. split; [done|]. exists 3%nat. cbn.
  change TRAMPOLINE with 18446744073709547520. rewrite !wrap_small; [do 4 f_equal; lia|lia|rewrite wrap_small; lia].
Qed.

(** The bss section is zeroed, byte by byte. *)
Lemma clear_bss_zeroes fw sbss ebss :
  runs fw (clear_bss sbss ebss) ((λ a, EWrite a 0) <$> seqZ sbss (ebss - sbss)) (Done ()).
Proof.
  unfold clear_bss. generalize (seqZ sbss (ebss - sbss)). intros l. induction l as [|a l IH]; [apply runs_ret|].
  change ((λ a, EWrite a 0) <$> a :: l) with ([EWrite a 0] ++ ((λ a, EWrite a 0) <$> l)). eapply runs_bind; [|exact IH].
  split; [done|]. by exists 2%nat.
Qed.
