(* ===== verification/Cell.v ===== *)
(** [UPSafeCell] (os/src/sync/up.rs): a value with the run-time borrow check of
    [RefCell], and what a caller has to keep to so that the check never fails. *)

From S2P Require Export Prelude.

Record UPSafeCell (T : Type) : Type := MkCell { inner : T; borrowed : bool }.
Arguments MkCell {T} _ _.
Arguments inner {T} _.
Arguments borrowed {T} _.

Section cell.
Context {T : Type}.
Implicit Types (c : UPSafeCell T) (v : T).

Definition UPSafeCell_new v : UPSafeCell T := MkCell v false.
(** [borrow_mut] panics while an earlier [RefMut] is alive. *)
Definition UPSafeCell_exclusive_access : M (UPSafeCell T) T :=
  c ← get; assert_ (negb (borrowed c));; upd (λ c, MkCell (inner c) true);; mret (inner c).
(** The end of the scope of a [RefMut], through which the value has become [v]. *)
Definition RefMut_drop v : M (UPSafeCell T) () := upd (λ _, MkCell v false).
(** A scope: the value is taken, changed by [f] and given back. *)
Definition scoped {A} (f : T → A * T) : M (UPSafeCell T) A :=
  v ← UPSafeCell_exclusive_access; RefMut_drop (f v).2;; mret (f v).1.

Lemma exclusive_access_free v : UPSafeCell_exclusive_access (MkCell v false) = Ok (v, MkCell v true).
Proof. done. Qed.
(** A second access in the scope of a first one panics. *)
Lemma exclusive_access_twice c : ∃ e, (UPSafeCell_exclusive_access;; UPSafeCell_exclusive_access) c = Fail e.
Proof. destruct c as [v []]; by eexists. Qed.
(** Scopes that follow each other act on the value, and leave the cell free. *)
Lemma scoped_run {A} (f : T → A * T) v : scoped f (UPSafeCell_new v) = Ok ((f v).1, UPSafeCell_new (f v).2).
Proof. done. Qed.
Lemma scoped_sequence (fs : list (T → () * T)) v :
  mfor scoped fs (UPSafeCell_new v) = Ok ((), UPSafeCell_new (foldl (λ v f, (f v).2) v fs)).
Proof.
  revert v. induction fs as [|f fs IH]; intros v; [done|]. unfold mfor in *. cbn [mfold foldl].
  erewrite bind_Ok by apply scoped_run. destruct (f v).1. apply IH.
Qed.
End cell.
