(* ===== verification/FrameAlloc.v ===== *)
(** Physical memory and its frame allocator (os/src/mm/frame_allocator.rs):
    the stack allocator, [FrameTracker] with its zeroing [new] and its [Drop].
    The abstract view is the set of allocated frames. *)

From S2P Require Export Address.

(** A physical page, 4096 bytes. *)
Abbreviation page := (list Z).

Record StackFrameAllocator : Type := MkAlloc {
  current : Z;            (** start ppn that was never used *)
  end_ : Z;
  recycled : list Z }.    (** the top of the stack is the head *)

(** The RAM the kernel sees through its identity mapping, and the allocator. *)
Record Mm : Type := MkMm {
  mm_pages : gmap Z page;
  mm_alloc : StackFrameAllocator }.

Definition StackFrameAllocator_new : StackFrameAllocator := MkAlloc 0 0 [].
Definition StackFrameAllocator_init (l r : Z) (a : StackFrameAllocator) : StackFrameAllocator :=
  MkAlloc l r (recycled a).

Definition StackFrameAllocator_alloc (a : StackFrameAllocator) : option Z * StackFrameAllocator :=
  match recycled a with
  | ppn :: rest => (Some (PhysPageNum_from ppn), MkAlloc (current a) (end_ a) rest)
  | [] =>
      if current a =? end_ a then (None, a)
      else (Some (PhysPageNum_from (current a +₆₄ 1 -₆₄ 1)),
            MkAlloc (current a +₆₄ 1) (end_ a) [])
  end.

Definition StackFrameAllocator_dealloc (ppn : Z) : M StackFrameAllocator () :=
  a ← get;
  if (current a <=? ppn) || bool_decide (ppn ∈ recycled a) then panic
  else put (MkAlloc (current a) (end_ a) (ppn :: recycled a)).

(** ** The pages *)

(** [ppn.get_bytes_array()] read; a page that is not RAM faults. *)
Definition get_bytes_array (ppn : Z) : M Mm page :=
  s ← get; unwrap_ub (mm_pages s !! ppn).
(** ... and written as a whole. *)
Definition set_bytes_array (ppn : Z) (p : page) : M Mm () :=
  get_bytes_array ppn;;
  upd (λ s, MkMm (<[ppn := p]> (mm_pages s)) (mm_alloc s)).

Definition zero_page : page := replicate 4096 0.
Lemma zero_page_eq : zero_page = replicate 4096 0.
Proof. reflexivity. Qed.
#[global] Opaque zero_page.

(** [FrameTracker::new]: the frame is cleared. *)
Definition FrameTracker_new (ppn : Z) : M Mm Z := set_bytes_array ppn zero_page;; mret ppn.

Definition set_alloc (a : StackFrameAllocator) : M Mm () := upd (λ s, MkMm (mm_pages s) a).

Definition frame_alloc : M Mm (option Z) :=
  s ← get;
  let '(r, a) := StackFrameAllocator_alloc (mm_alloc s) in
  set_alloc a;;
  match r with
  | Some ppn => t ← FrameTracker_new ppn; mret (Some t)
  | None => mret None
  end.

Definition frame_dealloc (ppn : Z) : M Mm () :=
  zoom mm_alloc (λ a s, MkMm (mm_pages s) a) (StackFrameAllocator_dealloc ppn).

(** [Drop for FrameTracker]; a vector of trackers is dropped front to back. *)
Definition FrameTracker_drop (ppn : Z) : M Mm () := frame_dealloc ppn.
Definition drop_frames (l : list Z) : M Mm () := mfor FrameTracker_drop l.

(** [init_frame_allocator]: everything from the end of the kernel image. *)
Definition init_frame_allocator (ekernel : Z) : M Mm () :=
  upd (λ s, MkMm (mm_pages s)
    (StackFrameAllocator_init (ceil (PhysAddr_from ekernel)) (floor (PhysAddr_from MEMORY_END))
       (mm_alloc s))).

(** * Abstract view *)

(** The allocator was initialised with the frames [l, r). *)
Record alloc_wf (l r : Z) (a : StackFrameAllocator) : Prop := {
  aw_range : 0 ≤ l ≤ current a ∧ current a ≤ r ∧ end_ a = r ∧ r ≤ 2 ^ 44;
  aw_nodup : NoDup (recycled a);
  aw_in : Forall (λ p, l ≤ p < current a) (recycled a) }.

(** The frames handed out and not given back. *)
Definition allocated (l : Z) (a : StackFrameAllocator) : gset Z :=
  list_to_set (seqZ l (current a - l)) ∖ list_to_set (recycled a).

Lemma elem_of_allocated l a p : p ∈ allocated l a ↔ l ≤ p < current a ∧ (p ∉ recycled a).
Proof.
  unfold allocated. rewrite elem_of_difference, !elem_of_list_to_set, elem_of_seqZ.
  split; intros [? ?]; (split; [lia|done]).
Qed.

Lemma PhysPageNum_from_small p : 0 ≤ p < 2 ^ 44 → PhysPageNum_from p = p.
Proof. intros. rewrite PhysPageNum_from_mod. by apply Z.mod_small. Qed.

Lemma frame_alloc_spec l r a :
  alloc_wf l r a →
  match StackFrameAllocator_alloc a with
  | (Some p, a') => alloc_wf l r a' ∧ l ≤ p < r ∧ (p ∉ allocated l a) ∧
                    allocated l a' = {[p]} ∪ allocated l a
  | (None, a') => a' = a ∧ ∀ p, l ≤ p < r → p ∈ allocated l a
  end.
Proof.
  intros [Hr Hnd Hin]. unfold StackFrameAllocator_alloc. destruct (recycled a) as [|p rest] eqn:Hrec.
  - destruct (Z.eqb_spec (current a) (end_ a)) as [Heq|Hne].
    + split; [done|]. intros p Hp. rewrite elem_of_allocated, Hrec. split; [lia|apply not_elem_of_nil].
    + rewrite (wrap_small 64 (current a + 1)) by lia. rewrite wrap_small by lia.
      replace (current a + 1 - 1) with (current a) by lia. rewrite PhysPageNum_from_small by lia.
      split_and!; [|lia|lia| |].
      * split; cbn; [lia|constructor|constructor].
      * rewrite elem_of_allocated. intros [? _]. lia.
      * apply set_eq. intros q. rewrite elem_of_union, elem_of_singleton, !elem_of_allocated, Hrec.
        cbn. pose proof (not_elem_of_nil q) as Hq. split.
        -- intros [? _]. destruct (decide (q = current a)); [by left|]. right. split; [lia|done].
        -- intros [->|[? _]]; (split; [lia|done]).
  - apply Forall_cons in Hin as [Hp Hin]. apply NoDup_cons in Hnd as [Hnin Hnd].
    rewrite PhysPageNum_from_small by lia. split_and!; [|lia|lia| |].
    + by split.
    + rewrite elem_of_allocated, Hrec. set_solver.
    + apply set_eq. intros q. rewrite elem_of_union, elem_of_singleton, !elem_of_allocated, Hrec. cbn.
      rewrite not_elem_of_cons. destruct (decide (q = p)) as [->|]; naive_solver.
Qed.

Lemma frame_dealloc_spec l r a p :
  alloc_wf l r a →
  if decide (p ∈ allocated l a) then
    ∃ a', StackFrameAllocator_dealloc p a = Ok ((), a') ∧ alloc_wf l r a' ∧
      allocated l a' = allocated l a ∖ {[p]}
  else l ≤ p → StackFrameAllocator_dealloc p a = Fail Panicked.
Proof.
  intros [Hr Hnd Hin]. unfold StackFrameAllocator_dealloc. case_decide as Hp.
  - apply elem_of_allocated in Hp as [Hp Hnin]. unfold mbind, M_bind, get.
    rewrite (proj2 (Z.leb_gt _ _)), bool_decide_eq_false_2 by (done || lia). cbn.
    eexists. split; [done|]. split; [split; cbn; [done|by constructor|by constructor]|].
    apply set_eq. intros q. rewrite elem_of_difference, elem_of_singleton, !elem_of_allocated. cbn.
    rewrite not_elem_of_cons. naive_solver.
  - intros Hl. unfold mbind, M_bind, get. destruct (Z.leb_spec (current a) p); [done|].
    rewrite bool_decide_eq_true_2; [done|]. destruct (decide (p ∈ recycled a)); [done|].
    exfalso. apply Hp. rewrite elem_of_allocated. split; [lia|done].
Qed.

Lemma get_bytes_array_Ok p pg s : mm_pages s !! p = Some pg → get_bytes_array p s = Ok (pg, s).
Proof. intros Hp. unfold get_bytes_array. erewrite bind_Ok by reflexivity. by rewrite Hp. Qed.
Lemma set_bytes_array_Ok p pg q s :
  mm_pages s !! p = Some pg → set_bytes_array p q s = Ok ((), MkMm (<[p := q]> (mm_pages s)) (mm_alloc s)).
Proof. intros Hp. unfold set_bytes_array. by erewrite bind_Ok by (by apply get_bytes_array_Ok). Qed.

(** [frame_alloc] on the whole state. *)
Definition mm_wf (l r : Z) (s : Mm) : Prop :=
  alloc_wf l r (mm_alloc s) ∧ (∀ p, l ≤ p < r → is_Some (mm_pages s !! p)).

Lemma frame_alloc_run l r s :
  mm_wf l r s →
  match StackFrameAllocator_alloc (mm_alloc s) with
  | (Some p, a) => frame_alloc s = Ok (Some p, MkMm (<[p := zero_page]> (mm_pages s)) a)
  | (None, a) => frame_alloc s = Ok (None, s)
  end.
Proof.
  intros [Ha Hp]. pose proof (frame_alloc_spec l r _ Ha) as Hspec. unfold frame_alloc.
  destruct (StackFrameAllocator_alloc (mm_alloc s)) as [[p|] a] eqn:Hal.
  - destruct Hspec as (_ & Hr & _). destruct (Hp p Hr) as [pg Hpg].
    erewrite bind_Ok by reflexivity. rewrite Hal. erewrite bind_Ok by reflexivity. cbn beta iota.
    erewrite bind_Ok; [reflexivity|]. unfold FrameTracker_new.
    by erewrite bind_Ok by (by apply (set_bytes_array_Ok p pg)).
  - destruct Hspec as [-> _]. erewrite bind_Ok by reflexivity. rewrite Hal.
    erewrite bind_Ok by reflexivity. by destruct s.
Qed.

(** * Properties *)

(** C21: [frame_alloc] never hands out a frame that is in use: it returns a frame
    of the range it was initialised with that is not allocated, cleared to zero,
    leaves all other pages alone, and returns [None] only when every frame is
    allocated. *)
Theorem frame_alloc_fresh l r s :
  mm_wf l r s →
  wp frame_alloc s (λ res s', mm_wf l r s' ∧
    match res with
    | Some p => l ≤ p < r ∧ (p ∉ allocated l (mm_alloc s)) ∧
        allocated l (mm_alloc s') = {[p]} ∪ allocated l (mm_alloc s) ∧
        mm_pages s' = <[p := zero_page]> (mm_pages s)
    | None => s' = s ∧ ∀ p, l ≤ p < r → p ∈ allocated l (mm_alloc s)
    end).
Proof.
  intros Hwf. pose proof (frame_alloc_run l r s Hwf) as Hrun. pose proof Hwf as [Ha Hp].
  pose proof (frame_alloc_spec l r _ Ha) as Hspec. unfold wp.
  destruct (StackFrameAllocator_alloc (mm_alloc s)) as [[p|] a]; rewrite Hrun.
  - destruct Hspec as (Ha' & Hr & Hnin & Heq). split; [|done]. split; [done|].
    intros q Hq. cbn. destruct (decide (q = p)) as [->|]; [rewrite lookup_insert_eq|rewrite lookup_insert_ne by done].
    + done.
    + by apply Hp.
  - destruct Hspec as [_ Hall]. done.
Qed.

(** Dropping a [FrameTracker] gives its frame back, and a frame that is not
    allocated (a double free) panics. *)
Theorem frame_dealloc_once l r s p :
  mm_wf l r s → l ≤ p →
  if decide (p ∈ allocated l (mm_alloc s)) then
    wp (FrameTracker_drop p) s (λ _ s', mm_wf l r s' ∧ mm_pages s' = mm_pages s ∧
      allocated l (mm_alloc s') = allocated l (mm_alloc s) ∖ {[p]})
  else FrameTracker_drop p s = Fail Panicked.
Proof.
  intros [Ha Hp] Hl. pose proof (frame_dealloc_spec l r _ p Ha) as Hspec.
  unfold FrameTracker_drop, frame_dealloc, zoom. case_decide.
  - destruct Hspec as (a' & Hrun & Ha' & Heq). unfold wp. by rewrite Hrun.
  - by rewrite Hspec.
Qed.

(** * Witnesses *)

Definition ex_mm : Mm :=
  MkMm (list_to_map ((λ i, (i, zero_page)) <$> seqZ 100 20)) (MkAlloc 103 120 [101]).
Lemma ex_mm_wf : mm_wf 100 120 ex_mm.
Proof.
  split.
  - split; cbn; [lia|apply NoDup_singleton|]. constructor; [lia|constructor].
  - intros p Hp. cbn [mm_pages ex_mm]. apply elem_of_dom. rewrite dom_list_to_map_L.
    apply elem_of_list_to_set. rewrite <-list_fmap_compose. cbn.
    rewrite (list_fmap_ext _ id), list_fmap_id by done. rewrite elem_of_seqZ. lia.
Qed.
Lemma frame_alloc_fresh_witness :
  wp frame_alloc ex_mm (λ res s', mm_wf 100 120 s' ∧
    match res with
    | Some p => 100 ≤ p < 120 ∧ (p ∉ allocated 100 (mm_alloc ex_mm)) ∧
        allocated 100 (mm_alloc s') = {[p]} ∪ allocated 100 (mm_alloc ex_mm) ∧
        mm_pages s' = <[p := zero_page]> (mm_pages ex_mm)
    | None => s' = ex_mm ∧ ∀ p, 100 ≤ p < 120 → p ∈ allocated 100 (mm_alloc ex_mm)
    end).
Proof. apply (frame_alloc_fresh 100 120 ex_mm ex_mm_wf). Defined.
Lemma frame_dealloc_once_witness :
  FrameTracker_drop 101 ex_mm = Fail Panicked ∧
  wp (FrameTracker_drop 102) ex_mm (λ _ s', mm_wf 100 120 s' ∧ mm_pages s' = mm_pages ex_mm ∧
    allocated 100 (mm_alloc s') = allocated 100 (mm_alloc ex_mm) ∖ {[102]}).
Proof.
  split.
  - exact (frame_dealloc_once 100 120 ex_mm 101 ex_mm_wf ltac:(lia)).
  - exact (frame_dealloc_once 100 120 ex_mm 102 ex_mm_wf ltac:(lia)).
Defined.
