(* ===== verification/PageTable.v ===== *)
(** Sv39 page tables (os/src/mm/page_table.rs): entries, the walk and its
    creating variant, [map], [unmap], translation, and access to user memory
    through a page-table token.  The abstract view is the partial map from
    virtual page numbers to entries. *)

From S2P Require Export FrameAlloc.

(** * Entries *)

Definition PTE_V : Z := 1.
Definition PTE_R : Z := 2.
Definition PTE_W : Z := 4.
Definition PTE_X : Z := 8.
Definition PTE_U : Z := 16.

(** [PageTableEntry] is its [bits]. *)
Definition PageTableEntry_new (ppn flags : Z) : Z := Z.lor (wrap 64 (Z.shiftl ppn 10)) flags.
Definition PageTableEntry_empty : Z := 0.
Definition PageTableEntry_ppn (bits : Z) : Z :=
  PhysPageNum_from (Z.land (Z.shiftr bits 10) (Z.shiftl 1 44 - 1)).
(** [PTEFlags::from_bits] of eight bits: all are named, so the [unwrap] cannot fail. *)
Definition PageTableEntry_flags (bits : Z) : Z := wrap 8 bits.
Definition has_flag (flag bits : Z) : bool := negb (Z.land (PageTableEntry_flags bits) flag =? 0).
Definition PageTableEntry_is_valid (bits : Z) : bool := has_flag PTE_V bits.
Definition PageTableEntry_readable (bits : Z) : bool := has_flag PTE_R bits.
Definition PageTableEntry_writable (bits : Z) : bool := has_flag PTE_W bits.
Definition PageTableEntry_executable (bits : Z) : bool := has_flag PTE_X bits.

(** [ppn.get_pte_array()[i]], read and written. *)
Definition read_pte (ppn i : Z) : M Mm Z :=
  p ← get_bytes_array ppn;
  w ← slice p (8 * i) (8 * i + 8);
  mret (le_dec w).
Definition write_pte (ppn i bits : Z) : M Mm () :=
  p ← get_bytes_array ppn;
  p' ← copy_into p (8 * i) (8 * i + 8) (le_enc 8 bits);
  set_bytes_array ppn p'.

(** * Page tables *)

Record PageTable : Type := MkPageTable {
  root_ppn : Z;
  pt_frames : list Z }.    (** the trackers of the table frames *)

Definition PageTable_new : M Mm PageTable :=
  r ← frame_alloc; frame ← unwrap r; mret (MkPageTable frame [frame]).
Definition PageTable_token (pt : PageTable) : Z := Z.lor (wrap 64 (Z.shiftl 8 60)) (root_ppn pt).
Definition PageTable_from_token (satp : Z) : PageTable :=
  MkPageTable (PhysPageNum_from (Z.land satp (Z.shiftl 1 44 - 1))) [].

(** An inner round of [find_pte_create]: the table the entry points to, made
    when the entry is not valid. *)
Definition find_pte_create_step (ppn idx : Z) (frames : list Z) : M Mm (Z * list Z) :=
  pte ← read_pte ppn idx;
  if PageTableEntry_is_valid pte then mret (PageTableEntry_ppn pte, frames)
  else
    r ← frame_alloc;
    frame ← unwrap r;
    write_pte ppn idx (PageTableEntry_new frame PTE_V);;
    pte ← read_pte ppn idx;
    mret (PageTableEntry_ppn pte, frames ++ [frame]).

(** A reference to an entry is its table and index. *)
Definition PageTable_find_pte_create (pt : PageTable) (vpn : Z) : M Mm ((Z * Z) * PageTable) :=
  let idxs := VirtPageNum_indexes vpn in
  '(ppn, frames) ← mfold (λ i '(ppn, frames),
      idx ← index idxs i; find_pte_create_step ppn idx frames)
    [0; 1] (root_ppn pt, pt_frames pt);
  idx ← index idxs 2;
  _ ← read_pte ppn idx;
  mret ((ppn, idx), MkPageTable (root_ppn pt) frames).

Definition PageTable_find_pte (pt : PageTable) (vpn : Z) : M Mm (option (Z * Z)) :=
  let idxs := VirtPageNum_indexes vpn in
  idx0 ← index idxs 0;
  pte0 ← read_pte (root_ppn pt) idx0;
  if negb (PageTableEntry_is_valid pte0) then mret None else
  idx1 ← index idxs 1;
  pte1 ← read_pte (PageTableEntry_ppn pte0) idx1;
  if negb (PageTableEntry_is_valid pte1) then mret None else
  idx2 ← index idxs 2;
  pte2 ← read_pte (PageTableEntry_ppn pte1) idx2;
  if negb (PageTableEntry_is_valid pte2) then mret None else
  mret (Some (PageTableEntry_ppn pte1, idx2)).

Definition PageTable_translate (pt : PageTable) (vpn : Z) : M Mm (option Z) :=
  r ← PageTable_find_pte pt vpn;
  match r with
  | Some (ppn, idx) => pte ← read_pte ppn idx; mret (Some pte)
  | None => mret None
  end.

Definition PageTable_translate_va (pt : PageTable) (va : Z) : M Mm (option Z) :=
  r ← PageTable_translate pt (floor va);
  mret ((λ pte, PhysAddr_from (Addr_from_PageNum (PageTableEntry_ppn pte) +₆₄ page_offset va)) <$> r).

Definition PageTable_map (pt : PageTable) (vpn ppn flags : Z) : M Mm PageTable :=
  '((t, i), pt) ← PageTable_find_pte_create pt vpn;
  pte ← read_pte t i;
  assert_ (negb (PageTableEntry_is_valid pte));;
  write_pte t i (PageTableEntry_new ppn (Z.lor flags PTE_V));;
  mret pt.

Definition PageTable_unmap (pt : PageTable) (vpn : Z) : M Mm () :=
  r ← PageTable_find_pte pt vpn;
  '(t, i) ← unwrap r;
  pte ← read_pte t i;
  assert_ (PageTableEntry_is_valid pte);;
  write_pte t i PageTableEntry_empty.

(** [Drop]: the trackers of the table frames. *)
Definition PageTable_drop (pt : PageTable) : M Mm () := drop_frames (pt_frames pt).

(** * User memory through a token *)

(** A [&'static mut [u8]] into a frame: frame, offset, length. *)
Record Buf : Type := MkBuf { buf_ppn : Z; buf_off : Z; buf_len : Z }.

(** [ppn.get_bytes_array()[a..b]] *)
Definition frame_slice (ppn a b : Z) : M Mm Buf :=
  p ← get_bytes_array ppn;
  _ ← slice p a b;
  mret (MkBuf ppn a (b - a)).

(** One round of the loop per page of the range; [end_] is the end address. *)
Definition byte_buffers_round (page_table : PageTable) (end_ : Z) '((start, v) : Z * list Buf)
    : M Mm (Z * list Buf + list Buf) :=
  if start <? end_ then
    let start_va := VirtAddr_from start in
    let vpn := floor start_va in
    r ← PageTable_translate page_table vpn;
    pte ← unwrap r;
    let ppn := PageTableEntry_ppn pte in
    let vpn := step vpn in
    let end_va := Z.min (Addr_from_PageNum vpn) (VirtAddr_from end_) in
    b ← (if page_offset end_va =? 0 then frame_slice ppn (page_offset start_va) PAGE_SIZE
         else frame_slice ppn (page_offset start_va) (page_offset end_va));
    mret (inl (end_va, v ++ [b]))
  else mret (inr v).
Definition translated_byte_buffers (token ptr len : Z) : M Mm (list Buf) :=
  mloop (Z.to_nat (len / PAGE_SIZE + 3))
    (byte_buffers_round (PageTable_from_token token) (ptr +₆₄ len)) (ptr, []).

(** A byte of physical memory. *)
Definition phys_byte (pa : Z) : M Mm Z :=
  p ← get_bytes_array (pa / PAGE_SIZE); index p (pa mod PAGE_SIZE).
Definition set_phys_byte (pa b : Z) : M Mm () :=
  p ← get_bytes_array (pa / PAGE_SIZE);
  p' ← set_index p (pa mod PAGE_SIZE) b;
  set_bytes_array (pa / PAGE_SIZE) p'.

(** [translated_str]; [fuel] bounds the length of the string. *)
Definition translated_str (fuel : nat) (token ptr : Z) : M Mm (list Z) :=
  let page_table := PageTable_from_token token in
  mloop fuel (λ '(va, string),
    r ← PageTable_translate_va page_table (VirtAddr_from va);
    pa ← unwrap r;
    ch ← phys_byte pa;
    if ch =? 0 then mret (inr string) else mret (inl (va +₆₄ 1, string ++ [ch])))
    (ptr, []).

(** The address [translated_ref] and [translated_refmut] point to, and a
    little-endian value of [n] bytes behind it. *)
Definition translated_ref (token ptr : Z) : M Mm Z :=
  r ← PageTable_translate_va (PageTable_from_token token) (VirtAddr_from ptr); unwrap r.
Definition read_le (n : nat) (pa : Z) : M Mm Z :=
  l ← mfold (λ i l, b ← phys_byte (pa + i); mret (l ++ [b])) (range 0 (Z.of_nat n)) [];
  mret (le_dec l).
Definition write_le (n : nat) (pa v : Z) : M Mm () :=
  mfor (λ '(i, b), set_phys_byte (pa + i) b) (zip (range 0 (Z.of_nat n)) (le_enc n v)).

(** ** [UserBuffer] *)

Definition UserBuffer_len (buffers : list Buf) : Z :=
  foldl (λ total b, total +₆₄ buf_len b) 0 buffers.

Record UserBufferIterator : Type := MkIter {
  ub_buffers : list Buf;
  current_buffer : Z;
  current_idx : Z }.
Definition UserBuffer_into_iter (buffers : list Buf) : UserBufferIterator := MkIter buffers 0 0.

(** [next]: the physical address of the byte, or [None] at the end. *)
Definition UserBufferIterator_next {S} (it : UserBufferIterator)
    : M S (option Z * UserBufferIterator) :=
  if Z.of_nat (length (ub_buffers it)) <=? current_buffer it then mret (None, it)
  else
    b ← index (ub_buffers it) (current_buffer it);
    assert_ (current_idx it <? buf_len b);;
    let r := buf_ppn b * PAGE_SIZE + buf_off b + current_idx it in
    if current_idx it +₆₄ 1 =? buf_len b
    then mret (Some r, MkIter (ub_buffers it) (current_buffer it +₆₄ 1) 0)
    else mret (Some r, MkIter (ub_buffers it) (current_buffer it) (current_idx it +₆₄ 1)).

(** * Entries: lemmas *)

Lemma has_flag_testbit i bits : 0 ≤ i < 8 → has_flag (2 ^ i) bits = Z.testbit bits i.
Proof.
  intros Hi. unfold has_flag, PageTableEntry_flags, wrap.
  rewrite <-(Z.mod_pow2_bits_low bits 8 i), <-land_pow2_pos by lia.
  assert (0 ≤ Z.land (bits mod 2 ^ 8) (2 ^ i)) by (apply Z.land_nonneg; lia).
  destruct (Z.eqb_spec (Z.land (bits mod 2 ^ 8) (2 ^ i)) 0), (Z.ltb_spec 0 (Z.land (bits mod 2 ^ 8) (2 ^ i)));
    cbn; done || lia.
Qed.
Lemma is_valid_odd bits : PageTableEntry_is_valid bits = Z.odd bits.
Proof. unfold PageTableEntry_is_valid. rewrite (has_flag_testbit 0) by lia. apply Z.bit0_odd. Qed.

Lemma PageTableEntry_new_eq ppn flags :
  0 ≤ ppn < 2 ^ 44 → 0 ≤ flags < 256 → PageTableEntry_new ppn flags = ppn * 1024 + flags.
Proof.
  intros Hp Hf. unfold PageTableEntry_new. rewrite Z.shiftl_mul_pow2 by lia. change (2 ^ 10) with 1024.
  rewrite wrap_small by lia. apply lor_disjoint. apply Z.bits_inj'. intros i Hi.
  rewrite Z.land_spec, Z.bits_0. destruct (decide (i < 10)).
  - change 1024 with (2 ^ 10). by rewrite Z.mul_pow2_bits_low.
  - rewrite <-(Z.mod_small flags (2 ^ 10)), Z.mod_pow2_bits_high by lia. apply andb_false_r.
Qed.
Lemma PageTableEntry_ppn_eq bits : PageTableEntry_ppn bits = bits / 1024 mod 2 ^ 44.
Proof.
  unfold PageTableEntry_ppn. rewrite land_ones_mod, PhysPageNum_from_mod by lia.
  rewrite Z.shiftr_div_pow2, Z.mod_mod by lia. done.
Qed.
Lemma ppn_new ppn flags :
  0 ≤ ppn < 2 ^ 44 → 0 ≤ flags < 256 → PageTableEntry_ppn (PageTableEntry_new ppn flags) = ppn.
Proof. intros Hp Hf. rewrite PageTableEntry_ppn_eq, PageTableEntry_new_eq by done. lia. Qed.
Lemma valid_new ppn flags :
  0 ≤ ppn < 2 ^ 44 → 0 ≤ flags < 256 → Z.odd flags = true →
  PageTableEntry_is_valid (PageTableEntry_new ppn flags) = true.
Proof.
  intros Hp Hf Ho. rewrite is_valid_odd, PageTableEntry_new_eq by done.
  rewrite Z.odd_add, Z.odd_mul, Ho. by rewrite andb_false_r.
Qed.
