(* ===== verification/PageTableSpec.v ===== *)
(** Page tables as partial maps (os/src/mm/page_table.rs): the tables of a
    well-formed page table form a tree of distinct frames; [map] and [unmap]
    change exactly one entry of the map, and translation looks it up. *)

From S2P Require Export PageTable.

(** * Entries in memory *)

Definition page_at (s : Mm) (p : Z) : page := default [] (mm_pages s !! p).
Definition page_ok (s : Mm) (p : Z) : Prop :=
  mm_pages s !! p = Some (page_at s p) ∧ length (page_at s p) = 4096%nat ∧ Forall is_byte (page_at s p).
Definition pte_at (s : Mm) (p i : Z) : Z := le_dec (sub_list (Z.to_nat (8 * i)) 8 (page_at s p)).
Definition set_page (p : Z) (pg : page) (s : Mm) : Mm := MkMm (<[p := pg]> (mm_pages s)) (mm_alloc s).
Definition set_pte (p i b : Z) (s : Mm) : Mm :=
  set_page p (splice (Z.to_nat (8 * i)) (le_enc 8 b) (page_at s p)) s.

Lemma page_at_set p pg s q : page_at (set_page p pg s) q = if decide (q = p) then pg else page_at s q.
Proof.
  unfold page_at, set_page. cbn. case_decide as Hq; [by rewrite Hq, lookup_insert_eq|].
  by rewrite lookup_insert_ne.
Qed.
Lemma page_ok_set p pg s q :
  page_ok s q → length pg = 4096%nat → Forall is_byte pg → page_ok (set_page p pg s) q.
Proof.
  intros (Hq & Hl & Hb) Hlen Hpg. unfold page_ok. rewrite page_at_set. cbn. case_decide as Hqp.
  - by rewrite Hqp, lookup_insert_eq.
  - by rewrite lookup_insert_ne.
Qed.

Section entry.
Context (s : Mm) (p i : Z) (Hp : page_ok s p) (Hi : 0 ≤ i < 512).

Lemma pte_bound : 0 ≤ pte_at s p i < 2 ^ 64.
Proof.
  destruct Hp as (_ & Hl & Hb). pose proof (le_dec_bound _ (Forall_sub_list _ (Z.to_nat (8 * i)) 8 _ Hb)) as H.
  rewrite length_sub_list in H by lia. exact H.
Qed.
Lemma read_pte_Ok : read_pte p i s = Ok (pte_at s p i, s).
Proof.
  destruct Hp as (Hs & Hl & _). unfold read_pte.
  erewrite bind_Ok by (by apply get_bytes_array_Ok).
  assert (slice (page_at s p) (8 * i) (8 * i + 8) s =
    Ok (sub_list (Z.to_nat (8 * i)) 8 (page_at s p), s)) as Hsl.
  { unfold slice. destruct (_ && _) eqn:E; [|lia].
    by replace (8 * i + 8 - 8 * i) with 8 by lia. }
  by erewrite bind_Ok by exact Hsl.
Qed.
Lemma length_entry b : length (splice (Z.to_nat (8 * i)) (le_enc 8 b) (page_at s p)) = 4096%nat.
Proof. destruct Hp as (_ & Hl & _). rewrite length_splice; [done|]. rewrite length_le_enc. lia. Qed.
Lemma write_pte_Ok b : write_pte p i b s = Ok ((), set_pte p i b s).
Proof.
  destruct Hp as (Hs & Hl & _). unfold write_pte.
  erewrite bind_Ok by (by apply get_bytes_array_Ok).
  assert (copy_into (page_at s p) (8 * i) (8 * i + 8) (le_enc 8 b) s =
    Ok (splice (Z.to_nat (8 * i)) (le_enc 8 b) (page_at s p), s)) as Hc.
  { unfold copy_into. rewrite length_le_enc. change (Z.of_nat 8) with 8. destruct (_ && _) eqn:E; [done|lia]. }
  erewrite bind_Ok by exact Hc. by apply (set_bytes_array_Ok p (page_at s p)).
Qed.
Lemma page_ok_set_pte b q : page_ok s q → page_ok (set_pte p i b s) q.
Proof.
  intros Hq. apply page_ok_set; [done|apply length_entry|].
  destruct Hp as (_ & _ & Hb). apply Forall_splice; [done|apply le_enc_bytes].
Qed.
Lemma pte_at_set b q j :
  0 ≤ b < 2 ^ 64 → 0 ≤ j < 512 →
  pte_at (set_pte p i b s) q j = if decide (q = p ∧ j = i) then b else pte_at s q j.
Proof.
  intros Hb Hj. destruct Hp as (_ & Hl & _). unfold pte_at, set_pte. rewrite page_at_set.
  case_decide as Hq; [subst q|by rewrite decide_False by naive_solver].
  assert (length (le_enc 8 b) = 8%nat) as Hle by apply length_le_enc.
  case_decide as Hji.
  - destruct Hji as [_ ->]. rewrite <-Hle at 1. rewrite sub_list_splice_same by lia.
    by apply le_dec_enc_small.
  - assert (j ≠ i) by naive_solver. f_equal. apply sub_list_splice_other; lia.
Qed.
End entry.

(** * The tree of tables *)

Definition child (s : Mm) (p i : Z) : option Z :=
  if decide (0 ≤ i < 512) then
    if PageTableEntry_is_valid (pte_at s p i) then Some (PageTableEntry_ppn (pte_at s p i)) else None
  else None.
Definition table2 (s : Mm) (root i j : Z) : option Z :=
  match child s root i with Some c => child s c j | None => None end.

(** The root, first-level tables [C i] and second-level tables [G i j] are
    pairwise different frames of the page table. *)
Record tables_wf (ok : Z → Prop) (root : Z) (frames : list Z) (C : Z → option Z)
    (G : Z → Z → option Z) : Prop := {
  tw_root : ok root ∧ root ∈ frames;
  tw_c i c : C i = Some c → ok c ∧ c ∈ frames ∧ c ≠ root;
  tw_cinj i i' c : C i = Some c → C i' = Some c → i = i';
  tw_g i j g : G i j = Some g → ok g ∧ g ∈ frames ∧ g ≠ root ∧ ∀ i', C i' ≠ Some g;
  tw_ginj i j i' j' g : G i j = Some g → G i' j' = Some g → i = i' ∧ j = j';
  tw_cg i j : is_Some (G i j) → is_Some (C i) }.

Lemma tables_wf_ext (ok ok' : Z → Prop) root frames C C' G G' :
  tables_wf ok root frames C G → (∀ p, ok p → ok' p) → (∀ i, C' i = C i) → (∀ i j, G' i j = G i j) →
  tables_wf ok' root frames C' G'.
Proof.
  intros [H1 H2 H3 H4 H5 H6] Hok HC HG. split.
  - naive_solver.
  - intros i c. rewrite HC. intros Hc. apply H2 in Hc. naive_solver.
  - intros i i' c. rewrite !HC. apply H3.
  - intros i j g. rewrite HG. intros Hg. apply H4 in Hg as (? & ? & ? & Hne). split_and!; auto.
    intros i'. rewrite HC. apply Hne.
  - intros i j i' j' g. rewrite !HG. apply H5.
  - intros i j. rewrite HC, HG. apply H6.
Qed.

(** A new first-level table. *)
Lemma tables_wf_child (ok : Z → Prop) root frames C G i p :
  tables_wf ok root frames C G → C i = None → (p ∉ frames) → ok p →
  tables_wf ok root (frames ++ [p]) (λ i', if decide (i' = i) then Some p else C i') G.
Proof.
  intros [H1 H2 H3 H4 H5 H6] HC Hp Hok. destruct H1 as [Hr Hrin].
  split.
  - set_solver.
  - intros i' c. case_decide; [intros [= <-]; set_solver|]. intros Hc%H2. set_solver.
  - intros i1 i2 c Ha Hb. destruct (decide (i1 = i)), (decide (i2 = i)); [congruence|..].
    + injection Ha as <-. apply H2 in Hb. set_solver.
    + injection Hb as <-. apply H2 in Ha. set_solver.
    + by eapply H3.
  - intros i' j g Hg. pose proof (H4 _ _ _ Hg) as (? & ? & ? & Hne). split_and!; [done|set_solver|done|].
    intros i1. case_decide; [intros [= <-]; set_solver|apply Hne].
  - apply H5.
  - intros i' j Hg. case_decide; [by eexists|by eapply H6].
Qed.
(** A new second-level table. *)
Lemma tables_wf_grandchild (ok : Z → Prop) root frames C G i j p :
  tables_wf ok root frames C G → is_Some (C i) → G i j = None → (p ∉ frames) → ok p →
  tables_wf ok root (frames ++ [p]) C (λ i' j', if decide (i' = i ∧ j' = j) then Some p else G i' j').
Proof.
  intros [H1 H2 H3 H4 H5 H6] HC HG Hp Hok. destruct H1 as [Hr Hrin].
  split.
  - set_solver.
  - intros i' c Hc%H2. set_solver.
  - apply H3.
  - intros i' j' g. case_decide.
    + intros [= <-]. split_and!; [done|set_solver|set_solver|]. intros i1 Hc%H2. set_solver.
    + intros Hg%H4. set_solver.
  - intros i1 j1 i2 j2 g Ha Hb.
    destruct (decide (i1 = i ∧ j1 = j)) as [[-> ->]|], (decide (i2 = i ∧ j2 = j)) as [[-> ->]|]; [done|..].
    + injection Ha as <-. apply H4 in Hb. set_solver.
    + injection Hb as <-. apply H4 in Ha. set_solver.
    + by eapply H5.
  - intros i' j'. case_decide as Hd; [by destruct Hd as [-> _]|apply H6].
Qed.

(** ** Page tables of the kernel's state *)

Record pt_wf (l r : Z) (s : Mm) (pt : PageTable) : Prop := {
  pw_mm : mm_wf l r s;
  pw_tables : tables_wf (page_ok s) (root_ppn pt) (pt_frames pt) (child s (root_ppn pt)) (table2 s (root_ppn pt));
  pw_alloc : Forall (λ p, p ∈ allocated l (mm_alloc s)) (pt_frames pt) }.

(** The map a page table stands for. *)
Definition entry (s : Mm) (root vpn : Z) : option Z :=
  match table2 s root (vpn / 262144 mod 512) (vpn / 512 mod 512) with
  | Some g =>
      if PageTableEntry_is_valid (pte_at s g (vpn mod 512)) then Some (pte_at s g (vpn mod 512)) else None
  | None => None
  end.

Lemma child_Some s p i c :
  child s p i = Some c → 0 ≤ i < 512 ∧ PageTableEntry_is_valid (pte_at s p i) = true ∧
    PageTableEntry_ppn (pte_at s p i) = c.
Proof. unfold child. repeat case_match; naive_solver. Qed.

Lemma indexes_index {S} vpn (s : S) :
  index (VirtPageNum_indexes vpn) 0 s = Ok (vpn / 262144 mod 512, s) ∧
  index (VirtPageNum_indexes vpn) 1 s = Ok (vpn / 512 mod 512, s) ∧
  index (VirtPageNum_indexes vpn) 2 s = Ok (vpn mod 512, s).
Proof. by rewrite indexes_eq. Qed.

(** * Walking *)

Lemma pte_index vpn : 0 ≤ vpn mod 512 < 512 ∧ 0 ≤ vpn / 512 mod 512 < 512 ∧ 0 ≤ vpn / 262144 mod 512 < 512.
Proof. lia. Qed.

Lemma find_pte_spec l r s pt pt' vpn :
  pt_wf l r s pt → root_ppn pt' = root_ppn pt →
  PageTable_find_pte pt' vpn s = Ok (
    (match table2 s (root_ppn pt) (vpn / 262144 mod 512) (vpn / 512 mod 512) with
     | Some g => if PageTableEntry_is_valid (pte_at s g (vpn mod 512)) then Some (g, vpn mod 512) else None
     | None => None
     end), s).
Proof.
  intros [_ [Hroot Hc _ Hg _ _] _] Hr. destruct (pte_index vpn) as (H2 & H1 & H0).
  destruct (indexes_index vpn s) as (Hi0 & Hi1 & Hi2).
  unfold PageTable_find_pte. rewrite Hr, (bind_Ok _ _ _ _ _ Hi0).
  rewrite (bind_Ok _ _ _ _ _ (read_pte_Ok s _ _ (proj1 Hroot) H0)).
  pose proof (Hc (vpn / 262144 mod 512)) as Hc0. pose proof (Hg (vpn / 262144 mod 512) (vpn / 512 mod 512)) as Hg0.
  unfold table2 in *. unfold child at 1. unfold child at 1 in Hc0. unfold child at 1 in Hg0.
  rewrite decide_True in * by done.
  destruct (PageTableEntry_is_valid (pte_at s (root_ppn pt) (vpn / 262144 mod 512))); [|done]. cbn [negb].
  destruct (Hc0 _ eq_refl) as (Hok1 & _). rewrite (bind_Ok _ _ _ _ _ Hi1).
  rewrite (bind_Ok _ _ _ _ _ (read_pte_Ok s _ _ Hok1 H1)).
  unfold child in *. rewrite decide_True in * by done.
  destruct (PageTableEntry_is_valid (pte_at s _ (vpn / 512 mod 512))); [|done]. cbn [negb].
  destruct (Hg0 _ eq_refl) as (Hok2 & _). rewrite (bind_Ok _ _ _ _ _ Hi2).
  rewrite (bind_Ok _ _ _ _ _ (read_pte_Ok s _ _ Hok2 H2)). by destruct (PageTableEntry_is_valid _).
Qed.

Lemma translate_spec l r s pt pt' vpn :
  pt_wf l r s pt → root_ppn pt' = root_ppn pt →
  PageTable_translate pt' vpn s = Ok (entry s (root_ppn pt) vpn, s).
Proof.
  intros Hwf Hr. unfold PageTable_translate. rewrite (bind_Ok _ _ _ _ _ (find_pte_spec l r s pt pt' vpn Hwf Hr)).
  unfold entry. pose proof (tw_g _ _ _ _ _ (pw_tables _ _ _ _ Hwf) (vpn / 262144 mod 512) (vpn / 512 mod 512)) as Hg.
  destruct (table2 _ _ _ _) as [g|]; [|done]. destruct (Hg _ eq_refl) as (Hok & _).
  destruct (PageTableEntry_is_valid _); [|done].
  by rewrite (bind_Ok _ _ _ _ _ (read_pte_Ok s g _ Hok (proj1 (pte_index vpn)))).
Qed.

(** * Creating tables *)

Definition free_frames (s : Mm) : Z :=
  end_ (mm_alloc s) - current (mm_alloc s) + Z.of_nat (length (recycled (mm_alloc s))).

Lemma alloc_free l r s :
  mm_wf l r s → 0 < free_frames s →
  ∃ p a, StackFrameAllocator_alloc (mm_alloc s) = (Some p, a) ∧
    end_ a - current a + Z.of_nat (length (recycled a)) = free_frames s - 1.
Proof.
  intros [[Hr _ _] _] Hf. unfold free_frames, StackFrameAllocator_alloc in *.
  destruct (recycled (mm_alloc s)) as [|p rest]; cbn [length] in *.
  - destruct (Z.eqb_spec (current (mm_alloc s)) (end_ (mm_alloc s))); [lia|].
    do 2 eexists. split; [done|]. cbn. rewrite wrap_small by lia. lia.
  - do 2 eexists. split; [done|]. cbn. lia.
Qed.

(** A fresh table [p] hung below entry [i] of table [q]. *)
Record created (l r q i p : Z) (s s' : Mm) : Prop := {
  cr_mm : mm_wf l r s';
  cr_range : l ≤ p < r ∧ (p ∉ allocated l (mm_alloc s));
  cr_alloc : allocated l (mm_alloc s') = {[p]} ∪ allocated l (mm_alloc s);
  cr_free : free_frames s' = free_frames s - 1;
  cr_pte q' i' : 0 ≤ i' < 512 → pte_at s' q' i' =
    if decide (q' = q ∧ i' = i) then PageTableEntry_new p PTE_V
    else if decide (q' = p) then 0 else pte_at s q' i';
  cr_ok q' : page_ok s q' → page_ok s' q';
  cr_okp : page_ok s' p;
  cr_page x : x ≠ p → x ≠ q → page_at s' x = page_at s x }.

Lemma page_at_zero s a p : page_at (MkMm (<[p := zero_page]> (mm_pages s)) a) p = zero_page.
Proof. unfold page_at. cbn. by rewrite lookup_insert_eq. Qed.
Lemma sub_list_replicate {A} (x : A) n off m :
  (off + n ≤ m)%nat → sub_list off n (replicate m x) = replicate n x.
Proof. intros H. unfold sub_list. rewrite drop_replicate, take_replicate. f_equal. lia. Qed.
Lemma le_dec_zeros n : le_dec (replicate n 0) = 0.
Proof. induction n as [|n IH]; [done|]. cbn [replicate]. unfold le_dec in *. cbn. by rewrite IH. Qed.

Lemma page_ok_zero s a p : page_ok (MkMm (<[p := zero_page]> (mm_pages s)) a) p.
Proof.
  unfold page_ok. rewrite page_at_zero. cbn. split; [apply lookup_insert_eq|].
  rewrite zero_page_eq. split; [apply length_replicate|]. apply Forall_replicate. unfold is_byte. lia.
Qed.

Lemma create_new l r q i frames s :
  mm_wf l r s → q ∈ allocated l (mm_alloc s) → page_ok s q → 0 ≤ i < 512 → child s q i = None →
  0 < free_frames s →
  ∃ p s', find_pte_create_step q i frames s = Ok ((p, frames ++ [p]), s') ∧ created l r q i p s s'.
Proof.
  intros Hmm Hq Hok Hi Hc Hf. destruct (alloc_free l r s Hmm Hf) as (p & a & Hal & Hfree).
  pose proof (frame_alloc_run l r s Hmm) as Hrun. pose proof (frame_alloc_spec l r _ (proj1 Hmm)) as Hsp.
  rewrite Hal in Hrun, Hsp. destruct Hsp as (Ha & Hp & Hnin & Hall).
  assert (q ≠ p) as Hqp by (intros ->; done). destruct Hmm as [[Hr _ _] Hpages].
  set (s1 := MkMm (<[p := zero_page]> (mm_pages s)) a) in *.
  assert (∀ x, x ≠ p → page_at s1 x = page_at s x) as Hother
    by (intros x Hx; unfold page_at; cbn; by rewrite lookup_insert_ne).
  assert (∀ x, page_ok s x → page_ok s1 x) as Hok1.
  { intros x (H1 & H2). destruct (decide (x = p)) as [->|Hx]; [apply page_ok_zero|].
    unfold page_ok. rewrite Hother by done. cbn. by rewrite lookup_insert_ne. }
  assert (0 ≤ PageTableEntry_new p PTE_V < 2 ^ 64) as Hnew
    by (rewrite PageTableEntry_new_eq; unfold PTE_V; lia).
  exists p, (set_pte q i (PageTableEntry_new p PTE_V) s1). split.
  - unfold find_pte_create_step. rewrite (bind_Ok _ _ _ _ _ (read_pte_Ok s q i Hok Hi)).
    unfold child in Hc. rewrite decide_True in Hc by done.
    destruct (PageTableEntry_is_valid (pte_at s q i)); [done|].
    rewrite (bind_Ok _ _ _ _ _ Hrun). erewrite bind_Ok by reflexivity.
    rewrite (bind_Ok _ _ _ _ _ (write_pte_Ok s1 q i (Hok1 q Hok) Hi _)).
    rewrite (bind_Ok _ _ _ _ _ (read_pte_Ok _ q i (page_ok_set_pte s1 q i (Hok1 q Hok) Hi _ q (Hok1 q Hok)) Hi)).
    rewrite pte_at_set, decide_True by auto. by rewrite ppn_new by (unfold PTE_V; lia).
  - assert (∀ q' i', 0 ≤ i' < 512 → pte_at s1 q' i' = if decide (q' = p) then 0 else pte_at s q' i') as Hpte1.
    { intros q' i' Hi'. unfold pte_at. case_decide as Hqq; [|by rewrite Hother].
      subst q'. unfold s1. rewrite page_at_zero, zero_page_eq, sub_list_replicate by lia. apply le_dec_zeros. }
    split; try done.
    + split; [done|]. intros x Hx. cbn.
      destruct (decide (x = q)) as [->|]; [rewrite lookup_insert_eq; by eexists|rewrite lookup_insert_ne by done].
      destruct (decide (x = p)) as [->|]; [rewrite lookup_insert_eq; by eexists|rewrite lookup_insert_ne by done].
      by apply Hpages.
    + intros q' i' Hi'. rewrite pte_at_set by auto. case_decide; [done|]. by apply Hpte1.
    + intros q' Hq'. apply page_ok_set_pte; auto.
    + apply page_ok_set_pte; auto. apply page_ok_zero.
    + intros x Hx Hxq. unfold set_pte. rewrite page_at_set, decide_False by done. by apply Hother.
Qed.

(** What creating tables does to the rest of the state. *)
Record extends (l : Z) (root : Z) (frames frames' : list Z) (s s' : Mm) : Prop := {
  ex_entry v : entry s' root v = entry s root v;
  ex_page x : (x ∉ frames') → page_at s' x = page_at s x;
  ex_frames : ∃ new, frames' = frames ++ new ∧ Forall (λ p, p ∉ allocated l (mm_alloc s)) new ∧ NoDup new ∧
    allocated l (mm_alloc s') = list_to_set new ∪ allocated l (mm_alloc s) ∧
    free_frames s' = free_frames s - Z.of_nat (length new) }.

Lemma extends_refl l root frames s : extends l root frames frames s s.
Proof.
  split; [done|done|]. exists []. rewrite app_nil_r. split_and!; [done|constructor|constructor| |cbn; lia].
  cbn. set_solver.
Qed.
Lemma extends_trans l root F1 F2 F3 s1 s2 s3 :
  extends l root F1 F2 s1 s2 → extends l root F2 F3 s2 s3 → extends l root F1 F3 s1 s3.
Proof.
  intros [E1 P1 (n1 & -> & N1 & D1 & A1 & Fr1)] [E2 P2 (n2 & -> & N2 & D2 & A2 & Fr2)]. split.
  - intros v. by rewrite E2, E1.
  - intros x Hx. rewrite P2 by done. apply P1. set_solver.
  - exists (n1 ++ n2). rewrite <-app_assoc. split_and!; [done| | | |rewrite length_app; lia].
    + apply Forall_app_2; [done|]. eapply Forall_impl; [exact N2|]. intros p. rewrite A1. set_solver.
    + apply NoDup_app. split_and!; [done| |done]. intros p Hp Hp2. rewrite Forall_forall in N2.
      apply (N2 p Hp2). rewrite A1. set_solver.
    + rewrite A2, A1, list_to_set_app_L. set_solver.
Qed.

Lemma pt_frames_alloc l r s pt p : pt_wf l r s pt → p ∈ pt_frames pt → p ∈ allocated l (mm_alloc s).
Proof. intros [_ _ Ha] Hp. rewrite Forall_forall in Ha. by apply Ha. Qed.

Lemma child_eq s s' p i : pte_at s' p i = pte_at s p i → child s' p i = child s p i.
Proof. intros H. unfold child. by rewrite H. Qed.

Lemma child_new s' q i p :
  0 ≤ i < 512 → 0 ≤ p < 2 ^ 44 → pte_at s' q i = PageTableEntry_new p PTE_V → child s' q i = Some p.
Proof.
  intros Hi Hp H. unfold child. rewrite decide_True, H by done.
  rewrite valid_new, ppn_new by (done || (unfold PTE_V; lia)). done.
Qed.
Lemma child_zero s' q i : pte_at s' q i = 0 → child s' q i = None.
Proof. intros H. unfold child. rewrite H. by case_decide. Qed.
Lemma child_out s q i : ¬ 0 ≤ i < 512 → child s q i = None.
Proof. intros. unfold child. by rewrite decide_False. Qed.

Lemma created_extends l r q i p s s' root frames :
  created l r q i p s s' → q ∈ frames → (∀ v, entry s' root v = entry s root v) →
  extends l root frames (frames ++ [p]) s s'.
Proof.
  intros Hcr Hq He. split; [done| |].
  - intros x Hx. apply (cr_page _ _ _ _ _ _ _ Hcr); set_solver.
  - exists [p]. split_and!; [done|constructor; [apply Hcr|constructor]|apply NoDup_singleton| |rewrite (cr_free _ _ _ _ _ _ _ Hcr); cbn; lia].
    rewrite (cr_alloc _ _ _ _ _ _ _ Hcr). cbn. set_solver.
Qed.

Section steps.
Context (l r : Z) (s : Mm) (pt : PageTable) (Hwf : pt_wf l r s pt).
Abbreviation root := (root_ppn pt).
Abbreviation frames := (pt_frames pt).

Lemma fresh_not_frame p : (p ∉ allocated l (mm_alloc s)) → (p ∉ frames).
Proof. intros Hp Hin. apply Hp. by eapply pt_frames_alloc. Qed.

Lemma created_wf q i p s' frames' :
  created l r q i p s s' → frames' = frames ++ [p] →
  tables_wf (page_ok s') root frames' (child s' root) (table2 s' root) → 
  pt_wf l r s' (MkPageTable root frames').
Proof.
  intros Hcr -> Ht. split; [apply Hcr|done|]. cbn. rewrite (cr_alloc _ _ _ _ _ _ _ Hcr).
  apply Forall_app_2; [|constructor; [set_solver|constructor]].
  eapply Forall_impl; [apply (pw_alloc _ _ _ _ Hwf)|]. set_solver.
Qed.

(** A first-level table is created below the root. *)
Lemma create_root i p s' :
  0 ≤ i < 512 → child s root i = None → created l r root i p s s' →
  pt_wf l r s' (MkPageTable root (frames ++ [p])) ∧ child s' root i = Some p ∧
  extends l root frames (frames ++ [p]) s s'.
Proof.
  intros Hi Hc Hcr. pose proof (pw_tables _ _ _ _ Hwf) as Ht. pose proof Ht as [[Hrok Hrin] Hcw _ Hgw _ Hcg].
  pose proof (cr_range _ _ _ _ _ _ _ Hcr) as [Hp Hpn]. pose proof (fresh_not_frame p Hpn) as Hpf.
  destruct (pw_mm _ _ _ _ Hwf) as [[Hr _ _] _].
  assert (∀ q j, q ≠ root → q ≠ p → child s' q j = child s q j) as Hsame.
  { intros q j Hq Hqp. destruct (decide (0 ≤ j < 512)); [|by rewrite !child_out].
    apply child_eq. rewrite (cr_pte _ _ _ _ _ _ _ Hcr) by done.
    rewrite decide_False by (by intros [? _]). by rewrite decide_False. }
  assert (∀ i', child s' root i' = if decide (i' = i) then Some p else child s root i') as HC.
  { intros i'. destruct (decide (0 ≤ i' < 512)); [|rewrite decide_False, !child_out by lia; done].
    pose proof (cr_pte _ _ _ _ _ _ _ Hcr root i' ltac:(done)) as Hpte. destruct (decide (i' = i)) as [->|Hd].
    - rewrite decide_True in Hpte by auto. apply child_new; [done|lia|done].
    - assert (root ≠ p) as Hrp by (intros Heq; apply Hpf; by rewrite <-Heq).
      rewrite decide_False, decide_False in Hpte by (done || by intros [_ ?]). by apply child_eq. }
  assert (∀ i' j, table2 s' root i' j = table2 s root i' j) as HG.
  { intros i' j. unfold table2. rewrite HC. case_decide as Hd.
    - subst i'. rewrite Hc. destruct (decide (0 ≤ j < 512)); [|by rewrite child_out].
      apply child_zero. rewrite (cr_pte _ _ _ _ _ _ _ Hcr) by done.
      rewrite decide_False, decide_True; [done|done|]. intros [-> _]. done.
    - destruct (child s root i') as [c|] eqn:Hci; [|done]. destruct (Hcw _ _ Hci) as (_ & Hcin & Hcr').
      apply Hsame; [done|]. by intros ->. }
  assert (∀ v, entry s' root v = entry s root v) as He.
  { intros v. unfold entry. rewrite HG. destruct (table2 s root _ _) as [g|] eqn:Hg; [|done].
    destruct (Hgw _ _ _ Hg) as (_ & Hgin & Hgr & _).
    rewrite (cr_pte _ _ _ _ _ _ _ Hcr) by lia.
    rewrite decide_False by (by intros [? _]). rewrite decide_False; [done|]. by intros ->. }
  split; [|split; [by rewrite HC, decide_True|by eapply created_extends]].
  eapply created_wf; [exact Hcr|done|].
  eapply tables_wf_ext; [apply (tables_wf_child _ _ _ _ _ i p (tables_wf_ext _ (page_ok s') _ _ _ _ _ _ Ht
    (cr_ok _ _ _ _ _ _ _ Hcr) (λ _, eq_refl) (λ _ _, eq_refl)))| | |]; try done.
  apply (cr_okp _ _ _ _ _ _ _ Hcr).
Qed.

(** A second-level table is created below the first-level table [q]. *)
Lemma create_mid i j q p s' :
  0 ≤ j < 512 → child s root i = Some q → child s q j = None → created l r q j p s s' →
  pt_wf l r s' (MkPageTable root (frames ++ [p])) ∧ table2 s' root i j = Some p ∧
  extends l root frames (frames ++ [p]) s s'.
Proof.
  intros Hj Hc Hcj Hcr. pose proof (pw_tables _ _ _ _ Hwf) as Ht.
  pose proof Ht as [[Hrok Hrin] Hcw Hcinj Hgw _ Hcg].
  pose proof (cr_range _ _ _ _ _ _ _ Hcr) as [Hp Hpn]. pose proof (fresh_not_frame p Hpn) as Hpf.
  destruct (pw_mm _ _ _ _ Hwf) as [[Hr _ _] _]. destruct (Hcw _ _ Hc) as (Hqok & Hqin & Hqr).
  assert (∀ t k, 0 ≤ k < 512 → t ≠ q → t ≠ p → pte_at s' t k = pte_at s t k) as Hsame.
  { intros t k Hk Hq Hqp. rewrite (cr_pte _ _ _ _ _ _ _ Hcr) by done.
    rewrite decide_False by (by intros [? _]). by rewrite decide_False. }
  assert (∀ i', child s' root i' = child s root i') as HC.
  { intros i'. destruct (decide (0 ≤ i' < 512)); [|by rewrite !child_out].
    apply child_eq, Hsame; [done|done|]. by intros <-. }
  assert (∀ i' j', table2 s' root i' j' = if decide (i' = i ∧ j' = j) then Some p else table2 s root i' j') as HG.
  { intros i' j'. unfold table2. rewrite HC. destruct (decide (i' = i)) as [->|Hne].
    - rewrite Hc. destruct (decide (0 ≤ j' < 512)) as [Hj'|Hj'];
        [|rewrite decide_False by (intros [_ Heq]; apply Hj'; by rewrite Heq); by rewrite !child_out].
      pose proof (cr_pte _ _ _ _ _ _ _ Hcr q j' ltac:(done)) as Hpte.
      destruct (decide (j' = j)) as [->|Hjne].
      + rewrite decide_True by done. rewrite decide_True in Hpte by done.
        apply child_new; [done|lia|done].
      + assert (q ≠ p) as Hqp by (by intros ->). rewrite decide_False by (by intros [_ ?]).
        rewrite decide_False, decide_False in Hpte by (done || by intros [_ ?]). by apply child_eq.
    - rewrite decide_False by (by intros [? _]). destruct (child s root i') as [c|] eqn:Hci; [|done].
      destruct (decide (0 ≤ j' < 512)); [|by rewrite !child_out]. destruct (Hcw _ _ Hci) as (_ & Hcin & _).
      apply child_eq, Hsame; [done| |by intros ->]. intros ->. apply Hne. by eapply Hcinj. }
  assert (∀ v, entry s' root v = entry s root v) as He.
  { intros v. unfold entry. rewrite HG. case_decide as Hd.
    - destruct Hd as [-> ->]. unfold table2. rewrite Hc, Hcj.
      rewrite (cr_pte _ _ _ _ _ _ _ Hcr) by lia.
      rewrite decide_False by (intros [-> _]; done). by rewrite decide_True.
    - destruct (table2 s root _ _) as [g|] eqn:Hg; [|done]. destruct (Hgw _ _ _ Hg) as (_ & Hgin & _ & Hgc).
      rewrite Hsame; [done|lia| |by intros ->]. intros ->. by apply (Hgc i). }
  split; [|split; [by rewrite HG, decide_True|by eapply created_extends]].
  eapply created_wf; [exact Hcr|done|].
  eapply tables_wf_ext; [apply (tables_wf_grandchild _ _ _ _ _ i j p (tables_wf_ext _ (page_ok s') _ _ _ _ _ _ Ht
    (cr_ok _ _ _ _ _ _ _ Hcr) (λ _, eq_refl) (λ _ _, eq_refl)))| | |]; try done.
  - unfold table2. by rewrite Hc.
  - apply (cr_okp _ _ _ _ _ _ _ Hcr).
Qed.
End steps.

(** ** The two rounds of [find_pte_create] *)

Lemma step_present q i c frames s :
  page_ok s q → child s q i = Some c → find_pte_create_step q i frames s = Ok ((c, frames), s).
Proof.
  intros Hok (Hi & Hv & Hp)%child_Some. unfold find_pte_create_step.
  rewrite (bind_Ok _ _ _ _ _ (read_pte_Ok s q i Hok Hi)). by rewrite Hv, Hp.
Qed.

Lemma extends_free l root F F' s s' :
  extends l root F F' s s' → free_frames s - Z.of_nat (length F' - length F) = free_frames s'.
Proof. intros [_ _ (new & -> & _ & _ & _ & Hf)]. rewrite Hf, length_app. lia. Qed.

Lemma step_root l r s pt i :
  pt_wf l r s pt → 0 ≤ i < 512 → 0 < free_frames s →
  ∃ c F s', find_pte_create_step (root_ppn pt) i (pt_frames pt) s = Ok ((c, F), s') ∧
    pt_wf l r s' (MkPageTable (root_ppn pt) F) ∧ child s' (root_ppn pt) i = Some c ∧
    extends l (root_ppn pt) (pt_frames pt) F s s' ∧ free_frames s - 1 ≤ free_frames s'.
Proof.
  intros Hwf Hi Hf. pose proof (pw_tables _ _ _ _ Hwf) as Ht. destruct (tw_root _ _ _ _ _ Ht) as [Hok Hin].
  destruct (child s (root_ppn pt) i) as [c|] eqn:Hc.
  - exists c, (pt_frames pt), s. split_and!; [by apply step_present|by destruct pt|done|apply extends_refl|lia].
  - destruct (create_new l r (root_ppn pt) i (pt_frames pt) s (pw_mm _ _ _ _ Hwf)
      (pt_frames_alloc _ _ _ _ _ Hwf Hin) Hok Hi Hc Hf) as (p & s' & Hrun & Hcr).
    destruct (create_root l r s pt Hwf i p s' Hi Hc Hcr) as (Hwf' & Hc' & Hex).
    exists p, (pt_frames pt ++ [p]), s'. split_and!; [done..|]. rewrite (cr_free _ _ _ _ _ _ _ Hcr). lia.
Qed.

Lemma step_mid l r s pt i j c :
  pt_wf l r s pt → 0 ≤ j < 512 → child s (root_ppn pt) i = Some c → 0 < free_frames s →
  ∃ g F s', find_pte_create_step c j (pt_frames pt) s = Ok ((g, F), s') ∧
    pt_wf l r s' (MkPageTable (root_ppn pt) F) ∧ table2 s' (root_ppn pt) i j = Some g ∧
    extends l (root_ppn pt) (pt_frames pt) F s s' ∧ free_frames s - 1 ≤ free_frames s'.
Proof.
  intros Hwf Hj Hc Hf. pose proof (pw_tables _ _ _ _ Hwf) as Ht.
  destruct (tw_c _ _ _ _ _ Ht _ _ Hc) as (Hok & Hin & _).
  destruct (child s c j) as [g|] eqn:Hg.
  - exists g, (pt_frames pt), s.
    split_and!; [by apply step_present|by destruct pt|by unfold table2; rewrite Hc|apply extends_refl|lia].
  - destruct (create_new l r c j (pt_frames pt) s (pw_mm _ _ _ _ Hwf)
      (pt_frames_alloc _ _ _ _ _ Hwf Hin) Hok Hj Hg Hf) as (p & s' & Hrun & Hcr).
    destruct (create_mid l r s pt Hwf i j c p s' Hj Hc Hg Hcr) as (Hwf' & Hc' & Hex).
    exists p, (pt_frames pt ++ [p]), s'. split_and!; [done..|]. rewrite (cr_free _ _ _ _ _ _ _ Hcr). lia.
Qed.

Lemma find_pte_create_spec l r s pt vpn :
  pt_wf l r s pt → 2 ≤ free_frames s →
  ∃ g pt' s', PageTable_find_pte_create pt vpn s = Ok (((g, vpn mod 512), pt'), s') ∧
    root_ppn pt' = root_ppn pt ∧ pt_wf l r s' pt' ∧
    table2 s' (root_ppn pt) (vpn / 262144 mod 512) (vpn / 512 mod 512) = Some g ∧
    extends l (root_ppn pt) (pt_frames pt) (pt_frames pt') s s' ∧ free_frames s - 2 ≤ free_frames s'.
Proof.
  intros Hwf Hf. destruct (pte_index vpn) as (H2 & H1 & H0).
  destruct (step_root l r s pt _ Hwf H0 ltac:(lia)) as (c & F & s1 & Hrun1 & Hwf1 & Hc & Hex1 & Hf1).
  destruct (step_mid l r s1 _ _ _ c Hwf1 H1 Hc ltac:(lia)) as (g & F' & s2 & Hrun2 & Hwf2 & Hg & Hex2 & Hf2).
  cbn [root_ppn pt_frames] in *.
  exists g, (MkPageTable (root_ppn pt) F'), s2. split_and!; [|done|done|done|by eapply extends_trans|lia].
  unfold PageTable_find_pte_create. destruct (indexes_index vpn s) as (Hi0 & _ & _).
  destruct (indexes_index vpn s1) as (_ & Hi1 & _). destruct (indexes_index vpn s2) as (_ & _ & Hi2).
  assert (page_ok s2 g) as Hok by (by destruct (tw_g _ _ _ _ _ (pw_tables _ _ _ _ Hwf2) _ _ _ Hg)).
  erewrite bind_Ok.
  2: { cbn [mfold]. erewrite bind_Ok by (erewrite bind_Ok by exact Hi0; exact Hrun1).
       erewrite bind_Ok by (erewrite bind_Ok by exact Hi1; exact Hrun2). reflexivity. }
  cbn beta iota. erewrite bind_Ok by exact Hi2.
  by erewrite bind_Ok by exact (read_pte_Ok s2 g _ Hok H2).
Qed.

(** ** Writing a leaf entry *)

Lemma leaf_write l r s pt i j g k b :
  pt_wf l r s pt → table2 s (root_ppn pt) i j = Some g → 0 ≤ k < 512 → 0 ≤ b < 2 ^ 64 →
  write_pte g k b s = Ok ((), set_pte g k b s) ∧
  pt_wf l r (set_pte g k b s) pt ∧
  (∀ i' j', table2 (set_pte g k b s) (root_ppn pt) i' j' = table2 s (root_ppn pt) i' j') ∧
  (∀ i' j' g' k', table2 s (root_ppn pt) i' j' = Some g' → 0 ≤ k' < 512 →
     pte_at (set_pte g k b s) g' k' =
     if decide (i' = i ∧ j' = j ∧ k' = k) then b else pte_at s g' k') ∧
  (∀ x, (x ∉ pt_frames pt) → page_at (set_pte g k b s) x = page_at s x).
Proof.
  intros Hwf Hg Hk Hb. pose proof (pw_tables _ _ _ _ Hwf) as Ht.
  destruct (tw_g _ _ _ _ _ Ht _ _ _ Hg) as (Hok & Hin & Hr & Hgc).
  assert (∀ q m, q ≠ g → child (set_pte g k b s) q m = child s q m) as Hch.
  { intros q m Hq. destruct (decide (0 ≤ m < 512)); [|by rewrite !child_out].
    apply child_eq. rewrite pte_at_set by done. by rewrite decide_False by (by intros [? _]). }
  assert (∀ i', child (set_pte g k b s) (root_ppn pt) i' = child s (root_ppn pt) i') as HC
    by (intros i'; by apply Hch).
  assert (∀ i' j', table2 (set_pte g k b s) (root_ppn pt) i' j' = table2 s (root_ppn pt) i' j') as HG.
  { intros i' j'. unfold table2. rewrite HC. destruct (child s (root_ppn pt) i') as [c|] eqn:Hc; [|done].
    apply Hch. intros ->. by apply (Hgc i'). }
  split_and!; [by apply write_pte_Ok| |done| |].
  - split; [|eapply tables_wf_ext; eauto using page_ok_set_pte|apply Hwf].
    destruct (pw_mm _ _ _ _ Hwf) as [Ha Hp]. split; [done|]. intros p Hpr. cbn.
    destruct (decide (p = g)) as [->|]; [rewrite lookup_insert_eq; by eexists|].
    rewrite lookup_insert_ne by done. by apply Hp.
  - intros i' j' g' k' Hg' Hk'. rewrite pte_at_set by done.
    destruct (decide (g' = g)) as [->|Hne].
    + destruct (tw_ginj _ _ _ _ _ Ht _ _ _ _ _ Hg Hg') as [-> ->].
      destruct (decide (k' = k)); [rewrite !decide_True by done|rewrite !decide_False by naive_solver]; done.
    + rewrite !decide_False; [done| |by intros [? _]]. intros (-> & -> & _). congruence.
  - intros x Hx. unfold set_pte. rewrite page_at_set, decide_False; [done|]. by intros ->.
Qed.

(** The entry of [vpn] becomes [b]; every other entry stays. *)
Lemma entry_write l r s pt vpn g b :
  pt_wf l r s pt → 0 ≤ vpn < 2 ^ 27 →
  table2 s (root_ppn pt) (vpn / 262144 mod 512) (vpn / 512 mod 512) = Some g → 0 ≤ b < 2 ^ 64 →
  ∀ v, 0 ≤ v < 2 ^ 27 → entry (set_pte g (vpn mod 512) b s) (root_ppn pt) v =
    if decide (v = vpn) then (if PageTableEntry_is_valid b then Some b else None)
    else entry s (root_ppn pt) v.
Proof.
  intros Hwf Hv Hg Hb v Hv'. destruct (pte_index vpn) as (H2 & _ & _). destruct (pte_index v) as (H2' & _ & _).
  destruct (leaf_write l r s pt _ _ g _ b Hwf Hg H2 Hb) as (_ & _ & HG & Hpte & _).
  unfold entry. rewrite HG. case_decide as Hd.
  - subst v. rewrite Hg, (Hpte _ _ _ _ Hg H2). by rewrite decide_True by done.
  - destruct (table2 s _ (v / 262144 mod 512) _) as [g'|] eqn:Hg'; [|done].
    rewrite (Hpte _ _ _ _ Hg' H2'), decide_False; [done|]. intros (E0 & E1 & E2). apply Hd. lia.
Qed.

(** * [new], [map] and [unmap] *)

Lemma child_zero_page s a p i : child (MkMm (<[p := zero_page]> (mm_pages s)) a) p i = None.
Proof.
  destruct (decide (0 ≤ i < 512)); [|by apply child_out]. apply child_zero.
  unfold pte_at. rewrite page_at_zero, zero_page_eq, sub_list_replicate by lia. apply le_dec_zeros.
Qed.

(** A new page table is a fresh frame and maps nothing. *)
Lemma PageTable_new_spec l r s :
  mm_wf l r s → 0 < free_frames s →
  ∃ p s', PageTable_new s = Ok (MkPageTable p [p], s') ∧ pt_wf l r s' (MkPageTable p [p]) ∧
    l ≤ p < r ∧ (p ∉ allocated l (mm_alloc s)) ∧
    allocated l (mm_alloc s') = {[p]} ∪ allocated l (mm_alloc s) ∧
    free_frames s' = free_frames s - 1 ∧
    (∀ v, entry s' p v = None) ∧ (∀ x, x ≠ p → mm_pages s' !! x = mm_pages s !! x).
Proof.
  intros Hmm Hf. destruct (alloc_free l r s Hmm Hf) as (p & a & Hal & Hfree).
  pose proof (frame_alloc_run l r s Hmm) as Hrun. pose proof (frame_alloc_spec l r _ (proj1 Hmm)) as Hsp.
  rewrite Hal in Hrun, Hsp. destruct Hsp as (Ha & Hp & Hnin & Hall).
  exists p, (MkMm (<[p := zero_page]> (mm_pages s)) a).
  assert (∀ i j, table2 (MkMm (<[p := zero_page]> (mm_pages s)) a) p i j = None) as HG
    by (intros i j; unfold table2; by rewrite child_zero_page).
  split; [unfold PageTable_new; by erewrite bind_Ok by exact Hrun|].
  split_and!; [|lia|lia|done|done|done| |].
  - split; [split; [done|]|split|].
    + intros q Hq. cbn. destruct (decide (q = p)) as [->|]; [rewrite lookup_insert_eq; by eexists|].
      rewrite lookup_insert_ne by done. by apply (proj2 Hmm).
    + split; [apply page_ok_zero|set_solver].
    + cbn. intros i c. by rewrite child_zero_page.
    + cbn. intros i i' c. by rewrite child_zero_page.
    + cbn. intros i j g. by rewrite HG.
    + cbn. intros i j i' j' g. by rewrite HG.
    + cbn. intros i j. rewrite HG. by intros [].
    + constructor; [|constructor]. cbn. rewrite Hall. set_solver.
  - intros v. unfold entry. by rewrite HG.
  - intros x Hx. cbn. by rewrite lookup_insert_ne.
Qed.

Lemma valid_map_flags flags :
  0 ≤ flags < 256 → 0 ≤ Z.lor flags PTE_V < 256 ∧ Z.odd (Z.lor flags PTE_V) = true.
Proof.
  intros Hf. split; [apply (lor_bound 8); unfold PTE_V; lia|].
  rewrite <-Z.bit0_odd, Z.lor_spec. unfold PTE_V. by rewrite orb_true_r.
Qed.

Lemma entry_find s root vpn g :
  table2 s root (vpn / 262144 mod 512) (vpn / 512 mod 512) = Some g →
  entry s root vpn =
    if PageTableEntry_is_valid (pte_at s g (vpn mod 512)) then Some (pte_at s g (vpn mod 512)) else None.
Proof. intros Hg. unfold entry. by rewrite Hg. Qed.

Lemma map_panics l r s pt vpn ppn flags b :
  pt_wf l r s pt → 2 ≤ free_frames s → entry s (root_ppn pt) vpn = Some b →
  PageTable_map pt vpn ppn flags s = Fail Panicked.
Proof.
  intros Hwf Hf He. destruct (find_pte_create_spec l r s pt vpn Hwf Hf) as (g & pt' & s1 & Hrun & Hr & Hwf1 & Hg & Hex & Hfree).
  destruct (pte_index vpn) as (H2 & _ & _). rewrite <-Hr in Hg.
  destruct (tw_g _ _ _ _ _ (pw_tables _ _ _ _ Hwf1) _ _ _ Hg) as (Hok & _). rewrite Hr in Hg.
  unfold PageTable_map. erewrite bind_Ok by exact Hrun. cbn beta iota.
  erewrite bind_Ok by exact (read_pte_Ok s1 g _ Hok H2).
  pose proof (ex_entry _ _ _ _ _ _ Hex vpn) as Hee. rewrite He, (entry_find _ _ _ _ Hg) in Hee.
  by destruct (PageTableEntry_is_valid _).
Qed.

Lemma map_spec l r s pt vpn ppn flags :
  pt_wf l r s pt → 2 ≤ free_frames s → entry s (root_ppn pt) vpn = None →
  0 ≤ vpn < 2 ^ 27 → 0 ≤ ppn < 2 ^ 44 → 0 ≤ flags < 256 →
  ∃ pt' s', PageTable_map pt vpn ppn flags s = Ok (pt', s') ∧ pt_wf l r s' pt' ∧
    root_ppn pt' = root_ppn pt ∧
    (∃ new, pt_frames pt' = pt_frames pt ++ new ∧ Forall (λ p, p ∉ allocated l (mm_alloc s)) new ∧ NoDup new ∧
       allocated l (mm_alloc s') = list_to_set new ∪ allocated l (mm_alloc s) ∧
       free_frames s' = free_frames s - Z.of_nat (length new)) ∧ free_frames s - 2 ≤ free_frames s' ∧
    (∀ v, 0 ≤ v < 2 ^ 27 → entry s' (root_ppn pt) v =
       if decide (v = vpn) then Some (PageTableEntry_new ppn (Z.lor flags PTE_V))
       else entry s (root_ppn pt) v) ∧
    (∀ x, (x ∉ pt_frames pt') → page_at s' x = page_at s x).
Proof.
  intros Hwf Hf He Hv Hp Hfl.
  destruct (find_pte_create_spec l r s pt vpn Hwf Hf) as (g & pt' & s1 & Hrun & Hr & Hwf1 & Hg & Hex & Hfree).
  destruct (pte_index vpn) as (H2 & _ & _). destruct (valid_map_flags flags Hfl) as [Hflb Hodd].
  assert (0 ≤ PageTableEntry_new ppn (Z.lor flags PTE_V) < 2 ^ 64) as Hb by (rewrite PageTableEntry_new_eq; lia).
  pose proof (ex_entry _ _ _ _ _ _ Hex) as Hee. rewrite <-Hr in Hg, He, Hee.
  destruct (tw_g _ _ _ _ _ (pw_tables _ _ _ _ Hwf1) _ _ _ Hg) as (Hok & _).
  destruct (leaf_write l r s1 pt' _ _ g _ _ Hwf1 Hg H2 Hb) as (Hw & Hwf2 & _ & _ & Hpage).
  pose proof (entry_write l r s1 pt' vpn g _ Hwf1 Hv Hg Hb) as Hent.
  exists pt', (set_pte g (vpn mod 512) (PageTableEntry_new ppn (Z.lor flags PTE_V)) s1).
  split_and!; [|done|done|by destruct Hex|exact Hfree| |].
  - unfold PageTable_map. erewrite bind_Ok by exact Hrun. cbn beta iota.
    erewrite bind_Ok by exact (read_pte_Ok s1 g _ Hok H2).
    specialize (Hee vpn). rewrite He, (entry_find _ _ _ _ Hg) in Hee.
    destruct (PageTableEntry_is_valid _); [done|]. cbn [negb].
    erewrite bind_Ok by reflexivity. by erewrite bind_Ok by exact Hw.
  - intros v Hv'. rewrite <-Hr, Hent, valid_new by done. by rewrite Hee.
  - intros x Hx. rewrite Hpage by done. by apply (ex_page _ _ _ _ _ _ Hex).
Qed.

Lemma unmap_spec l r s pt vpn :
  pt_wf l r s pt → 0 ≤ vpn < 2 ^ 27 →
  match entry s (root_ppn pt) vpn with
  | None => PageTable_unmap pt vpn s = Fail Panicked
  | Some _ => ∃ s', PageTable_unmap pt vpn s = Ok ((), s') ∧ pt_wf l r s' pt ∧
      mm_alloc s' = mm_alloc s ∧
      (∀ v, 0 ≤ v < 2 ^ 27 → entry s' (root_ppn pt) v =
         if decide (v = vpn) then None else entry s (root_ppn pt) v) ∧
      (∀ x, (x ∉ pt_frames pt) → page_at s' x = page_at s x)
  end.
Proof.
  intros Hwf Hv. destruct (pte_index vpn) as (H2 & _ & _). unfold PageTable_unmap.
  pose proof (find_pte_spec l r s pt pt vpn Hwf eq_refl) as Hfind. unfold entry at 1.
  destruct (table2 s _ _ _) as [g|] eqn:Hg; [|by erewrite bind_Ok by exact Hfind].
  destruct (PageTableEntry_is_valid _) eqn:Hval; [|by erewrite bind_Ok by exact Hfind].
  destruct (tw_g _ _ _ _ _ (pw_tables _ _ _ _ Hwf) _ _ _ Hg) as (Hok & _).
  destruct (leaf_write l r s pt _ _ g _ 0 Hwf Hg H2 ltac:(lia)) as (Hw & Hwf2 & _ & _ & Hpage).
  exists (set_pte g (vpn mod 512) 0 s). split_and!; [|done|done| |done].
  - erewrite bind_Ok by exact Hfind. erewrite bind_Ok by reflexivity. cbn beta iota.
    erewrite bind_Ok by exact (read_pte_Ok s g _ Hok H2). rewrite Hval.
    by erewrite bind_Ok by reflexivity.
  - intros v Hv'. rewrite (entry_write l r s pt vpn g 0 Hwf Hv Hg) by lia. done.
Qed.

(** * User buffers *)

(** The physical addresses a buffer spans, and those of user addresses. *)
Definition buf_addrs (b : Buf) : list Z := (λ k, buf_ppn b * PAGE_SIZE + buf_off b + k) <$> seqZ 0 (buf_len b).
Definition user_pa (s : Mm) (root va : Z) : Z :=
  PageTableEntry_ppn (default 0 (entry s root (va / 4096))) * 4096 + va mod 4096.
(** A piece of one frame. *)
Definition buf_ok (b : Buf) : Prop := 0 < buf_len b ∧ 0 ≤ buf_off b ∧ buf_off b + buf_len b ≤ 4096.
Definition user_mapped (s : Mm) (root va : Z) : Prop :=
  ∃ b, entry s root (va / 4096) = Some b ∧ page_ok s (PageTableEntry_ppn b).

Lemma token_root pt : 0 ≤ root_ppn pt < 2 ^ 44 → root_ppn (PageTable_from_token (PageTable_token pt)) = root_ppn pt.
Proof.
  intros Hr. cbn. rewrite land_ones_mod, PhysPageNum_from_mod by lia. unfold PageTable_token.
  rewrite Z.shiftl_mul_pow2 by lia. rewrite <-(Z.land_ones _ 44), <-(Z.land_ones _ 44) by lia.
  rewrite <-Z.land_assoc, Z.land_diag, Z.land_lor_distr_l, !Z.land_ones by lia.
  rewrite (Z.mod_small (root_ppn pt)) by lia. done.
Qed.

Lemma frame_slice_Ok s p a b :
  page_ok s p → 0 ≤ a ≤ b → b ≤ 4096 → frame_slice p a b s = Ok (MkBuf p a (b - a), s).
Proof.
  intros (Hp & Hl & _) Ha Hb. unfold frame_slice. erewrite bind_Ok by (by apply get_bytes_array_Ok).
  unfold slice. destruct (_ && _) eqn:E; [done|lia].
Qed.

Lemma addrs_page s root start stop b :
  0 ≤ start → start ≤ stop → stop - start / 4096 * 4096 ≤ 4096 → entry s root (start / 4096) = Some b →
  buf_addrs (MkBuf (PageTableEntry_ppn b) (start mod 4096) (stop - start)) =
  user_pa s root <$> seqZ start (stop - start).
Proof.
  intros H0 Hs Hstop He. unfold buf_addrs. cbn [buf_ppn buf_off buf_len].
  replace (seqZ start (stop - start)) with (Z.add start <$> seqZ 0 (stop - start))
    by (rewrite fmap_add_seqZ; f_equal; lia).
  rewrite <-list_fmap_compose. apply list_fmap_ext. intros i k Hk%list_elem_of_lookup_2.
  apply elem_of_seqZ in Hk. cbn. unfold user_pa.
  replace ((start + k) / 4096) with (start / 4096) by lia. rewrite He. cbn. unfold PAGE_SIZE. lia.
Qed.

(** The loop of [translated_byte_buffers] from [start] on. *)
Lemma buffers_loop l r s pt pt' stop fuel start v :
  pt_wf l r s pt → root_ppn pt' = root_ppn pt → 0 ≤ start ≤ stop → stop < 2 ^ 39 →
  (∀ va, start ≤ va < stop → user_mapped s (root_ppn pt) va) →
  (start < stop → (stop - 1) / 4096 - start / 4096 + 1 < Z.of_nat fuel) → (0 < fuel)%nat →
  ∃ bufs, mloop fuel (byte_buffers_round pt' stop) (start, v) s = Ok (v ++ bufs, s) ∧
    concat (buf_addrs <$> bufs) = user_pa s (root_ppn pt) <$> seqZ start (stop - start) ∧ Forall buf_ok bufs.
Proof.
  intros Hwf Hr. revert start v. induction fuel as [|fuel IH]; intros start v H0 Hs Hm Hfuel Hpos; [lia|].
  cbn [mloop]. destruct (decide (start < stop)) as [Hlt|Hge].
  - assert (VirtAddr_from start = start ∧ VirtAddr_from stop = stop) as [Hs1 Hs2]
      by (rewrite (VirtAddr_from_mod start), (VirtAddr_from_mod stop); lia).
    destruct (Hm start ltac:(lia)) as (b & He & Hok).
    set (stop1 := Z.min ((start / 4096 + 1) * 4096) stop).
    assert (Z.min (Addr_from_PageNum (step (floor start))) stop = stop1) as Hend.
    { unfold stop1, step, floor. change PAGE_SIZE with 4096. rewrite wrap_small by lia.
      by rewrite Addr_from_PageNum_mul by lia. }
    assert (start < stop1 ≤ (start / 4096 + 1) * 4096 ∧ stop1 ≤ stop ∧
      (stop1 = (start / 4096 + 1) * 4096 ∨ stop1 = stop)) as Hst by (unfold stop1; lia).
    clearbody stop1. destruct (IH stop1 (v ++ [MkBuf (PageTableEntry_ppn b) (start mod 4096) (stop1 - start)]))
      as (bufs & Hrun & Hcat & Hok'); [lia|lia| |lia|lia|].
    { intros va Hva. apply Hm. lia. }
    assert ((if stop1 mod 4096 =? 0 then frame_slice (PageTableEntry_ppn b) (start mod 4096) PAGE_SIZE
             else frame_slice (PageTableEntry_ppn b) (start mod 4096) (stop1 mod 4096)) s =
      Ok (MkBuf (PageTableEntry_ppn b) (start mod 4096) (stop1 - start), s)) as Hb.
    { unfold PAGE_SIZE. destruct (Z.eqb_spec (stop1 mod 4096) 0).
      - rewrite frame_slice_Ok by (done || lia). do 3 f_equal. lia.
      - rewrite frame_slice_Ok by (done || lia). do 3 f_equal. lia. }
    assert (byte_buffers_round pt' stop (start, v) s =
      Ok (inl (stop1, v ++ [MkBuf (PageTableEntry_ppn b) (start mod 4096) (stop1 - start)]), s)) as Hround.
    { unfold byte_buffers_round. rewrite (proj2 (Z.ltb_lt _ _) Hlt). cbn zeta. rewrite Hs1, Hs2.
      erewrite bind_Ok by exact (translate_spec l r s pt pt' _ Hwf Hr).
      rewrite (He : entry s (root_ppn pt) (floor start) = Some b).
      erewrite bind_Ok by reflexivity. rewrite Hend, !page_offset_mod.
      by erewrite bind_Ok by exact Hb. }
    exists (MkBuf (PageTableEntry_ppn b) (start mod 4096) (stop1 - start) :: bufs). split_and!.
    + erewrite bind_Ok by exact Hround. cbn beta iota. rewrite Hrun. by rewrite <-app_assoc.
    + cbn [fmap list_fmap concat]. rewrite Hcat, (addrs_page s (root_ppn pt)) by (done || lia).
      rewrite <-fmap_app. f_equal. replace stop1 with (start + (stop1 - start)) at 2 by lia.
      rewrite <-seqZ_app by lia. f_equal. lia.
    + constructor; [|done]. unfold buf_ok. cbn. lia.
  - exists []. rewrite app_nil_r. split.
    { rewrite (bind_Ok _ _ _ (inr v) s); [done|]. unfold byte_buffers_round.
      by rewrite (proj2 (Z.ltb_ge _ _)) by lia. }
    by replace (stop - start) with 0 by lia.
Qed.
Lemma translated_byte_buffers_run l r s pt ptr len :
  pt_wf l r s pt → 0 ≤ root_ppn pt < 2 ^ 44 → 0 ≤ ptr → 0 ≤ len → ptr + len < 2 ^ 39 →
  (∀ va, ptr ≤ va < ptr + len → user_mapped s (root_ppn pt) va) →
  ∃ bufs, translated_byte_buffers (PageTable_token pt) ptr len s = Ok (bufs, s) ∧
    concat (buf_addrs <$> bufs) = user_pa s (root_ppn pt) <$> seqZ ptr len ∧ Forall buf_ok bufs.
Proof.
  intros Hwf Hr Hp Hl Hb Hm. unfold translated_byte_buffers. rewrite wrap_small by lia. unfold PAGE_SIZE.
  destruct (buffers_loop l r s pt _ (ptr + len) (Z.to_nat (len / 4096 + 3)) ptr [] Hwf (token_root pt Hr))
    as (bufs & Hrun & Hcat & Hok); [lia|lia|done|lia|lia|].
  exists bufs. split; [exact Hrun|]. split; [|done]. rewrite Hcat. do 2 f_equal. lia.
Qed.

(** * Properties *)

(** C23: [PageTable::map] adds exactly the entry of its page: with two frames to
    spare for missing tables it returns a well-formed page table whose map is the
    old one with [vpn] bound to [ppn] with the flags and the valid bit, it only
    writes to table frames, and the table frames it takes were free; mapping a
    page that is already mapped panics. *)
Theorem PageTable_map_entry l r s pt vpn ppn flags :
  pt_wf l r s pt → 2 ≤ free_frames s → 0 ≤ vpn < 2 ^ 27 → 0 ≤ ppn < 2 ^ 44 → 0 ≤ flags < 256 →
  match entry s (root_ppn pt) vpn with
  | Some _ => PageTable_map pt vpn ppn flags s = Fail Panicked
  | None => wp (PageTable_map pt vpn ppn flags) s (λ pt' s', pt_wf l r s' pt' ∧
      root_ppn pt' = root_ppn pt ∧
      (∃ new, pt_frames pt' = pt_frames pt ++ new ∧ Forall (λ p, p ∉ allocated l (mm_alloc s)) new ∧
         allocated l (mm_alloc s') = list_to_set new ∪ allocated l (mm_alloc s)) ∧
      (∀ v, 0 ≤ v < 2 ^ 27 → entry s' (root_ppn pt) v =
         if decide (v = vpn) then Some (PageTableEntry_new ppn (Z.lor flags PTE_V))
         else entry s (root_ppn pt) v) ∧
      (∀ x, (x ∉ pt_frames pt') → page_at s' x = page_at s x))
  end.
Proof.
  intros Hwf Hf Hv Hp Hfl. destruct (entry s (root_ppn pt) vpn) as [b|] eqn:He; [by eapply map_panics|].
  destruct (map_spec l r s pt vpn ppn flags Hwf Hf He Hv Hp Hfl)
    as (pt' & s' & Hrun & Hwf' & Hr & (new & Hfr & Hnew & _ & Hall & _) & _ & Hent & Hpage).
  unfold wp. rewrite Hrun. eauto 10.
Qed.

(** [PageTable::unmap] removes exactly the entry of its page: the map loses
    [vpn], keeps every other entry, only table frames are written and no frame is
    freed; unmapping a page that is not mapped panics. *)
Theorem PageTable_unmap_entry l r s pt vpn :
  pt_wf l r s pt → 0 ≤ vpn < 2 ^ 27 →
  match entry s (root_ppn pt) vpn with
  | None => PageTable_unmap pt vpn s = Fail Panicked
  | Some _ => wp (PageTable_unmap pt vpn) s (λ _ s', pt_wf l r s' pt ∧
      mm_alloc s' = mm_alloc s ∧
      (∀ v, 0 ≤ v < 2 ^ 27 → entry s' (root_ppn pt) v =
         if decide (v = vpn) then None else entry s (root_ppn pt) v) ∧
      (∀ x, (x ∉ pt_frames pt) → page_at s' x = page_at s x))
  end.
Proof.
  intros Hwf Hv. pose proof (unmap_spec l r s pt vpn Hwf Hv) as Hu.
  destruct (entry s (root_ppn pt) vpn); [|done]. destruct Hu as (s' & Hrun & Hu). unfold wp. by rewrite Hrun.
Qed.

(** C25: [translated_byte_buffers] splits a mapped user range into buffers whose
    bytes are, in order, exactly the physical bytes the page table translates the
    range to: no byte is lost, repeated or foreign.  The loop ends within the
    number of pages of the range plus three rounds. *)
Theorem translated_byte_buffers_bytes l r s pt ptr len :
  pt_wf l r s pt → 0 ≤ root_ppn pt < 2 ^ 44 → 0 ≤ ptr → 0 ≤ len → ptr + len < 2 ^ 39 →
  (∀ va, ptr ≤ va < ptr + len → user_mapped s (root_ppn pt) va) →
  ∃ bufs, translated_byte_buffers (PageTable_token pt) ptr len s = Ok (bufs, s) ∧
    concat (buf_addrs <$> bufs) = user_pa s (root_ppn pt) <$> seqZ ptr len.
Proof.
  intros Hwf Hr Hp Hl Hb Hm. destruct (translated_byte_buffers_run l r s pt ptr len) as (bufs & Hrun & Hcat & _); [done..|].
  by exists bufs.
Qed.

(** * Witnesses *)

(** A page table in a kernel with frames 100 to 119, and one page mapped in it. *)
Lemma ex_free : free_frames ex_mm = 18.
Proof. done. Qed.
Lemma ex_pt : ∃ pt s, pt_wf 100 120 s pt ∧ 100 ≤ root_ppn pt < 120 ∧ free_frames s = 17 ∧
  (∀ v, entry s (root_ppn pt) v = None).
Proof.
  destruct (PageTable_new_spec 100 120 ex_mm ex_mm_wf ltac:(rewrite ex_free; lia))
    as (p & s & _ & Hwf & Hl & _ & _ & Hf & He & _).
  exists (MkPageTable p [p]), s. rewrite Hf, ex_free. cbn [root_ppn]. split_and!; (done || lia).
Qed.
Lemma ex_pt_mapped : ∃ pt s, pt_wf 100 120 s pt ∧ 100 ≤ root_ppn pt < 120 ∧ 2 ≤ free_frames s ∧
  (∃ b, entry s (root_ppn pt) 5 = Some b ∧ PageTableEntry_ppn b = root_ppn pt) ∧
  entry s (root_ppn pt) 6 = None.
Proof.
  destruct ex_pt as (pt & s & Hwf & Hr & Hf & He).
  assert (0 ≤ PTE_R + PTE_U < 256) as Hfl by (unfold PTE_R, PTE_U; lia).
  destruct (map_spec 100 120 s pt 5 (root_ppn pt) _ Hwf ltac:(lia) (He 5) ltac:(lia) ltac:(lia) Hfl)
    as (pt' & s' & _ & Hwf' & Hr' & _ & Hf' & Hent & _).
  exists pt', s'. rewrite Hr', !Hent by lia. split_and!; [done|lia|lia|lia| |by rewrite decide_False].
  eexists. split; [by rewrite decide_True|]. apply ppn_new; [lia|]. by apply valid_map_flags.
Qed.

Lemma PageTable_map_entry_witness :
  ∃ pt s, PageTable_map pt 5 110 PTE_R s = Fail Panicked ∧
  wp (PageTable_map pt 6 110 PTE_R) s (λ pt' s',
     entry s' (root_ppn pt) 6 = Some (PageTableEntry_new 110 (Z.lor PTE_R PTE_V)) ∧
     entry s' (root_ppn pt) 5 = entry s (root_ppn pt) 5).
Proof.
  destruct ex_pt_mapped as (pt & s & Hwf & Hr & Hf & (b & Hb & _) & He). exists pt, s.
  assert (0 ≤ PTE_R < 256) as Hfl by (unfold PTE_R; lia). split.
  - pose proof (PageTable_map_entry 100 120 s pt 5 110 PTE_R Hwf Hf ltac:(lia) ltac:(lia) Hfl) as H.
    by rewrite Hb in H.
  - pose proof (PageTable_map_entry 100 120 s pt 6 110 PTE_R Hwf Hf ltac:(lia) ltac:(lia) Hfl) as H.
    rewrite He in H. eapply wp_mono; [exact H|]. intros pt' s' (_ & _ & _ & Hent & _).
    by rewrite !Hent by lia.
Defined.

Lemma PageTable_unmap_entry_witness :
  ∃ pt s, PageTable_unmap pt 6 s = Fail Panicked ∧
  wp (PageTable_unmap pt 5) s (λ _ s', entry s' (root_ppn pt) 5 = None).
Proof.
  destruct ex_pt_mapped as (pt & s & Hwf & Hr & Hf & (b & Hb & _) & He). exists pt, s. split.
  - pose proof (PageTable_unmap_entry 100 120 s pt 6 Hwf ltac:(lia)) as H. by rewrite He in H.
  - pose proof (PageTable_unmap_entry 100 120 s pt 5 Hwf ltac:(lia)) as H. rewrite Hb in H.
    eapply wp_mono; [exact H|]. intros [] s' (_ & _ & Hent & _). by rewrite Hent by lia.
Defined.

Lemma translated_byte_buffers_bytes_witness :
  ∃ pt s bufs, translated_byte_buffers (PageTable_token pt) 20500 100 s = Ok (bufs, s) ∧
    concat (buf_addrs <$> bufs) = user_pa s (root_ppn pt) <$> seqZ 20500 100.
Proof.
  destruct ex_pt_mapped as (pt & s & Hwf & Hr & Hf & (b & Hb & Hp) & He). exists pt, s.
  apply (translated_byte_buffers_bytes 100 120 s pt 20500 100 Hwf); [lia..|].
  intros va Hva. exists b. replace (va / 4096) with 5 by lia. split; [done|]. rewrite Hp.
  by apply (tw_root _ _ _ _ _ (pw_tables _ _ _ _ Hwf)).
Defined.
