(* ===== verification/Dma.v ===== *)
(** The disk driver (os/src/drivers/block/): the memory that the virtio crate asks
    the kernel for, the translation of its addresses, and the test of a device.
    The crate itself is a parameter: a device with its two calls. *)

From S2P Require Export BlockStore PageTable.

(** * The device *)

(** The crate's calls return a [Result]; [expect] panics on an error. *)
Section virtio.
Context {D E : Type} (VirtIOBlk_read_block : D → Z → list Z + E) (VirtIOBlk_write_block : D → Z → list Z → D + E).

Definition expect {A} (r : A + E) : option A := match r with inl a => Some a | inr _ => None end.

Definition VirtIOBlock_read_block (d : D) (block_id : Z) : option (list Z) := expect (VirtIOBlk_read_block d block_id).
Definition VirtIOBlock_write_block (d : D) (block_id : Z) (buf : list Z) : option D :=
  expect (VirtIOBlk_write_block d block_id buf).
#[local] Instance VirtIOBlock_device : BlockDevice D := {|
  read_block := VirtIOBlock_read_block;
  write_block := VirtIOBlock_write_block |}.
End virtio.

(** [block_device_test] *)
Section test.
Context {D : Type} `{!BlockDevice D}.

Definition test_block (i : Z) : M D () :=
  d ← get;
  d ← unwrap (write_block d i (replicate 512 (wrap 8 i)));
  put d;;
  read_buffer ← unwrap (read_block d i);
  assert_ (bool_decide (replicate 512 (wrap 8 i) = read_buffer)).
Definition block_device_test : M D () := mfor test_block (range 0 512).
End test.

(** * Memory for the device *)

(** The kernel's memory and [QUEUE_FRAMES]. *)
Record Dma : Type := MkDma { dma_mm : Mm; QUEUE_FRAMES : list Z }.
Definition in_dma {A} : M Mm A → M Dma A := zoom dma_mm (λ s d, MkDma s (QUEUE_FRAMES d)).

Definition dma_frame (i ppn_base : Z) : M Dma Z :=
  r ← in_dma frame_alloc;
  frame ← unwrap r;
  let ppn_base := if i =? 0 then frame else ppn_base in
  assert_ (frame =? ppn_base +₆₄ i);;
  upd (λ d, MkDma (dma_mm d) (QUEUE_FRAMES d ++ [frame]));;
  mret ppn_base.
Definition virtio_dma_alloc (pages : Z) : M Dma Z :=
  ppn_base ← mfold dma_frame (range 0 pages) 0;
  mret (Addr_from_PageNum ppn_base).

Definition virtio_dma_dealloc (pa pages : Z) : M Dma Z :=
  mfold (λ _ ppn_base, in_dma (frame_dealloc ppn_base);; mret (step ppn_base)) (range 0 pages) (floor pa);;
  mret 0.

Definition virtio_phys_to_virt (paddr : Z) : Z := paddr.
Definition virtio_virt_to_phys (kernel_token vaddr : Z) : M Mm Z :=
  r ← PageTable_translate_va (PageTable_from_token kernel_token) vaddr; unwrap r.

(** * Proofs *)

(** The free frames, in the order the allocator hands them out. *)
Definition order (a : StackFrameAllocator) : list Z := recycled a ++ seqZ (current a) (end_ a - current a).

Lemma alloc_order l r a :
  alloc_wf l r a →
  match order a with
  | p :: rest => ∃ a', StackFrameAllocator_alloc a = (Some p, a') ∧ order a' = rest
  | [] => StackFrameAllocator_alloc a = (None, a)
  end.
Proof.
  intros [Hr _ Hin]. unfold order, StackFrameAllocator_alloc. destruct (recycled a) as [|p rest] eqn:Hrec; cbn [app].
  - destruct (Z.eqb_spec (current a) (end_ a)) as [->|Hne]; [by rewrite seqZ_nil by lia|].
    rewrite (seqZ_cons (current a)) by lia. rewrite (wrap_small 64 (current a + 1)) by lia. rewrite wrap_small by lia.
    replace (current a + 1 - 1) with (current a) by lia. rewrite PhysPageNum_from_small by lia.
    eexists. split; [done|]. cbn. f_equal; lia.
  - apply Forall_cons in Hin as [Hp _]. rewrite PhysPageNum_from_small by lia. by eexists.
Qed.

Lemma frame_alloc_order l r s :
  mm_wf l r s →
  match order (mm_alloc s) with
  | p :: rest => ∃ s', frame_alloc s = Ok (Some p, s') ∧ mm_wf l r s' ∧ order (mm_alloc s') = rest ∧
      mm_pages s' = <[p := zero_page]> (mm_pages s) ∧ l ≤ p < r ∧ (p ∉ allocated l (mm_alloc s)) ∧
      allocated l (mm_alloc s') = {[p]} ∪ allocated l (mm_alloc s)
  | [] => frame_alloc s = Ok (None, s)
  end.
Proof.
  intros Hwf. pose proof (frame_alloc_run l r s Hwf) as Hrun. pose proof (alloc_order l r _ (proj1 Hwf)) as Hord.
  pose proof (frame_alloc_spec l r _ (proj1 Hwf)) as Hspec. destruct (order (mm_alloc s)) as [|p rest].
  { by rewrite Hord in Hrun. }
  destruct Hord as (a' & Ha & Hrest). rewrite Ha in Hrun, Hspec. destruct Hspec as (Hwf' & Hp & Hnin & Heq).
  eexists. split; [exact Hrun|]. split; [split; [done|]|split_and!; done || lia].
  intros q Hq. apply lookup_insert_is_Some'. right. by apply (proj2 Hwf).
Qed.

(** What the allocations of [fs] do. *)
Record handed_out (l r : Z) (fs : list Z) (s s' : Mm) : Prop := {
  ho_wf : mm_wf l r s';
  ho_order : order (mm_alloc s) = fs ++ order (mm_alloc s');
  ho_pages p : mm_pages s' !! p = if decide (p ∈ fs) then Some zero_page else mm_pages s !! p;
  ho_in : Forall (λ p, l ≤ p < r ∧ p ∉ allocated l (mm_alloc s)) fs;
  ho_alloc : allocated l (mm_alloc s') = list_to_set fs ∪ allocated l (mm_alloc s) }.

Lemma handed_out_nil l r s : mm_wf l r s → handed_out l r [] s s.
Proof.
  intros Hwf. split; [done|done| |constructor|set_solver]. intros p. by rewrite decide_False by apply not_elem_of_nil.
Qed.
Lemma handed_out_cons l r p fs s s1 s' :
  handed_out l r [p] s s1 → handed_out l r fs s1 s' → handed_out l r (p :: fs) s s'.
Proof.
  intros [_ Ho1 Hp1 Hi1 Ha1] [Hwf Ho Hp Hi Ha]. rewrite Forall_singleton in Hi1. split; [done| | | |].
  - by rewrite Ho1, Ho.
  - intros q. rewrite Hp, Hp1. repeat case_decide; set_solver.
  - constructor; [exact Hi1|]. eapply Forall_impl; [exact Hi|]. rewrite Ha1. set_solver.
  - rewrite Ha, Ha1. set_solver.
Qed.

Lemma in_dma_run {A} (m : M Mm A) s q :
  in_dma m (MkDma s q) = match m s with Ok (a, s') => Ok (a, MkDma s' q) | Fail e => Fail e end.
Proof. unfold in_dma, zoom. cbn. by destruct (m s) as [[]|]. Qed.

Lemma dma_frame_run l r i base s q :
  mm_wf l r s → 0 ≤ i → r ≤ 2 ^ 44 →
  match order (mm_alloc s) with
  | p :: _ =>
      if p =? (if i =? 0 then p else base) +₆₄ i
      then ∃ s', dma_frame i base (MkDma s q) = Ok (if i =? 0 then p else base, MkDma s' (q ++ [p])) ∧ handed_out l r [p] s s'
      else dma_frame i base (MkDma s q) = Fail Panicked
  | [] => dma_frame i base (MkDma s q) = Fail Panicked
  end.
Proof.
  intros Hwf Hi Hr. pose proof (frame_alloc_order l r s Hwf) as Hord. unfold dma_frame.
  destruct (order (mm_alloc s)) as [|p rest] eqn:Ho.
  { unfold mbind, M_bind. by rewrite in_dma_run, Hord. }
  destruct Hord as (s' & Hrun & Hwf' & Hrest & Hpages & Hp & Hnin & Hal).
  assert (in_dma frame_alloc (MkDma s q) = Ok (Some p, MkDma s' q)) as Hf by (by rewrite in_dma_run, Hrun).
  destruct (p =? _) eqn:E; rewrite (bind_Ok _ _ _ _ _ Hf); cbn [unwrap];
    erewrite bind_Ok by reflexivity; cbv beta; rewrite E; [|done].
  exists s'. split; [done|]. split; [done|by rewrite Ho, Hrest| | |].
  - intros q0. rewrite Hpages. destruct (decide (q0 = p)) as [->|].
    + by rewrite lookup_insert_eq, decide_True by set_solver.
    + by rewrite lookup_insert_ne, decide_False by set_solver.
  - by constructor.
  - rewrite Hal. set_solver.
Qed.

Lemma dma_rest l r n : ∀ i base s q,
  mm_wf l r s → 0 < i → 0 ≤ base → base + i + Z.of_nat n < 2 ^ 64 → r ≤ 2 ^ 44 →
  if bool_decide (take n (order (mm_alloc s)) = seqZ (base + i) (Z.of_nat n))
  then ∃ s', mfold dma_frame (seqZ i (Z.of_nat n)) base (MkDma s q) = Ok (base, MkDma s' (q ++ seqZ (base + i) (Z.of_nat n))) ∧
         handed_out l r (seqZ (base + i) (Z.of_nat n)) s s'
  else mfold dma_frame (seqZ i (Z.of_nat n)) base (MkDma s q) = Fail Panicked.
Proof.
  induction n as [|n IH]; intros i base s q Hwf Hi Hb Hn Hr.
  { rewrite take_0, bool_decide_eq_true_2 by done. exists s. cbn. rewrite app_nil_r. split; [done|]. by apply handed_out_nil. }
  replace (Z.of_nat (S n)) with (Z.of_nat n + 1) by lia. rewrite !(seqZ_cons _ (Z.of_nat n + 1)) by lia.
  replace (Z.pred (Z.of_nat n + 1)) with (Z.of_nat n) by lia. cbn [mfold].
  pose proof (dma_frame_run l r i base s q Hwf ltac:(lia) Hr) as Hrun.
  rewrite (proj2 (Z.eqb_neq i 0)), wrap_small in Hrun by lia. destruct (order (mm_alloc s)) as [|p rest] eqn:Ho; cbn [take].
  { rewrite bool_decide_eq_false_2 by done. by rewrite (bind_Fail _ _ _ _ Hrun). }
  destruct (Z.eqb_spec p (base + i)) as [->|Hne].
  2: { rewrite bool_decide_eq_false_2 by congruence. by rewrite (bind_Fail _ _ _ _ Hrun). }
  destruct Hrun as (s1 & Hrun & Hout). rewrite (bind_Ok _ _ _ _ _ Hrun).
  specialize (IH (Z.succ i) base s1 (q ++ [base + i]) (ho_wf _ _ _ _ _ Hout) ltac:(lia) Hb ltac:(lia) Hr).
  pose proof (ho_order _ _ _ _ _ Hout) as Hrest. rewrite Ho in Hrest. injection Hrest as ->.
  replace (base + Z.succ i) with (Z.succ (base + i)) in IH by lia. destruct (decide (take n (order (mm_alloc s1)) = seqZ (Z.succ (base + i)) (Z.of_nat n))) as [E|E].
  - rewrite bool_decide_eq_true_2 by congruence. rewrite bool_decide_eq_true_2 in IH by done.
    destruct IH as (s' & IH & Hout'). exists s'. rewrite IH, <-app_assoc. split; [done|]. by eapply handed_out_cons.
  - rewrite bool_decide_eq_false_2 by congruence. by rewrite bool_decide_eq_false_2 in IH.
Qed.

(** ** The device's memory is contiguous or the kernel panics *)

(** [virtio_dma_alloc] returns when the next free frames, in the order of the
    allocator, are consecutive: it then hands out these frames, cleared, keeps them
    in [QUEUE_FRAMES], and the result is the address of the first.  Otherwise, and
    when there are too few frames, it panics. *)
Theorem virtio_dma_alloc_spec l r s q pages :
  mm_wf l r s → 0 < pages < 2 ^ 63 →
  let base := hd 0 (order (mm_alloc s)) in
  if bool_decide (take (Z.to_nat pages) (order (mm_alloc s)) = seqZ base pages)
  then ∃ s', virtio_dma_alloc pages (MkDma s q) = Ok (base * 4096, MkDma s' (q ++ seqZ base pages)) ∧
         handed_out l r (seqZ base pages) s s'
  else virtio_dma_alloc pages (MkDma s q) = Fail Panicked.
Proof.
  intros Hwf Hpages base. subst base. pose proof (aw_range _ _ _ (proj1 Hwf)) as Hr. unfold virtio_dma_alloc, range. rewrite Z.sub_0_r.
  pose proof (dma_frame_run l r 0 0 s q Hwf ltac:(lia) ltac:(lia)) as Hrun. cbn [Z.eqb] in Hrun.
  assert (∃ n, pages = n + 1 ∧ 0 ≤ n) as (n & -> & Hn) by (exists (pages - 1); lia).
  replace (Z.to_nat (n + 1)) with (S (Z.to_nat n)) by lia. rewrite !(seqZ_cons _ (n + 1)) by lia.
  replace (Z.pred (n + 1)) with n by lia. cbn [mfold].
  destruct (order (mm_alloc s)) as [|p rest] eqn:Ho; cbn [take hd].
  { rewrite bool_decide_eq_false_2 by done. by erewrite bind_Fail by (by erewrite bind_Fail by exact Hrun). }
  assert (l ≤ p < r) as Hp.
  { pose proof (frame_alloc_order l r s Hwf) as Hall. rewrite Ho in Hall. naive_solver. }
  rewrite Z.add_0_r, wrap_small, Z.eqb_refl in Hrun by lia. destruct Hrun as (s1 & Hrun & Hout).
  pose proof (dma_rest l r (Z.to_nat n) 1 p s1 (q ++ [p]) (ho_wf _ _ _ _ _ Hout) ltac:(lia) ltac:(lia) ltac:(lia) ltac:(lia)) as Hrest.
  rewrite Z2Nat.id in Hrest by lia. change (Z.succ 0) with 1. change (Z.succ p) with (p + 1).
  pose proof (ho_order _ _ _ _ _ Hout) as Hrest0. rewrite Ho in Hrest0. injection Hrest0 as ->.
  destruct (decide (take (Z.to_nat n) (order (mm_alloc s1)) = seqZ (p + 1) n)) as [E|E].
  - rewrite bool_decide_eq_true_2 by congruence. rewrite bool_decide_eq_true_2 in Hrest by done.
    destruct Hrest as (s' & Hrest & Hout'). exists s'. split; [|by eapply handed_out_cons].
    erewrite bind_Ok; [|rewrite (bind_Ok _ _ _ _ _ Hrun); exact Hrest]. rewrite Addr_from_PageNum_mul by lia. by rewrite <-app_assoc.
  - rewrite bool_decide_eq_false_2 by congruence. rewrite bool_decide_eq_false_2 in Hrest by done.
    erewrite bind_Fail; [done|]. by rewrite (bind_Ok _ _ _ _ _ Hrun).
Qed.

(** ** Giving memory back *)

Lemma frame_dealloc_order l r s p :
  mm_wf l r s → p ∈ allocated l (mm_alloc s) →
  ∃ s', frame_dealloc p s = Ok ((), s') ∧ mm_wf l r s' ∧ mm_pages s' = mm_pages s ∧
    order (mm_alloc s') = p :: order (mm_alloc s) ∧ allocated l (mm_alloc s') = allocated l (mm_alloc s) ∖ {[p]}.
Proof.
  intros [Ha Hpages] Hp. pose proof (frame_dealloc_spec l r _ p Ha) as Hspec. rewrite decide_True in Hspec by done.
  destruct Hspec as (a' & Hrun & Ha' & Heq). exists (MkMm (mm_pages s) a'). unfold frame_dealloc, zoom. rewrite Hrun.
  split; [done|]. split; [done|]. split; [done|]. split; [|done]. cbn. revert Hrun. unfold StackFrameAllocator_dealloc.
  unfold mbind, M_bind, get. cbn. case_match; [done|]. by intros [= <-].
Qed.

Lemma dma_dealloc_loop l r q n : ∀ i base s,
  mm_wf l r s → 0 ≤ base → base + Z.of_nat n < 2 ^ 64 → (∀ p, base ≤ p < base + Z.of_nat n → p ∈ allocated l (mm_alloc s)) →
  ∃ s', mfold (λ _ ppn_base, in_dma (frame_dealloc ppn_base);; mret (step ppn_base)) (seqZ i (Z.of_nat n)) base (MkDma s q) =
      Ok (base + Z.of_nat n, MkDma s' q) ∧
    mm_wf l r s' ∧ mm_pages s' = mm_pages s ∧ order (mm_alloc s') = reverse (seqZ base (Z.of_nat n)) ++ order (mm_alloc s) ∧
    allocated l (mm_alloc s') = allocated l (mm_alloc s) ∖ list_to_set (seqZ base (Z.of_nat n)).
Proof.
  induction n as [|n IH]; intros i base s Hwf Hb Hn Hin.
  { exists s. cbn. rewrite Z.add_0_r. split; [done|split; [done|split; [done|split; [done|set_solver]]]]. }
  replace (Z.of_nat (S n)) with (Z.of_nat n + 1) in * by lia. rewrite !(seqZ_cons _ (Z.of_nat n + 1)) by lia.
  replace (Z.pred (Z.of_nat n + 1)) with (Z.of_nat n) by lia. cbn [mfold].
  destruct (frame_dealloc_order l r s base Hwf (Hin base ltac:(lia))) as (s1 & Hrun & Hwf1 & Hp1 & Ho1 & Ha1).
  destruct (IH (Z.succ i) (Z.succ base) s1 Hwf1 ltac:(lia) ltac:(lia)) as (s' & Hloop & Hwf' & Hp & Ho & Ha).
  { intros p Hp. rewrite Ha1. apply elem_of_difference. split; [apply Hin; lia|]. rewrite elem_of_singleton. lia. }
  exists s'. split; [|split; [done|split; [congruence|split]]].
  - erewrite bind_Ok by (erewrite bind_Ok by (rewrite in_dma_run, Hrun; reflexivity); reflexivity).
    replace (step base) with (Z.succ base) by (unfold step; rewrite wrap_small; lia). rewrite Hloop. do 2 f_equal. lia.
  - by rewrite Ho, Ho1, reverse_cons, <-app_assoc.
  - rewrite Ha, Ha1. set_solver.
Qed.

(** Giving back frames that are handed out makes them the next to be handed out,
    the last one first; [QUEUE_FRAMES] still lists them. *)
Theorem virtio_dma_dealloc_spec l r s q base pages :
  mm_wf l r s → 0 < pages → (∀ p, base ≤ p < base + pages → p ∈ allocated l (mm_alloc s)) →
  ∃ s', virtio_dma_dealloc (base * 4096) pages (MkDma s q) = Ok (0, MkDma s' q) ∧ mm_wf l r s' ∧ mm_pages s' = mm_pages s ∧
    order (mm_alloc s') = reverse (seqZ base pages) ++ order (mm_alloc s) ∧
    allocated l (mm_alloc s') = allocated l (mm_alloc s) ∖ list_to_set (seqZ base pages).
Proof.
  intros Hwf Hpages Hin. pose proof (aw_range _ _ _ (proj1 Hwf)) as Hr.
  pose proof (Hin base ltac:(lia)) as [H1 _]%elem_of_allocated. pose proof (Hin (base + pages - 1) ltac:(lia)) as [H2 _]%elem_of_allocated.
  destruct (dma_dealloc_loop l r q (Z.to_nat pages) 0 base s Hwf ltac:(lia) ltac:(lia)) as (s' & Hrun & Hs').
  { rewrite Z2Nat.id by lia. done. }
  rewrite Z2Nat.id in * by lia. exists s'. split; [|done]. unfold virtio_dma_dealloc, range. rewrite Z.sub_0_r.
  change (Address.floor (base * 4096)) with (base * 4096 / 4096). rewrite Z.div_mul by done. by rewrite (bind_Ok _ _ _ _ _ Hrun).
Qed.

(** Memory of two pages or more cannot be allocated again after it was given back:
    the frames come in descending order, which the kernel takes for a fault. *)
Corollary virtio_dma_realloc_panics l r s q base pages n :
  mm_wf l r s → 2 ≤ n ≤ pages → pages < 2 ^ 63 → (∀ p, base ≤ p < base + pages → p ∈ allocated l (mm_alloc s)) →
  (virtio_dma_dealloc (base * 4096) pages;; virtio_dma_alloc n) (MkDma s q) = Fail Panicked.
Proof.
  intros Hwf Hn Hp Hin. destruct (virtio_dma_dealloc_spec l r s q base pages Hwf ltac:(lia) Hin) as (s' & Hrun & Hwf' & _ & Ho & _).
  rewrite (bind_Ok _ _ _ _ _ Hrun). pose proof (virtio_dma_alloc_spec l r s' q n Hwf' ltac:(lia)) as Hspec.
  cbv zeta in Hspec. rewrite bool_decide_eq_false_2 in Hspec; [done|]. rewrite Ho. intros E.
  assert (seqZ base pages = seqZ base (pages - 2) ++ [base + pages - 2; base + pages - 1]) as Hsplit.
  { replace pages with (pages - 2 + 2) at 1 by lia. rewrite seqZ_app by lia. rewrite (seqZ_cons _ 2), (seqZ_cons _ (Z.pred 2)) by lia.
    change (Z.pred (Z.pred 2)) with 0. rewrite (seqZ_nil _ 0) by lia. f_equal. f_equal; [lia|]. f_equal. lia. }
  rewrite Hsplit, reverse_app in E. cbn [reverse rev_append app hd] in E. apply (f_equal (λ l : list Z, l !! 1%nat)) in E.
  rewrite lookup_take_lt in E by lia. change (reverse [base + pages - 2; base + pages - 1]) with [base + pages - 1; base + pages - 2] in E.
  cbn in E. symmetry in E. apply lookup_seqZ in E as [E _]. lia.
Qed.

(** ** The device test *)

Section test_proofs.
Context {D : Type} `{!BlockDevice D} `{!BlockDeviceLaws D}.

Lemma test_block_run (d : D) i b0 :
  read_block d i = Some b0 →
  ∃ d', test_block i d = Ok ((), d') ∧ read_block d' i = Some (replicate 512 (wrap 8 i)) ∧
    ∀ j, i ≠ j → read_block d' j = read_block d j.
Proof.
  intros Hread. set (b := replicate 512 (wrap 8 i)). assert (is_block b = true) as Hb by done.
  destruct (write_block_total d i b0 b Hread Hb) as [d' Hwrite]. exists d'.
  pose proof (read_write_same d d' i b0 b Hread Hb Hwrite) as Hsame.
  split; [|split; [done|intros j Hj; by eapply read_write_other]].
  unfold test_block. fold b. erewrite bind_Ok by reflexivity. rewrite Hwrite. erewrite bind_Ok by reflexivity.
  erewrite bind_Ok by reflexivity. rewrite Hsame. erewrite bind_Ok by reflexivity. by rewrite bool_decide_eq_true_2.
Qed.

(** [block_device_test] passes on a lawful device whose first 512 blocks can be
    read; it leaves its patterns in them and no other block changes. *)
Theorem block_device_test_passes (d : D) :
  (∀ i, 0 ≤ i < 512 → is_Some (read_block d i)) →
  wp block_device_test d (λ _ d', ∀ j, read_block d' j =
    if decide (0 ≤ j < 512) then Some (replicate 512 (wrap 8 j)) else read_block d j).
Proof.
  intros Hd. unfold block_device_test. assert (∀ l d0, NoDup l → (∀ i, i ∈ l → is_Some (read_block d0 i)) →
    wp (mfor test_block l) d0 (λ _ d', ∀ j, read_block d' j = if decide (j ∈ l) then Some (replicate 512 (wrap 8 j)) else read_block d0 j)) as Hloop.
  { induction l as [|i l IH]; intros d0 Hnd Hl.
    - intros j. by rewrite decide_False by apply not_elem_of_nil.
    - apply NoDup_cons in Hnd as [Hi Hnd]. destruct (Hl i ltac:(by left)) as [b0 Hb0].
      destruct (test_block_run d0 i b0 Hb0) as (d1 & Hrun & Hsame & Hother). cbn. apply wp_bind. unfold wp at 1. rewrite Hrun.
      eapply wp_mono; [apply (IH d1 Hnd); intros j Hj; rewrite Hother by congruence; apply Hl; by right|].
      intros [] d' Hd' j. rewrite Hd'. destruct (decide (j = i)) as [->|Hne].
      + rewrite decide_False by done. by rewrite decide_True by (by left).
      + rewrite Hother by done. destruct (decide (j ∈ l)) as [Hin|Hin]; [by rewrite decide_True by (by right)|].
        rewrite decide_False; [done|]. by intros [?|?]%elem_of_cons. }
  eapply wp_mono; [apply Hloop; [apply NoDup_seqZ|intros i Hi%elem_of_seqZ; apply Hd; lia]|].
  intros [] d' Hd' j. rewrite Hd'. unfold range. repeat case_decide; try done; rewrite elem_of_seqZ in *; lia.
Qed.
End test_proofs.

(** ** Examples *)

(** At boot the free frames are consecutive and the crate gets its queue. *)
Example dma_alloc_fresh :
  let s := MkMm (mm_pages ex_mm) (MkAlloc 103 120 []) in
  (λ r, match r with Ok (a, d) => Some (a, QUEUE_FRAMES d) | Fail _ => None end) (virtio_dma_alloc 2 (MkDma s [])) =
  Some (103 * 4096, [103; 104]).
Proof. vm_compute. reflexivity. Qed.
(** With a recycled frame on the stack it does not. *)
Example dma_alloc_recycled : virtio_dma_alloc 2 (MkDma ex_mm []) = Fail Panicked.
Proof. vm_compute. reflexivity. Qed.
