(* ===== verification/MemorySet.v ===== *)
(** Address spaces (os/src/mm/memory_set.rs): areas of pages with the frames
    behind them, and the operations that build, copy, grow and shrink an address
    space.  Frames are given back where the Rust code drops their trackers. *)

From stdpp Require Import sorting.
From S2P Require Export PageTable.
#[local] Open Scope Z_scope.

(** * BTreeMap *)

(** A [BTreeMap] is a finite map; iterating over it and dropping it go by
    ascending key. *)
Definition key_le {A} : relation (Z * A) := λ x y, x.1 ≤ y.1.
#[global] Instance key_le_dec {A} : RelDecision (@key_le A).
Proof. intros x y. apply Z.le_dec. Defined.
Definition BTreeMap_iter {A} (m : gmap Z A) : list (Z * A) :=
  merge_sort key_le (map_to_list m).
Definition BTreeMap_values {A} (m : gmap Z A) : list A := (BTreeMap_iter m).*2.

(** * Areas *)

Inductive MapType : Type := Identical | Framed.
#[global] Instance MapType_eq_dec : EqDecision MapType.
Proof. solve_decision. Defined.

(** [MapPermission], a byte of flags. *)
Definition MapPermission_R : Z := 2.
Definition MapPermission_W : Z := 4.
Definition MapPermission_X : Z := 8.
Definition MapPermission_U : Z := 16.

Record MapArea : Type := MkMapArea {
  vpn_range : VPNRange;
  data_frames : gmap Z Z;      (** from pages to the frames behind them *)
  map_type : MapType;
  map_perm : Z }.
Definition set_data_frames (m : gmap Z Z) (a : MapArea) : MapArea :=
  MkMapArea (vpn_range a) m (map_type a) (map_perm a).

Definition MapArea_new {S} (start_va end_va : Z) (t : MapType) (p : Z) : M S MapArea :=
  r ← SimpleRange_new (floor start_va) (ceil end_va); mret (MkMapArea r ∅ t p).
Definition MapArea_from_another {S} (another : MapArea) : M S MapArea :=
  r ← SimpleRange_new (range_l (vpn_range another)) (range_r (vpn_range another));
  mret (MkMapArea r ∅ (map_type another) (map_perm another)).
(** The trackers of the area, in the order they are dropped. *)
Definition MapArea_drop (a : MapArea) : M Mm () := drop_frames (BTreeMap_values (data_frames a)).

(** [data_frames.insert] drops the tracker it replaces. *)
Definition insert_frame (vpn frame : Z) (a : MapArea) : M Mm MapArea :=
  match data_frames a !! vpn with Some old => FrameTracker_drop old | None => mret () end;;
  mret (set_data_frames (<[vpn := frame]> (data_frames a)) a).
(** [data_frames.remove] with the removed tracker dropped. *)
Definition remove_frame (vpn : Z) (a : MapArea) : M Mm MapArea :=
  match data_frames a !! vpn with Some old => FrameTracker_drop old | None => mret () end;;
  mret (set_data_frames (delete vpn (data_frames a)) a).

(** [true] is [Ok(())], [false] is the error of a full memory. *)
Definition MapArea_map_one (self : MapArea) (pt : PageTable) (vpn : Z)
    : M Mm (bool * MapArea * PageTable) :=
  r ← match map_type self with
      | Framed =>
          frame ← frame_alloc;
          match frame with
          | Some ppn => self ← insert_frame vpn ppn self; mret (Some (ppn, self))
          | None => mret None
          end
      | Identical => mret (Some (vpn, self))
      end;
  match r with
  | None => mret (false, self, pt)
  | Some (ppn, self) => pt ← PageTable_map pt vpn ppn (map_perm self); mret (true, self, pt)
  end.

Definition MapArea_unmap_one (self : MapArea) (pt : PageTable) (vpn : Z) : M Mm MapArea :=
  self ← (if bool_decide (map_type self = Framed) then remove_frame vpn self else mret self);
  PageTable_unmap pt vpn;;
  mret self.

(** [map] over the pages [vpns], returning early at the first error. *)
Fixpoint map_pages (vpns : list Z) (self : MapArea) (pt : PageTable)
    : M Mm (bool * MapArea * PageTable) :=
  match vpns with
  | [] => mret (true, self, pt)
  | vpn :: vpns =>
      '(ok, self, pt) ← MapArea_map_one self pt vpn;
      if ok : bool then map_pages vpns self pt else mret (false, self, pt)
  end.
Definition MapArea_map (self : MapArea) (pt : PageTable) : M Mm (bool * MapArea * PageTable) :=
  map_pages (range_elems (vpn_range self)) self pt.
Definition MapArea_unmap (self : MapArea) (pt : PageTable) : M Mm MapArea :=
  mfold (λ vpn self, MapArea_unmap_one self pt vpn) (range_elems (vpn_range self)) self.

(** One round per page of the data. *)
Definition MapArea_copy_data (self : MapArea) (pt : PageTable) (data : list Z) : M Mm () :=
  assert_ (bool_decide (map_type self = Framed));;
  let len := Z.of_nat (length data) in
  mloop (Z.to_nat (len / PAGE_SIZE + 2)) (λ '(start, current_vpn),
    src ← slice data start (Z.min len (start +₆₄ PAGE_SIZE));
    r ← PageTable_translate pt current_vpn;
    pte ← unwrap r;
    p ← get_bytes_array (PageTableEntry_ppn pte);
    p' ← copy_into p 0 (Z.of_nat (length src)) src;
    set_bytes_array (PageTableEntry_ppn pte) p';;
    let start := start +₆₄ PAGE_SIZE in
    if len <=? start then mret (inr ()) else mret (inl (start, step current_vpn)))
    (0, range_l (vpn_range self)).

(** * Address spaces *)

Record MemorySet : Type := MkMemorySet {
  page_table : PageTable;
  areas : list MapArea }.

(** What the linker script defines (os/src/linker-qemu.ld). *)
Record KernelSymbols : Type := MkSymbols {
  stext : Z; etext : Z; srodata : Z; erodata : Z; sdata : Z; edata : Z;
  sbss_with_stack : Z; ebss : Z; ekernel : Z; strampoline : Z }.

Definition MMIO : list (Z * Z) := [(0x10001000, 0x1000)].

Definition MemorySet_new_bare : M Mm MemorySet := pt ← PageTable_new; mret (MkMemorySet pt []).
Definition MemorySet_token (self : MemorySet) : Z := PageTable_token (page_table self).
Definition MemorySet_translate (self : MemorySet) (vpn : Z) : M Mm (option Z) :=
  PageTable_translate (page_table self) vpn.
(** [Drop]: the page table, then the areas. *)
Definition MemorySet_drop (self : MemorySet) : M Mm () :=
  PageTable_drop (page_table self);; mfor MapArea_drop (areas self).

(** On an error the area is dropped; its pages stay in the page table. *)
Definition MemorySet_push (self : MemorySet) (map_area : MapArea) (data : option (list Z))
    : M Mm (bool * MemorySet) :=
  '(ok, map_area, pt) ← MapArea_map map_area (page_table self);
  if ok : bool then
    match data with Some data => MapArea_copy_data map_area pt data | None => mret () end;;
    mret (true, MkMemorySet pt (areas self ++ [map_area]))
  else
    MapArea_drop map_area;;
    mret (false, MkMemorySet pt (areas self)).

(** [push(..).unwrap()] *)
Definition push_unwrap (self : MemorySet) (map_area : MapArea) (data : option (list Z)) : M Mm MemorySet :=
  '(ok, self) ← MemorySet_push self map_area data; assert_ ok;; mret self.

Definition MemorySet_insert_framed_area (self : MemorySet) (start_va end_va permission : Z)
    : M Mm (bool * MemorySet) :=
  a ← MapArea_new start_va end_va Framed permission; MemorySet_push self a None.

Definition MemorySet_remove_area_with_start_vpn (self : MemorySet) (start_vpn : Z) : M Mm MemorySet :=
  match find_index (λ a, range_l (vpn_range a) =? start_vpn) (areas self) with
  | Some (idx, area) =>
      area ← MapArea_unmap area (page_table self);
      MapArea_drop area;;
      mret (MkMemorySet (page_table self) (delete idx (areas self)))
  | None => mret self
  end.

Definition holds_page (vpn : Z) (a : MapArea) : bool := bool_decide (is_Some (data_frames a !! vpn)).

(** A round of the second loop of [remove_mapped_frames]. *)
Definition remove_mapped_frame (vpn : Z) (self : MemorySet) : M Mm MemorySet :=
  '(idx, area) ← unwrap (find_index (holds_page vpn) (areas self));
  area ← MapArea_unmap_one area (page_table self) vpn;
  area ← remove_frame vpn area;
  if bool_decide (data_frames area = ∅) then
    MapArea_drop area;;
    mret (MkMemorySet (page_table self) (delete idx (areas self)))
  else mret (MkMemorySet (page_table self) (<[idx := area]> (areas self))).

Definition MemorySet_remove_mapped_frames (self : MemorySet) (start_va end_va : Z) : M Mm (Z * MemorySet) :=
  r ← SimpleRange_new (floor start_va) (ceil end_va);
  if forallb (λ vpn, bool_decide (is_Some (find_index (holds_page vpn) (areas self)))) (range_elems r) then
    r ← SimpleRange_new (floor start_va) (ceil end_va);
    self ← mfold remove_mapped_frame (range_elems r) self;
    mret (0, self)
  else mret (-1, self).

Definition MemorySet_recycle_data_pages (self : MemorySet) : M Mm MemorySet :=
  mfor MapArea_drop (areas self);; mret (MkMemorySet (page_table self) []).

Section symbols.
Context (sym : KernelSymbols).

Definition MemorySet_map_trampoline (self : MemorySet) : M Mm MemorySet :=
  vpn ← PageNum_from_Addr (VirtAddr_from TRAMPOLINE);
  ppn ← PageNum_from_Addr (PhysAddr_from (strampoline sym));
  pt ← PageTable_map (page_table self) vpn ppn (Z.lor PTE_R PTE_X);
  mret (MkMemorySet pt (areas self)).

(** The page contents of one area, copied from [user_space]. *)
Definition copy_page (user_space memory_set : MemorySet) (vpn : Z) : M Mm () :=
  src ← MemorySet_translate user_space vpn;
  src ← unwrap src;
  dst ← MemorySet_translate memory_set vpn;
  dst ← unwrap dst;
  p ← get_bytes_array (PageTableEntry_ppn src);
  d ← get_bytes_array (PageTableEntry_ppn dst);
  d ← copy_into d 0 4096 p;
  set_bytes_array (PageTableEntry_ppn dst) d.

(** [fork]'s copy of an address space. *)
Definition MemorySet_from_existed_userspace (user_space : MemorySet) : M Mm MemorySet :=
  memory_set ← MemorySet_new_bare;
  memory_set ← MemorySet_map_trampoline memory_set;
  mfold (λ area memory_set,
    a ← MapArea_from_another area;
    memory_set ← push_unwrap memory_set a None;
    mfor (copy_page user_space memory_set) (range_elems (vpn_range area));;
    mret memory_set) (areas user_space) memory_set.

(** A section of the kernel image, mapped to itself. *)
Definition map_section (start end_ perm : Z) (self : MemorySet) : M Mm MemorySet :=
  a ← MapArea_new (VirtAddr_from start) (VirtAddr_from end_) Identical perm;
  push_unwrap self a None.

Definition MemorySet_new_kernel : M Mm MemorySet :=
  s ← MemorySet_new_bare;
  s ← MemorySet_map_trampoline s;
  s ← map_section (stext sym) (etext sym) (Z.lor MapPermission_R MapPermission_X) s;
  s ← map_section (srodata sym) (erodata sym) MapPermission_R s;
  s ← map_section (sdata sym) (edata sym) (Z.lor MapPermission_R MapPermission_W) s;
  s ← map_section (sbss_with_stack sym) (ebss sym) (Z.lor MapPermission_R MapPermission_W) s;
  s ← map_section (ekernel sym) MEMORY_END (Z.lor MapPermission_R MapPermission_W) s;
  mfold (λ '(start, len) s,
    a ← MapArea_new (VirtAddr_from start) (VirtAddr_from (start +₆₄ len)) Identical
          (Z.lor MapPermission_R MapPermission_W);
    '(_, s) ← MemorySet_push s a None;
    mret s) MMIO s.

(** [remap_test]: the middle of each section has the permissions of the section. *)
Definition remap_test (kernel_space : MemorySet) : M Mm () :=
  let check (start end_ : Z) (flag : Z → bool) : M Mm () :=
    r ← PageTable_translate (page_table kernel_space) (floor (VirtAddr_from ((start +₆₄ end_) / 2)));
    pte ← unwrap r;
    assert_ (negb (flag pte)) in
  check (stext sym) (etext sym) PageTableEntry_writable;;
  check (srodata sym) (erodata sym) PageTableEntry_writable;;
  check (sdata sym) (edata sym) PageTableEntry_executable.

(** ** ELF files

    The parser is the crate xmas_elf; this is what the kernel asks of it.  A
    [None] is an error the kernel unwraps. *)

Record ProgramHeader : Type := MkProgramHeader {
  is_load : option bool;        (** [get_type()], compared with [Type::Load] *)
  virtual_addr : Z; mem_size : Z; ph_offset : Z; file_size : Z;
  is_read : bool; is_write : bool; is_execute : bool }.
Record ElfFile : Type := MkElfFile {
  magic : list Z;
  ph_count : Z;
  program_header : Z → option ProgramHeader;
  entry_point : Z }.

Context (ElfFile_new : list Z → option ElfFile).

Definition flag_if (b : bool) (flag : Z) : Z := if b then flag else 0.

(** A program header of type [Load], mapped and filled from the file. *)
Definition load_segment (elf_data : list Z) (ph : ProgramHeader) (s : MemorySet) : M Mm (MemorySet * Z) :=
  let start_va := VirtAddr_from (virtual_addr ph) in
  let end_va := VirtAddr_from (virtual_addr ph +₆₄ mem_size ph) in
  let perm := Z.lor (Z.lor (Z.lor MapPermission_U (flag_if (is_read ph) MapPermission_R))
                (flag_if (is_write ph) MapPermission_W)) (flag_if (is_execute ph) MapPermission_X) in
  a ← MapArea_new start_va end_va Framed perm;
  data ← slice elf_data (ph_offset ph) (ph_offset ph +₆₄ file_size ph);
  s ← push_unwrap s a (Some data);
  mret (s, range_r (vpn_range a)).

(** The address space, the user stack pointer and the entry point. *)
Definition MemorySet_from_elf (elf_data : list Z) : M Mm (MemorySet * Z * Z) :=
  s ← MemorySet_new_bare;
  s ← MemorySet_map_trampoline s;
  elf ← unwrap (ElfFile_new elf_data);
  assert_ (bool_decide (magic elf = [0x7f; 0x45; 0x4c; 0x46]));;
  '(s, max_end_vpn) ← mfold (λ i '(s, max_end_vpn),
      ph ← unwrap (program_header elf i);
      load ← unwrap (is_load ph);
      if load : bool then load_segment elf_data ph s else mret (s, max_end_vpn))
    (range 0 (ph_count elf)) (s, 0);
  let user_stack_bottom := Addr_from_PageNum max_end_vpn +₆₄ PAGE_SIZE in
  let user_stack_top := user_stack_bottom +₆₄ USER_STACK_SIZE in
  a ← MapArea_new (VirtAddr_from user_stack_bottom) (VirtAddr_from user_stack_top) Framed
        (Z.lor (Z.lor MapPermission_R MapPermission_W) MapPermission_U);
  s ← push_unwrap s a None;
  a ← MapArea_new (VirtAddr_from TRAP_CONTEXT) (VirtAddr_from TRAMPOLINE) Framed
        (Z.lor MapPermission_R MapPermission_W);
  s ← push_unwrap s a None;
  mret (s, user_stack_top, entry_point elf).

End symbols.
