(* ===== verification/MemorySetSpec.v ===== *)
(** Address spaces keep their invariant (os/src/mm/memory_set.rs): the frames of
    the page table and of the areas are pairwise different allocated frames and
    every page of an area is mapped to its frame; what inserting, removing and
    copying do to the map and to memory. *)

From S2P Require Export PageTableSpec MemorySet.

(** * Frames of an address space *)

Definition area_frames (a : MapArea) : list Z := (map_to_list (data_frames a)).*2.
Definition areas_frames (l : list MapArea) : list Z := l ≫= area_frames.
Abbreviation ms_root ms := (root_ppn (page_table ms)).

(** The address space [ms] owns its frames and maps its areas. *)
Record ms_wf (l r : Z) (s : Mm) (ms : MemorySet) : Prop := {
  mw_pt : pt_wf l r s (page_table ms);
  mw_nodup : NoDup (pt_frames (page_table ms) ++ areas_frames (areas ms));
  mw_alloc : Forall (λ p, p ∈ allocated l (mm_alloc s)) (areas_frames (areas ms));
  mw_entry a v p : a ∈ areas ms → data_frames a !! v = Some p →
    0 ≤ v < 2 ^ 27 ∧ ∃ b, entry s (ms_root ms) v = Some b ∧ PageTableEntry_ppn b = p;
  mw_framed a v p : a ∈ areas ms → data_frames a !! v = Some p → map_type a = Framed }.

Lemma elem_of_area_frames a p : p ∈ area_frames a ↔ ∃ v, data_frames a !! v = Some p.
Proof.
  unfold area_frames. rewrite list_elem_of_fmap. split.
  - intros ([v p'] & -> & H%elem_of_map_to_list). by exists v.
  - intros (v & H). exists (v, p). by rewrite elem_of_map_to_list.
Qed.
Lemma elem_of_areas_frames l p : p ∈ areas_frames l ↔ ∃ a v, a ∈ l ∧ data_frames a !! v = Some p.
Proof.
  unfold areas_frames. rewrite list_elem_of_bind. setoid_rewrite elem_of_area_frames. naive_solver.
Qed.
Lemma areas_frames_app l k : areas_frames (l ++ k) = areas_frames l ++ areas_frames k.
Proof. apply bind_app. Qed.
Lemma areas_frames_snoc l a : areas_frames (l ++ [a]) = areas_frames l ++ area_frames a.
Proof. rewrite areas_frames_app. unfold areas_frames at 2. cbn. by rewrite app_nil_r. Qed.
Lemma areas_frames_cons a l : areas_frames (a :: l) = area_frames a ++ areas_frames l.
Proof. done. Qed.
Lemma areas_frames_perm l k : l ≡ₚ k → areas_frames l ≡ₚ areas_frames k.
Proof. intros H. unfold areas_frames. by rewrite H. Qed.
Lemma area_frames_insert a v p :
  data_frames a !! v = None → area_frames (set_data_frames (<[v := p]> (data_frames a)) a) ≡ₚ p :: area_frames a.
Proof. intros Hv. unfold area_frames. cbn. by rewrite map_to_list_insert by done. Qed.
Lemma area_frames_delete a v p :
  data_frames a !! v = Some p → area_frames a ≡ₚ p :: area_frames (set_data_frames (delete v (data_frames a)) a).
Proof. intros Hv. unfold area_frames. cbn. by rewrite <-(map_to_list_delete _ v p) by done. Qed.

(** * Changes outside the tables *)

Lemma page_ok_same l r s s' p :
  page_ok s p → mm_wf l r s' → p ∈ allocated l (mm_alloc s') → page_at s' p = page_at s p → page_ok s' p.
Proof.
  intros (_ & Hl & Hb) [[Hr _ _] Hp] Hin Heq. unfold page_ok. rewrite Heq. split; [|done].
  apply elem_of_allocated in Hin as [Hpr _]. destruct (Hp p ltac:(lia)) as [pg Hpg].
  rewrite <-Heq. unfold page_at. by rewrite Hpg.
Qed.

(** A page table only depends on its own frames. *)
Lemma pt_wf_frame l r s s' pt :
  pt_wf l r s pt → mm_wf l r s' → (∀ x, x ∈ pt_frames pt → page_at s' x = page_at s x) →
  (∀ x, x ∈ pt_frames pt → x ∈ allocated l (mm_alloc s')) →
  pt_wf l r s' pt ∧ ∀ v, entry s' (root_ppn pt) v = entry s (root_ppn pt) v.
Proof.
  intros [Hmm Ht Ha] Hmm' Hp Ha'. pose proof Ht as [[Hrok Hrin] Hcw _ Hgw _ _].
  assert (∀ x, x ∈ pt_frames pt → page_ok s x → page_ok s' x) as Hok.
  { intros x Hx Hxok. apply (page_ok_same l r s); auto. }
  assert (∀ q i, q ∈ pt_frames pt → pte_at s' q i = pte_at s q i) as Hpte
    by (intros q i Hq; unfold pte_at; by rewrite Hp).
  assert (∀ i, child s' (root_ppn pt) i = child s (root_ppn pt) i) as HC by (intros; by apply child_eq, Hpte).
  assert (∀ i j, table2 s' (root_ppn pt) i j = table2 s (root_ppn pt) i j) as HG.
  { intros i j. unfold table2. rewrite HC. destruct (child s (root_ppn pt) i) as [c|] eqn:Hc; [|done].
    apply child_eq, Hpte. by destruct (Hcw _ _ Hc) as (_ & ? & _). }
  split; [split; [done| |]|].
  - destruct Ht as [H1 H2 H3 H4 H5 H6]. split.
    + by split; [apply Hok|].
    + intros i c. rewrite HC. intros Hc. destruct (H2 _ _ Hc) as (? & ? & ?). auto.
    + intros i i' c. rewrite !HC. apply H3.
    + intros i j g. rewrite HG. intros Hg. destruct (H4 _ _ _ Hg) as (? & ? & ? & Hne). split_and!; auto.
      intros i'. rewrite HC. apply Hne.
    + intros i j i' j' g. rewrite !HG. apply H5.
    + intros i j. rewrite HG, HC. apply H6.
  - apply Forall_forall. auto.
  - intros v. unfold entry. rewrite HG. destruct (table2 s _ _ _) as [g|] eqn:Hg; [|done].
    rewrite Hpte; [done|]. by destruct (Hgw _ _ _ Hg) as (_ & ? & _).
Qed.

(** Taking a frame. *)
Lemma frame_alloc_some l r s :
  mm_wf l r s → 0 < free_frames s →
  ∃ p s', frame_alloc s = Ok (Some p, s') ∧ mm_wf l r s' ∧ l ≤ p < r ∧ (p ∉ allocated l (mm_alloc s)) ∧
    allocated l (mm_alloc s') = {[p]} ∪ allocated l (mm_alloc s) ∧ free_frames s' = free_frames s - 1 ∧
    page_at s' p = zero_page ∧ page_ok s' p ∧ ∀ x, x ≠ p → page_at s' x = page_at s x.
Proof.
  intros Hmm Hf. destruct (alloc_free l r s Hmm Hf) as (p & a & Hal & Hfree).
  pose proof (frame_alloc_run l r s Hmm) as Hrun. pose proof (frame_alloc_spec l r _ (proj1 Hmm)) as Hsp.
  rewrite Hal in Hrun, Hsp. destruct Hsp as (Ha & Hp & Hnin & Hall).
  exists p, (MkMm (<[p := zero_page]> (mm_pages s)) a).
  split_and!; [done| |lia|lia|done|done|done|apply page_at_zero|apply page_ok_zero|].
  - split; [done|]. intros x Hx. cbn. destruct (decide (x = p)) as [->|]; [rewrite lookup_insert_eq; by eexists|].
    rewrite lookup_insert_ne by done. by apply (proj2 Hmm).
  - intros x Hx. unfold page_at. cbn. by rewrite lookup_insert_ne.
Qed.
Lemma frame_alloc_none l r s :
  mm_wf l r s → free_frames s ≤ 0 → frame_alloc s = Ok (None, s).
Proof.
  intros Hmm Hf. pose proof (frame_alloc_run l r s Hmm) as Hrun. revert Hrun.
  destruct Hmm as [[Hr _ _] _]. unfold free_frames, StackFrameAllocator_alloc in *.
  destruct (recycled (mm_alloc s)); cbn [length] in Hf; [|lia].
  destruct (Z.eqb_spec (current (mm_alloc s)) (end_ (mm_alloc s))); [done|lia].
Qed.

(** Giving a frame back. *)
Lemma frame_drop l r s p :
  mm_wf l r s → p ∈ allocated l (mm_alloc s) →
  ∃ s', FrameTracker_drop p s = Ok ((), s') ∧ mm_wf l r s' ∧ mm_pages s' = mm_pages s ∧
    allocated l (mm_alloc s') = allocated l (mm_alloc s) ∖ {[p]} ∧ free_frames s' = free_frames s + 1.
Proof.
  intros [Ha Hp] Hin. pose proof (frame_dealloc_spec l r _ p Ha) as H. rewrite decide_True in H by done.
  destruct H as (a & Hrun & Ha' & Hall). unfold FrameTracker_drop, frame_dealloc, zoom. rewrite Hrun.
  eexists. split; [done|]. split_and!; [by split|done|done|].
  unfold StackFrameAllocator_dealloc in Hrun. unfold mbind, M_bind, get in Hrun.
  destruct (_ || _); [done|]. injection Hrun as <-. unfold free_frames. cbn. lia.
Qed.

(** * Mapping pages *)

(** What mapping does to a page table and to memory: the table grows by frames
    that were free, allocated pages outside the tables keep their contents. *)
Record grows (l : Z) (pt : PageTable) (s : Mm) (pt' : PageTable) (s' : Mm) : Prop := {
  gr_root : root_ppn pt' = root_ppn pt;
  gr_frames x : x ∈ pt_frames pt' → x ∈ pt_frames pt ∨ (x ∉ allocated l (mm_alloc s));
  gr_page x : x ∈ allocated l (mm_alloc s) → (x ∉ pt_frames pt) → page_at s' x = page_at s x;
  gr_alloc : allocated l (mm_alloc s) ⊆ allocated l (mm_alloc s') }.

Lemma grows_refl l pt s : grows l pt s pt s.
Proof. split; auto. Qed.
Lemma grows_trans l pt1 s1 pt2 s2 pt3 s3 :
  grows l pt1 s1 pt2 s2 → grows l pt2 s2 pt3 s3 → grows l pt1 s1 pt3 s3.
Proof.
  intros [R1 F1 P1 A1] [R2 F2 P2 A2]. split; [congruence| | |set_solver].
  - intros x Hx. destruct (F2 x Hx) as [Hx2|Hx2]; [by apply F1|]. right. set_solver.
  - intros x Hx Hn. rewrite P2, P1; [done|done|done|set_solver|].
    intros Hx2. destruct (F1 x Hx2); done.
Qed.

Lemma ms_wf_pages l r s s' pt As :
  ms_wf l r s (MkMemorySet pt As) → pt_wf l r s' pt →
  (∀ v, entry s' (root_ppn pt) v = entry s (root_ppn pt) v) →
  allocated l (mm_alloc s) ⊆ allocated l (mm_alloc s') → ms_wf l r s' (MkMemorySet pt As).
Proof.
  intros [H1 H2 H3 H4 H5] Hpt He Ha. split; [done|done| | |done].
  - eapply Forall_impl; [exact H3|]. set_solver.
  - intros a v p Ha' Hv. cbn in *. rewrite He. by eapply H4.
Qed.

(** An area that is not mapped holds no frame for the page. *)
Lemma ms_wf_unmapped l r s ms a v :
  ms_wf l r s ms → a ∈ areas ms → entry s (ms_root ms) v = None → data_frames a !! v = None.
Proof.
  intros Hwf Ha He. destruct (data_frames a !! v) as [p|] eqn:Hv; [|done].
  destruct (mw_entry _ _ _ _ Hwf a v p Ha Hv) as (_ & b & Hb & _). congruence.
Qed.

Lemma NoDup_grow (F new : list Z) (p : Z) (R R' : list Z) :
  NoDup (F ++ R) → NoDup new → (∀ x, x ∈ new → (x ∉ F ++ R) ∧ x ≠ p) → (p ∉ F ++ R) → R' ≡ₚ p :: R →
  NoDup ((F ++ new) ++ R').
Proof.
  intros HFR Hn Hd Hp ->. apply NoDup_app in HFR as (HF & HFd & HR).
  rewrite <-app_assoc. apply NoDup_app. split_and!; [done| |apply NoDup_app; split_and!; [done| |]].
  - intros x Hx. specialize (HFd x Hx). intros [Hx'|[->|Hx']%elem_of_cons]%elem_of_app; [|set_solver..].
    destruct (Hd x Hx'). set_solver.
  - intros x Hx. destruct (Hd x Hx). set_solver.
  - constructor; [set_solver|done].
Qed.

Section map_one.
Context (l r : Z) (s : Mm) (pt : PageTable) (As : list MapArea) (a : MapArea) (v : Z).
Context (Hwf : ms_wf l r s (MkMemorySet pt (As ++ [a]))) (Hty : map_type a = Framed).
Context (Hfree : 3 ≤ free_frames s) (Hv : 0 ≤ v < 2 ^ 27) (He : entry s (root_ppn pt) v = None).
Context (Hperm : 0 ≤ map_perm a < 256).

Lemma map_one_spec : ∃ p pt' s',
  let a' := set_data_frames (<[v := p]> (data_frames a)) a in
  MapArea_map_one a pt v s = Ok ((true, a', pt'), s') ∧
  ms_wf l r s' (MkMemorySet pt' (As ++ [a'])) ∧ grows l pt s pt' s' ∧
  (p ∉ allocated l (mm_alloc s)) ∧ page_at s' p = zero_page ∧ page_ok s' p ∧
  free_frames s - 3 ≤ free_frames s' ∧
  (∀ v', 0 ≤ v' < 2 ^ 27 → entry s' (root_ppn pt) v' =
     if decide (v' = v) then Some (PageTableEntry_new p (Z.lor (map_perm a) PTE_V))
     else entry s (root_ppn pt) v').
Proof.
  pose proof Hwf as [Hpt Hnd Hal Hent Hframed]. cbn [page_table areas] in *.
  destruct (frame_alloc_some l r s (pw_mm _ _ _ _ Hpt) ltac:(lia))
    as (p & s1 & Hrun & Hmm1 & Hp & Hpn & Hall1 & Hf1 & Hz & Hok & Hpg1).
  rewrite areas_frames_snoc in Hnd, Hal.
  assert (∀ x, x ∈ pt_frames pt → x ∈ allocated l (mm_alloc s)) as Hptal by (intros; by eapply pt_frames_alloc).
  assert (∀ x, x ∈ pt_frames pt ++ areas_frames As ++ area_frames a → x ∈ allocated l (mm_alloc s)) as Hallin.
  { intros x [Hx|Hx]%elem_of_app; [by apply Hptal|]. rewrite Forall_forall in Hal. by apply Hal. }
  destruct (pt_wf_frame l r s s1 pt Hpt Hmm1) as [Hpt1 He1].
  { intros x Hx. apply Hpg1. intros ->. by apply Hpn, Hptal. }
  { intros x Hx. rewrite Hall1. set_solver. }
  destruct (map_spec l r s1 pt v p (map_perm a) Hpt1 ltac:(lia) ltac:(by rewrite He1) Hv)
    as (pt' & s' & Hmap & Hpt' & Hr' & (new & Hfr & Hnew & Hnd' & Hall' & Hfn) & Hf' & Hent' & Hpg'); [|done|].
  { destruct Hmm1 as [[Hr _ _] _]. lia. }
  assert (p ∉ pt_frames pt') as Hpp.
  { rewrite Hfr. intros [Hx|Hx]%elem_of_app; [by apply Hpn, Hptal|].
    rewrite Forall_forall in Hnew. apply (Hnew p Hx). rewrite Hall1. set_solver. }
  assert (data_frames a !! v = None) as Hav by (eapply (ms_wf_unmapped _ _ _ _ a v Hwf); [set_solver|done]).
  assert (∀ x, x ∈ new → (x ∉ allocated l (mm_alloc s)) ∧ x ≠ p) as Hnewx.
  { intros x Hx. rewrite Forall_forall in Hnew. specialize (Hnew x Hx). rewrite Hall1 in Hnew. set_solver. }
  exists p, pt', s'. cbn zeta. split_and!; [| |split| |by rewrite Hpg'| |lia|by intros v' Hv'; rewrite Hent', He1].
  - unfold MapArea_map_one. rewrite Hty. erewrite bind_Ok; cycle 1.
    { erewrite bind_Ok by exact Hrun. cbn. unfold insert_frame. rewrite Hav.
      erewrite bind_Ok by (by erewrite bind_Ok by reflexivity). reflexivity. }
    cbn beta iota. by erewrite bind_Ok by exact Hmap.
  - split; cbn [page_table areas].
    + done.
    + rewrite Hfr, areas_frames_snoc, area_frames_insert by done. apply (NoDup_grow _ new p _ _ Hnd Hnd').
      * intros x Hx. destruct (Hnewx x Hx) as [Hx1 Hx2]. split; [|done]. intros Hin. by apply Hx1, Hallin.
      * intros Hin. by apply Hpn, Hallin.
      * by rewrite Permutation_middle.
    + rewrite areas_frames_snoc, area_frames_insert by done. rewrite Hall', Hall1.
      apply Forall_app in Hal as [HalA Hala]. apply Forall_app_2; [|constructor; [set_solver|]].
      * eapply Forall_impl; [exact HalA|]. set_solver.
      * eapply Forall_impl; [exact Hala|]. set_solver.
    + intros a1 v1 p1 [Ha1|Ha1]%elem_of_app Hv1; rewrite Hr'.
      * destruct (Hent a1 v1 p1 ltac:(set_solver) Hv1) as (Hv1r & b & Hb & Hbp). split; [done|].
        rewrite Hent' by done. rewrite decide_False by (intros ->; congruence). rewrite He1. by exists b.
      * apply list_elem_of_singleton in Ha1 as ->. cbn in Hv1. destruct (decide (v1 = v)) as [->|Hne].
        -- rewrite lookup_insert_eq in Hv1. injection Hv1 as <-. split; [done|]. rewrite Hent' by done.
           rewrite decide_True by done. eexists. split; [done|]. destruct Hmm1 as [[Hr _ _] _].
           apply ppn_new; [lia|]. by apply valid_map_flags.
        -- rewrite lookup_insert_ne in Hv1 by done.
           destruct (Hent a v1 p1 ltac:(set_solver) Hv1) as (Hv1r & b & Hb & Hbp). split; [done|].
           rewrite Hent' by done. rewrite decide_False by done. rewrite He1. by exists b.
    + intros a1 v1 p1 [Ha1|Ha1]%elem_of_app Hv1; [apply (Hframed a1 v1 p1); [set_solver|done]|].
      by apply list_elem_of_singleton in Ha1 as ->.
  - done.
  - intros x Hx. rewrite Hfr in Hx. apply elem_of_app in Hx as [Hx|Hx]; [by left|right]. by apply Hnewx.
  - intros x Hx Hxn. rewrite Hpg', Hpg1; [done|by intros ->|]. rewrite Hfr.
    intros [Hx'|Hx']%elem_of_app; [done|]. by destruct (Hnewx x Hx').
  - rewrite Hall', Hall1. set_solver.
  - done.
  - apply (page_ok_same l r s1); [done|apply Hpt'|rewrite Hall', Hall1; set_solver|by apply Hpg'].
Qed.
End map_one.

(** The pages of a list, none of which is mapped. *)
Lemma map_pages_spec l r As vs a pt s :
  ms_wf l r s (MkMemorySet pt (As ++ [a])) → map_type a = Framed → 0 ≤ map_perm a < 256 →
  3 * Z.of_nat (length vs) ≤ free_frames s → NoDup vs →
  (∀ v, v ∈ vs → 0 ≤ v < 2 ^ 27 ∧ entry s (root_ppn pt) v = None) →
  ∃ m pt' s', map_pages vs a pt s = Ok ((true, set_data_frames m a, pt'), s') ∧
    ms_wf l r s' (MkMemorySet pt' (As ++ [set_data_frames m a])) ∧ grows l pt s pt' s' ∧
    free_frames s - 3 * Z.of_nat (length vs) ≤ free_frames s' ∧
    (∀ v, v ∈ vs → ∃ p, m !! v = Some p ∧ (p ∉ allocated l (mm_alloc s)) ∧
       page_at s' p = zero_page ∧ page_ok s' p) ∧
    (∀ v, (v ∉ vs) → m !! v = data_frames a !! v) ∧
    (∀ v, 0 ≤ v < 2 ^ 27 → entry s' (root_ppn pt) v =
       if decide (v ∈ vs) then Some (PageTableEntry_new (default 0 (m !! v)) (Z.lor (map_perm a) PTE_V))
       else entry s (root_ppn pt) v).
Proof.
  revert a pt s. induction vs as [|v vs IH]; intros a pt s Hwf Hty Hperm Hfree Hnd Hvs.
  - exists (data_frames a), pt, s. replace (set_data_frames (data_frames a) a) with a by (by destruct a).
    split_and!; [done|done|apply grows_refl|cbn; lia|intros v Hv; by apply not_elem_of_nil in Hv|done|].
    intros v Hv. rewrite decide_False; [done|apply not_elem_of_nil].
  - apply NoDup_cons in Hnd as [Hnin Hnd]. cbn [length] in Hfree.
    destruct (Hvs v ltac:(by left)) as [Hv He].
    destruct (map_one_spec l r s pt As a v Hwf Hty ltac:(lia) Hv He Hperm)
      as (p & pt1 & s1 & Hrun1 & Hwf1 & Hg1 & Hpn & Hz & Hok & Hf1 & He1).
    set (a1 := set_data_frames (<[v := p]> (data_frames a)) a) in *. pose proof (gr_root _ _ _ _ _ Hg1) as Hr1.
    destruct (IH a1 pt1 s1 Hwf1 Hty Hperm ltac:(lia) Hnd)
      as (m & pt' & s' & Hrun & Hwf' & Hg & Hf & Hin & Hout & Hent).
    { intros v' Hv'. destruct (Hvs v' ltac:(by right)) as [Hr' He']. split; [done|].
      rewrite Hr1, He1 by done. rewrite decide_False by congruence. done. }
    assert (p ∈ allocated l (mm_alloc s1) ∧ (p ∉ pt_frames pt1)) as [Hp1 Hpt1].
    { pose proof (mw_alloc _ _ _ _ Hwf1) as Ha. pose proof (mw_nodup _ _ _ _ Hwf1) as Hn.
      assert (p ∈ areas_frames (areas (MkMemorySet pt1 (As ++ [a1])))) as Hpa.
      { apply elem_of_areas_frames. exists a1, v. split; [cbn; set_solver|]. cbn. apply lookup_insert_eq. }
      rewrite Forall_forall in Ha. split; [by apply Ha|]. cbn in Hn, Hpa.
      apply NoDup_app in Hn as (_ & Hn & _). intros Hp. by apply (Hn p). }
    exists m, pt', s'. split_and!.
    + cbn [map_pages]. erewrite bind_Ok by exact Hrun1. cbn beta iota. exact Hrun.
    + exact Hwf'.
    + by eapply grows_trans.
    + cbn [length]. lia.
    + intros v' [->|Hv']%elem_of_cons.
      * exists p. rewrite Hout by done. cbn. rewrite lookup_insert_eq. split_and!; [done|done| |].
        -- by rewrite (gr_page _ _ _ _ _ Hg).
        -- apply (page_ok_same l r s1); [done|apply (mw_pt _ _ _ _ Hwf')|by apply (gr_alloc _ _ _ _ _ Hg)|].
           by apply (gr_page _ _ _ _ _ Hg).
      * destruct (Hin v' Hv') as (q & Hq & Hqn & Hqz). exists q. split; [done|]. split; [|done].
        intros Hqa. by apply Hqn, (gr_alloc _ _ _ _ _ Hg1).
    + intros v' Hv'. rewrite Hout by set_solver. cbn. rewrite lookup_insert_ne; [done|set_solver].
    + intros v' Hv'. rewrite <-Hr1, Hent, Hr1 by done. destruct (decide (v' ∈ vs)) as [Hvv|Hvv].
      * by rewrite decide_True by (by right).
      * rewrite He1 by done. destruct (decide (v' = v)) as [->|Hne].
        -- rewrite decide_True by (by left). rewrite Hout by done. cbn. by rewrite lookup_insert_eq.
        -- rewrite decide_False; [done|]. set_solver.
Qed.

Lemma range_elems_spec rg v : v ∈ range_elems rg ↔ range_l rg ≤ v < range_r rg.
Proof. unfold range_elems, range. rewrite elem_of_seqZ. lia. Qed.
Lemma range_elems_length rg : range_l rg ≤ range_r rg → Z.of_nat (length (range_elems rg)) = range_r rg - range_l rg.
Proof. intros. unfold range_elems, range. rewrite length_seqZ. lia. Qed.

(** A new area without frames. *)
Lemma ms_wf_empty l r s ms rg t p : ms_wf l r s ms →
  ms_wf l r s (MkMemorySet (page_table ms) (areas ms ++ [MkMapArea rg ∅ t p])).
Proof.
  intros [H1 H2 H3 H4 H5].
  assert (areas_frames (areas ms ++ [MkMapArea rg ∅ t p]) = areas_frames (areas ms)) as Heq.
  { rewrite areas_frames_snoc. unfold area_frames. cbn. by rewrite map_to_list_empty, app_nil_r. }
  split; cbn [page_table areas]; rewrite ?Heq; [done..| |].
  - intros a v q [Ha|Ha]%elem_of_app Hv; [by eapply H4|]. apply list_elem_of_singleton in Ha as ->. done.
  - intros a v q [Ha|Ha]%elem_of_app Hv; [by eapply H5|]. apply list_elem_of_singleton in Ha as ->. done.
Qed.

Lemma push_framed_spec l r s ms rg perm :
  ms_wf l r s ms → range_l rg ≤ range_r rg → 0 ≤ perm < 256 →
  3 * (range_r rg - range_l rg) ≤ free_frames s → 0 ≤ range_l rg → range_r rg ≤ 2 ^ 27 →
  (∀ v, range_l rg ≤ v < range_r rg → entry s (ms_root ms) v = None) →
  ∃ m pt' s', MemorySet_push ms (MkMapArea rg ∅ Framed perm) None s =
      Ok ((true, MkMemorySet pt' (areas ms ++ [MkMapArea rg m Framed perm])), s') ∧
    ms_wf l r s' (MkMemorySet pt' (areas ms ++ [MkMapArea rg m Framed perm])) ∧
    grows l (page_table ms) s pt' s' ∧
    free_frames s - 3 * (range_r rg - range_l rg) ≤ free_frames s' ∧
    (∀ v, range_l rg ≤ v < range_r rg → ∃ p, m !! v = Some p ∧ (p ∉ allocated l (mm_alloc s)) ∧
       page_at s' p = zero_page ∧ page_ok s' p) ∧
    (∀ v, ¬ range_l rg ≤ v < range_r rg → m !! v = None) ∧
    (∀ v, 0 ≤ v < 2 ^ 27 → entry s' (ms_root ms) v =
       if decide (range_l rg ≤ v < range_r rg) then
         Some (PageTableEntry_new (default 0 (m !! v)) (Z.lor perm PTE_V))
       else entry s (ms_root ms) v).
Proof.
  intros Hwf Hle Hperm Hfree H0 H1 He.
  destruct (map_pages_spec l r (areas ms) (range_elems rg) (MkMapArea rg ∅ Framed perm) (page_table ms) s)
    as (m & pt' & s' & Hrun & Hwf' & Hg & Hf & Hin & Hout & Hent).
  - by apply ms_wf_empty.
  - done.
  - done.
  - by rewrite range_elems_length.
  - apply NoDup_seqZ.
  - intros v Hv%range_elems_spec. split; [lia|]. by apply He.
  - exists m, pt', s'. rewrite range_elems_length in Hf by done. split_and!; [|done|done|done| | |].
    + unfold MemorySet_push, MapArea_map. cbn [vpn_range]. by erewrite bind_Ok by exact Hrun.
    + intros v Hv. apply Hin. by apply range_elems_spec.
    + intros v Hv. rewrite Hout; [done|]. by rewrite range_elems_spec.
    + intros v Hv. rewrite Hent by done. destruct (decide (v ∈ range_elems rg)) as [Hd|Hd];
        rewrite range_elems_spec in Hd; [by rewrite decide_True|by rewrite decide_False].
Qed.

(** * Unmapping pages *)

Lemma ms_wf_perm l r s pt As Bs :
  As ≡ₚ Bs → ms_wf l r s (MkMemorySet pt As) → ms_wf l r s (MkMemorySet pt Bs).
Proof.
  intros HP [H1 H2 H3 H4 H5]. cbn in *. pose proof (areas_frames_perm _ _ HP) as HF.
  split; cbn; [done|by rewrite <-HF|by rewrite <-HF| |];
    intros a v p Ha; rewrite <-HP in Ha; [by apply H4|by apply H5].
Qed.

(** An area without frames comes and goes. *)
Lemma ms_wf_tail l r s pt a As :
  area_frames a = [] → ms_wf l r s (MkMemorySet pt (a :: As)) → ms_wf l r s (MkMemorySet pt As).
Proof.
  intros Ha [H1 H2 H3 H4 H5]. cbn [page_table areas] in *. rewrite areas_frames_cons, Ha in H2, H3.
  split; cbn; [done|done|done| |]; intros a' v p Ha'; [apply H4|apply H5]; by right.
Qed.

Section unmap.
Context (l r : Z) (s : Mm) (pt : PageTable) (a : MapArea) (As : list MapArea) (v p : Z).
Context (Hwf : ms_wf l r s (MkMemorySet pt (a :: As))) (Hv : data_frames a !! v = Some p).
Let a' := set_data_frames (delete v (data_frames a)) a.

Lemma unmap_one_spec :
  ∃ s', MapArea_unmap_one a pt v s = Ok (a', s') ∧ ms_wf l r s' (MkMemorySet pt (a' :: As)) ∧
    allocated l (mm_alloc s') = allocated l (mm_alloc s) ∖ {[p]} ∧
    free_frames s' = free_frames s + 1 ∧
    (∀ v', 0 ≤ v' < 2 ^ 27 → entry s' (root_ppn pt) v' =
       if decide (v' = v) then None else entry s (root_ppn pt) v') ∧
    (∀ x, (x ∉ pt_frames pt) → page_at s' x = page_at s x).
Proof.
  pose proof Hwf as [Hpt Hnd Hal Hent Hframed]. cbn [page_table areas] in *.
  destruct (Hent a v p ltac:(by left) Hv) as (Hvr & b & Hb & Hbp).
  rewrite areas_frames_cons, (area_frames_delete a v p Hv) in Hnd, Hal. fold a' in Hnd, Hal.
  rewrite Forall_forall in Hal.
  destruct (frame_drop l r s p (pw_mm _ _ _ _ Hpt) ltac:(apply Hal; set_solver))
    as (s1 & Hrun & Hmm1 & Hpages & Hall & Hfree).
  assert (∀ x, page_at s1 x = page_at s x) as Hpg by (intros; unfold page_at; by rewrite Hpages).
  cbn [app] in Hnd. rewrite <-Permutation_middle in Hnd. apply NoDup_cons in Hnd as [Hpn Hnd].
  destruct (pt_wf_frame l r s s1 pt Hpt Hmm1) as [Hpt1 He1]; [auto| |].
  { intros x Hx. rewrite Hall. pose proof (pt_frames_alloc _ _ _ _ _ Hpt Hx). set_solver. }
  pose proof (unmap_spec l r s1 pt v Hpt1 Hvr) as Hun. rewrite He1, Hb in Hun.
  destruct Hun as (s' & Hrun' & Hpt' & Hall' & Hent' & Hpg').
  exists s'. split_and!.
  - unfold MapArea_unmap_one. rewrite bool_decide_eq_true_2 by (apply (Hframed a v p); [by left|done]).
    erewrite bind_Ok; [by erewrite bind_Ok by exact Hrun'|]. unfold remove_frame. rewrite Hv.
    by erewrite bind_Ok by exact Hrun.
  - split; cbn [page_table areas]; [done|by rewrite areas_frames_cons| | |].
    + apply Forall_forall. intros x Hx. rewrite areas_frames_cons in Hx. rewrite Hall', Hall.
      assert (x ≠ p) by (intros ->; apply Hpn; set_solver). specialize (Hal x ltac:(set_solver)). set_solver.
    + intros a1 v1 p1 Ha1 Hv1.
      assert (v1 ≠ v ∧ ∃ a2, a2 ∈ a :: As ∧ data_frames a2 !! v1 = Some p1) as (Hne & a2 & Ha2 & Hv2).
      { assert (p1 ≠ p) as Hpp.
        { intros ->. apply Hpn. apply elem_of_app. right. rewrite <-areas_frames_cons. apply elem_of_areas_frames. eauto. }
        apply elem_of_cons in Ha1 as [->|Ha1].
        - cbn in Hv1. apply lookup_delete_Some in Hv1 as [Hne Hv1]. split; [done|]. exists a. split; [by left|done].
        - split; [|exists a1; split; [by right|done]]. intros ->.
          destruct (Hent a1 v p1 ltac:(by right) Hv1) as (_ & b1 & Hb1 & Hbp1). congruence. }
      destruct (Hent a2 v1 p1 Ha2 Hv2) as (Hv1r & b1 & Hb1 & Hbp1). split; [done|]. exists b1.
      by rewrite Hent', decide_False, He1.
    + intros a1 v1 p1 [->|Ha1]%elem_of_cons Hv1; [|by apply (Hframed a1 v1 p1); [right|]].
      cbn in Hv1. apply lookup_delete_Some in Hv1 as [_ Hv1]. by apply (Hframed a v1 p1); [left|].
  - by rewrite Hall'.
  - unfold free_frames. rewrite Hall'. apply Hfree.
  - intros v' Hv'. rewrite Hent' by done. by rewrite He1.
  - intros x Hx. by rewrite Hpg', Hpg.
Qed.
End unmap.

(** The frame behind a page of the address space. *)
Definition held (ms : MemorySet) (v p : Z) : Prop := ∃ a, a ∈ areas ms ∧ data_frames a !! v = Some p.

Lemma held_mapped l r s ms v p :
  ms_wf l r s ms → held ms v p → 0 ≤ v < 2 ^ 27 ∧ ∃ b, entry s (ms_root ms) v = Some b ∧ PageTableEntry_ppn b = p.
Proof. intros Hwf (a & Ha & Hv). by eapply mw_entry. Qed.
Lemma held_fun l r s ms v p q : ms_wf l r s ms → held ms v p → held ms v q → p = q.
Proof.
  intros Hwf Hp Hq. destruct (held_mapped _ _ _ _ _ _ Hwf Hp) as (_ & b & Hb & <-).
  destruct (held_mapped _ _ _ _ _ _ Hwf Hq) as (_ & b' & Hb' & <-). congruence.
Qed.
Lemma held_inj l r s ms v v' p : ms_wf l r s ms → held ms v p → held ms v' p → v = v'.
Proof.
  intros Hwf (a & Ha & Hv) (a' & Ha' & Hv'). destruct (decide (v = v')) as [|Hne]; [done|exfalso].
  pose proof (mw_nodup _ _ _ _ Hwf) as Hn. apply NoDup_app in Hn as (_ & _ & Hn).
  apply elem_of_Permutation in Ha as [As Hperm]. rewrite (areas_frames_perm _ _ Hperm) in Hn.
  rewrite areas_frames_cons, (area_frames_delete a v p Hv) in Hn. cbn in Hn. apply NoDup_cons in Hn as [Hn _].
  apply Hn, elem_of_app. rewrite Hperm in Ha'. apply elem_of_cons in Ha' as [->|Ha'].
  - left. apply elem_of_area_frames. exists v'. cbn. by rewrite lookup_delete_ne.
  - right. apply elem_of_areas_frames. eauto.
Qed.

Lemma holds_page_find l v :
  match find_index (holds_page v) l with
  | Some (i, a) => l !! i = Some a ∧ is_Some (data_frames a !! v)
  | None => ∀ a, a ∈ l → data_frames a !! v = None
  end.
Proof.
  destruct (find_index (holds_page v) l) as [[i a]|] eqn:E.
  - apply find_index_Some in E as (Ha & Hh & _). split; [done|].
    unfold holds_page in Hh. by apply bool_decide_eq_true in Hh.
  - intros a Ha. pose proof (proj1 (find_index_None _ _) E a Ha) as Hh. unfold holds_page in Hh.
    apply bool_decide_eq_false in Hh. by apply eq_None_not_Some.
Qed.

Lemma remove_frame_absent v a s : data_frames a !! v = None → remove_frame v a s = Ok (set_data_frames (delete v (data_frames a)) a, s).
Proof. intros Hv. unfold remove_frame. rewrite Hv. by erewrite bind_Ok by reflexivity. Qed.

Lemma MapArea_drop_empty a s : data_frames a = ∅ → MapArea_drop a s = Ok ((), s).
Proof. intros He. unfold MapArea_drop, BTreeMap_values, BTreeMap_iter. by rewrite He, map_to_list_empty. Qed.

Lemma remove_mapped_frame_spec l r s ms v p :
  ms_wf l r s ms → held ms v p →
  ∃ ms' s', remove_mapped_frame v ms s = Ok (ms', s') ∧ ms_wf l r s' ms' ∧ page_table ms' = page_table ms ∧
    (∀ v' p', held ms' v' p' ↔ v' ≠ v ∧ held ms v' p') ∧
    allocated l (mm_alloc s') = allocated l (mm_alloc s) ∖ {[p]} ∧ free_frames s' = free_frames s + 1 ∧
    (∀ v', 0 ≤ v' < 2 ^ 27 → entry s' (ms_root ms) v' = if decide (v' = v) then None else entry s (ms_root ms) v') ∧
    (∀ x, (x ∉ pt_frames (page_table ms)) → page_at s' x = page_at s x).
Proof.
  intros Hwf Hheld. destruct ms as [pt As]. cbn [page_table areas] in *.
  pose proof (holds_page_find As v) as Hfind. unfold remove_mapped_frame. cbn [page_table areas].
  destruct (find_index (holds_page v) As) as [[i a]|] eqn:Hfi; cycle 1.
  { exfalso. destruct Hheld as (a & Ha & Hv). cbn in Ha. by rewrite Hfind in Hv. }
  destruct Hfind as [Hi [q Hq]].
  assert (held (MkMemorySet pt As) v q) as Hheldq by (exists a; split; [by eapply list_elem_of_lookup_2|done]).
  assert (q = p) as -> by (by eapply held_fun).
  pose proof (delete_Permutation _ _ _ Hi) as Hperm.
  pose proof (ms_wf_perm _ _ _ _ _ _ Hperm Hwf) as Hwfp.
  destruct (unmap_one_spec l r s pt a (delete i As) v p Hwfp Hq) as (s1 & Hrun & Hwf1 & Hall & Hfree & Hent & Hpg).
  set (a' := set_data_frames (delete v (data_frames a)) a) in *.
  assert (data_frames a' !! v = None) as Hnone by apply lookup_delete_eq.
  assert (set_data_frames (delete v (data_frames a')) a' = a') as Hsame.
  { unfold a'. cbn. unfold set_data_frames. cbn. f_equal. by rewrite delete_delete_eq. }
  assert (∀ Bs, Bs ≡ₚ a' :: delete i As ∨ (area_frames a' = [] ∧ Bs = delete i As) → ∀ v' p',
    held (MkMemorySet pt Bs) v' p' ↔ v' ≠ v ∧ held (MkMemorySet pt As) v' p') as Hheld'.
  { intros Bs HBs v' p'. assert (held (MkMemorySet pt Bs) v' p' ↔ held (MkMemorySet pt (a' :: delete i As)) v' p') as ->.
    { unfold held. cbn [areas]. destruct HBs as [HB|[He ->]]; [by setoid_rewrite HB|]. split.
      - intros (x & Hx & Hv'). exists x. split; [by right|done].
      - intros (x & [->|Hx]%elem_of_cons & Hv'); [|by exists x].
        exfalso. assert (p' ∈ area_frames a') as Hin by (apply elem_of_area_frames; eauto). rewrite He in Hin.
        by apply not_elem_of_nil in Hin. }
    assert (held (MkMemorySet pt As) v' p' ↔ held (MkMemorySet pt (a :: delete i As)) v' p') as Heq
      by (unfold held; cbn [areas]; by setoid_rewrite <-Hperm).
    rewrite Heq. unfold held. cbn [areas]. split.
    - intros (x & [->|Hx]%elem_of_cons & Hv').
      + cbn in Hv'. apply lookup_delete_Some in Hv' as [? ?]. split; [done|]. exists a. split; [by left|done].
      + split; [|exists x; split; [by right|done]]. intros ->.
        assert (p' = p) as -> by (apply (held_fun _ _ _ _ v p' p Hwf); [apply Heq; exists x; split; [by right|done]|done]).
        pose proof (mw_nodup _ _ _ _ Hwfp) as Hn. apply NoDup_app in Hn as (_ & _ & Hn). cbn in Hn.
        apply NoDup_app in Hn as (_ & Hn & _).
        apply (Hn p); [apply elem_of_area_frames; eauto|]. apply elem_of_areas_frames. eauto.
    - intros (Hne & x & [->|Hx]%elem_of_cons & Hv').
      + exists a'. split; [by left|]. cbn. by rewrite lookup_delete_ne.
      + exists x. split; [by right|done]. }
  erewrite bind_Ok by reflexivity. cbn beta iota. erewrite bind_Ok by exact Hrun.
  erewrite bind_Ok by (by apply remove_frame_absent). rewrite Hsame.
  case_bool_decide as Hempty.
  - assert (area_frames a' = []) as He by (unfold area_frames; by rewrite Hempty, map_to_list_empty).
    eexists _, s1. erewrite bind_Ok by (by apply MapArea_drop_empty). split_and!; [done| |done| |done|done|done|done].
    + by eapply ms_wf_tail.
    + apply Hheld'. right. done.
  - eexists _, s1. split_and!; [done| |done| |done|done|done|done].
    + eapply ms_wf_perm; [|exact Hwf1]. symmetry. by eapply insert_Permutation.
    + apply Hheld'. left. by eapply insert_Permutation.
Qed.

Lemma remove_frames_spec l r vs ms s :
  ms_wf l r s ms → NoDup vs → (∀ v, v ∈ vs → ∃ p, held ms v p) →
  ∃ ms' s', mfold remove_mapped_frame vs ms s = Ok (ms', s') ∧ ms_wf l r s' ms' ∧
    page_table ms' = page_table ms ∧
    (∀ v p, held ms' v p ↔ (v ∉ vs) ∧ held ms v p) ∧
    (∀ x, x ∈ allocated l (mm_alloc s') ↔ x ∈ allocated l (mm_alloc s) ∧ ∀ v, v ∈ vs → ¬ held ms v x) ∧
    (∀ v, 0 ≤ v < 2 ^ 27 → entry s' (ms_root ms) v = if decide (v ∈ vs) then None else entry s (ms_root ms) v) ∧
    (∀ x, (x ∉ pt_frames (page_table ms)) → page_at s' x = page_at s x).
Proof.
  revert ms s. induction vs as [|v vs IH]; intros ms s Hwf Hnd Hvs.
  - exists ms, s. pose proof (not_elem_of_nil (A := Z)) as Hnil.
    split_and!; [done|done|done|naive_solver|naive_solver| |done].
    intros v _. by rewrite decide_False by apply Hnil.
  - apply NoDup_cons in Hnd as [Hnin Hnd]. destruct (Hvs v ltac:(by left)) as [p Hp].
    destruct (remove_mapped_frame_spec l r s ms v p Hwf Hp)
      as (ms1 & s1 & Hrun1 & Hwf1 & Hpt1 & Hheld1 & Hall1 & _ & Hent1 & Hpg1).
    destruct (IH ms1 s1 Hwf1 Hnd) as (ms' & s' & Hrun & Hwf' & Hpt' & Hheld & Hall & Hent & Hpg).
    { intros v' Hv'. destruct (Hvs v' ltac:(by right)) as [q Hq]. exists q. apply Hheld1.
      split; [by intros ->|done]. }
    rewrite Hpt1 in Hent, Hpg, Hpt'. exists ms', s'. split_and!.
    + cbn [mfold]. by erewrite bind_Ok by exact Hrun1.
    + done.
    + done.
    + intros v' q. rewrite Hheld, Hheld1, not_elem_of_cons. naive_solver.
    + intros x. rewrite Hall, Hall1, elem_of_difference, elem_of_singleton. split.
      * intros [[Hx Hxp] Hn]. split; [done|]. intros v' [->|Hv']%elem_of_cons Hh.
        -- apply Hxp. exact (held_fun _ _ _ _ _ _ _ Hwf Hh Hp).
        -- apply (Hn v' Hv'), Hheld1. split; [by intros ->|done].
      * intros [Hx Hn]. split; [split; [done|]|].
        -- intros ->. apply (Hn v); [by left|done].
        -- intros v' Hv' [_ Hh]%Hheld1. apply (Hn v'); [by right|done].
    + intros v' Hv'. rewrite Hent, Hent1 by done. destruct (decide (v' ∈ vs)) as [Hd|Hd].
      * by rewrite decide_True by (by right).
      * destruct (decide (v' = v)) as [->|Hne]; [by rewrite decide_True by (by left)|].
        rewrite decide_False; [done|]. by intros [?|?]%elem_of_cons.
    + intros x Hx. by rewrite Hpg, Hpg1.
Qed.

(** * Properties *)

(** C29: Growing an address space ([insert_framed_area], behind [mmap] and the
    kernel stacks): for a page-aligned range of pages none of which is mapped, and
    enough free frames, the call succeeds, keeps the invariant of the address
    space, maps every page of the range with the permission to a zeroed frame
    that was free before, leaves every other page of the map as it was and the
    contents of all allocated pages outside the tables as they were. *)
Theorem insert_framed_area_maps l r s ms start_va end_va permission :
  let lo := floor start_va in let hi := ceil end_va in
  ms_wf l r s ms → 0 ≤ permission < 256 → 0 ≤ lo ≤ hi → hi ≤ 2 ^ 27 →
  3 * (hi - lo) ≤ free_frames s → (∀ v, lo ≤ v < hi → entry s (ms_root ms) v = None) →
  wp (MemorySet_insert_framed_area ms start_va end_va permission) s (λ '(ok, ms') s',
    ok = true ∧ ms_wf l r s' ms' ∧ ms_root ms' = ms_root ms ∧
    (∀ v, lo ≤ v < hi → ∃ p, held ms' v p ∧ (p ∉ allocated l (mm_alloc s)) ∧ page_at s' p = zero_page ∧
       entry s' (ms_root ms) v = Some (PageTableEntry_new p (Z.lor permission PTE_V))) ∧
    (∀ v, 0 ≤ v < 2 ^ 27 → ¬ lo ≤ v < hi →
       entry s' (ms_root ms) v = entry s (ms_root ms) v ∧ ∀ p, held ms' v p ↔ held ms v p) ∧
    (∀ x, x ∈ allocated l (mm_alloc s) → (x ∉ pt_frames (page_table ms)) → page_at s' x = page_at s x)).
Proof.
  intros lo hi Hwf Hperm Hle Hhi Hfree He.
  destruct (push_framed_spec l r s ms (MkRange lo hi) permission Hwf)
    as (m & pt' & s' & Hrun & Hwf' & Hg & Hf & Hin & Hout & Hent); cbn [range_l range_r] in *; [lia..|done|].
  unfold wp, MemorySet_insert_framed_area, MapArea_new. fold lo hi.
  erewrite bind_Ok; cycle 1.
  { unfold SimpleRange_new. rewrite (proj2 (Z.leb_le lo hi)) by lia. by erewrite !bind_Ok by reflexivity. }
  rewrite Hrun. split_and!; [done|done|by apply Hg| | |apply Hg].
  - intros v Hv. destruct (Hin v Hv) as (p & Hp & Hpn & Hz & _). exists p. split_and!; [|done|done|].
    + eexists. split; [cbn; apply elem_of_app; right; by left|done].
    + rewrite Hent, decide_True, Hp by lia. done.
  - intros v Hv Hnv. rewrite Hent, decide_False by done. split; [done|]. intros p. unfold held. cbn. split.
    + intros (a & [Ha|Ha]%elem_of_app & Hp); [by exists a|]. apply list_elem_of_singleton in Ha as ->.
      cbn in Hp. by rewrite Hout in Hp.
    + intros (a & Ha & Hp). exists a. split; [by apply elem_of_app; left|done].
Qed.

(** C30: Shrinking an address space ([remove_mapped_frames], behind [munmap]): if
    some page of the range belongs to no area, the call returns -1 and changes
    nothing; otherwise it returns 0 and exactly the pages of the range are
    unmapped, exactly their frames are given back, the invariant is kept and no
    page outside the tables is written. *)
Theorem remove_mapped_frames_exact l r s ms start_va end_va :
  let lo := floor start_va in let hi := ceil end_va in
  ms_wf l r s ms → lo ≤ hi →
  wp (MemorySet_remove_mapped_frames ms start_va end_va) s (λ '(res, ms') s',
    res = -1 ∧ ms' = ms ∧ s' = s ∧ (∃ v, lo ≤ v < hi ∧ ∀ p, ¬ held ms v p) ∨
    res = 0 ∧ ms_wf l r s' ms' ∧ ms_root ms' = ms_root ms ∧ (∀ v, lo ≤ v < hi → ∃ p, held ms v p) ∧
    (∀ v p, held ms' v p ↔ ¬ lo ≤ v < hi ∧ held ms v p) ∧
    (∀ x, x ∈ allocated l (mm_alloc s') ↔
       x ∈ allocated l (mm_alloc s) ∧ ∀ v, lo ≤ v < hi → ¬ held ms v x) ∧
    (∀ v, 0 ≤ v < 2 ^ 27 → entry s' (ms_root ms) v =
       if decide (lo ≤ v < hi) then None else entry s (ms_root ms) v) ∧
    (∀ x, (x ∉ pt_frames (page_table ms)) → page_at s' x = page_at s x)).
Proof.
  intros lo hi Hwf Hle. unfold wp, MemorySet_remove_mapped_frames.
  assert (SimpleRange_new (S := Mm) (floor start_va) (ceil end_va) s = Ok (MkRange lo hi, s)) as Hr.
  { unfold SimpleRange_new. fold lo hi. rewrite (proj2 (Z.leb_le lo hi)) by lia. by erewrite bind_Ok by reflexivity. }
  erewrite bind_Ok by exact Hr. set (vs := range_elems (MkRange lo hi)).
  assert (∀ v, v ∈ vs ↔ lo ≤ v < hi) as Hvs by (intros; apply range_elems_spec).
  assert (∀ v, is_Some (find_index (holds_page v) (areas ms)) ↔ ∃ p, held ms v p) as Hfind.
  { intros v. pose proof (holds_page_find (areas ms) v) as H. destruct (find_index _ _) as [[i a]|].
    - split; [|by eexists]. intros _. destruct H as (Hi & p & Hp). exists p, a.
      split; [by eapply list_elem_of_lookup_2|done].
    - split; [by intros []|]. intros (p & a & Ha & Hp). by rewrite H in Hp. }
  destruct (forallb _ vs) eqn:Hall.
  - assert (∀ v, v ∈ vs → ∃ p, held ms v p) as Hheld.
    { intros v Hv. rewrite forallb_forall in Hall. apply Hfind.
      specialize (Hall v (proj1 (list_elem_of_In _ _) Hv)). by apply bool_decide_eq_true in Hall. }
    erewrite bind_Ok by exact Hr.
    destruct (remove_frames_spec l r vs ms s Hwf (NoDup_seqZ _ _) Hheld)
      as (ms' & s' & Hrun & Hwf' & Hpt & Hh & Ha & He & Hpg).
    erewrite bind_Ok by exact Hrun. right. split_and!; [done|done|by rewrite Hpt| | | | |done].
    + intros v Hv. by apply Hheld, Hvs.
    + intros v p. by rewrite Hh, Hvs.
    + intros x. rewrite Ha. by setoid_rewrite Hvs.
    + intros v Hv. rewrite He by done. destruct (decide (v ∈ vs)) as [Hd|Hd]; rewrite Hvs in Hd;
        [by rewrite decide_True|by rewrite decide_False].
  - left. split_and!; [done..|]. apply not_true_iff_false in Hall. rewrite forallb_forall in Hall.
    assert (Exists (λ v, ¬ is_Some (find_index (holds_page v) (areas ms))) vs) as Hex.
    { destruct (Exists_dec (λ v, ¬ is_Some (find_index (holds_page v) (areas ms))) vs) as [|Hn]; [done|].
      exfalso. apply Hall. intros v Hv. apply bool_decide_eq_true. apply dec_stable. intros Hno. apply Hn.
      apply Exists_exists. exists v. split; [by apply list_elem_of_In|done]. }
    apply Exists_exists in Hex as (v & Hv & Hno). exists v. split; [by apply Hvs|].
    intros p Hp. apply Hno, Hfind. by exists p.
Qed.

(** * Witnesses *)

(** A bare address space in a kernel with frames 100 to 119, and one with the
    pages 5 and 6. *)
Lemma ex_ms : ∃ ms s, ms_wf 100 120 s ms ∧ free_frames s = 17 ∧ (∀ v, entry s (ms_root ms) v = None).
Proof.
  destruct (PageTable_new_spec 100 120 ex_mm ex_mm_wf ltac:(rewrite ex_free; lia))
    as (p & s & _ & Hwf & _ & _ & _ & Hf & He & _).
  exists (MkMemorySet (MkPageTable p [p]) []), s. rewrite Hf, ex_free. split_and!; [|done|done].
  split; cbn; [done|by apply NoDup_singleton|constructor| |];
    intros a v q Ha; by apply not_elem_of_nil in Ha.
Qed.
Lemma ex_ms_area : ∃ ms s, ms_wf 100 120 s ms ∧ (∀ v, 5 ≤ v < 7 → ∃ p, held ms v p) ∧ (∀ p, ¬ held ms 7 p).
Proof.
  destruct ex_ms as (ms & s & Hwf & Hf & He).
  destruct (push_framed_spec 100 120 s ms (MkRange 5 7) 6 Hwf)
    as (m & pt' & s' & _ & Hwf' & Hg & _ & Hin & _ & Hent); cbn [range_l range_r] in *; [lia..|intros; apply He|].
  eexists _, s'. split; [exact Hwf'|]. split.
  - intros v Hv. destruct (Hin v Hv) as (p & Hp & _). exists p, (MkMapArea (MkRange 5 7) m Framed 6).
    split; [|exact Hp]. cbn. apply elem_of_app. right. by left.
  - intros p Hp. destruct (held_mapped _ _ _ _ _ _ Hwf' Hp) as (_ & b & Hb & _). cbn [page_table] in Hb.
    rewrite (gr_root _ _ _ _ _ Hg) in Hb. specialize (Hent 7 ltac:(lia)).
    rewrite decide_False, He in Hent by lia. congruence.
Qed.

Lemma insert_framed_area_maps_witness :
  ∃ ms s, wp (MemorySet_insert_framed_area ms 0x5000 0x7000 6) s (λ '(ok, ms') s',
    ok = true ∧ ms_wf 100 120 s' ms' ∧ is_Some (entry s' (ms_root ms) 5) ∧ entry s' (ms_root ms) 7 = None).
Proof.
  destruct ex_ms as (ms & s & Hwf & Hf & He). exists ms, s.
  pose proof (insert_framed_area_maps 100 120 s ms 0x5000 0x7000 6 Hwf ltac:(lia)) as H.
  specialize (H ltac:(vm_compute; intuition discriminate) ltac:(vm_compute; discriminate)).
  specialize (H ltac:(rewrite Hf; vm_compute; discriminate) (λ v _, He v)).
  eapply wp_mono; [exact H|]. intros [ok ms'] s' (-> & Hwf' & _ & Hin & Hout & _). split_and!; [done|done| |].
  - destruct (Hin 5) as (p & _ & _ & _ & Hp); [vm_compute; intuition discriminate|]. by eexists.
  - destruct (Hout 7) as [Hp _]; [lia|vm_compute; intuition discriminate|]. by rewrite Hp, He.
Defined.

Lemma remove_mapped_frames_exact_witness :
  ∃ ms s, wp (MemorySet_remove_mapped_frames ms 0x5000 0x6000) s (λ '(res, ms') s',
    res = 0 ∧ ms_wf 100 120 s' ms' ∧ entry s' (ms_root ms) 5 = None) ∧
  wp (MemorySet_remove_mapped_frames ms 0x5000 0x8000) s (λ '(res, ms') s', res = -1 ∧ s' = s).
Proof.
  destruct ex_ms_area as (ms & s & Hwf & Hin & Hout). exists ms, s. split.
  - pose proof (remove_mapped_frames_exact 100 120 s ms 0x5000 0x6000 Hwf ltac:(vm_compute; discriminate)) as H.
    eapply wp_mono; [exact H|]. intros [res ms'] s' [(-> & _ & _ & v & Hv & Hn)|(-> & Hwf' & _ & _ & _ & _ & He & _)].
    + exfalso. change (ceil 0x6000) with 6 in Hv. change (floor 0x5000) with 5 in Hv.
      destruct (Hin v ltac:(lia)) as [p Hp]. by apply (Hn p).
    + split_and!; [done|done|]. rewrite He, decide_True; [done|vm_compute; intuition discriminate|lia].
  - pose proof (remove_mapped_frames_exact 100 120 s ms 0x5000 0x8000 Hwf ltac:(vm_compute; discriminate)) as H.
    eapply wp_mono; [exact H|]. intros [res ms'] s' [(-> & _ & -> & _)|(-> & _ & _ & Hall & _)]; [done|].
    exfalso. destruct (Hall 7) as [p Hp]; [vm_compute; intuition discriminate|]. by apply (Hout p).
Defined.
