(* ===== verification/ForkSpec.v ===== *)
(** [fork]'s copy of an address space ([MemorySet::from_existed_userspace]): the
    copy maps the same pages with the same permissions to frames of its own that
    hold the same bytes, and the original is untouched. *)

From S2P Require Export MemorySetSpec.

(** * Two address spaces in one memory *)

(** The frames an address space owns. *)
Definition footprint (ms : MemorySet) : list Z := pt_frames (page_table ms) ++ areas_frames (areas ms).
Definition pages_ok (s : Mm) (ms : MemorySet) : Prop := ∀ v p, held ms v p → page_ok s p.

Lemma footprint_alloc l r s ms x : ms_wf l r s ms → x ∈ footprint ms → x ∈ allocated l (mm_alloc s).
Proof.
  intros Hwf [Hx|Hx]%elem_of_app; [by eapply pt_frames_alloc; [apply (mw_pt _ _ _ _ Hwf)|]|].
  pose proof (mw_alloc _ _ _ _ Hwf) as Ha. rewrite Forall_forall in Ha. by apply Ha.
Qed.
Lemma held_footprint ms v p : held ms v p → p ∈ footprint ms.
Proof. intros (a & Ha & Hv). apply elem_of_app. right. apply elem_of_areas_frames. eauto. Qed.
Lemma held_not_table l r s ms v p : ms_wf l r s ms → held ms v p → p ∉ pt_frames (page_table ms).
Proof.
  intros Hwf (a & Ha & Hv) Hp. pose proof (mw_nodup _ _ _ _ Hwf) as Hn. apply NoDup_app in Hn as (_ & Hn & _).
  apply (Hn p Hp), elem_of_areas_frames. eauto.
Qed.

(** What happens to other frames does not matter to an address space. *)
Lemma ms_wf_other l r s s' ms :
  ms_wf l r s ms → mm_wf l r s' → (∀ x, x ∈ pt_frames (page_table ms) → page_at s' x = page_at s x) →
  allocated l (mm_alloc s) ⊆ allocated l (mm_alloc s') →
  ms_wf l r s' ms ∧ ∀ v, entry s' (ms_root ms) v = entry s (ms_root ms) v.
Proof.
  intros Hwf Hmm Hp Ha. destruct (pt_wf_frame l r s s' (page_table ms) (mw_pt _ _ _ _ Hwf) Hmm Hp) as [Hpt He].
  { intros x Hx. apply Ha. eapply footprint_alloc; [done|]. apply elem_of_app. by left. }
  split; [|done]. destruct ms as [pt As]. by eapply ms_wf_pages.
Qed.
Lemma mm_wf_set_page l r s q pg : mm_wf l r s → mm_wf l r (set_page q pg s).
Proof.
  intros [Ha Hp]. split; [done|]. intros p Hpr. cbn. destruct (decide (p = q)) as [->|].
  - rewrite lookup_insert_eq. by eexists.
  - rewrite lookup_insert_ne by done. by apply Hp.
Qed.
Lemma ms_wf_set_page l r s ms q pg :
  ms_wf l r s ms → (q ∉ pt_frames (page_table ms)) →
  ms_wf l r (set_page q pg s) ms ∧ ∀ v, entry (set_page q pg s) (ms_root ms) v = entry s (ms_root ms) v.
Proof.
  intros Hwf Hq. apply ms_wf_other; [done|apply mm_wf_set_page, (mw_pt _ _ _ _ Hwf)| |done].
  intros x Hx. rewrite page_at_set. by rewrite decide_False by congruence.
Qed.

(** * Copying pages *)

Lemma copy_page_run l r s parent child v p q :
  ms_wf l r s parent → ms_wf l r s child → held parent v p → held child v q → page_ok s p → page_ok s q →
  copy_page parent child v s = Ok ((), set_page q (page_at s p) s).
Proof.
  intros Hwp Hwc Hp Hq (Hpm & Hpl & _) (Hqm & Hql & _).
  destruct (held_mapped _ _ _ _ _ _ Hwp Hp) as (_ & b & Hb & Hbp).
  destruct (held_mapped _ _ _ _ _ _ Hwc Hq) as (_ & c & Hc & Hcq).
  unfold copy_page, MemorySet_translate.
  erewrite bind_Ok by exact (translate_spec l r s (page_table parent) _ v (mw_pt _ _ _ _ Hwp) eq_refl). rewrite Hb.
  erewrite bind_Ok by reflexivity.
  erewrite bind_Ok by exact (translate_spec l r s (page_table child) _ v (mw_pt _ _ _ _ Hwc) eq_refl). rewrite Hc.
  erewrite bind_Ok by reflexivity. rewrite Hbp, Hcq.
  erewrite bind_Ok by (by apply get_bytes_array_Ok). erewrite bind_Ok by (by apply get_bytes_array_Ok).
  assert (copy_into (S := Mm) (page_at s q) 0 4096 (page_at s p) s = Ok (page_at s p, s)) as Hcp.
  { unfold copy_into. rewrite Hql, Hpl. cbn -[splice]. unfold splice. rewrite Hpl. cbn [take app].
    rewrite drop_ge, app_nil_r by (rewrite Hql; lia). done. }
  erewrite bind_Ok by exact Hcp. by apply set_bytes_array_Ok with (page_at s q).
Qed.

Lemma copy_pages_spec l r parent child vs s :
  ms_wf l r s parent → ms_wf l r s child → pages_ok s parent → pages_ok s child → NoDup vs →
  (∀ x, x ∈ footprint parent → x ∉ footprint child) →
  (∀ v, v ∈ vs → (∃ p, held parent v p) ∧ ∃ q, held child v q) →
  ∃ s', mfor (copy_page parent child) vs s = Ok ((), s') ∧ mm_alloc s' = mm_alloc s ∧
    ms_wf l r s' parent ∧ ms_wf l r s' child ∧ pages_ok s' child ∧
    (∀ v, entry s' (ms_root child) v = entry s (ms_root child) v) ∧
    (∀ v p q, v ∈ vs → held parent v p → held child v q → page_at s' q = page_at s p) ∧
    (∀ x, (∀ v, v ∈ vs → ¬ held child v x) → page_at s' x = page_at s x).
Proof.
  intros Hwp Hwc Hop Hoc Hnd Hdis. revert s Hwp Hwc Hop Hoc.
  induction vs as [|v vs IH]; intros s Hwp Hwc Hop Hoc Hvs.
  { exists s. split_and!; try done. intros v p q Hv. by apply not_elem_of_nil in Hv. }
  apply NoDup_cons in Hnd as [Hnin Hnd]. destruct (Hvs v ltac:(by left)) as [[p Hp] [q Hq]].
  pose proof (copy_page_run l r s parent child v p q Hwp Hwc Hp Hq (Hop v p Hp) (Hoc v q Hq)) as Hrun.
  pose proof (held_not_table _ _ _ _ _ _ Hwc Hq) as Hqt.
  assert (q ∉ footprint parent) as Hqp by (intros Hin; apply (Hdis q Hin); by eapply held_footprint).
  destruct (Hop v p Hp) as (_ & Hlen & Hbytes).
  destruct (ms_wf_set_page l r s parent q (page_at s p) Hwp) as [Hwp1 _]; [set_solver|].
  destruct (ms_wf_set_page l r s child q (page_at s p) Hwc Hqt) as [Hwc1 He1].
  destruct (IH Hnd (set_page q (page_at s p) s) Hwp1 Hwc1) as (s' & Hrun' & Ha' & Hwp' & Hwc' & Hoc' & He' & Hin & Hout).
  - intros v' p' Hp'. apply page_ok_set; [by eapply Hop|done|done].
  - intros v' q' Hq'. apply page_ok_set; [by eapply Hoc|done|done].
  - intros v' Hv'. apply Hvs. by right.
  - exists s'. split_and!; [|done|done|done|done|by intros; rewrite He', He1| |].
    + unfold mfor. cbn [mfold]. erewrite bind_Ok by exact Hrun. exact Hrun'.
    + intros v' p' q' [->|Hv']%elem_of_cons Hp' Hq'.
      * pose proof (held_fun _ _ _ _ _ _ _ Hwp Hp' Hp) as ->. pose proof (held_fun _ _ _ _ _ _ _ Hwc Hq' Hq) as ->.
        rewrite Hout, page_at_set; [by rewrite decide_True|]. intros w Hw Hh. apply Hnin.
        by rewrite (held_inj _ _ _ _ _ _ _ Hwc Hq Hh).
      * rewrite (Hin v' p' q' Hv' Hp' Hq'), page_at_set. rewrite decide_False; [done|].
        intros ->. apply Hqp. by eapply held_footprint.
    + intros x Hx. rewrite Hout, page_at_set; [|intros w Hw; apply Hx; by right].
      rewrite decide_False; [done|]. intros ->. apply (Hx v); [by left|done].
Qed.

(** * The loop over the areas *)

Definition in_range (a : MapArea) (v : Z) : Prop := range_l (vpn_range a) ≤ v < range_r (vpn_range a).
(** The page of the trampoline. *)
Definition trampoline_vpn : Z := 2 ^ 27 - 1.

(** An area all of whose pages are there, below the trampoline. *)
Record area_full (a : MapArea) : Prop := {
  af_framed : map_type a = Framed;
  af_perm : 0 ≤ map_perm a < 256;
  af_low : 0 ≤ range_l (vpn_range a) ≤ range_r (vpn_range a);
  af_high : range_r (vpn_range a) ≤ trampoline_vpn;
  af_all v : in_range a v → is_Some (data_frames a !! v);
  af_only v p : data_frames a !! v = Some p → in_range a v }.
Definition area_pages (a : MapArea) : Z := range_r (vpn_range a) - range_l (vpn_range a).
Definition total_pages (As : list MapArea) : Z := foldr (λ a n, area_pages a + n) 0 As.

(** After the areas [done] were copied. *)
Record forked (l r : Z) (s0 : Mm) (parent : MemorySet) (mapped done : list MapArea) (child : MemorySet) (s : Mm) : Prop := {
  fk_parent : ms_wf l r s parent;
  fk_child : ms_wf l r s child;
  fk_alloc : allocated l (mm_alloc s0) ⊆ allocated l (mm_alloc s);
  fk_fresh x : x ∈ footprint child → x ∉ allocated l (mm_alloc s0);
  fk_pages x : x ∈ allocated l (mm_alloc s0) → page_at s x = page_at s0 x;
  fk_ok : pages_ok s child;
  fk_none v : 0 ≤ v < trampoline_vpn → (∀ a, a ∈ mapped → ¬ in_range a v) → entry s (ms_root child) v = None;
  fk_copy a v p : a ∈ done → data_frames a !! v = Some p →
    ∃ q, held child v q ∧ page_at s q = page_at s0 p ∧
      entry s (ms_root child) v = Some (PageTableEntry_new q (Z.lor (map_perm a) PTE_V)) }.

Lemma areas_disjoint l r s ms A1 a A2 a' v :
  ms_wf l r s ms → areas ms = A1 ++ a :: A2 → a' ∈ A1 →
  is_Some (data_frames a !! v) → is_Some (data_frames a' !! v) → False.
Proof.
  intros Hwf Has Ha' [p Hp] [p' Hp'].
  assert (p' = p) as ->.
  { apply (held_fun _ _ _ _ v p' p Hwf); [exists a'|exists a]; rewrite Has; (split; [set_solver|done]). }
  pose proof (mw_nodup _ _ _ _ Hwf) as Hn. apply NoDup_app in Hn as (_ & _ & Hn).
  rewrite Has, areas_frames_app in Hn. apply NoDup_app in Hn as (_ & Hn & _).
  apply (Hn p); apply elem_of_areas_frames; [by exists a', v|exists a, v; split; [by left|done]].
Qed.

(** One round of the loop. *)
Definition copy_area (user_space : MemorySet) (area : MapArea) (memory_set : MemorySet) : M Mm MemorySet :=
  a ← MapArea_from_another area;
  memory_set ← push_unwrap memory_set a None;
  mfor (copy_page user_space memory_set) (range_elems (vpn_range area));;
  mret memory_set.

Lemma from_another_run a (s : Mm) :
  range_l (vpn_range a) ≤ range_r (vpn_range a) →
  MapArea_from_another a s = Ok (MkMapArea (vpn_range a) ∅ (map_type a) (map_perm a), s).
Proof.
  intros Hle. unfold MapArea_from_another, SimpleRange_new. rewrite (proj2 (Z.leb_le _ _)) by done.
  cbn. by destruct (vpn_range a).
Qed.

Section round.
Context (l r : Z) (s0 : Mm) (parent : MemorySet) (done_ rest : list MapArea) (a : MapArea) (child : MemorySet) (s : Mm).
Context (Hareas : areas parent = done_ ++ a :: rest).
Context (Hfull : Forall area_full (areas parent)) (Hok : pages_ok s0 parent) (Hwf0 : ms_wf l r s0 parent).
Context (Hf : forked l r s0 parent done_ done_ child s) (Hfree : 3 * area_pages a ≤ free_frames s).

Lemma round_area : area_full a.
Proof. rewrite Hareas in Hfull. apply Forall_app in Hfull as [_ H]. by apply Forall_inv in H. Qed.
Lemma round_held v p : data_frames a !! v = Some p → held parent v p.
Proof. intros Hv. exists a. rewrite Hareas. split; [|done]. set_solver. Qed.
Lemma round_parent_pages s' :
  mm_wf l r s' → allocated l (mm_alloc s0) ⊆ allocated l (mm_alloc s') →
  (∀ x, x ∈ allocated l (mm_alloc s0) → page_at s' x = page_at s0 x) → ms_wf l r s' parent ∧ pages_ok s' parent.
Proof.
  intros Hmm Ha Hp. split.
  - apply (ms_wf_other l r s0); [done|done| |done]. intros x Hx. apply Hp. eapply footprint_alloc; [exact Hwf0|].
    apply elem_of_app. by left.
  - intros v p Hv. assert (p ∈ allocated l (mm_alloc s0)) as Hin by (eapply footprint_alloc; [exact Hwf0|by eapply held_footprint]).
    apply (page_ok_same l r s0); [by eapply Hok|done|by apply Ha|by apply Hp].
Qed.

Lemma round_full a' : a' ∈ done_ → area_full a'.
Proof. intros Ha'. rewrite Forall_forall in Hfull. apply Hfull. rewrite Hareas. set_solver. Qed.
Lemma round_disjoint a' v : a' ∈ done_ → in_range a v → in_range a' v → False.
Proof.
  intros Ha' Hv Hv'.
  by apply (areas_disjoint l r s0 parent done_ a rest a' v Hwf0 Hareas Ha'); [apply round_area|apply round_full].
Qed.

Lemma copy_area_push : ∃ m pt' s1,
  let child1 := MkMemorySet pt' (areas child ++ [MkMapArea (vpn_range a) m Framed (map_perm a)]) in
  push_unwrap child (MkMapArea (vpn_range a) ∅ (map_type a) (map_perm a)) None s = Ok (child1, s1) ∧
  forked l r s0 parent (done_ ++ [a]) done_ child1 s1 ∧ pages_ok s1 parent ∧ free_frames s - 3 * area_pages a ≤ free_frames s1 ∧
  (∀ v, in_range a v → ∃ q, m !! v = Some q ∧
     entry s1 (ms_root child1) v = Some (PageTableEntry_new q (Z.lor (map_perm a) PTE_V))) ∧
  (∀ v q, m !! v = Some q → in_range a v).
Proof.
  destruct round_area as [Hty Hperm Hlow Hhigh Hall Honly]. destruct Hf as [Hpar Hch Hal Hfr Hpg Hcok Hnone Hcopy].
  destruct (push_framed_spec l r s child (vpn_range a) (map_perm a) Hch)
    as (m & pt' & s1 & Hrun & Hwf1 & Hg & Hf1 & Hin & Hout & Hent); [lia|done|done|lia|unfold trampoline_vpn in *; lia| |].
  { intros v Hv. apply Hnone; [unfold trampoline_vpn in *; lia|]. intros a' Ha' Hr'. by eapply round_disjoint. }
  exists m, pt', s1. cbn zeta. set (child1 := MkMemorySet _ _) in *.
  pose proof (gr_root _ _ _ _ _ Hg) as Hroot. pose proof (gr_alloc _ _ _ _ _ Hg) as Hga.
  assert (∀ x, x ∈ allocated l (mm_alloc s0) → page_at s1 x = page_at s x) as Hpg1.
  { intros x Hx. apply (gr_page _ _ _ _ _ Hg); [by apply Hal|]. intros Hxc. apply (Hfr x); [|done]. apply elem_of_app. by left. }
  assert (∀ v, ¬ in_range a v → m !! v = None) as Hm by exact Hout.
  assert (∀ v q, held child1 v q → held child v q ∨ in_range a v ∧ m !! v = Some q) as Hheld.
  { intros v q (b & [Hb|Hb]%elem_of_app & Hv); [left; by exists b|]. apply list_elem_of_singleton in Hb as ->. cbn in Hv.
    right. split; [|done]. apply dec_stable. intros Hn. unfold in_range in *. rewrite Hm in Hv; done. }
  destruct (round_parent_pages s1) as [Hpar1 Hpok1]; [apply (mw_pt _ _ _ _ Hwf1)|set_solver|by intros; rewrite Hpg1; auto|].
  assert (∀ v q, held child v q → page_at s1 q = page_at s q ∧ page_ok s1 q) as Hold.
  { intros v q Hq. assert (page_at s1 q = page_at s q) as He.
    { apply (gr_page _ _ _ _ _ Hg); [eapply footprint_alloc; [exact Hch|by eapply held_footprint]|by eapply held_not_table]. }
    split; [done|]. apply (page_ok_same l r s); [by eapply Hcok|apply (mw_pt _ _ _ _ Hwf1)| |done].
    apply Hga. eapply footprint_alloc; [exact Hch|by eapply held_footprint]. }
  split_and!.
  - unfold push_unwrap. rewrite Hty. erewrite bind_Ok by exact Hrun. done.
  - split; [done|exact Hwf1|set_solver| |by intros; rewrite Hpg1; auto| | |].
    + intros x [Hx|Hx]%elem_of_app Hx0.
      * destruct (gr_frames _ _ _ _ _ Hg x Hx) as [Hxc|Hxn]; [|by apply Hxn, Hal].
        apply (Hfr x); [apply elem_of_app; by left|done].
      * apply elem_of_areas_frames in Hx as (b & v & Hb & Hv). destruct (Hheld v x) as [Hh|[Hr Hv']]; [by exists b| |].
        -- apply (Hfr x); [by eapply held_footprint|done].
        -- destruct (Hin v Hr) as (q & Hq & Hqn & _). apply Hqn, Hal. congruence.
    + intros v q [Hh|[Hr Hv]]%Hheld; [by eapply Hold|]. destruct (Hin v Hr) as (q' & Hq' & _ & _ & Hqok). congruence.
    + intros v Hv Hd. cbn [page_table child1]. rewrite Hroot, Hent by (unfold trampoline_vpn in *; lia).
      rewrite decide_False by (apply (Hd a); set_solver). apply Hnone; [done|]. intros a' Ha'. apply Hd. set_solver.
    + intros a' v p Ha' Hv. destruct (Hcopy a' v p Ha' Hv) as (q & (b & Hb & Hbv) & Hq & He).
      exists q. split; [exists b; cbn; split; [set_solver|done]|]. split.
      * rewrite <-Hq. eapply Hold. by exists b.
      * assert (in_range a' v) as Hr' by (by eapply round_full). destruct (round_full a' Ha') as [_ _ ? ? _ _].
        unfold in_range in Hr'. cbn [page_table child1]. rewrite Hroot, Hent by (unfold trampoline_vpn in *; lia).
        rewrite decide_False; [done|]. intros Hr. by eapply round_disjoint.
  - done.
  - exact Hf1.
  - intros v Hr. destruct (Hin v Hr) as (q & Hq & _). exists q. split; [done|]. unfold in_range in Hr.
    cbn [page_table child1]. rewrite Hroot, Hent, decide_True, Hq by (unfold trampoline_vpn in *; lia). done.
  - intros v q Hv. apply dec_stable. intros Hn. rewrite Hm in Hv; done.
Qed.

Lemma copy_area_spec : ∃ child' s', copy_area parent a child s = Ok (child', s') ∧
  forked l r s0 parent (done_ ++ [a]) (done_ ++ [a]) child' s' ∧ free_frames s - 3 * area_pages a ≤ free_frames s'.
Proof.
  destruct copy_area_push as (m & pt' & s1 & Hpush & Hf1 & Hpok1 & Hfree1 & Hin & Honly).
  set (child1 := MkMemorySet _ _) in *. destruct Hf1 as [Hpar Hch Hal Hfr Hpg Hcok Hnone Hcopy].
  assert (∀ v q, m !! v = Some q → held child1 v q) as Hheld.
  { intros v q Hq. eexists. split; [cbn; apply elem_of_app; right; by left|done]. }
  destruct (copy_pages_spec l r parent child1 (range_elems (vpn_range a)) s1)
    as (s' & Hrun & Ha' & Hpar' & Hch' & Hcok' & He' & Hcp & Hsame); try done.
  - apply NoDup_seqZ.
  - intros x Hx Hxc. apply (Hfr x Hxc). by eapply footprint_alloc.
  - intros v Hv%range_elems_spec. split.
    + destruct (af_all _ round_area v Hv) as [p Hp]. exists p. by apply round_held.
    + destruct (Hin v Hv) as (q & Hq & _). exists q. by apply Hheld.
  - exists child1, s'. split; [|split; [|unfold free_frames in *; by rewrite Ha']].
    { unfold copy_area. erewrite bind_Ok by (apply from_another_run, round_area). erewrite bind_Ok by exact Hpush.
      by erewrite bind_Ok by exact Hrun. }
    split; try done.
    + by rewrite Ha'.
    + intros x Hx. rewrite Hsame; [by apply Hpg|]. intros v _ Hh. by eapply Hfr; [eapply held_footprint|].
    + intros v Hv Hd. rewrite He'. by apply Hnone.
    + intros a' v p [Ha|Ha]%elem_of_app Hv.
      * destruct (Hcopy a' v p Ha Hv) as (q & Hq & Hqp & He). exists q. split; [done|]. split; [|by rewrite He'].
        rewrite <-Hqp. apply Hsame. intros w Hw%range_elems_spec Hh. pose proof (held_inj _ _ _ _ _ _ _ Hch Hq Hh) as <-.
        apply (round_disjoint a' v Ha Hw). by eapply round_full.
      * apply list_elem_of_singleton in Ha as ->. pose proof (af_only _ round_area v p Hv) as Hr.
        destruct (Hin v Hr) as (q & Hq & He). exists q. split; [by apply Hheld|]. split; [|by rewrite He'].
        rewrite (Hcp v p q); [|by apply range_elems_spec|by apply round_held|by apply Hheld].
        apply Hpg. eapply footprint_alloc; [exact Hwf0|]. eapply held_footprint. by apply round_held.
Qed.
End round.

Lemma total_pages_pos As : Forall area_full As → 0 ≤ total_pages As.
Proof.
  induction 1 as [|b As Hb _ IH]; [done|]. cbn. fold (total_pages As). destruct Hb as [_ _ ? _ _ _].
  unfold area_pages. lia.
Qed.
Lemma copy_areas_spec l r s0 parent done_ todo child s :
  areas parent = done_ ++ todo → Forall area_full (areas parent) → pages_ok s0 parent → ms_wf l r s0 parent →
  forked l r s0 parent done_ done_ child s → 3 * total_pages todo ≤ free_frames s →
  ∃ child' s', mfold (copy_area parent) todo child s = Ok (child', s') ∧
    forked l r s0 parent (areas parent) (areas parent) child' s'.
Proof.
  intros Hareas Hfull Hok Hwf0. revert done_ child s Hareas.
  induction todo as [|a todo IH]; intros done_ child s Hareas Hf Hfree.
  - exists child, s. rewrite app_nil_r in Hareas. by rewrite Hareas.
  - cbn [total_pages foldr] in Hfree. fold (total_pages todo) in Hfree.
    assert (0 ≤ total_pages todo).
    { apply total_pages_pos. rewrite Hareas in Hfull. apply Forall_app in Hfull as [_ Hx]. by apply Forall_inv_tail in Hx. }
    destruct (copy_area_spec l r s0 parent done_ todo a child s Hareas Hfull Hok Hwf0 Hf ltac:(lia))
      as (child1 & s1 & Hrun & Hf1 & Hfree1).
    destruct (IH (done_ ++ [a]) child1 s1) as (child' & s' & Hrun' & Hf'); [by rewrite <-app_assoc|done|lia|].
    exists child', s'. split; [|done]. cbn [mfold]. by erewrite bind_Ok by exact Hrun.
Qed.

(** * The empty copy *)

(** A fresh address space maps the trampoline, in table frames that were free. *)
Lemma bare_space_spec l r s0 sym :
  mm_wf l r s0 → 0 ≤ strampoline sym < 2 ^ 56 → strampoline sym mod 4096 = 0 → 3 ≤ free_frames s0 →
  ∃ pt s, (ms ← MemorySet_new_bare; MemorySet_map_trampoline sym ms) s0 = Ok (MkMemorySet pt [], s) ∧
    ms_wf l r s (MkMemorySet pt []) ∧ allocated l (mm_alloc s0) ⊆ allocated l (mm_alloc s) ∧
    (∀ x, x ∈ pt_frames pt → x ∉ allocated l (mm_alloc s0)) ∧
    (∀ x, x ∈ allocated l (mm_alloc s0) → page_at s x = page_at s0 x) ∧
    (∀ v, 0 ≤ v < trampoline_vpn → entry s (root_ppn pt) v = None) ∧ free_frames s0 - 3 ≤ free_frames s.
Proof.
  intros Hwf0 Hst Hal Hfree.
  destruct (PageTable_new_spec l r s0 Hwf0 ltac:(lia)) as (p & s1 & Hrun1 & Hwf1 & Hp & Hpn & Hall1 & Hf1 & He1 & Hpg1).
  destruct (map_spec l r s1 (MkPageTable p [p]) trampoline_vpn (strampoline sym / 4096) (Z.lor PTE_R PTE_X))
    as (pt' & s & Hrun & Hwf & Hr & (new & Hfr & Hnew & Hnd & Hall & _) & Hf & He & Hpg); cbn [root_ppn pt_frames] in *;
    [done|lia|apply He1|unfold trampoline_vpn; lia|lia|vm_compute; intuition discriminate|].
  assert (∀ x, x ∈ pt_frames pt' → x ∉ allocated l (mm_alloc s0)) as Hfresh.
  { intros x. rewrite Hfr. intros [->%list_elem_of_singleton|Hx]%elem_of_app; [done|].
    rewrite Forall_forall in Hnew. specialize (Hnew x Hx). rewrite Hall1 in Hnew. set_solver. }
  exists pt', s. split_and!; [| |rewrite Hall, Hall1; set_solver|exact Hfresh| | |lia].
  - erewrite bind_Ok by (unfold MemorySet_new_bare; by erewrite bind_Ok by exact Hrun1).
    unfold MemorySet_map_trampoline. change (PageNum_from_Addr (VirtAddr_from TRAMPOLINE)) with (mret trampoline_vpn : M Mm Z).
    erewrite bind_Ok by reflexivity. assert (PageNum_from_Addr (S := Mm) (PhysAddr_from (strampoline sym)) s1 = Ok (strampoline sym / 4096, s1)) as Hpn1.
    { rewrite PhysAddr_from_mod, Z.mod_small by done. unfold PageNum_from_Addr, aligned. rewrite page_offset_mod, Hal. done. }
    erewrite bind_Ok by exact Hpn1. by erewrite bind_Ok by exact Hrun.
  - split; cbn; [done| |constructor| |].
    + rewrite app_nil_r, Hfr. apply (NoDup_cons_2 p new); [|done]. intros Hin. rewrite Forall_forall in Hnew.
      apply (Hnew p Hin). rewrite Hall1. set_solver.
    + intros a v q Ha. by apply not_elem_of_nil in Ha.
    + intros a v q Ha. by apply not_elem_of_nil in Ha.
  - intros x Hx. rewrite Hpg by (intros Hin; by apply (Hfresh x)). unfold page_at. rewrite Hpg1; [done|]. by intros ->.
  - intros v Hv. rewrite Hr, He by (unfold trampoline_vpn in *; lia). rewrite decide_False by lia. apply He1.
Qed.
Lemma not_held_nil pt v q : ¬ held (MkMemorySet pt []) v q.
Proof. intros (a & Ha & _). by apply not_elem_of_nil in Ha. Qed.

Lemma new_space_spec l r s0 parent sym :
  ms_wf l r s0 parent → pages_ok s0 parent → 0 ≤ strampoline sym < 2 ^ 56 → strampoline sym mod 4096 = 0 →
  3 ≤ free_frames s0 →
  ∃ child s, (ms ← MemorySet_new_bare; MemorySet_map_trampoline sym ms) s0 = Ok (child, s) ∧
    forked l r s0 parent [] [] child s ∧ free_frames s0 - 3 ≤ free_frames s.
Proof.
  intros Hwf0 Hok Hst Hal Hfree.
  destruct (bare_space_spec l r s0 sym (pw_mm _ _ _ _ (mw_pt _ _ _ _ Hwf0)) Hst Hal Hfree)
    as (pt & s & Hrun & Hwf & Hsub & Hfresh & Hsame & Hnone & Hf).
  exists (MkMemorySet pt []), s. split; [done|]. split; [|done]. split; try done.
  - apply (ms_wf_other l r s0); [done|apply Hwf| |done]. intros x Hx. apply Hsame. eapply footprint_alloc; [exact Hwf0|].
    apply elem_of_app. by left.
  - intros x [Hx|Hx]%elem_of_app; [by apply Hfresh|]. by apply not_elem_of_nil in Hx.
  - intros v q Hq. by apply not_held_nil in Hq.
  - intros v Hv _. by apply Hnone.
  - intros a v q Ha. by apply not_elem_of_nil in Ha.
Qed.

(** * Properties *)

(** C33: [fork] copies an address space: for a user space whose areas are complete
    and below the trampoline, and enough free frames, the copy succeeds; every
    page of the original is mapped in the copy, with the permission of its area,
    to a frame that was free before and now holds the same bytes; nothing else
    below the trampoline is mapped; both spaces satisfy their invariant, share no
    frame, and no byte of any frame that was in use before is changed. *)
Theorem fork_copies_address_space l r s0 parent sym :
  ms_wf l r s0 parent → pages_ok s0 parent → Forall area_full (areas parent) →
  0 ≤ strampoline sym < 2 ^ 56 → strampoline sym mod 4096 = 0 → 3 + 3 * total_pages (areas parent) ≤ free_frames s0 →
  wp (MemorySet_from_existed_userspace sym parent) s0 (λ child s,
    ms_wf l r s parent ∧ ms_wf l r s child ∧
    (∀ x, x ∈ footprint child → x ∉ allocated l (mm_alloc s0)) ∧
    (∀ x, x ∈ allocated l (mm_alloc s0) → page_at s x = page_at s0 x) ∧
    (∀ a v p, a ∈ areas parent → data_frames a !! v = Some p → ∃ q, held child v q ∧ page_at s q = page_at s0 p ∧
       entry s (ms_root child) v = Some (PageTableEntry_new q (Z.lor (map_perm a) PTE_V))) ∧
    (∀ v, 0 ≤ v < trampoline_vpn → (∀ p, ¬ held parent v p) → entry s (ms_root child) v = None)).
Proof.
  intros Hwf0 Hok Hfull Hst Hal Hfree.
  assert (0 ≤ total_pages (areas parent)) as Hpos by (clear -Hfull; by apply total_pages_pos).
  destruct (new_space_spec l r s0 parent sym Hwf0 Hok Hst Hal ltac:(lia)) as (child0 & s1 & Hrun0 & Hf0 & Hfree1).
  destruct (copy_areas_spec l r s0 parent [] (areas parent) child0 s1 eq_refl Hfull Hok Hwf0 Hf0 ltac:(lia))
    as (child & s & Hrun & [Hpar Hch Ha Hfr Hpg _ Hnone Hcopy]).
  apply wp_Ok. exists child, s. split; [|split_and!; try done].
  - unfold MemorySet_from_existed_userspace. apply bind_Ok_inv in Hrun0 as (c & s2 & H1 & H2).
    erewrite bind_Ok by exact H1. erewrite bind_Ok by exact H2. exact Hrun.
  - intros v Hv Hn. apply Hnone; [done|]. intros a Ha' Hr. rewrite Forall_forall in Hfull.
    destruct (af_all _ (Hfull a Ha') v Hr) as [p Hp]. apply (Hn p). by exists a.
Qed.

(** * Witness: a space with the pages 5 and 6 *)

Definition ex_symbols : KernelSymbols := MkSymbols 0 0 0 0 0 0 0 0 0 0x80200000.
Lemma ex_full_space : ∃ ms s, ms_wf 100 120 s ms ∧ pages_ok s ms ∧ Forall area_full (areas ms) ∧
  total_pages (areas ms) = 2 ∧ 9 ≤ free_frames s ∧ ∃ a p, a ∈ areas ms ∧ data_frames a !! 5 = Some p.
Proof.
  destruct (PageTable_new_spec 100 120 ex_mm ex_mm_wf ltac:(rewrite ex_free; lia))
    as (p & s1 & _ & Hwf1 & _ & _ & _ & Hf1 & He1 & _).
  assert (ms_wf 100 120 s1 (MkMemorySet (MkPageTable p [p]) [])) as Hwf0.
  { split; cbn; [done|by apply NoDup_singleton|constructor| |]; intros a v q Ha; by apply not_elem_of_nil in Ha. }
  rewrite ex_free in Hf1.
  destruct (push_framed_spec 100 120 s1 _ (MkRange 5 7) 6 Hwf0)
    as (m & pt' & s' & _ & Hwf' & Hg & Hfree & Hin & Hout & _); cbn [range_l range_r areas app] in *; [lia..|intros; apply He1|].
  exists (MkMemorySet pt' [MkMapArea (MkRange 5 7) m Framed 6]), s'. split; [done|]. split_and!.
  - intros v q (a & ->%list_elem_of_singleton & Hv). cbn in Hv. destruct (decide (5 ≤ v < 7)) as [Hr|Hr].
    + destruct (Hin v Hr) as (q' & Hq' & _ & _ & Hok). congruence.
    + by rewrite Hout in Hv.
  - constructor; [|constructor]. split; cbn; [done|lia|lia|unfold trampoline_vpn; lia| |].
    + intros v Hv. unfold in_range in Hv. cbn in Hv. destruct (Hin v Hv) as (q & Hq & _). by eexists.
    + intros v q Hq. unfold in_range. cbn. apply dec_stable. intros Hn. by rewrite Hout in Hq.
  - done.
  - lia.
  - destruct (Hin 5 ltac:(lia)) as (q & Hq & _). eexists _, q. split; [by left|done].
Qed.
Lemma fork_copies_address_space_witness :
  ∃ ms s, ms_wf 100 120 s ms ∧ wp (MemorySet_from_existed_userspace ex_symbols ms) s (λ child s',
    ms_wf 100 120 s' ms ∧ ms_wf 100 120 s' child ∧ ∃ p q, held ms 5 p ∧ held child 5 q ∧ page_at s' q = page_at s p).
Proof.
  destruct ex_full_space as (ms & s & Hwf & Hok & Hfull & Hpages & Hfree & a & p & Ha & Hp).
  exists ms, s. split; [exact Hwf|].
  pose proof (fork_copies_address_space 100 120 s ms ex_symbols Hwf Hok Hfull ltac:(vm_compute; intuition discriminate)
    eq_refl ltac:(rewrite Hpages; lia)) as H.
  eapply wp_mono; [exact H|]. intros child s' (H1 & H2 & _ & _ & Hcopy & _). split_and!; [done|done|].
  destruct (Hcopy a 5 p Ha Hp) as (q & Hq & Hpg & _). exists p, q. split_and!; [by exists a|done|done].
Defined.
