(* ===== verification/ElfSpec.v ===== *)
(** The address space of a program ([MemorySet::from_elf] in
    os/src/mm/memory_set.rs): the segments of the file at their addresses with the
    permissions they ask for, a user stack, the page of the trap context, and
    nothing else. *)

From stdpp Require Import sorting.
From S2P Require Export ForkSpec.

(** * Filling an area from a file *)

(** Page [k] of the data, with zeros after its end. *)
Definition file_page (data : list Z) (k : Z) : page :=
  let b := take 4096 (drop (Z.to_nat (4096 * k)) data) in b ++ replicate (4096 - length b) 0.

Lemma file_page_ok data k : Forall is_byte data → length (file_page data k) = 4096%nat ∧ Forall is_byte (file_page data k).
Proof.
  intros Hd. unfold file_page. split.
  - rewrite length_app, length_replicate, length_take. lia.
  - apply Forall_app. split; [by apply Forall_take, Forall_drop|]. apply Forall_replicate. unfold is_byte. lia.
Qed.
Lemma file_page_end data k : Z.of_nat (length data) ≤ 4096 * k → file_page data k = zero_page.
Proof. intros Hk. unfold file_page. rewrite drop_ge by lia. by rewrite zero_page_eq. Qed.

Section copy_data.
Context (l r : Z) (ms : MemorySet) (a : MapArea) (data : list Z) (s0 : Mm).
Abbreviation first := (range_l (vpn_range a)).
Abbreviation len := (Z.of_nat (length data)).
Context (Hwf : ms_wf l r s0 ms) (Ha : a ∈ areas ms) (Hdata : Forall is_byte data).
Context (Hpages : ∀ v, in_range a v → ∃ q, data_frames a !! v = Some q ∧ page_ok s0 q ∧ page_at s0 q = zero_page).
Context (Hrange : 0 ≤ first ∧ first < range_r (vpn_range a) ≤ 2 ^ 27) (Hlen : len ≤ 4096 * area_pages a).

(** The first [k] pages have been filled. *)
Record filled (k : Z) (s : Mm) : Prop := {
  fl_wf : ms_wf l r s ms;
  fl_alloc : mm_alloc s = mm_alloc s0;
  fl_entry v : entry s (ms_root ms) v = entry s0 (ms_root ms) v;
  fl_ok q : page_ok s0 q → page_ok s q;
  fl_done v q : data_frames a !! v = Some q → first ≤ v < first + k → page_at s q = file_page data (v - first);
  fl_rest q : (∀ v, first ≤ v < first + k → data_frames a !! v ≠ Some q) → page_at s q = page_at s0 q }.

Lemma filled_start : filled 0 s0.
Proof. split; try done. intros v q _ Hv. lia. Qed.

Lemma filled_step {B} k s (rest : M Mm B) Q :
  filled k s → 0 ≤ k → 4096 * k < Z.max 1 len → (∀ s', filled (k + 1) s' → wp rest s' Q) →
  wp (src ← slice data (4096 * k) (Z.min len (4096 * k + 4096));
    r ← PageTable_translate (page_table ms) (first + k);
    pte ← unwrap r;
    p ← get_bytes_array (PageTableEntry_ppn pte);
    p' ← copy_into p 0 (Z.of_nat (length src)) src;
    set_bytes_array (PageTableEntry_ppn pte) p';;
    rest) s Q.
Proof.
  intros [Hwf1 Hal He Hok Hdone Hrest] Hk Hlt Hcont. unfold area_pages in Hlen.
  destruct (Hpages (first + k)) as (q & Hq & Hqok & Hzero); [unfold in_range; lia|].
  assert (held ms (first + k) q) as Hheld by (by exists a).
  assert (∀ v q', data_frames a !! v = Some q' → first ≤ v < first + k → q' ≠ q) as Hne.
  { intros v q' Hv Hin ->. assert (held ms v q) as Hh by (by exists a). pose proof (held_inj _ _ _ _ _ _ _ Hwf Hheld Hh). lia. }
  assert (page_at s q = zero_page) as Hz by (rewrite Hrest; [done|]; intros v Hv Hvq; by apply (Hne v q)).
  destruct (held_mapped _ _ _ _ _ _ Hwf1 Hheld) as (_ & b & Hb & Hbq).
  destruct (file_page_ok data k Hdata) as [Hfl Hfb].
  assert (filled (k + 1) (set_page q (file_page data k) s)) as Hfilled.
  { destruct (ms_wf_set_page l r s ms q (file_page data k) Hwf1) as [Hwf2 He2].
    { eapply held_not_table; [exact Hwf1|exact Hheld]. }
    split; [done|done|by intros; rewrite He2, He| | |].
    - intros q' Hq'. apply page_ok_set; [by apply Hok|done|done].
    - intros v q' Hv Hin. rewrite page_at_set. case_decide as Hqq.
      + subst q'. assert (held ms v q) as Hh by (by exists a). pose proof (held_inj _ _ _ _ _ _ _ Hwf Hheld Hh) as <-.
        f_equal. lia.
      + apply Hdone; [done|]. destruct (decide (v = first + k)) as [->|]; [congruence|lia].
    - intros q' Hq'. rewrite page_at_set, decide_False; [apply Hrest; intros v Hv; apply Hq'; lia|].
      intros ->. apply (Hq' (first + k)); [lia|done]. }
  apply wp_bind, wp_slice. split; [lia|]. split; [lia|]. set (src := sub_list _ _ _).
  assert (src = take 4096 (drop (Z.to_nat (4096 * k)) data)) as Hsrc.
  { unfold src, sub_list. destruct (decide (4096 * k + 4096 ≤ len)).
    - rewrite Z.min_r by lia. f_equal. lia.
    - rewrite Z.min_l by lia. rewrite !take_ge; [done|rewrite length_drop; lia|rewrite length_drop; lia]. }
  apply wp_bind. unfold wp at 1. rewrite (translate_spec l r s (page_table ms) _ _ (mw_pt _ _ _ _ Hwf1) eq_refl), Hb.
  apply wp_bind, wp_ret. rewrite Hbq. destruct (Hok q Hqok) as (Hqm & Hql & _).
  apply wp_bind. unfold wp at 1. rewrite (get_bytes_array_Ok _ _ _ Hqm). rewrite Hz in *.
  assert (length src ≤ 4096)%nat as Hsl by (rewrite Hsrc, length_take; lia).
  apply wp_bind, wp_copy_into. split; [lia|]. split; [rewrite Hql; lia|]. split; [lia|].
  assert (splice (Z.to_nat 0) src zero_page = file_page data k) as ->.
  { unfold splice, file_page. rewrite <-Hsrc, zero_page_eq, drop_replicate, Z2Nat.inj_0, take_0, Nat.add_0_l. cbn [app]. reflexivity. }
  apply wp_bind. unfold wp at 1. rewrite (set_bytes_array_Ok _ _ _ _ Hqm). by apply Hcont.
Qed.
Lemma filled_end k s : filled k s → 0 ≤ k ≤ area_pages a → len ≤ 4096 * k → filled (area_pages a) s.
Proof.
  intros [Hwf1 Hal He Hok Hdone Hrest] Hk Hend. split; try done.
  - intros v q Hq Hv. destruct (decide (v < first + k)); [by apply Hdone; [|lia]|]. rewrite file_page_end by lia.
    destruct (Hpages v) as (q' & Hq' & _ & Hz); [unfold in_range, area_pages in *; lia|].
    assert (q' = q) as -> by congruence. rewrite Hrest; [done|]. intros w Hw Hwq.
    assert (held ms v q ∧ held ms w q) as [Hh Hh'] by (split; by exists a).
    pose proof (held_inj _ _ _ _ _ _ _ Hwf Hh Hh'). lia.
  - intros q Hq. apply Hrest. intros v Hv. apply Hq. lia.
Qed.
Lemma copy_data_spec :
  map_type a = Framed → wp (MapArea_copy_data a (page_table ms) data) s0 (λ _ s, filled (area_pages a) s).
Proof.
  intros Hty. unfold MapArea_copy_data. rewrite bool_decide_eq_true_2 by done. apply wp_bind, wp_assert. split; [done|].
  unfold area_pages in Hlen.
  eapply (wp_mloop (λ '(start, vpn) s, ∃ k, start = 4096 * k ∧ vpn = first + k ∧ 0 ≤ k ∧ 4096 * k < Z.max 1 len ∧ filled k s)
    (λ '(start, vpn), Z.to_nat (len / 4096 + 1) - Z.to_nat (start / 4096))%nat).
  - exists 0. split_and!; [done|lia|lia|lia|apply filled_start].
  - change (0 / 4096) with 0. unfold PAGE_SIZE. lia.
  - intros [start vpn] s (k & -> & -> & Hk & Hlt & Hf). unfold PAGE_SIZE. rewrite (wrap_small 64) by lia.
    apply (filled_step k s); [done|done|done|]. intros s' Hf'. destruct (Z.leb_spec len (4096 * k + 4096)).
    + apply wp_ret. apply (filled_end (k + 1)); [done|unfold area_pages; lia|lia].
    + apply wp_ret. unfold step. rewrite wrap_small by lia. split.
      * exists (k + 1). split_and!; [lia|lia|lia|lia|done].
      * lia.
Qed.
End copy_data.

(** * An address space by its segments *)

(** Pages with one permission, and what they hold. *)
Record segment : Type := MkSegment { sg_range : VPNRange; sg_perm : Z; sg_page : Z → page }.
Definition sg_in (g : segment) (v : Z) : Prop := range_l (sg_range g) ≤ v < range_r (sg_range g).
Definition range_pages (rg : VPNRange) : Z := range_r rg - range_l rg.

(** [ms] was built in frames that were free in [s0]; it maps the segments and
    nothing else below the trampoline. *)
Record space (l r : Z) (s0 : Mm) (segs : list segment) (ms : MemorySet) (s : Mm) : Prop := {
  sp_wf : ms_wf l r s ms;
  sp_alloc : allocated l (mm_alloc s0) ⊆ allocated l (mm_alloc s);
  sp_fresh x : x ∈ footprint ms → x ∉ allocated l (mm_alloc s0);
  sp_same x : x ∈ allocated l (mm_alloc s0) → page_at s x = page_at s0 x;
  sp_ok : pages_ok s ms;
  sp_pages g v : g ∈ segs → sg_in g v → ∃ q, held ms v q ∧ page_at s q = sg_page g v ∧
    entry s (ms_root ms) v = Some (PageTableEntry_new q (Z.lor (sg_perm g) PTE_V));
  sp_held v q : held ms v q → ∃ g, g ∈ segs ∧ sg_in g v;
  sp_none v : 0 ≤ v < trampoline_vpn → (∀ g, g ∈ segs → ¬ sg_in g v) → entry s (ms_root ms) v = None }.

Section push.
Context (l r : Z) (s0 : Mm) (segs : list segment) (ms : MemorySet) (s : Mm) (rg : VPNRange) (perm : Z).
Context (Hs : space l r s0 segs ms s) (Hperm : 0 ≤ perm < 256).
Context (Hrg : 0 ≤ range_l rg ∧ range_l rg < range_r rg ≤ trampoline_vpn).
Context (Hdis : ∀ g v, g ∈ segs → sg_in g v → ¬ range_l rg ≤ v < range_r rg).

(** The new area, still empty. *)
Lemma space_grow m pt' s1 :
  let ms1 := MkMemorySet pt' (areas ms ++ [MkMapArea rg m Framed perm]) in
  ms_wf l r s1 ms1 → grows l (page_table ms) s pt' s1 →
  (∀ v, range_l rg ≤ v < range_r rg → ∃ p, m !! v = Some p ∧ (p ∉ allocated l (mm_alloc s)) ∧ page_at s1 p = zero_page ∧ page_ok s1 p) →
  (∀ v, ¬ range_l rg ≤ v < range_r rg → m !! v = None) →
  (∀ v, 0 ≤ v < 2 ^ 27 → entry s1 (ms_root ms) v =
     if decide (range_l rg ≤ v < range_r rg) then Some (PageTableEntry_new (default 0 (m !! v)) (Z.lor perm PTE_V))
     else entry s (ms_root ms) v) →
  space l r s0 (segs ++ [MkSegment rg perm (λ _, zero_page)]) ms1 s1.
Proof.
  intros ms1 Hwf1 Hg Hin Hout Hent. destruct Hs as [Hwf Hal Hfr Hpg Hok Hpages Hheld Hnone].
  pose proof (gr_root _ _ _ _ _ Hg) as Hroot. pose proof (gr_alloc _ _ _ _ _ Hg) as Hga.
  assert (∀ v q, held ms1 v q → held ms v q ∨ range_l rg ≤ v < range_r rg ∧ m !! v = Some q) as Hcases.
  { intros v q (b & [Hb|Hb]%elem_of_app & Hv); [left; by exists b|]. apply list_elem_of_singleton in Hb as ->. cbn in Hv.
    right. split; [|done]. apply dec_stable. intros Hn. rewrite Hout in Hv; done. }
  assert (∀ v q, held ms v q → page_at s1 q = page_at s q ∧ page_ok s1 q) as Hold.
  { intros v q Hq. assert (q ∈ allocated l (mm_alloc s)) as Hqa by (eapply footprint_alloc; [exact Hwf|by eapply held_footprint]).
    assert (page_at s1 q = page_at s q) as He by (apply (gr_page _ _ _ _ _ Hg); [done|by eapply held_not_table]).
    split; [done|]. apply (page_ok_same l r s); [by eapply Hok|apply (mw_pt _ _ _ _ Hwf1)|by apply Hga|done]. }
  assert (∀ g v, g ∈ segs → sg_in g v → 0 ≤ v < 2 ^ 27) as Hbound.
  { intros g v Hgs Hv. destruct (Hpages g v Hgs Hv) as (q & Hq & _). by destruct (held_mapped _ _ _ _ _ _ Hwf Hq). }
  split.
  - exact Hwf1.
  - by transitivity (allocated l (mm_alloc s)).
  - intros x [Hx|Hx]%elem_of_app Hx0.
    + destruct (gr_frames _ _ _ _ _ Hg x Hx) as [Hxc|Hxn]; [|by apply Hxn, Hal].
      apply (Hfr x); [apply elem_of_app; by left|done].
    + apply elem_of_areas_frames in Hx as (b & v & Hb & Hv). destruct (Hcases v x) as [Hh|[Hr Hv']]; [by exists b| |].
      * apply (Hfr x); [by eapply held_footprint|done].
      * destruct (Hin v Hr) as (q & Hq & Hqn & _). apply Hqn, Hal. congruence.
  - intros x Hx. rewrite <-Hpg by done. apply (gr_page _ _ _ _ _ Hg); [by apply Hal|]. intros Hxc.
    apply (Hfr x); [|done]. apply elem_of_app. by left.
  - intros v q [Hh|[Hr Hv]]%Hcases; [by eapply Hold|]. destruct (Hin v Hr) as (q' & Hq' & _ & _ & Hqok). congruence.
  - intros g v [Hgs|Hgs]%elem_of_app Hv.
    + destruct (Hpages g v Hgs Hv) as (q & Hq & Hqp & He). exists q. split; [|split].
      * destruct Hq as (b & Hb & Hbv). exists b. split; [apply elem_of_app; by left|done].
      * rewrite <-Hqp. by eapply Hold.
      * cbn [page_table ms1]. rewrite Hroot, Hent by (by eapply Hbound). rewrite decide_False; [done|by eapply Hdis].
    + apply list_elem_of_singleton in Hgs as ->. unfold sg_in in Hv. cbn in Hv |- *. destruct (Hin v Hv) as (q & Hq & _ & Hz & _).
      exists q. split; [|split; [done|]].
      * eexists. split; [apply elem_of_app; right; by left|done].
      * rewrite Hroot, Hent, decide_True, Hq by (unfold trampoline_vpn in *; lia). done.
  - intros v q [Hh|[Hr _]]%Hcases.
    + destruct (Hheld v q Hh) as (g & Hgs & Hv). exists g. split; [apply elem_of_app; by left|done].
    + eexists. split; [apply elem_of_app; right; by left|done].
  - intros v Hv Hn. cbn [page_table ms1]. rewrite Hroot, Hent by (unfold trampoline_vpn in *; lia).
    rewrite decide_False; [apply Hnone; [done|]; intros g Hgs; apply Hn, elem_of_app; by left|].
    apply (Hn (MkSegment rg perm (λ _, zero_page))), elem_of_app. right. by left.
Qed.

(** The data copied in. *)
Lemma space_fill m pt' s1 s2 data :
  let a := MkMapArea rg m Framed perm in
  let ms1 := MkMemorySet pt' (areas ms ++ [a]) in
  space l r s0 (segs ++ [MkSegment rg perm (λ _, zero_page)]) ms1 s1 →
  (∀ v, range_l rg ≤ v < range_r rg → is_Some (m !! v)) → (∀ v, ¬ range_l rg ≤ v < range_r rg → m !! v = None) →
  filled l r ms1 a data s1 (area_pages a) s2 →
  space l r s0 (segs ++ [MkSegment rg perm (λ v, file_page data (v - range_l rg))]) ms1 s2.
Proof.
  intros a ms1 [Hwf Hal Hfr Hpg Hok Hpages Hheld Hnone] Hin Hout [Hwf2 Ha2 He2 Hok2 Hdone Hrest].
  assert (∀ q, (∀ v, m !! v ≠ Some q) → page_at s2 q = page_at s1 q) as Hother by (intros q Hq; apply Hrest; auto).
  assert (∀ v q, m !! v = Some q → held ms1 v q) as Hnew.
  { intros v q Hv. exists a. split; [apply elem_of_app; right; by left|done]. }
  assert (∀ v q, m !! v = Some q → range_l rg ≤ v < range_r rg) as Honly.
  { intros v q Hv. apply dec_stable. intros Hn. by rewrite Hout in Hv. }
  split.
  - exact Hwf2.
  - by rewrite Ha2.
  - exact Hfr.
  - intros x Hx. rewrite Hother; [by apply Hpg|]. intros v Hv. apply (Hfr x); [by eapply held_footprint, Hnew|done].
  - intros v q Hq. apply Hok2. by eapply Hok.
  - intros g v [Hgs|Hgs]%elem_of_app Hv.
    + destruct (Hpages g v) as (q & Hq & Hqp & He); [apply elem_of_app; by left|done|]. exists q. split; [done|]. rewrite He2. split; [|done].
      rewrite <-Hqp. apply Hother. intros w Hw. pose proof (held_inj _ _ _ _ _ _ _ Hwf Hq (Hnew w q Hw)) as <-.
      eapply Hdis; [exact Hgs|exact Hv|by eapply Honly].
    + apply list_elem_of_singleton in Hgs as ->. destruct (Hpages (MkSegment rg perm (λ _, zero_page)) v) as (q & Hq & _ & He); [apply elem_of_app; right; by left|done|].
      exists q. split; [done|]. rewrite He2. split; [|done]. cbn. destruct (Hin v Hv) as [q' Hq'].
      rewrite (held_fun _ _ _ _ _ _ _ Hwf Hq (Hnew v q' Hq')). apply (Hdone v q' Hq'). unfold sg_in, area_pages in *. cbn in *. lia.
  - intros v q Hq. destruct (Hheld v q Hq) as (g & [Hg|Hg]%elem_of_app & Hv); [exists g; split; [apply elem_of_app; by left|done]|].
    apply list_elem_of_singleton in Hg as ->. eexists. split; [apply elem_of_app; right; by left|done].
  - intros v Hv Hn. rewrite He2. apply Hnone; [done|]. intros g [Hg|Hg]%elem_of_app; [apply Hn, elem_of_app; by left|].
    apply list_elem_of_singleton in Hg as ->. apply (Hn (MkSegment rg perm (λ v, file_page data (v - range_l rg)))), elem_of_app. right. by left.
Qed.

(** What a segment holds: the data it was pushed with, or zeros. *)
Definition pushed_page (data : option (list Z)) (v : Z) : page :=
  match data with Some d => file_page d (v - range_l rg) | None => zero_page end.

Lemma space_push data :
  3 * range_pages rg ≤ free_frames s →
  (∀ d, data = Some d → Forall is_byte d ∧ Z.of_nat (length d) ≤ 4096 * range_pages rg) →
  wp (push_unwrap ms (MkMapArea rg ∅ Framed perm) data) s (λ ms' s',
    space l r s0 (segs ++ [MkSegment rg perm (pushed_page data)]) ms' s' ∧ free_frames s - 3 * range_pages rg ≤ free_frames s').
Proof.
  intros Hfree Hdata. unfold range_pages, trampoline_vpn in *.
  destruct (push_framed_spec l r s ms rg perm (sp_wf _ _ _ _ _ _ Hs))
    as (m & pt' & s1 & Hrun & Hwf1 & Hg & Hf1 & Hin & Hout & Hent); [lia|done|done|lia|lia| |].
  { intros v Hv. apply (sp_none _ _ _ _ _ _ Hs); [unfold trampoline_vpn; lia|]. intros g Hgs Hvg. by eapply Hdis. }
  pose proof (space_grow m pt' s1 Hwf1 Hg Hin Hout Hent) as Hs1. set (a := MkMapArea rg m Framed perm) in *.
  set (ms1 := MkMemorySet pt' (areas ms ++ [a])) in *.
  assert (MapArea_map (MkMapArea rg ∅ Framed perm) (page_table ms) s = Ok ((true, a, pt'), s1)) as Hmap.
  { unfold MemorySet_push in Hrun. apply bind_Ok_inv in Hrun as ([[ok a'] pt''] & s2 & H1 & H2). destruct ok; [|].
    - destruct (bind_Ok_inv _ _ _ _ _ H2) as (? & ? & [= <- <-] & [= <- Ha <-]). apply app_inj_2 in Ha as [_ [= <-]]; [|done]. exact H1.
    - by apply bind_Ok_inv in H2 as (? & ? & _ & [=]). }
  unfold push_unwrap, MemorySet_push. apply wp_bind, wp_bind. unfold wp at 1. rewrite Hmap. apply wp_bind.
  eapply (wp_mono _ _ (λ _ s2, space l r s0 (segs ++ [MkSegment rg perm (pushed_page data)]) ms1 s2 ∧ mm_alloc s2 = mm_alloc s1)).
  - destruct data as [d|]; [|by apply wp_ret]. destruct (Hdata d eq_refl) as [Hd Hl].
    assert (a ∈ areas ms1) as Ha by (apply elem_of_app; right; by left).
    eapply wp_mono; [apply (copy_data_spec l r ms1 a d s1 Hwf1 Ha Hd); [| |exact Hl|done]|].
    + intros v Hv. destruct (Hin v Hv) as (q & Hq & _ & Hz & Hok). by exists q.
    + cbn. lia.
    + intros [] s2 Hfill. split; [|by apply Hfill]. apply (space_fill m pt' s1 s2 d Hs1); [|done|done].
      intros v Hv. destruct (Hin v Hv) as (q & Hq & _). by exists q.
  - intros [] s2 [Hs2 Ha2]. apply wp_ret. apply wp_bind, wp_assert. split; [done|]. apply wp_ret. split; [done|].
    unfold free_frames in *. rewrite Ha2. lia.
Qed.
End push.

(** * The file *)

(** What a program header of type [Load] asks for. *)
Definition ph_range (ph : ProgramHeader) : VPNRange :=
  MkRange (virtual_addr ph / 4096) ((virtual_addr ph + mem_size ph + 4095) / 4096).
Definition ph_perm (ph : ProgramHeader) : Z :=
  Z.lor (Z.lor (Z.lor MapPermission_U (flag_if (is_read ph) MapPermission_R))
    (flag_if (is_write ph) MapPermission_W)) (flag_if (is_execute ph) MapPermission_X).
Definition ph_segment (elf_data : list Z) (ph : ProgramHeader) : segment :=
  MkSegment (ph_range ph) (ph_perm ph)
    (λ v, file_page (sub_list (Z.to_nat (ph_offset ph)) (Z.to_nat (file_size ph)) elf_data) (v - range_l (ph_range ph))).
(** It is within the address space and the file, and the data fits in its pages. *)
Record ph_wf (elf_data : list Z) (ph : ProgramHeader) : Prop := {
  pw_addr : 0 ≤ virtual_addr ph ∧ 0 < mem_size ph ∧ range_r (ph_range ph) ≤ trampoline_vpn;
  pw_file : 0 ≤ ph_offset ph ∧ 0 ≤ file_size ph ∧ ph_offset ph + file_size ph ≤ Z.of_nat (length elf_data) < 2 ^ 64;
  pw_fit : file_size ph ≤ 4096 * range_pages (ph_range ph) }.

Definition load_of (elf : ElfFile) (i : Z) : option ProgramHeader :=
  ph ← program_header elf i; match is_load ph with Some true => Some ph | _ => None end.
Definition loads (elf : ElfFile) : list ProgramHeader := omap (load_of elf) (range 0 (ph_count elf)).
(** The page after the last of the given headers. *)
Definition end_of (e : Z) (phs : list ProgramHeader) : Z := foldl (λ _ ph, range_r (ph_range ph)) e phs.
Definition before (ph ph' : ProgramHeader) : Prop := range_r (ph_range ph) ≤ range_l (ph_range ph').
Definition pages_of (phs : list ProgramHeader) : Z := foldr (λ ph n, range_pages (ph_range ph) + n) 0 phs.

(** A file the kernel can load: it is ELF, its headers can be read, the segments
    ascend, and there is room for the user stack below the trap context. *)
Record loadable (elf_data : list Z) (elf : ElfFile) : Prop := {
  lo_magic : magic elf = [0x7f; 0x45; 0x4c; 0x46];
  lo_bytes : Forall is_byte elf_data;
  lo_headers i : 0 ≤ i < ph_count elf → ∃ ph b, program_header elf i = Some ph ∧ is_load ph = Some b;
  lo_segments : Forall (ph_wf elf_data) (loads elf);
  lo_sorted : StronglySorted before (loads elf);
  lo_room : end_of 0 (loads elf) + 4 ≤ trampoline_vpn }.

Definition stack_segment (e : Z) : segment :=
  MkSegment (MkRange (e + 1) (e + 3)) (Z.lor (Z.lor MapPermission_R MapPermission_W) MapPermission_U) (λ _, zero_page).
Definition trap_segment : segment :=
  MkSegment (MkRange (trampoline_vpn - 1) trampoline_vpn) (Z.lor MapPermission_R MapPermission_W) (λ _, zero_page).
(** The address space of the program. *)
Definition program_segments (elf_data : list Z) (elf : ElfFile) : list segment :=
  (ph_segment elf_data <$> loads elf) ++ [stack_segment (end_of 0 (loads elf)); trap_segment].

Lemma ph_range_pos elf_data ph : ph_wf elf_data ph → 0 ≤ range_l (ph_range ph) < range_r (ph_range ph).
Proof. intros [(H1 & H2 & _) _ _]. unfold ph_range. cbn. lia. Qed.
Lemma pages_of_pos elf_data phs : Forall (ph_wf elf_data) phs → 0 ≤ pages_of phs.
Proof.
  induction 1 as [|ph phs Hph _ IH]; [done|]. cbn. fold (pages_of phs). apply ph_range_pos in Hph. unfold range_pages. lia.
Qed.
Lemma area_new_run {S} start_va end_va t p (s : S) :
  0 ≤ start_va → start_va < end_va → end_va < 2 ^ 39 →
  MapArea_new (VirtAddr_from start_va) (VirtAddr_from end_va) t p s =
    Ok (MkMapArea (MkRange (start_va / 4096) ((end_va + 4095) / 4096)) ∅ t p, s).
Proof.
  intros H0 H1 H2. unfold MapArea_new, SimpleRange_new. rewrite !VirtAddr_from_mod, !Z.mod_small by lia.
  change (Address.floor start_va) with (start_va / 4096).
  assert (Address.ceil end_va = (end_va + 4095) / 4096) as ->.
  { unfold Address.ceil, PAGE_SIZE. rewrite (wrap_small 64 (end_va - 1)) by lia. rewrite wrap_small by lia. f_equal. lia. }
  by rewrite (proj2 (Z.leb_le _ _)) by lia.
Qed.

Section load.
Context (sym : KernelSymbols) (elf_data : list Z) (elf : ElfFile) (l r : Z) (s0 : Mm).
Context (Hbytes : Forall is_byte elf_data).

Lemma load_segment_spec segs ms s ph :
  space l r s0 segs ms s → ph_wf elf_data ph →
  (∀ g v, g ∈ segs → sg_in g v → ¬ range_l (ph_range ph) ≤ v < range_r (ph_range ph)) →
  3 * range_pages (ph_range ph) ≤ free_frames s →
  wp (load_segment elf_data ph ms) s (λ '(ms', e) s', space l r s0 (segs ++ [ph_segment elf_data ph]) ms' s' ∧
    e = range_r (ph_range ph) ∧ free_frames s - 3 * range_pages (ph_range ph) ≤ free_frames s').
Proof.
  intros Hs Hph Hdis Hfree. pose proof (ph_range_pos _ _ Hph) as Hpos. destruct Hph as [(H1 & H2 & H3) (H4 & H5 & H6 & H7) H8].
  unfold trampoline_vpn in *. unfold load_segment. apply wp_bind. rewrite wrap_small by (cbn in H3; lia).
  unfold wp at 1. rewrite area_new_run by (cbn in H3; lia). apply wp_bind. rewrite wrap_small by lia.
  apply wp_slice. split; [lia|]. split; [lia|]. apply wp_bind.
  replace (Z.to_nat (ph_offset ph + file_size ph - ph_offset ph)) with (Z.to_nat (file_size ph)) by lia.
  eapply wp_mono; [apply (space_push l r s0 segs ms s (ph_range ph) (ph_perm ph) Hs);
    [|unfold trampoline_vpn; lia|exact Hdis|exact Hfree|]|].
  - unfold ph_perm. destruct (is_read ph), (is_write ph), (is_execute ph); vm_compute; intuition discriminate.
  - intros d [= <-]. split; [by apply Forall_sub_list|]. rewrite length_sub_list; lia.
  - intros ms' s' [Hs' Hf']. apply wp_ret. split; [exact Hs'|]. split; [reflexivity|exact Hf'].
Qed.

Lemma load_loop is_ done_ ms e s :
  space l r s0 (ph_segment elf_data <$> done_) ms s → e = end_of 0 done_ →
  Forall (ph_wf elf_data) (omap (load_of elf) is_) → StronglySorted before (done_ ++ omap (load_of elf) is_) →
  (∀ i, i ∈ is_ → ∃ ph b, program_header elf i = Some ph ∧ is_load ph = Some b) →
  3 * pages_of (omap (load_of elf) is_) ≤ free_frames s →
  wp (mfold (λ i '(s, max_end_vpn),
      ph ← unwrap (program_header elf i);
      load ← unwrap (is_load ph);
      if load : bool then load_segment elf_data ph s else mret (s, max_end_vpn)) is_ (ms, e)) s
    (λ '(ms', e') s', space l r s0 (ph_segment elf_data <$> done_ ++ omap (load_of elf) is_) ms' s' ∧
      e' = end_of 0 (done_ ++ omap (load_of elf) is_) ∧ free_frames s - 3 * pages_of (omap (load_of elf) is_) ≤ free_frames s').
Proof.
  intros Hs He Hwf Hsort Hhd Hfree. revert done_ ms e s Hs He Hwf Hsort Hfree.
  induction is_ as [|i is_ IH]; intros done_ ms e s Hs He Hwf Hsort Hfree; [cbn; rewrite app_nil_r; split_and!; [done|done|lia]|].
  destruct (Hhd i ltac:(by left)) as (ph & b & Hi & Hb). assert (∀ j, j ∈ is_ → ∃ ph b, program_header elf j = Some ph ∧ is_load ph = Some b)
    as Hhd' by (intros j Hj; apply Hhd; by right).
  assert (load_of elf i = if b then Some ph else None) as Hload by (unfold load_of; rewrite Hi; cbn; rewrite Hb; by destruct b).
  cbn [omap list_omap mfold] in *. rewrite Hload in *. rewrite Hi. apply wp_bind, wp_bind, wp_unwrap. exists ph. split; [done|].
  apply wp_bind, wp_unwrap. exists b. split; [done|]. destruct b; [|by apply wp_ret, IH].
  cbn [pages_of foldr] in Hfree |- *. fold (pages_of (omap (load_of elf) is_)) in *.
  pose proof (Forall_inv Hwf) as Hph. pose proof (Forall_inv_tail Hwf) as Hwf'. pose proof (pages_of_pos _ _ Hwf') as Hpos.
  eapply wp_mono; [apply (load_segment_spec (ph_segment elf_data <$> done_) ms s ph Hs Hph); [|lia]|].
  { intros g v (ph0 & -> & H0)%list_elem_of_fmap Hv Hv'. unfold sg_in in Hv. cbn [sg_range ph_segment] in Hv.
    apply StronglySorted_app in Hsort as (Hb' & _ & _). specialize (Hb' ph0 ph H0 ltac:(by left)). unfold before in Hb'. lia. }
  intros [ms' e'] s' (Hs' & -> & Hf'). 
  eapply wp_mono.
  - apply (IH Hhd' (done_ ++ [ph])); [by rewrite fmap_app|unfold end_of; by rewrite foldl_app|done|by rewrite <-app_assoc|lia].
  - intros [ms'' e''] s'' (Hs'' & -> & Hf''). rewrite <-app_assoc in *. split_and!; [done|done|lia].
Qed.
End load.

Lemma end_of_ge elf_data phs e :
  Forall (ph_wf elf_data) phs → StronglySorted before phs → (∀ ph, ph ∈ phs → e ≤ range_r (ph_range ph)) →
  e ≤ end_of e phs ∧ ∀ ph, ph ∈ phs → range_r (ph_range ph) ≤ end_of e phs.
Proof.
  intros Hwf Hsort. revert e. induction Hsort as [|ph phs Hsort IH Hall]; intros e He; [split; [done|]; intros ph Hph; by apply not_elem_of_nil in Hph|].
  pose proof (Forall_inv_tail Hwf) as Hwf'. cbn [end_of foldl].
  destruct (IH Hwf' (range_r (ph_range ph))) as [H1 H2].
  { intros ph' Hph'. rewrite Forall_forall in Hall, Hwf'. specialize (Hall ph' Hph'). unfold before in Hall.
    pose proof (ph_range_pos _ _ (Hwf' ph' Hph')). lia. }
  unfold end_of in *. specialize (He ph ltac:(by left)). split; [lia|]. intros ph' [->|Hph']%elem_of_cons; [done|by apply H2].
Qed.

Lemma loadable_end elf_data elf :
  loadable elf_data elf → 0 ≤ end_of 0 (loads elf) ∧ end_of 0 (loads elf) + 4 ≤ 2 ^ 27 - 1 ∧
  ∀ ph, ph ∈ loads elf → range_r (ph_range ph) ≤ end_of 0 (loads elf).
Proof.
  intros [_ _ _ Hwf Hsort Hroom]. destruct (end_of_ge elf_data (loads elf) 0 Hwf Hsort) as [H0 Hend]; [|done].
  intros ph Hph. rewrite Forall_forall in Hwf. pose proof (ph_range_pos _ _ (Hwf ph Hph)). lia.
Qed.

(** The whole of [from_elf]. *)
Lemma from_elf_run sym ElfFile_new l r s0 elf_data elf :
  mm_wf l r s0 → 0 ≤ strampoline sym < 2 ^ 56 → strampoline sym mod 4096 = 0 →
  ElfFile_new elf_data = Some elf → loadable elf_data elf → 12 + 3 * pages_of (loads elf) ≤ free_frames s0 →
  wp (MemorySet_from_elf sym ElfFile_new elf_data) s0 (λ '(ms, user_sp, entry_) s,
    space l r s0 (program_segments elf_data elf) ms s ∧ user_sp = (end_of 0 (loads elf) + 3) * 4096 ∧
    entry_ = entry_point elf ∧ free_frames s0 - 12 - 3 * pages_of (loads elf) ≤ free_frames s).
Proof.
  intros Hmm Hst Hal Hparse Hload Hfree. destruct (loadable_end _ _ Hload) as (He0 & Hroom & Hend).
  destruct Hload as [Hmagic Hbytes Hhd Hwf Hsort _]. pose proof (pages_of_pos _ _ Hwf) as Hpos.
  destruct (bare_space_spec l r s0 sym Hmm Hst Hal ltac:(lia)) as (pt & s1 & Hrun & Hwf1 & Hsub & Hfresh & Hsame & Hnone & Hf1).
  assert (space l r s0 [] (MkMemorySet pt []) s1) as Hs1.
  { split; try done.
    - intros x [Hx|Hx]%elem_of_app; [by apply Hfresh|]. by apply not_elem_of_nil in Hx.
    - intros v q Hq. by apply not_held_nil in Hq.
    - intros g v Hg. by apply not_elem_of_nil in Hg.
    - intros v q Hq. by apply not_held_nil in Hq.
    - intros v Hv _. by apply Hnone. }
  apply bind_Ok_inv in Hrun as (bare & s1' & Hbare & Htramp). unfold MemorySet_from_elf.
  apply wp_bind. unfold wp at 1. rewrite Hbare. apply wp_bind. unfold wp at 1. rewrite Htramp.
  apply wp_bind, wp_unwrap. exists elf. split; [done|]. apply wp_bind, wp_assert. rewrite bool_decide_eq_true_2 by done. split; [done|].
  apply wp_bind. eapply wp_mono; [apply (load_loop elf_data elf l r s0 Hbytes (range 0 (ph_count elf)) [] _ 0 s1 Hs1 eq_refl Hwf Hsort); [|unfold loads in *; lia]|].
  { intros i Hi%elem_of_seqZ. apply Hhd. lia. }
  intros [ms e] s2 (Hs2 & -> & Hf2). cbn [app] in Hs2 |- *. fold (loads elf) in *. set (e := end_of 0 (loads elf)) in *. cbv zeta.
  unfold USER_STACK_SIZE, PAGE_SIZE. rewrite Addr_from_PageNum_mul by lia.
  rewrite (wrap_small 64 (e * 4096 + 4096)) by lia. rewrite (wrap_small 64 (_ + 4096 * 2)) by lia.
  apply wp_bind. unfold wp at 1. rewrite area_new_run by lia.
  replace ((e * 4096 + 4096) / 4096) with (e + 1) by lia. replace ((e * 4096 + 4096 + 4096 * 2 + 4095) / 4096) with (e + 3) by lia.
  apply wp_bind. eapply wp_mono; [apply (space_push l r s0 _ ms s2 (MkRange (e + 1) (e + 3)) _ Hs2) with (data := None);
    [vm_compute; intuition discriminate|unfold trampoline_vpn; cbn; lia| |unfold range_pages; cbn; lia|done]|].
  { intros g v (ph & -> & Hph)%list_elem_of_fmap Hv Hv'. specialize (Hend ph Hph). unfold sg_in in Hv. cbn [sg_range ph_segment] in Hv.
    cbn in Hv'. lia. }
  intros ms3 s3 [Hs3 Hf3]. unfold range_pages in Hf3. cbn [range_l range_r] in Hf3.
  apply wp_bind. unfold wp at 1.
  change (MapArea_new (VirtAddr_from TRAP_CONTEXT) (VirtAddr_from TRAMPOLINE) Framed (Z.lor MapPermission_R MapPermission_W) s3)
    with (Ok (MkMapArea (MkRange (trampoline_vpn - 1) trampoline_vpn) ∅ Framed (Z.lor MapPermission_R MapPermission_W), s3)).
  apply wp_bind. eapply wp_mono; [apply (space_push l r s0 _ ms3 s3 (MkRange (trampoline_vpn - 1) trampoline_vpn) _ Hs3) with (data := None);
    [vm_compute; intuition discriminate|unfold trampoline_vpn; cbn; lia| |unfold range_pages; cbn; lia|done]|].
  { intros g v [(ph & -> & Hph)%list_elem_of_fmap| ->%list_elem_of_singleton]%elem_of_app Hv Hv'; unfold sg_in, trampoline_vpn in *.
    - specialize (Hend ph Hph). cbn [sg_range ph_segment range_l range_r] in *. lia.
    - cbn in Hv, Hv'. lia. }
  intros ms4 s4 [Hs4 Hf4]. unfold range_pages in Hf4. cbn [range_l range_r] in Hf4. apply wp_ret. split_and!; [|lia|done|unfold loads in *; lia].
  unfold program_segments. rewrite <-app_assoc in Hs4. exact Hs4.
Qed.

(** * Property *)

(** C22: [from_elf] builds the address space the file describes.  When the kernel
    can load the file and has the frames, the call returns without a fault; every
    page of every loadable segment is mapped, user-accessible with exactly the
    permissions the header asks for, to a frame that holds the page's part of the
    file followed by zeros; two zeroed pages of user stack lie above the last
    segment, with an unmapped page between, and the zeroed page of the trap
    context, which user mode cannot access, below the trampoline; nothing else
    below the trampoline is mapped.  All frames are fresh, no page that was in use
    changes, and the stack pointer and entry point are those of stack and file. *)
Theorem from_elf_builds_space sym ElfFile_new l r s0 elf_data elf :
  mm_wf l r s0 → 0 ≤ strampoline sym < 2 ^ 56 → strampoline sym mod 4096 = 0 →
  ElfFile_new elf_data = Some elf → loadable elf_data elf → 12 + 3 * pages_of (loads elf) ≤ free_frames s0 →
  wp (MemorySet_from_elf sym ElfFile_new elf_data) s0 (λ '(ms, user_sp, entry_) s,
    ms_wf l r s ms ∧
    (∀ g v, g ∈ program_segments elf_data elf → range_l (sg_range g) ≤ v < range_r (sg_range g) →
       ∃ q, held ms v q ∧ page_at s q = sg_page g v ∧
         entry s (ms_root ms) v = Some (PageTableEntry_new q (Z.lor (sg_perm g) PTE_V))) ∧
    (∀ v, 0 ≤ v < trampoline_vpn → (∀ g, g ∈ program_segments elf_data elf → ¬ range_l (sg_range g) ≤ v < range_r (sg_range g)) →
       entry s (ms_root ms) v = None) ∧
    (∀ x, x ∈ footprint ms → x ∉ allocated l (mm_alloc s0)) ∧
    (∀ x, x ∈ allocated l (mm_alloc s0) → page_at s x = page_at s0 x) ∧
    user_sp = (end_of 0 (loads elf) + 3) * 4096 ∧ entry_ = entry_point elf).
Proof.
  intros Hmm Hst Hal Hparse Hload Hfree.
  eapply wp_mono; [by apply (from_elf_run sym ElfFile_new l r s0 elf_data elf)|].
  intros [[ms sp] entry_] s ([Hwf _ Hfr Hpg _ Hpages _ Hnone] & -> & -> & _). by split_and!.
Qed.

(** * Witness: one segment of two pages *)

Definition ex_header : ProgramHeader := MkProgramHeader (Some true) 0x10000 5000 1 4 true false true.
Definition ex_elf : ElfFile :=
  MkElfFile [0x7f; 0x45; 0x4c; 0x46] 1 (λ i, if i =? 0 then Some ex_header else None) 0x10000.
Definition ex_elf_data : list Z := [9; 0x13; 0; 0; 0].
Lemma ex_elf_loadable : loadable ex_elf_data ex_elf.
Proof.
  assert (loads ex_elf = [ex_header]) as Hl by reflexivity. split.
  - done.
  - repeat constructor; unfold is_byte; lia.
  - intros i Hi. cbn in Hi. exists ex_header, true. assert (i = 0) as -> by lia. done.
  - rewrite Hl. repeat constructor; cbn; unfold range_pages, trampoline_vpn; cbn; lia.
  - rewrite Hl. repeat constructor.
  - rewrite Hl. cbn. unfold trampoline_vpn. lia.
Qed.
Lemma from_elf_builds_space_witness :
  wp (MemorySet_from_elf ex_symbols (λ _, Some ex_elf) ex_elf_data) ex_mm (λ '(ms, user_sp, entry_) s,
    user_sp = 0x15000 ∧ entry_ = 0x10000 ∧
    (∃ q, held ms 0x10 q ∧ page_at s q = [0x13; 0; 0; 0] ++ replicate 4092 0) ∧ entry s (ms_root ms) 0x12 = None).
Proof.
  eapply wp_mono; [apply (from_elf_builds_space ex_symbols (λ _, Some ex_elf) 100 120 ex_mm ex_elf_data ex_elf);
    [exact ex_mm_wf|cbn; lia|reflexivity|reflexivity|exact ex_elf_loadable|rewrite ex_free; vm_compute; discriminate]|].
  intros [[ms sp] entry_] s (_ & Hpages & Hnone & _ & _ & -> & ->). split_and!; [reflexivity|reflexivity| |].
  - destruct (Hpages (ph_segment ex_elf_data ex_header) 0x10) as (q & Hq & Hp & _); [by left|cbn; lia|].
    exists q. split; [exact Hq|]. rewrite Hp. vm_compute. reflexivity.
  - apply Hnone; [unfold trampoline_vpn; lia|]. intros g Hg.
    change (program_segments ex_elf_data ex_elf) with [ph_segment ex_elf_data ex_header; stack_segment 0x12; trap_segment] in Hg.
    rewrite !elem_of_cons, elem_of_nil in Hg.
    destruct Hg as [->|[->|[->|[]]]]; vm_compute; intuition discriminate.
Defined.
