(* ===== verification/FrameOwner.v ===== *)
(** Ownership of frames: which frames the operations on page tables and address
    spaces (os/src/mm/page_table.rs, memory_set.rs) take from the allocator and
    give back.  A triple [moves F m G] says that [m] turns the owned frames [F]
    into [G] and leaves the owners of all other frames alone. *)

From stdpp Require Import sorting.
From S2P Require Export MemorySetSpec Hoare.

(** The frames behind an address space: of its page table, then of its areas. *)
Definition ms_frames (ms : MemorySet) : list Z := pt_frames (page_table ms) ++ areas_frames (areas ms).

(** * Computations that leave the allocator alone *)

Definition keeps {A} (m : M Mm A) : Prop := ∀ s a s', m s = Ok (a, s') → mm_alloc s' = mm_alloc s.

Lemma keeps_ret {A} (a : A) : keeps (mret a).
Proof. by intros s b s' [= _ <-]. Qed.
Lemma keeps_bind {A B} (m : M Mm A) (f : A → M Mm B) : keeps m → (∀ a, keeps (f a)) → keeps (m ≫= f).
Proof. intros Hm Hf s b s' (a & s1 & H1 & H2)%bind_Ok_inv. apply Hf in H2 as ->. by eapply Hm. Qed.
Lemma keeps_fail {A} e : keeps (fail e : M Mm A).
Proof. by intros s a s' [=]. Qed.
Lemma keeps_gets {A} (f : Mm → A) : keeps (gets f).
Proof. by intros s a s' [= _ <-]. Qed.
Lemma keeps_get : keeps (get : M Mm _).
Proof. by intros s a s' [= _ <-]. Qed.
Lemma keeps_upd f : (∀ s, mm_alloc (f s) = mm_alloc s) → keeps (upd f).
Proof. by intros Hf s a s' [= _ <-]. Qed.
Lemma keeps_unwrap {A} (o : option A) : keeps (unwrap o).
Proof. destruct o; [apply keeps_ret|apply keeps_fail]. Qed.
Lemma keeps_unwrap_ub {A} (o : option A) : keeps (unwrap_ub o).
Proof. destruct o; [apply keeps_ret|apply keeps_fail]. Qed.
Lemma keeps_assert b : keeps (assert_ b).
Proof. destruct b; [apply keeps_ret|apply keeps_fail]. Qed.
Lemma keeps_index {A} (l : list A) i : keeps (index l i).
Proof. unfold index. destruct (_ && _); [apply keeps_unwrap|apply keeps_fail]. Qed.
Lemma keeps_set_index {A} (l : list A) i x : keeps (set_index l i x).
Proof. unfold set_index. destruct (_ && _); [apply keeps_ret|apply keeps_fail]. Qed.
Lemma keeps_slice {A} (l : list A) i j : keeps (slice l i j).
Proof. unfold slice. destruct (_ && _); [apply keeps_ret|apply keeps_fail]. Qed.
Lemma keeps_mfold {A B} (f : A → B → M Mm B) l b : (∀ x b, keeps (f x b)) → keeps (mfold f l b).
Proof. intros Hf. revert b. induction l; intros b; cbn [mfold]; [apply keeps_ret|by apply keeps_bind]. Qed.
Lemma keeps_mfor {A} (f : A → M Mm ()) l : (∀ x, keeps (f x)) → keeps (mfor f l).
Proof. intros Hf. by apply keeps_mfold. Qed.
Lemma keeps_mloop {A B} (body : A → M Mm (A + B)) n a : (∀ a, keeps (body a)) → keeps (mloop n body a).
Proof.
  intros Hb. revert a. induction n; intros a; cbn [mloop]; [apply keeps_fail|].
  apply keeps_bind; [done|]. intros [?|?]; [done|apply keeps_ret].
Qed.

Create HintDb keeps.
#[export] Hint Resolve keeps_ret keeps_fail keeps_gets keeps_get keeps_unwrap keeps_unwrap_ub keeps_assert keeps_index
  keeps_set_index keeps_slice : keeps.

(** One rule of [keeps], by the form of the computation. *)
Ltac keeps_step :=
  lazymatch goal with
  | |- keeps (_ ≫= _) => apply keeps_bind; [|intros ?; cbn beta]
  | |- keeps (upd _) => apply keeps_upd; intros ?; reflexivity
  | |- keeps (mfold _ _ _) => apply keeps_mfold; intros ? ?; cbn beta
  | |- keeps (mfor _ _) => apply keeps_mfor; intros ?; cbn beta
  | |- keeps (mloop _ _ _) => apply keeps_mloop; intros ?; cbn beta
  | |- keeps panic => apply keeps_fail
  | |- keeps (let _ := _ in _) => cbv zeta
  | |- keeps (match ?x with _ => _ end) => destruct x
  | |- keeps (match ?x with _ => _ end _) => destruct x
  end.
Ltac keeps := repeat (first [keeps_step | solve [auto with keeps nocore]]).

Lemma keeps_get_bytes_array p : keeps (get_bytes_array p).
Proof. unfold get_bytes_array. keeps. Qed.
#[export] Hint Resolve keeps_get_bytes_array : keeps.
Lemma keeps_set_bytes_array p v : keeps (set_bytes_array p v).
Proof. unfold set_bytes_array. keeps. Qed.
#[export] Hint Resolve keeps_set_bytes_array : keeps.
Lemma keeps_copy_into {A} (l : list A) i j v : keeps (copy_into l i j v).
Proof. unfold copy_into. keeps. Qed.
#[export] Hint Resolve keeps_copy_into : keeps.
Lemma keeps_read_pte p i : keeps (read_pte p i).
Proof. unfold read_pte. keeps. Qed.
Lemma keeps_write_pte p i v : keeps (write_pte p i v).
Proof. unfold write_pte. keeps. Qed.
#[export] Hint Resolve keeps_read_pte keeps_write_pte : keeps.
Lemma keeps_find_pte pt v : keeps (PageTable_find_pte pt v).
Proof. unfold PageTable_find_pte. keeps. Qed.
#[export] Hint Resolve keeps_find_pte : keeps.
Lemma keeps_translate pt v : keeps (PageTable_translate pt v).
Proof. unfold PageTable_translate. keeps. Qed.
#[export] Hint Resolve keeps_translate : keeps.
Lemma keeps_translate_va pt v : keeps (PageTable_translate_va pt v).
Proof. unfold PageTable_translate_va. keeps. Qed.
Lemma keeps_unmap pt v : keeps (PageTable_unmap pt v).
Proof. unfold PageTable_unmap. keeps. Qed.
Lemma keeps_frame_slice p i j : keeps (frame_slice p i j).
Proof. unfold frame_slice. keeps. Qed.
#[export] Hint Resolve keeps_translate_va keeps_unmap keeps_frame_slice : keeps.
Lemma keeps_translated_byte_buffers t p n : keeps (translated_byte_buffers t p n).
Proof. unfold translated_byte_buffers, byte_buffers_round. keeps. Qed.
Lemma keeps_phys_byte p : keeps (phys_byte p).
Proof. unfold phys_byte. keeps. Qed.
Lemma keeps_set_phys_byte p b : keeps (set_phys_byte p b).
Proof. unfold set_phys_byte. keeps. Qed.
#[export] Hint Resolve keeps_translated_byte_buffers keeps_phys_byte keeps_set_phys_byte : keeps.
Lemma keeps_translated_str n t p : keeps (translated_str n t p).
Proof. unfold translated_str. keeps. Qed.
Lemma keeps_translated_ref t p : keeps (translated_ref t p).
Proof. unfold translated_ref. keeps. Qed.
Lemma keeps_read_le n p : keeps (read_le n p).
Proof. unfold read_le. keeps. Qed.
Lemma keeps_write_le n p v : keeps (write_le n p v).
Proof. unfold write_le. keeps. Qed.
#[export] Hint Resolve keeps_translated_str keeps_translated_ref keeps_read_le keeps_write_le : keeps.
Lemma keeps_SimpleRange_new i j : keeps (SimpleRange_new i j).
Proof. unfold SimpleRange_new. keeps. Qed.
Lemma keeps_PageNum_from_Addr a : keeps (PageNum_from_Addr a).
Proof. unfold PageNum_from_Addr. keeps. Qed.
Lemma keeps_copy_data a pt d : keeps (MapArea_copy_data a pt d).
Proof. unfold MapArea_copy_data. keeps. Qed.
#[export] Hint Resolve keeps_SimpleRange_new keeps_PageNum_from_Addr keeps_copy_data : keeps.
Lemma keeps_ms_translate ms v : keeps (MemorySet_translate ms v).
Proof. apply keeps_translate. Qed.
#[export] Hint Resolve keeps_ms_translate : keeps.
Lemma keeps_copy_page u m v : keeps (copy_page u m v).
Proof. unfold copy_page. keeps. Qed.
#[export] Hint Resolve keeps_copy_page : keeps.

(** * Triples *)

Section owner.
Context (l r : Z).

(** The frames that are handed out are exactly [F], each owned once. *)
Definition owns (F : list Z) (s : Mm) : Prop :=
  alloc_wf l r (mm_alloc s) ∧ NoDup F ∧ ∀ p, p ∈ F ↔ p ∈ allocated l (mm_alloc s).
Definition moves {A} (F : list Z) (m : M Mm A) (G : A → list Z) : Prop :=
  ∀ R, hoare (owns (F ++ R)) m (λ a, owns (G a ++ R)).

#[export] Instance owns_Permutation s : Proper ((≡ₚ) ==> iff) (λ F, owns F s).
Proof. intros F F' HF. unfold owns. by setoid_rewrite HF. Qed.
Lemma owns_perm F F' s : owns F s → F ≡ₚ F' → owns F' s.
Proof. intros H HF. by rewrite (owns_Permutation s _ _ (symmetry HF)). Qed.

Lemma moves_ret {A} F (a : A) G : F ≡ₚ G a → moves F (mret a) G.
Proof. intros HF R. apply hoare_ret. intros s Hs. eapply owns_perm; [exact Hs|]. by rewrite HF. Qed.
Lemma moves_fail {A} F e (G : A → list Z) : moves F (fail e) G.
Proof. intros R. apply hoare_fail. Qed.
Lemma moves_keeps {A} F (m : M Mm A) : keeps m → moves F m (λ _, F).
Proof. intros Hm R s a s' Hs Hrun. unfold owns. by rewrite (Hm _ _ _ Hrun). Qed.
(** A call that owns a part [F1] of what is owned, [X] being the rest. *)
Lemma moves_bind {A B} X F1 G F (m : M Mm A) (f : A → M Mm B) H :
  moves F1 m G → F ≡ₚ F1 ++ X → (∀ a, moves (G a ++ X) (f a) H) → moves F (m ≫= f) H.
Proof.
  intros Hm HF Hf R. eapply hoare_bind; [|intros a; apply Hf].
  eapply hoare_mono; [apply (Hm (X ++ R))| |].
  - intros s Hs. eapply owns_perm; [exact Hs|]. by rewrite HF, app_assoc.
  - intros a s Hs. by rewrite <-app_assoc.
Qed.
Lemma moves_keeps_bind {A B} F (m : M Mm A) (f : A → M Mm B) H :
  keeps m → (∀ a, moves F (f a) H) → moves F (m ≫= f) H.
Proof.
  intros Hm Hf. eapply (moves_bind []); [by apply moves_keeps|by rewrite app_nil_r|].
  intros a. rewrite app_nil_r. apply Hf.
Qed.
(** A call at the end; what it leaves is a rearrangement of [H]. *)
Lemma moves_conseq {A} X F1 G F (m : M Mm A) H :
  moves F1 m G → F ≡ₚ F1 ++ X → (∀ a, G a ++ X ≡ₚ H a) → moves F m H.
Proof.
  intros Hm HF HG R s a s' Hs Hrun. eapply owns_perm; [eapply (Hm (X ++ R)); [|exact Hrun]|].
  - eapply owns_perm; [exact Hs|]. by rewrite HF, app_assoc.
  - by rewrite <-HG, app_assoc.
Qed.
Lemma moves_mono {A} F F' (m : M Mm A) G : moves F m G → F ≡ₚ F' → moves F' m G.
Proof. intros Hm HF. eapply (moves_conseq []); [exact Hm|by rewrite app_nil_r, HF|intros; by rewrite app_nil_r]. Qed.
Lemma moves_unwrap_bind {A B} F (o : option A) (f : A → M Mm B) H :
  (∀ a, o = Some a → moves F (f a) H) → moves F (unwrap o ≫= f) H.
Proof.
  intros Hf R s b s' Hs (a & s1 & H1 & H2)%bind_Ok_inv. destruct o as [a'|]; [|done].
  injection H1 as <- <-. by eapply (Hf a').
Qed.
Lemma moves_assert_bind {B} F b (f : () → M Mm B) H : (b = true → moves F (f ()) H) → moves F (assert_ b ≫= f) H.
Proof.
  intros Hf. destruct b; [|intros R s x s' _ (? & ? & ? & _)%bind_Ok_inv; done].
  apply moves_keeps_bind; [keeps|]. intros []. by apply Hf.
Qed.
Lemma moves_mfold {A B} (I : B → list Z) (f : A → B → M Mm B) xs b :
  (∀ x b, moves (I b) (f x b) I) → moves (I b) (mfold f xs b) I.
Proof.
  intros Hf. revert b. induction xs as [|x xs IH]; intros b; cbn [mfold]; [by apply moves_ret|].
  eapply (moves_bind []); [apply Hf|by rewrite app_nil_r|]. intros b'. rewrite app_nil_r. apply IH.
Qed.

(** ** Frames *)

Lemma moves_frame_alloc : moves [] frame_alloc option_list.
Proof.
  intros R s o s' (Hwf & Hnd & HR) Hrun. unfold frame_alloc in Hrun.
  pose proof (frame_alloc_spec l r _ Hwf) as Hspec.
  apply bind_Ok_inv in Hrun as (s0 & s1 & [= <- <-] & Hrun).
  destruct (StackFrameAllocator_alloc (mm_alloc s)) as [[p|] a] eqn:Hal;
    apply bind_Ok_inv in Hrun as (? & s2 & [= _ <-] & Hrun).
  - destruct Hspec as (Hwf' & Hp & Hnin & Hall).
    apply bind_Ok_inv in Hrun as (t & s3 & Hnew & [= <- <-]).
    assert (t = p ∧ mm_alloc s3 = a) as [-> Ha].
    { unfold FrameTracker_new in Hnew. apply bind_Ok_inv in Hnew as (? & s4 & Hset & [= <- <-]).
      split; [done|]. by apply keeps_set_bytes_array in Hset. }
    unfold owns. rewrite Ha. split; [done|]. cbn. split.
    + constructor; [|done]. by rewrite HR.
    + intros q. rewrite elem_of_cons, HR, Hall. set_solver.
  - destruct Hspec as [-> _]. injection Hrun as <- <-. by destruct s.
Qed.
Lemma moves_FrameTracker_drop p : moves [p] (FrameTracker_drop p) (λ _, []).
Proof.
  intros R s u s' (Hwf & Hnd & HR) Hrun. unfold FrameTracker_drop, frame_dealloc, zoom in Hrun.
  pose proof (frame_dealloc_spec l r _ p Hwf) as Hspec. cbn in Hnd, HR. apply NoDup_cons in Hnd as [Hp Hnd].
  rewrite decide_True in Hspec by (apply HR; by left). destruct Hspec as (a' & Hd & Hwf' & Hall).
  rewrite Hd in Hrun. injection Hrun as _ <-. split; [done|]. split; [done|]. intros q. cbn. rewrite Hall.
  rewrite elem_of_difference, <-HR, elem_of_cons, elem_of_singleton. split.
  - intros Hq. split; [by right|]. by intros ->.
  - intros [[Hq|?] ?]; [congruence|done].
Qed.
Lemma moves_drop_frames ps : moves ps (drop_frames ps) (λ _, []).
Proof.
  unfold drop_frames, mfor. induction ps as [|p ps IH]; cbn [mfold]; [by apply moves_ret|].
  eapply (moves_bind ps); [apply moves_FrameTracker_drop|done|]. intros []. apply IH.
Qed.

(** ** Page tables *)

Lemma moves_find_pte_create_step p i fs : moves fs (find_pte_create_step p i fs) snd.
Proof.
  unfold find_pte_create_step. apply moves_keeps_bind; [keeps|]. intros pte. case_match; [by apply moves_ret|].
  eapply (moves_bind fs); [apply moves_frame_alloc|done|]. intros o. apply moves_unwrap_bind. intros q ->.
  do 2 (apply moves_keeps_bind; [keeps|]; intros ?). apply moves_ret. cbn. solve_Permutation.
Qed.
Lemma moves_find_pte_create pt v : moves (pt_frames pt) (PageTable_find_pte_create pt v) (λ r, pt_frames r.2).
Proof.
  unfold PageTable_find_pte_create. cbv zeta. eapply (moves_bind [] _ snd).
  - eapply (moves_mono (root_ppn pt, pt_frames pt).2); [|done]. apply (moves_mfold snd). intros i [p fs].
    apply moves_keeps_bind; [keeps|]. intros idx. apply moves_find_pte_create_step.
  - by rewrite app_nil_r.
  - intros [p fs]. do 2 (apply moves_keeps_bind; [keeps|]; intros ?). apply moves_ret. cbn. by rewrite app_nil_r.
Qed.
Lemma moves_PageTable_map pt v p fl : moves (pt_frames pt) (PageTable_map pt v p fl) pt_frames.
Proof.
  unfold PageTable_map. eapply (moves_bind []); [apply moves_find_pte_create|by rewrite app_nil_r|].
  intros [[t i] pt']. do 3 (apply moves_keeps_bind; [keeps|]; intros ?). apply moves_ret. cbn. by rewrite app_nil_r.
Qed.
Lemma moves_PageTable_new : moves [] PageTable_new pt_frames.
Proof.
  unfold PageTable_new. eapply (moves_bind []); [apply moves_frame_alloc|done|]. intros o.
  apply moves_unwrap_bind. intros p ->. by apply moves_ret.
Qed.

(** ** Areas *)

Lemma BTreeMap_values_perm (m : gmap Z Z) : BTreeMap_values m ≡ₚ (map_to_list m).*2.
Proof. unfold BTreeMap_values, BTreeMap_iter. by rewrite (sorting.merge_sort_Permutation key_le). Qed.
Lemma moves_MapArea_drop a : moves (area_frames a) (MapArea_drop a) (λ _, []).
Proof. eapply moves_mono; [apply moves_drop_frames|]. apply BTreeMap_values_perm. Qed.
Lemma moves_insert_frame v p a : moves (p :: area_frames a) (insert_frame v p a) area_frames.
Proof.
  unfold insert_frame. destruct (data_frames a !! v) as [old|] eqn:E.
  - eapply (moves_bind (p :: area_frames (set_data_frames (delete v (data_frames a)) a))).
    + apply moves_FrameTracker_drop.
    + rewrite (area_frames_delete a v old) by done. solve_Permutation.
    + intros ?. apply moves_ret. cbn. rewrite <-(insert_delete_eq (data_frames a)).
      symmetry.
      exact (area_frames_insert (set_data_frames (delete v (data_frames a)) a) v p (lookup_delete_eq _ _)).
  - apply moves_keeps_bind; [keeps|]. intros _. apply moves_ret. symmetry. by apply area_frames_insert.
Qed.
Lemma moves_remove_frame v a : moves (area_frames a) (remove_frame v a) area_frames.
Proof.
  unfold remove_frame. destruct (data_frames a !! v) as [old|] eqn:E.
  - eapply (moves_bind (area_frames (set_data_frames (delete v (data_frames a)) a))).
    + apply moves_FrameTracker_drop.
    + by apply area_frames_delete.
    + intros ?. by apply moves_ret.
  - apply moves_keeps_bind; [keeps|]. intros _. apply moves_ret. unfold area_frames. cbn.
    by rewrite delete_id.
Qed.

Abbreviation area_pt_frames x := (area_frames x.1.2 ++ pt_frames x.2).
Lemma moves_map_one a pt v : moves (area_frames a ++ pt_frames pt) (MapArea_map_one a pt v) (λ x, area_pt_frames x).
Proof.
  unfold MapArea_map_one.
  eapply (moves_bind (pt_frames pt) _ (λ o, match o with Some (_, a') => area_frames a' | None => area_frames a end));
    [|done|].
  - destruct (map_type a); [by apply moves_ret|].
    eapply (moves_bind (area_frames a)); [apply moves_frame_alloc|done|]. intros [p|]; [|by apply moves_ret].
    eapply (moves_bind []); [apply moves_insert_frame|by rewrite app_nil_r|].
    intros a'. apply moves_ret. by rewrite app_nil_r.
  - intros [[p a']|]; [|by apply moves_ret].
    eapply (moves_bind (area_frames a')); [apply moves_PageTable_map|apply Permutation_app_comm|].
    intros pt'. apply moves_ret. apply Permutation_app_comm.
Qed.
Lemma moves_map_pages vs a pt : moves (area_frames a ++ pt_frames pt) (map_pages vs a pt) (λ x, area_pt_frames x).
Proof.
  revert a pt. induction vs as [|v vs IH]; intros a pt; cbn [map_pages]; [by apply moves_ret|].
  eapply (moves_bind []); [apply moves_map_one|by rewrite app_nil_r|]. intros [[ok a'] pt']. cbn.
  rewrite app_nil_r. destruct ok; [apply IH|by apply moves_ret].
Qed.
Lemma moves_unmap_one a pt v : moves (area_frames a) (MapArea_unmap_one a pt v) area_frames.
Proof.
  unfold MapArea_unmap_one. eapply (moves_bind [] _ area_frames); [|by rewrite app_nil_r|].
  - case_bool_decide; [apply moves_remove_frame|by apply moves_ret].
  - intros a'. rewrite app_nil_r. apply moves_keeps_bind; [keeps|]. intros _. by apply moves_ret.
Qed.
Lemma moves_MapArea_unmap a pt : moves (area_frames a) (MapArea_unmap a pt) area_frames.
Proof. apply (moves_mfold area_frames). intros v a'. apply moves_unmap_one. Qed.
(** [MapArea::new] and [from_another]. *)
Abbreviation new_area i j t p := (rg ← SimpleRange_new i j; mret (MkMapArea rg ∅ t p)).
Lemma moves_MapArea_new {B} F i j t p (f : MapArea → M Mm B) H :
  (∀ rg, moves F (f (MkMapArea rg ∅ t p)) H) → moves F (new_area i j t p ≫= f) H.
Proof.
  intros Hf R s b s' Hs (a & s1 & H1 & H2)%bind_Ok_inv.
  apply bind_Ok_inv in H1 as (rg & s2 & H1 & [= <- <-]). eapply (Hf rg); [|exact H2].
  eapply (moves_keeps F); [|exact Hs|exact H1]. keeps.
Qed.
Lemma area_frames_empty rg t p : area_frames (MkMapArea rg ∅ t p) = [].
Proof. done. Qed.

(** ** Address spaces *)

Lemma moves_push ms a data : moves (area_frames a ++ ms_frames ms) (MemorySet_push ms a data) (λ x, ms_frames x.2).
Proof.
  unfold MemorySet_push, MapArea_map.
  eapply (moves_bind (areas_frames (areas ms))); [apply moves_map_pages|by rewrite <-app_assoc|].
  intros [[ok a'] pt']. cbn. destruct ok.
  - apply moves_keeps_bind; [keeps|]. intros _. apply moves_ret. unfold ms_frames. cbn.
    rewrite areas_frames_snoc. solve_Permutation.
  - eapply (moves_bind (pt_frames pt' ++ areas_frames (areas ms))); [apply moves_MapArea_drop|by rewrite app_assoc|].
    intros ?. by apply moves_ret.
Qed.
Lemma moves_push_unwrap ms a data : moves (area_frames a ++ ms_frames ms) (push_unwrap ms a data) ms_frames.
Proof.
  unfold push_unwrap. eapply (moves_bind []); [apply moves_push|by rewrite app_nil_r|]. intros [ok ms'].
  apply moves_assert_bind. intros _. apply moves_ret. by rewrite app_nil_r.
Qed.
Lemma moves_new_area {B} ms i j t p data (f : MapArea → MemorySet → M Mm B) H :
  (∀ a ms', moves (ms_frames ms') (f a ms') H) →
  moves (ms_frames ms) (a ← new_area i j t p; ms' ← push_unwrap ms a data; f a ms') H.
Proof.
  intros Hf. apply moves_MapArea_new. intros rg.
  eapply (moves_bind []); [apply moves_push_unwrap|by rewrite area_frames_empty, app_nil_r|].
  intros ms'. rewrite app_nil_r. apply Hf.
Qed.
Lemma moves_insert_framed_area ms i j p : moves (ms_frames ms) (MemorySet_insert_framed_area ms i j p) (λ x, ms_frames x.2).
Proof. apply moves_MapArea_new. intros rg. eapply moves_mono; [apply moves_push|by rewrite area_frames_empty]. Qed.
Lemma areas_frames_delete As i a : As !! i = Some a → areas_frames As ≡ₚ area_frames a ++ areas_frames (delete i As).
Proof. intros Hi. rewrite (areas_frames_perm _ _ (delete_Permutation As i a Hi)). done. Qed.
Lemma areas_frames_insert As i a a' :
  As !! i = Some a → areas_frames (<[i := a']> As) ≡ₚ area_frames a' ++ areas_frames (delete i As).
Proof. intros Hi. rewrite (areas_frames_perm _ _ (insert_Permutation As i a a' Hi)). done. Qed.
Lemma moves_remove_area ms v : moves (ms_frames ms) (MemorySet_remove_area_with_start_vpn ms v) ms_frames.
Proof.
  unfold MemorySet_remove_area_with_start_vpn. destruct (find_index _ _) as [[i a]|] eqn:E; [|by apply moves_ret].
  apply find_index_Some in E as (Hi & _). set (X := pt_frames (page_table ms) ++ areas_frames (delete i (areas ms))).
  eapply (moves_bind X); [apply moves_MapArea_unmap| |].
  - unfold ms_frames, X. rewrite (areas_frames_delete _ i a) by done. solve_Permutation.
  - intros a'. eapply (moves_bind X); [apply moves_MapArea_drop|done|]. intros ?. by apply moves_ret.
Qed.
Lemma moves_remove_mapped_frame v ms : moves (ms_frames ms) (remove_mapped_frame v ms) ms_frames.
Proof.
  unfold remove_mapped_frame. apply moves_unwrap_bind. intros [i a] E.
  apply find_index_Some in E as (Hi & _). set (X := pt_frames (page_table ms) ++ areas_frames (delete i (areas ms))).
  eapply (moves_bind X); [apply moves_unmap_one| |].
  { unfold ms_frames, X. rewrite (areas_frames_delete _ i a) by done. solve_Permutation. }
  intros a'. eapply (moves_bind X); [apply moves_remove_frame|done|]. intros a''. case_bool_decide.
  - eapply (moves_bind X); [apply moves_MapArea_drop|done|]. intros ?. by apply moves_ret.
  - apply moves_ret. unfold ms_frames, X. cbn. rewrite (areas_frames_insert _ i a) by done. solve_Permutation.
Qed.
Lemma moves_remove_mapped_frames ms i j :
  moves (ms_frames ms) (MemorySet_remove_mapped_frames ms i j) (λ x, ms_frames x.2).
Proof.
  unfold MemorySet_remove_mapped_frames. apply moves_keeps_bind; [keeps|]. intros rg. case_match; [|by apply moves_ret].
  apply moves_keeps_bind; [keeps|]. intros rg'.
  eapply (moves_bind [] _ ms_frames); [|by rewrite app_nil_r|intros ms'; by apply moves_ret; rewrite app_nil_r].
  apply (moves_mfold ms_frames). intros v ms'. apply moves_remove_mapped_frame.
Qed.
Lemma moves_drop_areas As : moves (areas_frames As) (mfor MapArea_drop As) (λ _, []).
Proof.
  unfold mfor. induction As as [|a As IH]; cbn [mfold]; [by apply moves_ret|].
  eapply (moves_bind (areas_frames As)); [apply moves_MapArea_drop|done|]. intros []. apply IH.
Qed.
Lemma moves_recycle ms : moves (ms_frames ms) (MemorySet_recycle_data_pages ms) ms_frames.
Proof.
  eapply (moves_bind (pt_frames (page_table ms))); [apply moves_drop_areas|apply Permutation_app_comm|].
  intros ?. apply moves_ret. unfold ms_frames. cbn. by rewrite app_nil_r.
Qed.
Lemma moves_MemorySet_drop ms : moves (ms_frames ms) (MemorySet_drop ms) (λ _, []).
Proof.
  eapply (moves_bind (areas_frames (areas ms))); [apply moves_drop_frames|done|]. intros ?. apply moves_drop_areas.
Qed.
Lemma moves_new_bare : moves [] MemorySet_new_bare ms_frames.
Proof.
  eapply (moves_bind []); [apply moves_PageTable_new|done|]. intros pt. by apply moves_ret.
Qed.

Section symbols.
Context (sym : KernelSymbols) (ElfFile_new : list Z → option ElfFile).

Lemma moves_map_trampoline ms : moves (ms_frames ms) (MemorySet_map_trampoline sym ms) ms_frames.
Proof.
  unfold MemorySet_map_trampoline. do 2 (apply moves_keeps_bind; [keeps|]; intros ?).
  eapply (moves_bind (areas_frames (areas ms))); [apply moves_PageTable_map|done|]. intros pt. by apply moves_ret.
Qed.
(** The start of every address space: a new page table with the trampoline. *)
Lemma moves_new_space {B} (f : MemorySet → M Mm B) H :
  (∀ ms, moves (ms_frames ms) (f ms) H) →
  moves [] (ms ← MemorySet_new_bare; ms ← MemorySet_map_trampoline sym ms; f ms) H.
Proof.
  intros Hf. eapply (moves_bind []); [apply moves_new_bare|done|]. intros ms.
  eapply (moves_bind []); [apply moves_map_trampoline|done|]. intros ms'. rewrite app_nil_r. apply Hf.
Qed.
Lemma moves_from_existed_userspace u : moves [] (MemorySet_from_existed_userspace sym u) ms_frames.
Proof.
  apply moves_new_space. intros ms. apply (moves_mfold ms_frames). intros a ms'.
  apply (moves_new_area ms' _ _ _ _ _ (λ _ ms', mfor (copy_page u ms') _;; mret ms')). intros _ ms2.
  apply moves_keeps_bind; [keeps|]. intros _. by apply moves_ret.
Qed.
Lemma moves_map_section i j p ms : moves (ms_frames ms) (map_section i j p ms) ms_frames.
Proof.
  apply moves_MapArea_new. intros rg. eapply moves_mono; [apply moves_push_unwrap|by rewrite area_frames_empty].
Qed.
Lemma moves_new_kernel : moves [] (MemorySet_new_kernel sym) ms_frames.
Proof.
  apply moves_new_space. intros ms. do 5 (eapply (moves_bind []); [apply moves_map_section|by rewrite app_nil_r|];
    intros ?; rewrite app_nil_r).
  apply (moves_mfold ms_frames). intros [i n] ms'. apply moves_MapArea_new. intros rg.
  eapply (moves_bind []); [apply moves_push|by rewrite area_frames_empty, app_nil_r|]. intros [ok ms2].
  apply moves_ret. by rewrite app_nil_r.
Qed.
Lemma moves_load_segment d ph ms : moves (ms_frames ms) (load_segment d ph ms) (λ x, ms_frames x.1).
Proof.
  unfold load_segment. cbv zeta. apply moves_MapArea_new. intros rg. apply moves_keeps_bind; [keeps|]. intros data.
  eapply (moves_bind []); [apply moves_push_unwrap|by rewrite area_frames_empty, app_nil_r|].
  intros ms'. apply moves_ret. by rewrite app_nil_r.
Qed.
Lemma moves_from_elf d : moves [] (MemorySet_from_elf sym ElfFile_new d) (λ x, ms_frames x.1.1).
Proof.
  apply moves_new_space. intros ms. do 2 (apply moves_keeps_bind; [keeps|]; intros ?).
  eapply (moves_bind [] _ (λ x, ms_frames x.1)); [|by rewrite app_nil_r|].
  - eapply (moves_mono (ms_frames (ms, 0).1)); [|done]. apply (moves_mfold (λ x, ms_frames x.1)). intros i [ms' e].
    do 2 (apply moves_keeps_bind; [keeps|]; intros ?). case_match; [apply moves_load_segment|by apply moves_ret].
  - intros [ms' e]. cbn beta zeta. rewrite app_nil_r. apply (moves_new_area _ _ _ _ _ _ (λ _ _, _)). intros _ ms2.
    apply (moves_new_area _ _ _ _ _ _ (λ _ _, _)). intros _ ms3. by apply moves_ret.
Qed.
End symbols.
End owner.

(** [init_frame_allocator] on the allocator of the static: nobody owns a frame. *)
Lemma owns_init e s :
  mm_alloc s = StackFrameAllocator_new → 0 ≤ Address.ceil (PhysAddr_from e) ≤ Address.floor (PhysAddr_from MEMORY_END) →
  hoare (λ s', s' = s) (init_frame_allocator e)
    (λ _, owns (Address.ceil (PhysAddr_from e)) (Address.floor (PhysAddr_from MEMORY_END)) []).
Proof.
  intros Hs He s' u s2 -> [= _ <-]. unfold owns. cbn. rewrite Hs. cbn. split; [|split; [constructor|]].
  - split; cbn; [|constructor|constructor]. split; [lia|]. split; [lia|]. split; [done|]. by vm_compute.
  - intros p. rewrite elem_of_allocated. cbn. split; [by intros ?%not_elem_of_nil|lia].
Qed.
