(* ===== verification/Scheduler.v ===== *)
(** The stride scheduler (os/src/task/scheduler.rs): [Stride] with its two
    comparisons, and the binary heap of the Rust library it is kept in.  The
    heap compares with [<=], that is with [partial_cmp], which compares wrapped
    passes and is an order only while the passes stay within half the range of
    [usize]; the theorems say that they do and that the heap then hands out the
    task with the least pass. *)

From S2P Require Export Bytes.

(** * Strides *)

Definition BIG_STRIDE : Z := 2 ^ 64 - 1.

Record Stride : Type := MkStride { id : Z; pass : Z }.
#[global] Instance Stride_eq_dec : EqDecision Stride.
Proof. solve_decision. Defined.
Definition Stride_new (id pass : Z) : Stride := MkStride id pass.
Definition Stride_zeros : Stride := MkStride 0 0.
#[global] Instance Stride_inhabited : Inhabited Stride := populate Stride_zeros.

Definition Stride_abs_diff (self other : Stride) : Z :=
  if pass self <? pass other then pass other - pass self else pass self - pass other.

(** [Ord::cmp]: the order of the passes, reversed. *)
Definition Stride_cmp (self other : Stride) : comparison := CompOpp (pass self ?= pass other).
Definition Stride_partial_cmp (self other : Stride) : option comparison :=
  if Stride_abs_diff self other <=? Z.shiftr BIG_STRIDE 1
  then Some (Stride_cmp self other)
  else Some (CompOpp (Stride_cmp self other)).
Definition Stride_eqb (self other : Stride) : bool := pass self =? pass other.
(** [PartialOrd::le], as the library derives it from [partial_cmp]. *)
Definition Stride_le (self other : Stride) : bool :=
  match Stride_partial_cmp self other with Some (Lt | Eq) => true | _ => false end.

(** * [BinaryHeap] *)

Section BinaryHeap.
Context {A : Type} `{!Inhabited A} (le : A → A → bool).
Open Scope nat_scope.

(** [data] with a hole at [pos], where [elt] belongs. *)
Fixpoint sift_up (fuel : nat) (data : list A) (elt : A) (pos : nat) : list A :=
  match fuel with
  | O => <[pos := elt]> data
  | S fuel =>
      if pos =? 0 then <[pos := elt]> data
      else
        let parent := (pos - 1) / 2 in
        if le elt (data !!! parent) then <[pos := elt]> data
        else sift_up fuel (<[pos := data !!! parent]> data) elt parent
  end.

(** The first loop of [sift_down_to_bottom]: the hole sinks to the bottom. *)
Fixpoint sink (fuel : nat) (data : list A) (pos : nat) : list A * nat :=
  match fuel with
  | O => (data, pos)
  | S fuel =>
      let end_ := length data in
      let child := 2 * pos + 1 in
      if child <=? end_ - 2 then
        let child := child + Nat.b2n (le (data !!! child) (data !!! (child + 1))) in
        sink fuel (<[pos := data !!! child]> data) child
      else if child =? end_ - 1 then (<[pos := data !!! child]> data, child)
      else (data, pos)
  end.
Definition sift_down_to_bottom (data : list A) : list A :=
  let elt := data !!! 0 in
  let '(data, pos) := sink (length data) data 0 in
  sift_up pos data elt pos.

Definition BinaryHeap_push (data : list A) (item : A) : list A :=
  sift_up (length data) (data ++ [item]) item (length data).
Definition BinaryHeap_pop (data : list A) : option A * list A :=
  match last data with
  | None => (None, data)
  | Some item =>
      let data := take (length data - 1) data in
      match data with
      | [] => (Some item, [])
      | top :: _ => (Some top, sift_down_to_bottom (<[0 := item]> data))
      end
  end.
End BinaryHeap.

(** * [StrideScheduler] *)

Record StrideScheduler : Type := MkStrideScheduler { queue : list Stride }.
Definition StrideScheduler_new : StrideScheduler := MkStrideScheduler [].
Definition StrideScheduler_create_task (self : StrideScheduler) (id : Z) : StrideScheduler :=
  MkStrideScheduler (BinaryHeap_push Stride_le (queue self) (Stride_new id 0)).
Definition StrideScheduler_insert_task (self : StrideScheduler) (id pass : Z) : StrideScheduler :=
  MkStrideScheduler (BinaryHeap_push Stride_le (queue self) (Stride_new id pass)).
Definition StrideScheduler_find_next_task (self : StrideScheduler) : option Z * StrideScheduler :=
  match BinaryHeap_pop Stride_le (queue self) with
  | (Some node, q) => (Some (id node), MkStrideScheduler q)
  | (None, q) => (None, MkStrideScheduler q)
  end.

(** [scheduler_order_test] *)
Definition scheduler_order_test : bool :=
  let s := StrideScheduler_new in
  let s := StrideScheduler_insert_task s 0 100 in
  let s := StrideScheduler_insert_task s 1 200 in
  let s := StrideScheduler_insert_task s 2 300 in
  let '(r0, s) := StrideScheduler_find_next_task s in
  let '(r1, s) := StrideScheduler_find_next_task s in
  let '(r2, _) := StrideScheduler_find_next_task s in
  bool_decide (r0 = Some 0) && bool_decide (r1 = Some 1) && bool_decide (r2 = Some 2).

(** * The heap, when the comparison is that of a key *)

Section heap.
Context {A : Type} `{!Inhabited A} (le : A → A → bool) (key : A → Z) (P : A → Prop).
Context (le_key : ∀ a b, P a → P b → le a b = (key b <=? key a)%Z).
Open Scope nat_scope.
Implicit Types L data : list A.

(** Every element but the one at [except] is at most as urgent as its parent. *)
Definition ordered_but (except : nat) (L : list A) : Prop :=
  ∀ i, 0 < i < length L → i ≠ except → (key (L !!! ((i - 1) / 2)%nat) ≤ key (L !!! i))%Z.
Definition heap_ordered (L : list A) : Prop :=
  ∀ i, 0 < i < length L → (key (L !!! ((i - 1) / 2)%nat) ≤ key (L !!! i))%Z.
(** The parent of [pos] is at most as urgent as the children of [pos]. *)
Definition bridged (pos : nat) (L : list A) : Prop :=
  0 < pos → ∀ i, 0 < i < length L → (i - 1) / 2 = pos →
  (key (L !!! ((pos - 1) / 2)%nat) ≤ key (L !!! i))%Z.

Lemma Forall_total L i : Forall P L → i < length L → P (L !!! i).
Proof.
  intros HL Hi. rewrite Forall_forall in HL. apply HL.
  apply list_elem_of_lookup. exists i. by apply list_lookup_lookup_total_lt.
Qed.
Lemma insert_total_self L i : <[i := L !!! i]> L = L.
Proof.
  destruct (decide (i < length L)) as [Hi|Hi].
  - apply list_insert_id. by apply list_lookup_lookup_total_lt.
  - apply list_insert_ge. lia.
Qed.

Lemma sift_up_spec fuel data elt pos :
  pos < length data → pos ≤ fuel → Forall P (<[pos := elt]> data) →
  ordered_but pos (<[pos := elt]> data) → bridged pos (<[pos := elt]> data) →
  heap_ordered (sift_up le fuel data elt pos) ∧ sift_up le fuel data elt pos ≡ₚ <[pos := elt]> data.
Proof.
  revert data pos. induction fuel as [|fuel IH]; intros data pos Hpos Hf HP Hord Hbr; cbn [sift_up].
  - split; [|done]. intros i Hi. apply Hord; lia.
  - destruct (Nat.eqb_spec pos 0) as [->|Hne]; [split; [intros i Hi; apply Hord; lia|done]|].
    set (par := (pos - 1) / 2). assert (par < pos) as Hpar by (unfold par; lia).
    pose proof (length_insert data pos elt) as Hlen.
    assert (<[pos := elt]> data !!! par = data !!! par) as Hp by (apply list_lookup_total_insert_ne; lia).
    assert (<[pos := elt]> data !!! pos = elt) as Hself by (apply list_lookup_total_insert_eq; lia).
    assert (P elt ∧ P (data !!! par)) as [HPe HPp].
    { rewrite <-Hself at 1. rewrite <-Hp. split; apply Forall_total; (done || lia). }
    rewrite le_key by done. destruct (Z.leb_spec (key (data !!! par)) (key elt)) as [Hle|Hlt].
    + split; [|done]. intros i Hi. destruct (decide (i = pos)) as [->|]; [|by apply Hord].
      fold par. by rewrite Hp, Hself.
    + set (data' := <[pos := data !!! par]> data).
      assert (<[par := elt]> data' ≡ₚ <[pos := elt]> data) as Hperm.
      { unfold data'. rewrite <-(Permutation_insert_swap (<[pos := elt]> data) pos par elt (data !!! par)).
        - by rewrite list_insert_insert_eq.
        - apply list_lookup_insert_eq. lia.
        - rewrite list_lookup_insert_ne by lia. apply list_lookup_lookup_total_lt. lia. }
      assert (length data' = length data) as Hlen' by apply length_insert.
      assert (∀ i, <[par := elt]> data' !!! i = if decide (i = par) then elt else
        if decide (i = pos) then data !!! par else data !!! i) as Hnew.
      { intros i. rewrite list_lookup_total_insert. unfold data'. rewrite list_lookup_total_insert, length_insert.
        repeat case_decide; (done || lia). }
      assert (∀ i, <[pos := elt]> data !!! i = if decide (i = pos) then elt else data !!! i) as Hold.
      { intros i. rewrite list_lookup_total_insert. repeat case_decide; (done || lia). }
      rewrite <-Hperm. apply IH; [lia|lia|by rewrite Hperm| |].
      * intros i Hi Hip. rewrite length_insert in Hi. rewrite !Hnew.
        destruct (decide (i = par)); [done|]. destruct (decide (i = pos)) as [->|Hipos].
        -- fold par. rewrite decide_True by done. lia.
        -- destruct (decide ((i - 1) / 2 = par)) as [Hsib|Hnsib].
           ++ specialize (Hord i ltac:(lia) Hipos). rewrite !Hold, Hsib in Hord.
              rewrite decide_False in Hord by lia. rewrite decide_False in Hord by done. lia.
           ++ destruct (decide ((i - 1) / 2 = pos)) as [Hch|Hnch].
              ** specialize (Hbr ltac:(lia) i ltac:(lia) Hch). fold par in Hbr. rewrite !Hold in Hbr.
                 rewrite decide_False in Hbr by lia. by rewrite decide_False in Hbr by done.
              ** specialize (Hord i ltac:(lia) Hipos). rewrite !Hold in Hord.
                 by rewrite !decide_False in Hord by done.
      * intros Hpos' i Hi Hip. rewrite length_insert in Hi. rewrite !Hnew.
        rewrite (decide_False (P := (i = par)%nat)) by lia.
        rewrite (decide_False (P := ((par - 1) / 2 = par)%nat)) by lia.
        rewrite (decide_False (P := ((par - 1) / 2 = pos)%nat)) by lia.
        assert (key (data !!! ((par - 1) / 2)%nat) ≤ key (data !!! par))%Z as Hgp.
        { specialize (Hord par ltac:(lia) ltac:(lia)). rewrite !Hold in Hord.
          by rewrite !decide_False in Hord by lia. }
        destruct (decide (i = pos)) as [->|Hipos]; [done|].
        specialize (Hord i ltac:(lia) Hipos). rewrite !Hold, Hip in Hord.
        rewrite decide_False in Hord by lia. rewrite decide_False in Hord by done. lia.
Qed.

(** Ordered except around the hole at [pos]. *)
Record holed (pos : nat) (data : list A) : Prop := {
  ho_in : pos < length data;
  ho_P : Forall P data;
  ho_ord i : 0 < i < length data → i ≠ pos → (i - 1) / 2 ≠ pos →
    (key (data !!! ((i - 1) / 2)%nat) ≤ key (data !!! i))%Z;
  ho_br : bridged pos data }.

Lemma sink_move pos c data :
  holed pos data → 0 < c < length data → (c - 1) / 2 = pos →
  (∀ i, 0 < i < length data → (i - 1) / 2 = pos → (key (data !!! c) ≤ key (data !!! i))%Z) →
  holed c (<[pos := data !!! c]> data) ∧
  ∀ elt, <[c := elt]> (<[pos := data !!! c]> data) ≡ₚ <[pos := elt]> data.
Proof.
  intros [Hin HP Hord Hbr] Hc Hpar Hmin. assert (pos < c) as Hpc by lia.
  assert (∀ i, <[pos := data !!! c]> data !!! i = if decide (i = pos) then data !!! c else data !!! i) as Hnew.
  { intros i. rewrite list_lookup_total_insert. repeat case_decide; (done || lia). }
  split; [split|].
  - rewrite length_insert. lia.
  - apply Forall_insert; [done|]. apply Forall_total; (done || lia).
  - intros i Hi Hic Hipc. rewrite length_insert in Hi. rewrite !Hnew.
    destruct (decide (i = pos)) as [->|Hipos].
    + rewrite decide_False by lia. apply Hbr; (done || lia).
    + destruct (decide ((i - 1) / 2 = pos)) as [Hsib|Hns]; [by apply Hmin|by apply Hord].
  - intros Hc0 i Hi Hip. rewrite length_insert in Hi. rewrite !Hnew.
    rewrite (decide_False (P := (i = pos)%nat)) by lia. rewrite Hpar, decide_True by done.
    rewrite <-Hip. apply Hord; lia.
  - intros elt. rewrite <-(Permutation_insert_swap (<[pos := elt]> data) pos c elt (data !!! c)).
    + by rewrite list_insert_insert_eq.
    + apply list_lookup_insert_eq. lia.
    + rewrite list_lookup_insert_ne by lia. apply list_lookup_lookup_total_lt. lia.
Qed.

Lemma sink_spec fuel data pos :
  holed pos data → length data ≤ fuel + pos →
  let '(data', pos') := sink le fuel data pos in
  holed pos' data' ∧ length data ≤ 2 * pos' + 1 ∧ length data' = length data ∧
  ∀ elt, <[pos' := elt]> data' ≡ₚ <[pos := elt]> data.
Proof.
  revert data pos. induction fuel as [|fuel IH]; intros data pos Hh Hf.
  - pose proof (ho_in _ _ Hh). lia.
  - cbn [sink]. pose proof (ho_in _ _ Hh) as Hin.
    destruct (Nat.leb_spec (2 * pos + 1) (length data - 2)) as [Htwo|Hlast].
    + set (c := 2 * pos + 1 + Nat.b2n (le (data !!! (2 * pos + 1)) (data !!! (2 * pos + 1 + 1)))).
      assert (∀ i, 0 < i < length data → (i - 1) / 2 = pos → (key (data !!! c) ≤ key (data !!! i))%Z) as Hmin.
      { intros i Hi Hip. unfold c. rewrite le_key by (apply Forall_total; [apply Hh|lia]).
        assert (i = 2 * pos + 1 ∨ i = 2 * pos + 1 + 1) as [-> | ->] by lia;
        destruct (Z.leb_spec (key (data !!! (2 * pos + 1 + 1)%nat)) (key (data !!! (2 * pos + 1)%nat)));
          cbn [Nat.b2n]; rewrite ?Nat.add_0_r; lia. }
      assert (0 < c < length data ∧ (c - 1) / 2 = pos) as [Hc Hpar]
        by (unfold c; destruct (le _ _); cbn [Nat.b2n]; lia).
      destruct (sink_move pos c data Hh Hc Hpar Hmin) as [Hh' Hperm].
      specialize (IH (<[pos := data !!! c]> data) c Hh'). rewrite length_insert in IH.
      specialize (IH ltac:(lia)). destruct (sink le fuel _ c) as [data' pos'].
      destruct IH as (H1 & H2 & H3 & H4). split_and!; [done|done|done|]. intros elt. by rewrite H4.
    + destruct (Nat.eqb_spec (2 * pos + 1) (length data - 1)) as [Heq|Hne].
      * destruct (sink_move pos (2 * pos + 1) data Hh) as [Hh' Hperm]; [lia|lia| |].
        { intros i Hi Hip. replace i with (2 * pos + 1) by lia. done. }
        split_and!; [done|lia|apply length_insert|done].
      * split_and!; (done || lia).
Qed.

(** ** Push and pop *)

Lemma BinaryHeap_push_spec L x :
  heap_ordered L → Forall P L → P x →
  heap_ordered (BinaryHeap_push le L x) ∧ BinaryHeap_push le L x ≡ₚ x :: L.
Proof.
  intros HL HP Hx. unfold BinaryHeap_push.
  assert (<[length L := x]> (L ++ [x]) = L ++ [x]) as Hid by (rewrite insert_app_r_alt, Nat.sub_diag by lia; done).
  destruct (sift_up_spec (length L) (L ++ [x]) x (length L)) as [Hh Hp].
  - rewrite length_app. cbn. lia.
  - lia.
  - rewrite Hid. apply Forall_app_2; [done|by constructor].
  - rewrite Hid. intros i Hi Hne. rewrite length_app in Hi. cbn in Hi.
    rewrite !lookup_total_app_l by lia. apply HL. lia.
  - rewrite Hid. intros _ i Hi Hpar. rewrite length_app in Hi. cbn in Hi. lia.
  - split; [done|]. rewrite Hp, Hid. symmetry. apply Permutation_cons_append.
Qed.

Lemma heap_ordered_top L i : heap_ordered L → i < length L → (key (L !!! 0%nat) ≤ key (L !!! i))%Z.
Proof.
  intros HL. induction i as [i IH] using lt_wf_ind. intros Hi. destruct (decide (i = 0)) as [->|Hne]; [lia|].
  specialize (IH ((i - 1) / 2) ltac:(lia) ltac:(lia)). specialize (HL i ltac:(lia)). lia.
Qed.

Lemma sift_down_spec item L :
  heap_ordered L → Forall P L → P item → 0 < length L →
  heap_ordered (sift_down_to_bottom le (<[0 := item]> L)) ∧
  sift_down_to_bottom le (<[0 := item]> L) ≡ₚ <[0 := item]> L.
Proof.
  intros HL HP Hitem Hlen. unfold sift_down_to_bottom. rewrite length_insert.
  rewrite list_lookup_total_insert_eq by done.
  assert (holed 0 (<[0 := item]> L)) as Hh.
  { split; [by rewrite length_insert|by apply Forall_insert| |intros ?; lia].
    intros i Hi Hi0 Hp. rewrite length_insert in Hi. rewrite !list_lookup_total_insert_ne by lia. by apply HL. }
  pose proof (sink_spec (length L) (<[0 := item]> L) 0 Hh) as Hs. rewrite length_insert in Hs.
  specialize (Hs ltac:(lia)). destruct (sink le (length L) _ 0) as [data pos].
  destruct Hs as ([Hin HPd Hord Hbr] & Hleaf & Hld & Hperm).
  specialize (Hperm item). rewrite list_insert_insert_eq in Hperm.
  assert (∀ i, i ≠ pos → <[pos := item]> data !!! i = data !!! i) as Hnew
    by (intros i Hi; by apply list_lookup_total_insert_ne).
  rewrite <-Hperm. apply sift_up_spec; [done|done|by apply Forall_insert| |].
  - intros i Hi Hip. rewrite length_insert in Hi. rewrite !Hnew by lia. apply Hord; lia.
  - intros _ i Hi Hip. rewrite length_insert in Hi. lia.
Qed.

Lemma BinaryHeap_pop_spec L :
  heap_ordered L → Forall P L →
  match BinaryHeap_pop le L with
  | (Some x, L') => heap_ordered L' ∧ x :: L' ≡ₚ L ∧ Forall (λ y, key x ≤ key y)%Z L
  | (None, L') => L = [] ∧ L' = []
  end.
Proof.
  intros HL HP. unfold BinaryHeap_pop. destruct (last L) as [item|] eqn:Hlast.
  2: { by apply last_None in Hlast as ->. }
  apply last_Some in Hlast as [L0 ->]. rewrite length_app. cbn [length].
  rewrite Nat.add_sub, take_app_length.
  destruct L0 as [|top L0]; [split_and!; [intros i; cbn; lia|done|]; by repeat constructor|].
  pose proof HP as [HP0 HP1]%Forall_app. apply Forall_inv in HP1.
  assert (heap_ordered (top :: L0)) as HL0.
  { intros i Hi. specialize (HL i). rewrite length_app in HL. specialize (HL ltac:(cbn [length] in *; lia)).
    by rewrite !lookup_total_app_l in HL by (cbn [length] in *; lia). }
  destruct (sift_down_spec item (top :: L0) HL0 HP0 HP1 ltac:(cbn; lia)) as [Hh Hp].
  split_and!; [done|rewrite Hp; cbn; apply Permutation_skip, Permutation_cons_append|].
  apply Forall_forall. intros y [i Hy]%list_elem_of_lookup.
  pose proof (lookup_lt_Some _ _ _ Hy) as Hlt. apply list_lookup_total_correct in Hy as <-.
  exact (heap_ordered_top _ i HL Hlt).
Qed.
End heap.

(** * Strides in a window *)

(** How far a pass is ahead of [base], around the wrap. *)
Definition ahead (base : Z) (s : Stride) : Z := (pass s - base) mod 2 ^ 64.
Definition in_window (base : Z) (s : Stride) : Prop := 0 ≤ pass s < 2 ^ 64 ∧ ahead base s < 2 ^ 63.
Record sched_wf (base : Z) (s : StrideScheduler) : Prop := {
  sw_base : 0 ≤ base < 2 ^ 64;
  sw_window : Forall (in_window base) (queue s);
  sw_heap : heap_ordered (ahead base) (queue s) }.

Lemma Stride_le_ahead base a b :
  0 ≤ base < 2 ^ 64 → in_window base a → in_window base b →
  Stride_le a b = (ahead base b <=? ahead base a).
Proof.
  intros Hb [Ha1 Ha2] [Hb1 Hb2]. unfold ahead in *.
  unfold Stride_le, Stride_partial_cmp, Stride_cmp, Stride_abs_diff.
  change (Z.shiftr BIG_STRIDE 1) with (2 ^ 63 - 1).
  destruct (Z.ltb_spec (pass a) (pass b)), (Z.compare_spec (pass a) (pass b)), (Z.leb_spec ((pass b - base) mod 2 ^ 64) ((pass a - base) mod 2 ^ 64));
    try lia; destruct (Z.leb_spec (pass b - pass a) (2 ^ 63 - 1)), (Z.leb_spec (pass a - pass b) (2 ^ 63 - 1)); cbn; (done || lia).
Qed.

Lemma find_next_task_spec base s :
  sched_wf base s →
  match BinaryHeap_pop Stride_le (queue s) with
  | (None, q) => queue s = [] ∧ q = []
  | (Some x, q) => x :: q ≡ₚ queue s ∧ Forall (λ y, ahead base x ≤ ahead base y) (queue s) ∧
      sched_wf (pass x) (MkStrideScheduler q)
  end.
Proof.
  intros [Hb Hw Hh].
  pose proof (BinaryHeap_pop_spec Stride_le (ahead base) (in_window base)
    (λ a b Ha Hb', Stride_le_ahead base a b Hb Ha Hb') _ Hh Hw) as Hpop.
  destruct (BinaryHeap_pop Stride_le (queue s)) as [[x|] q]; [|done].
  destruct Hpop as (Hq & Hperm & Hmin). split_and!; [done|done|].
  assert (in_window base x) as [Hx1 Hx2].
  { rewrite Forall_forall in Hw. apply Hw. rewrite <-Hperm. by left. }
  assert (∀ y, y ∈ q → in_window base y ∧ ahead (pass x) y = ahead base y - ahead base x) as Hq'.
  { intros y Hy. assert (y ∈ queue s) as Hys by (rewrite <-Hperm; by right).
    rewrite Forall_forall in Hw. rewrite Forall_forall in Hmin. specialize (Hw y Hys). specialize (Hmin y Hys).
    split; [done|]. destruct Hw as [Hy1 Hy2]. unfold ahead in *. lia. }
  split; cbn; [done| |].
  - apply Forall_forall. intros y Hy. destruct (Hq' y Hy) as [[Hy1 Hy2] He]. split; [done|].
    rewrite He. unfold ahead in *. lia.
  - intros i Hi. specialize (Hq i Hi).
    assert (∀ j, (j < length q)%nat → q !!! j ∈ q) as Hin
      by (intros j Hj; apply list_elem_of_lookup; exists j; by apply list_lookup_lookup_total_lt).
    destruct (Hq' _ (Hin i ltac:(lia))) as [_ ->].
    destruct (Hq' _ (Hin ((i - 1) / 2)%nat ltac:(lia))) as [_ ->]. lia.
Qed.

Lemma insert_task_spec base s id inc :
  sched_wf base s → 0 ≤ inc < 2 ^ 63 →
  sched_wf base (StrideScheduler_insert_task s id (base +₆₄ inc)) ∧
  queue (StrideScheduler_insert_task s id (base +₆₄ inc)) ≡ₚ MkStride id (base +₆₄ inc) :: queue s.
Proof.
  intros [Hb Hw Hh] Hi. assert (in_window base (MkStride id (base +₆₄ inc))) as Hx.
  { unfold in_window, ahead, wrap. cbn. lia. }
  destruct (BinaryHeap_push_spec Stride_le (ahead base) (in_window base)
    (λ a b Ha Hb', Stride_le_ahead base a b Hb Ha Hb') _ _ Hh Hw Hx) as [Hh' Hp].
  split; [|done]. split; [done| |done]. cbn. unfold Stride_new. rewrite Hp. by constructor.
Qed.

(** ** The scheduler at work *)

(** The passes the kernel inserts: that of the task that ran last, advanced by
    [BIG_STRIDE / priority]; [base] is the pass of the task fetched last. *)
Inductive sched_step : Z * StrideScheduler → Z * StrideScheduler → Prop :=
| sched_insert base s id priority :
    2 ≤ priority < 2 ^ 63 →
    sched_step (base, s) (base, StrideScheduler_insert_task s id (base +₆₄ BIG_STRIDE / priority))
| sched_fetch base s x q :
    BinaryHeap_pop Stride_le (queue s) = (Some x, q) →
    sched_step (base, s) (pass x, MkStrideScheduler q).

Lemma stride_inc priority : 2 ≤ priority < 2 ^ 63 → 2 ≤ BIG_STRIDE / priority < 2 ^ 63.
Proof.
  intros Hp. unfold BIG_STRIDE. split; [apply Z.div_le_lower_bound; lia|].
  apply Z.div_lt_upper_bound; lia.
Qed.

Lemma sched_wf_new : sched_wf 0 StrideScheduler_new.
Proof. split; [lia|constructor|]. intros i Hi. cbn in Hi. lia. Qed.

Lemma sched_step_wf base s base' s' :
  sched_wf base s → sched_step (base, s) (base', s') → sched_wf base' s'.
Proof.
  intros Hwf Hstep. inversion Hstep as [? ? ? ? Hp|? ? x q Hpop]; subst.
  - apply insert_task_spec; [done|]. apply stride_inc in Hp. lia.
  - pose proof (find_next_task_spec base s Hwf) as H. rewrite Hpop in H. apply H.
Qed.

Lemma sched_steps_wf p q : rtc sched_step p q → sched_wf p.1 p.2 → sched_wf q.1 q.2.
Proof.
  intros Hpq. induction Hpq as [|[b1 s1] [b2 s2] p3 Hs _ IH]; [done|].
  intros H. by apply IH, (sched_step_wf b1 s1).
Qed.

(** ** Rounds *)

(** A task set of fixed priorities: each round fetches a task, which runs and is
    put back with its pass advanced. *)
Definition sched_round (priority : Z → Z) (s : StrideScheduler) : option (Z * StrideScheduler) :=
  match BinaryHeap_pop Stride_le (queue s) with
  | (Some x, q) =>
      Some (id x, StrideScheduler_insert_task (MkStrideScheduler q) (id x)
                    (pass x +₆₄ BIG_STRIDE / priority (id x)))
  | (None, _) => None
  end.
(** The tasks that run in [n] rounds. *)
Fixpoint sched_rounds (priority : Z → Z) (n : nat) (s : StrideScheduler) : list Z :=
  match n with
  | O => []
  | S n => match sched_round priority s with
           | Some (i, s) => i :: sched_rounds priority n s
           | None => []
           end
  end.

Section rounds.
Context (priority : Z → Z).
Definition stride_of (i : Z) : Z := BIG_STRIDE / priority i.

(** How often [y] can run before its pass overtakes one that is [k] ahead. *)
Definition turns (base k : Z) (y : Stride) : nat :=
  if ahead base y <=? k then Z.to_nat ((k - ahead base y) / stride_of (id y) + 1) else O.
Definition rounds_before (base : Z) (t : Stride) (l : list Stride) : nat :=
  sum_list_with (turns base (ahead base t)) l.

Lemma turns_shift base x y k :
  0 ≤ base < 2 ^ 64 → in_window base x → in_window base y → ahead base x ≤ ahead base y →
  turns (pass x) (k - ahead base x) y = turns base k y.
Proof.
  intros Hb [Hx1 Hx2] [Hy1 Hy2] Hle. unfold turns.
  assert (ahead (pass x) y = ahead base y - ahead base x) as -> by (unfold ahead in *; lia).
  replace (k - ahead base x - (ahead base y - ahead base x)) with (k - ahead base y) by lia.
  destruct (Z.leb_spec (ahead base y - ahead base x) (k - ahead base x)), (Z.leb_spec (ahead base y) k);
    (done || lia).
Qed.

(** The round that runs [x] uses up one of its turns. *)
Lemma turns_step base x k :
  0 ≤ base < 2 ^ 64 → in_window base x → ahead base x ≤ k → 2 ≤ stride_of (id x) < 2 ^ 63 →
  turns base k x = S (turns (pass x) (k - ahead base x) (MkStride (id x) (pass x +₆₄ stride_of (id x)))).
Proof.
  intros Hb [Hx1 Hx2] Hk Hs. unfold turns. cbn [id].
  assert (ahead (pass x) (MkStride (id x) (pass x +₆₄ stride_of (id x))) = stride_of (id x)) as ->
    by (unfold ahead, wrap; cbn [pass]; lia).
  rewrite (proj2 (Z.leb_le _ _) Hk). set (d := k - ahead base x) in *.
  assert (0 ≤ d) by (unfold d; lia). destruct (Z.leb_spec (stride_of (id x)) d) as [Hd|Hd].
  - replace (d / stride_of (id x)) with ((d - stride_of (id x)) / stride_of (id x) + 1).
    + pose proof (Z.div_pos (d - stride_of (id x)) (stride_of (id x)) ltac:(lia) ltac:(lia)). lia.
    + replace d with (d - stride_of (id x) + 1 * stride_of (id x)) at 2 by lia.
      rewrite Z.div_add by lia. done.
  - by rewrite Z.div_small by lia.
Qed.

Lemma sum_list_with_ext {A} (f g : A → nat) l :
  (∀ x, x ∈ l → f x = g x) → sum_list_with f l = sum_list_with g l.
Proof.
  induction l as [|x l IH]; intros H; [done|]. cbn.
  rewrite H, IH; [done|intros y Hy; apply H; by right|by left].
Qed.

Lemma sched_round_spec base s t :
  sched_wf base s → t ∈ queue s → Forall (λ y, 2 ≤ priority (id y) < 2 ^ 63) (queue s) →
  ∃ x s', sched_round priority s = Some (id x, s') ∧ (x = t ∨ t ∈ queue s') ∧
    sched_wf (pass x) s' ∧ Forall (λ y, 2 ≤ priority (id y) < 2 ^ 63) (queue s') ∧
    (t ≠ x → rounds_before base t (queue s) = S (rounds_before (pass x) t (queue s'))).
Proof.
  intros Hwf Ht Hpr. pose proof (find_next_task_spec base s Hwf) as H. unfold sched_round.
  destruct (BinaryHeap_pop Stride_le (queue s)) as [[x|] q]; [|destruct H as [H _]; rewrite H in Ht; set_solver].
  destruct H as (Hperm & Hmin & Hwf').
  rewrite Forall_forall in Hpr. rewrite Forall_forall in Hmin.
  pose proof (sw_window _ _ Hwf) as Hw. rewrite Forall_forall in Hw. pose proof (sw_base _ _ Hwf) as Hb.
  assert (x ∈ queue s) as Hx by (rewrite <-Hperm; by left).
  assert (2 ≤ stride_of (id x) < 2 ^ 63) as Hs by (apply stride_inc, Hpr, Hx).
  destruct (insert_task_spec (pass x) (MkStrideScheduler q) (id x) (stride_of (id x)) Hwf' ltac:(lia)) as [Hwf2 Hq].
  eexists x, _. split; [done|]. split_and!; [|exact Hwf2| |].
  - destruct (decide (x = t)) as [|Hne]; [by left|right]. fold (stride_of (id x)). rewrite Hq. cbn.
    rewrite <-Hperm in Ht. apply elem_of_cons in Ht as [->|Ht]; [done|by right].
  - apply Forall_forall. intros y. fold (stride_of (id x)). rewrite Hq. cbn.
    intros [->|Hy]%elem_of_cons; [by apply (Hpr x)|]. apply Hpr. rewrite <-Hperm. by right.
  - intros Hne. fold (stride_of (id x)). unfold rounds_before. rewrite Hq. rewrite <-Hperm. cbn.
    assert (ahead (pass x) t = ahead base t - ahead base x) as Hat.
    { pose proof (Hw x Hx) as [? ?]. pose proof (Hw t Ht) as [? ?]. pose proof (Hmin t Ht). unfold ahead in *. lia. }
    rewrite Hat, (turns_step base x (ahead base t)) by auto. cbn. f_equal. f_equal.
    apply sum_list_with_ext. intros y Hy. assert (y ∈ queue s) as Hys by (rewrite <-Hperm; by right).
    symmetry. apply turns_shift; auto.
Qed.

Lemma sched_rounds_fetch n base s t :
  sched_wf base s → t ∈ queue s → Forall (λ y, 2 ≤ priority (id y) < 2 ^ 63) (queue s) →
  rounds_before base t (queue s) = n → id t ∈ sched_rounds priority n s.
Proof.
  revert base s. induction n as [|n IH]; intros base s Hwf Ht Hpr Hn.
  - exfalso. assert (1 ≤ turns base (ahead base t) t)%nat as Hone.
    { unfold turns. rewrite Z.leb_refl, Z.sub_diag. cbn. done. }
    pose proof (sum_list_with_in t (turns base (ahead base t)) (queue s) Ht) as Hin.
    unfold rounds_before in Hn. lia.
  - destruct (sched_round_spec base s t Hwf Ht Hpr) as (x & s' & Hr & Hin & Hwf' & Hpr' & Hdec).
    cbn [sched_rounds]. rewrite Hr. destruct (decide (t = x)) as [->|Hne]; [by left|right].
    destruct Hin as [->|Hin]; [done|]. apply (IH (pass x) s'); [done..|].
    specialize (Hdec Hne). lia.
Qed.
End rounds.

(** * Properties *)

(** C26: [find_next_task] hands out a task whose pass is the least of all queued
    tasks, counted around the wrap from the pass that was fetched last, removes
    exactly it, and returns [None] exactly for an empty queue - although the
    heap's [<=] is not an order on all passes. *)
Theorem find_next_task_least base s :
  sched_wf base s →
  match StrideScheduler_find_next_task s with
  | (None, s') => queue s = [] ∧ queue s' = []
  | (Some i, s') => ∃ x, id x = i ∧ x :: queue s' ≡ₚ queue s ∧
      Forall (λ y, ahead base x ≤ ahead base y) (queue s) ∧ sched_wf (pass x) s'
  end.
Proof.
  intros Hwf. pose proof (find_next_task_spec base s Hwf) as H. unfold StrideScheduler_find_next_task.
  destruct (BinaryHeap_pop Stride_le (queue s)) as [[x|] q]; [by exists x|done].
Qed.

(** C27: The window invariant of stride scheduling: however the kernel inserts
    tasks (with the pass of the task it fetched last advanced by
    [BIG_STRIDE / priority], for the priorities [sys_set_priority] admits) and
    fetches them, all queued passes stay within half the range of [usize] of the
    last fetched pass, across any number of overflows of the passes. *)
Theorem stride_window_invariant base s :
  rtc sched_step (0, StrideScheduler_new) (base, s) → sched_wf base s.
Proof.
  intros Hr. apply (sched_steps_wf _ _ Hr). apply sched_wf_new.
Qed.

(** C28: No task starves.  In a set of tasks with fixed priorities, of which each
    round runs the fetched one and puts it back, every queued task is fetched
    within as many rounds as the other tasks can run before their passes
    overtake its own - a bound that the passes and priorities determine. *)
Theorem stride_no_starvation priority base s t :
  sched_wf base s → t ∈ queue s → Forall (λ y, 2 ≤ priority (id y) < 2 ^ 63) (queue s) →
  id t ∈ sched_rounds priority (rounds_before priority base t (queue s)) s.
Proof. intros Hwf Ht Hpr. by apply (sched_rounds_fetch priority _ base). Qed.

(** * Witnesses *)

Definition ex_sched : StrideScheduler :=
  StrideScheduler_insert_task (StrideScheduler_insert_task (StrideScheduler_insert_task
    StrideScheduler_new 0 (0 +₆₄ BIG_STRIDE / 16)) 1 (0 +₆₄ BIG_STRIDE / 8)) 2 (0 +₆₄ BIG_STRIDE / 2).
Lemma ex_sched_reached : rtc sched_step (0, StrideScheduler_new) (0, ex_sched).
Proof.
  eapply rtc_l; [apply (sched_insert _ _ 0 16); lia|].
  eapply rtc_l; [apply (sched_insert _ _ 1 8); lia|].
  eapply rtc_l; [apply (sched_insert _ _ 2 2); lia|]. apply rtc_refl.
Qed.
Lemma ex_sched_wf : sched_wf 0 ex_sched.
Proof.
  apply (sched_steps_wf _ _ ex_sched_reached). apply sched_wf_new.
Qed.
Example scheduler_order : scheduler_order_test = true.
Proof. reflexivity. Qed.

Lemma find_next_task_least_witness :
  match StrideScheduler_find_next_task ex_sched with
  | (None, s') => queue ex_sched = [] ∧ queue s' = []
  | (Some i, s') => ∃ x, id x = i ∧ x :: queue s' ≡ₚ queue ex_sched ∧
      Forall (λ y, ahead 0 x ≤ ahead 0 y) (queue ex_sched) ∧ sched_wf (pass x) s'
  end.
Proof. exact (find_next_task_least 0 ex_sched ex_sched_wf). Defined.
Lemma stride_window_invariant_witness : sched_wf 0 ex_sched.
Proof. exact (stride_window_invariant 0 ex_sched ex_sched_reached). Defined.
Lemma stride_no_starvation_witness :
  2 ∈ sched_rounds (λ i, match i with 0 => 16 | 1 => 8 | _ => 2 end)
        (rounds_before (λ i, match i with 0 => 16 | 1 => 8 | _ => 2 end) 0
           (MkStride 2 (BIG_STRIDE / 2)) (queue ex_sched)) ex_sched.
Proof.
  apply (stride_no_starvation _ 0 ex_sched (MkStride 2 (BIG_STRIDE / 2)) ex_sched_wf).
  - assert (MkStride 2 (BIG_STRIDE / 2) ∈ queue ex_sched) as H; [|exact H].
    apply list_elem_of_lookup. exists 2%nat. vm_compute. reflexivity.
  - apply (Forall_impl (λ y, id y ∈ [0; 1; 2])).
    + apply Forall_forall. intros y Hy.
      assert (bool_decide (Forall (λ y, id y ∈ [0; 1; 2]) (queue ex_sched)) = true) as H by (vm_compute; reflexivity).
      apply bool_decide_eq_true in H. rewrite Forall_forall in H. by apply H.
    + intros y Hy. repeat (apply elem_of_cons in Hy as [->|Hy]; [lia|]). by apply not_elem_of_nil in Hy.
Defined.
