(* ===== verification/Pid.v ===== *)
(** Process identifiers (os/src/task/pid.rs): the allocator and [PidHandle],
    whose [Drop] gives the pid back.  The abstract view is the set of live pids. *)

From S2P Require Export Bytes.

Record PidAllocator : Type := MkPidAllocator {
  pid_current : Z;
  pid_recycled : list Z }.    (** the top of the stack is the head *)

Definition PidAllocator_new : PidAllocator := MkPidAllocator 0 [].
Definition PidAllocator_alloc (self : PidAllocator) : Z * PidAllocator :=
  match pid_recycled self with
  | pid :: rest => (pid, MkPidAllocator (pid_current self) rest)
  | [] =>
      let current := pid_current self +₆₄ 1 in
      (current -₆₄ 1, MkPidAllocator current [])
  end.
Definition PidAllocator_dealloc (pid : Z) : M PidAllocator () :=
  self ← get;
  assert_ (pid <? pid_current self);;
  assert_ (negb (existsb (Z.eqb pid) (pid_recycled self)));;
  put (MkPidAllocator (pid_current self) (pid :: pid_recycled self)).

(** * Abstract view *)

Definition live_pids (a : PidAllocator) : gset Z :=
  list_to_set (seqZ 0 (pid_current a)) ∖ list_to_set (pid_recycled a).
Record pids_wf (a : PidAllocator) : Prop := {
  pw_range : 0 ≤ pid_current a < 2 ^ 64;
  pw_nodup : NoDup (pid_recycled a);
  pw_recycled : Forall (λ p, 0 ≤ p < pid_current a) (pid_recycled a) }.

Lemma elem_of_live_pids a p : p ∈ live_pids a ↔ 0 ≤ p < pid_current a ∧ (p ∉ pid_recycled a).
Proof. unfold live_pids. rewrite elem_of_difference, !elem_of_list_to_set, elem_of_seqZ. naive_solver lia. Qed.

Lemma pid_alloc_spec a :
  pids_wf a → pid_current a + 1 < 2 ^ 64 →
  let '(p, a') := PidAllocator_alloc a in
  pids_wf a' ∧ 0 ≤ p < pid_current a' ∧ (p ∉ live_pids a) ∧ live_pids a' = {[p]} ∪ live_pids a ∧
  pid_current a' ≤ pid_current a + 1.
Proof.
  intros [Hr Hnd Hin] Hb. unfold PidAllocator_alloc. destruct (pid_recycled a) as [|p rest] eqn:Hrec.
  - rewrite (wrap_small 64 (pid_current a + 1)) by lia. rewrite wrap_small by lia.
    split_and!; cbn; [|lia|lia| | |lia].
    + split; cbn; [lia|constructor|constructor].
    + rewrite elem_of_live_pids. lia.
    + apply set_eq. intros q. rewrite elem_of_union, elem_of_singleton, !elem_of_live_pids, Hrec. cbn.
      pose proof (not_elem_of_nil q). split; [|naive_solver lia].
      intros [? _]. destruct (decide (q = pid_current a)); [left; lia|right]. split; [lia|done].
  - apply Forall_cons in Hin as [Hp Hin]. apply NoDup_cons in Hnd as [Hnin Hnd].
    split_and!; cbn; [by split|lia|lia| | |lia].
    + rewrite elem_of_live_pids, Hrec. set_solver.
    + apply set_eq. intros q. rewrite elem_of_union, elem_of_singleton, !elem_of_live_pids, Hrec. cbn.
      rewrite not_elem_of_cons. destruct (decide (q = p)) as [->|]; naive_solver.
Qed.

Lemma existsb_eqb p l : existsb (Z.eqb p) l = bool_decide (p ∈ l).
Proof.
  apply eq_true_iff_eq. rewrite existsb_exists, bool_decide_eq_true. split.
  - intros (x & Hx & ->%Z.eqb_eq). by apply list_elem_of_In.
  - intros Hp. exists p. split; [by apply list_elem_of_In|apply Z.eqb_refl].
Qed.

Lemma pid_dealloc_spec a p :
  pids_wf a → 0 ≤ p →
  if decide (p ∈ live_pids a) then
    ∃ a', PidAllocator_dealloc p a = Ok ((), a') ∧ pids_wf a' ∧ live_pids a' = live_pids a ∖ {[p]}
  else PidAllocator_dealloc p a = Fail Panicked.
Proof.
  intros [Hr Hnd Hin] Hp. unfold PidAllocator_dealloc. erewrite bind_Ok by reflexivity. rewrite existsb_eqb.
  case_decide as Hl; rewrite elem_of_live_pids in Hl.
  - destruct Hl as [Hlt Hnin]. rewrite (proj2 (Z.ltb_lt _ _)), bool_decide_eq_false_2 by (done || lia).
    do 2 erewrite bind_Ok by reflexivity. eexists. split; [done|]. split.
    + split; cbn; [done|by constructor|by constructor].
    + apply set_eq. intros q. rewrite elem_of_difference, elem_of_singleton, !elem_of_live_pids. cbn.
      rewrite not_elem_of_cons. naive_solver.
  - destruct (Z.ltb_spec p (pid_current a)); [|done]. erewrite bind_Ok by reflexivity.
    rewrite bool_decide_eq_true_2; [done|]. destruct (decide (p ∈ pid_recycled a)); [done|]. exfalso. apply Hl. split; [lia|done].
Qed.
