(* ===== verification/Pipe.v ===== *)
(** Pipes (os/src/fs/pipe.rs), the ring buffer: a circular array of 32 bytes with
    a head, a tail and a status that tells a full buffer from an empty one.  The
    abstract view is the queue of the bytes that were written and not yet read. *)

From S2P Require Export Bytes.

Definition RING_BUFFER_SIZE : Z := 32.

Inductive RingBufferStatus : Type := FULL | EMPTY | NORMAL.
#[global] Instance RingBufferStatus_eq_dec : EqDecision RingBufferStatus.
Proof. solve_decision. Defined.

(** [write_end] is the pipe end the weak reference points to. *)
Record PipeRingBuffer : Type := MkRing {
  arr : list Z;
  head : Z;
  tail : Z;
  status : RingBufferStatus;
  write_end : option nat }.

Definition PipeRingBuffer_new : PipeRingBuffer := MkRing (replicate 32 0) 0 0 EMPTY None.
Definition PipeRingBuffer_set_write_end (self : PipeRingBuffer) (w : nat) : PipeRingBuffer :=
  MkRing (arr self) (head self) (tail self) (status self) (Some w).

Definition PipeRingBuffer_read_byte {S} (self : PipeRingBuffer) : M S (Z * PipeRingBuffer) :=
  c ← index (arr self) (head self);
  let head' := (head self +₆₄ 1) mod RING_BUFFER_SIZE in
  mret (c, MkRing (arr self) head' (tail self) (if head' =? tail self then EMPTY else NORMAL) (write_end self)).

Definition PipeRingBuffer_write_byte {S} (self : PipeRingBuffer) (byte : Z) : M S PipeRingBuffer :=
  arr' ← set_index (arr self) (tail self) byte;
  let tail' := (tail self +₆₄ 1) mod RING_BUFFER_SIZE in
  mret (MkRing arr' (head self) tail' (if tail' =? head self then FULL else NORMAL) (write_end self)).

Definition PipeRingBuffer_available_read (self : PipeRingBuffer) : Z :=
  if bool_decide (status self = EMPTY) then 0
  else if head self <? tail self then tail self -₆₄ head self
  else tail self +₆₄ RING_BUFFER_SIZE -₆₄ head self.

Definition PipeRingBuffer_available_write (self : PipeRingBuffer) : Z :=
  if bool_decide (status self = FULL) then 0
  else RING_BUFFER_SIZE -₆₄ PipeRingBuffer_available_read self.

(** * The queue *)

Record ring_wf (rb : PipeRingBuffer) : Prop := {
  rw_arr : length (arr rb) = 32%nat;
  rw_head : 0 ≤ head rb < 32;
  rw_tail : 0 ≤ tail rb < 32;
  rw_status : match status rb with NORMAL => head rb ≠ tail rb | _ => head rb = tail rb end }.

(** The bytes in the buffer, oldest first. *)
Definition ring_size (rb : PipeRingBuffer) : nat :=
  match status rb with
  | EMPTY => 0
  | FULL => 32
  | NORMAL => Z.to_nat ((tail rb - head rb) mod 32)
  end.
Definition ring_bytes (rb : PipeRingBuffer) : list Z :=
  (λ k, arr rb !!! Z.to_nat ((head rb + Z.of_nat k) mod 32)) <$> seq 0 (ring_size rb).

Lemma ring_wf_new : ring_wf PipeRingBuffer_new.
Proof. split; cbn; (done || lia). Qed.
Lemma ring_bytes_length rb : length (ring_bytes rb) = ring_size rb.
Proof. unfold ring_bytes. by rewrite length_fmap, length_seq. Qed.

Lemma available_read_size rb : ring_wf rb → PipeRingBuffer_available_read rb = Z.of_nat (ring_size rb).
Proof.
  intros [_ Hh Ht Hs]. unfold PipeRingBuffer_available_read, ring_size, RING_BUFFER_SIZE.
  destruct (status rb); cbn; [|done|]; rewrite bool_decide_eq_false_2 by done.
  - rewrite (proj2 (Z.ltb_ge _ _)) by lia. rewrite (wrap_small 64 (tail rb + 32)) by lia.
    rewrite wrap_small by lia. lia.
  - destruct (Z.ltb_spec (head rb) (tail rb)); rewrite ?(wrap_small 64 (tail rb + 32)) by lia;
      rewrite wrap_small by lia; lia.
Qed.
Lemma available_write_size rb : ring_wf rb → PipeRingBuffer_available_write rb = 32 - Z.of_nat (ring_size rb).
Proof.
  intros Hwf. unfold PipeRingBuffer_available_write. rewrite available_read_size by done.
  unfold ring_size, RING_BUFFER_SIZE. destruct Hwf as [_ Hh Ht Hs]. destruct (status rb); cbn; [done|done|]. rewrite bool_decide_eq_false_2 by done.
  rewrite wrap_small by lia. lia.
Qed.

Lemma read_byte_spec {St} rb (s : St) :
  ring_wf rb → (0 < ring_size rb)%nat →
  ∃ c rb', PipeRingBuffer_read_byte rb s = Ok ((c, rb'), s) ∧ ring_wf rb' ∧
    ring_bytes rb = c :: ring_bytes rb' ∧ write_end rb' = write_end rb.
Proof.
  intros [Ha Hh Ht Hs] Hn. unfold PipeRingBuffer_read_byte.
  assert (index (arr rb) (head rb) s = Ok (arr rb !!! Z.to_nat (head rb), s)) as Hidx.
  { unfold index. destruct (_ && _) eqn:E; [|lia].
    by rewrite list_lookup_lookup_total_lt by lia. }
  erewrite bind_Ok by exact Hidx. rewrite wrap_small by lia. unfold RING_BUFFER_SIZE.
  set (h' := (head rb + 1) mod 32). eexists _, _. split; [done|]. split; [|split; [|done]].
  - split; cbn; [done|unfold h'; lia|done|]. destruct (Z.eqb_spec h' (tail rb)); done.
  - set (rb' := MkRing _ _ _ _ _).
    assert (ring_size rb = S (ring_size rb')) as Hsz.
    { unfold ring_size in *. cbn [rb' arr head tail status]. destruct (status rb); [|lia|];
        destruct (Z.eqb_spec h' (tail rb)); unfold h' in *; lia. }
    unfold ring_bytes. rewrite Hsz. cbn [seq fmap list_fmap]. f_equal.
    + rewrite Z.add_0_r, Z.mod_small by lia. done.
    + rewrite <-fmap_S_seq, <-list_fmap_compose. apply list_fmap_ext. intros i k _. cbn.
      do 2 f_equal. unfold h'. lia.
Qed.

Lemma write_byte_spec {St} rb b (s : St) :
  ring_wf rb → (ring_size rb < 32)%nat →
  ∃ rb', PipeRingBuffer_write_byte rb b s = Ok (rb', s) ∧ ring_wf rb' ∧
    ring_bytes rb' = ring_bytes rb ++ [b] ∧ write_end rb' = write_end rb.
Proof.
  intros [Ha Hh Ht Hs] Hn. unfold PipeRingBuffer_write_byte.
  assert (set_index (arr rb) (tail rb) b s = Ok (<[Z.to_nat (tail rb) := b]> (arr rb), s)) as Hidx.
  { unfold set_index. destruct (_ && _) eqn:E; [done|lia]. }
  erewrite bind_Ok by exact Hidx. rewrite wrap_small by lia. unfold RING_BUFFER_SIZE.
  set (t' := (tail rb + 1) mod 32). eexists. split; [done|]. split; [|split; [|done]].
  - split; cbn; [by rewrite length_insert|done|unfold t'; lia|]. destruct (Z.eqb_spec t' (head rb)); done.
  - set (rb' := MkRing _ _ _ _ _).
    assert (ring_size rb' = S (ring_size rb) ∧ (head rb + Z.of_nat (ring_size rb)) mod 32 = tail rb) as [Hsz Hpos].
    { unfold ring_size in *. cbn [rb' arr head tail status]. destruct (status rb); [lia| |];
        destruct (Z.eqb_spec t' (head rb)); unfold t' in *; lia. }
    unfold ring_bytes. rewrite Hsz, seq_S, fmap_app. cbn [fmap list_fmap rb' arr head]. f_equal.
    + apply list_fmap_ext. intros i k [-> Hk]%lookup_seq. rewrite list_lookup_total_insert_ne; [done|]. lia.
    + rewrite Nat.add_0_l, Hpos. by rewrite list_lookup_total_insert_eq by lia.
Qed.

(** * The buffer is a bounded queue *)

(** What the two ends do with the buffer: nothing when it is full or empty. *)
Inductive pipe_op : Type := Put (byte : Z) | Take.
Definition ring_step {St} (op : pipe_op) (rb : PipeRingBuffer) : M St (option Z * PipeRingBuffer) :=
  match op with
  | Put b =>
      if PipeRingBuffer_available_write rb =? 0 then mret (None, rb)
      else rb ← PipeRingBuffer_write_byte rb b; mret (None, rb)
  | Take =>
      if PipeRingBuffer_available_read rb =? 0 then mret (None, rb)
      else '(c, rb) ← PipeRingBuffer_read_byte rb; mret (Some c, rb)
  end.
Definition ring_run {St} (ops : list pipe_op) (acc : list (option Z) * PipeRingBuffer)
    : M St (list (option Z) * PipeRingBuffer) :=
  mfold (λ op '(out, rb), '(c, rb) ← ring_step op rb; mret (out ++ [c], rb)) ops acc.

(** The specification: a list of at most 32 bytes. *)
Definition queue_step (op : pipe_op) (q : list Z) : option Z * list Z :=
  match op with
  | Put b => (None, if (length q <? 32)%nat then q ++ [b] else q)
  | Take => match q with [] => (None, []) | c :: q => (Some c, q) end
  end.
Definition queue_run (ops : list pipe_op) (acc : list (option Z) * list Z) : list (option Z) * list Z :=
  foldl (λ '(out, q) op, let '(c, q) := queue_step op q in (out ++ [c], q)) acc ops.

Lemma ring_size_le rb : ring_wf rb → (ring_size rb ≤ 32)%nat.
Proof. intros [_ Hh Ht _]. unfold ring_size. destruct (status rb); lia. Qed.
Lemma ring_step_spec {St} op rb (s : St) :
  ring_wf rb → ∃ rb', ring_step op rb s = Ok (((queue_step op (ring_bytes rb)).1, rb'), s) ∧ ring_wf rb' ∧
    ring_bytes rb' = (queue_step op (ring_bytes rb)).2 ∧ write_end rb' = write_end rb.
Proof.
  intros Hwf. pose proof (ring_size_le rb Hwf) as Hle. destruct op as [b|]; unfold ring_step, queue_step.
  - rewrite available_write_size by done. rewrite ring_bytes_length.
    destruct (Z.eqb_spec (32 - Z.of_nat (ring_size rb)) 0), (Nat.ltb_spec (ring_size rb) 32); [lia|by exists rb| |lia].
    destruct (write_byte_spec rb b s Hwf ltac:(lia)) as (rb' & Hrun & Hwf' & Hb & Hw).
    exists rb'. by erewrite bind_Ok by exact Hrun.
  - rewrite available_read_size by done. destruct (Z.eqb_spec (Z.of_nat (ring_size rb)) 0).
    + exists rb. assert (ring_bytes rb = []) as -> by (apply length_zero_iff_nil; rewrite ring_bytes_length; lia). done.
    + destruct (read_byte_spec rb s Hwf ltac:(lia)) as (c & rb' & Hrun & Hwf' & Hb & Hw).
      exists rb'. rewrite Hb. by erewrite bind_Ok by exact Hrun.
Qed.

(** C34: The ring buffer of a pipe is a first-in first-out queue of at most 32
    bytes: on every sequence of writes and reads it never faults and gives out
    exactly the bytes a queue would, in order, across any number of turns around
    the array; a full buffer takes nothing, an empty one gives nothing, and
    [available_read] and [available_write] are the number of bytes and of free
    places. *)
Theorem ring_buffer_fifo {St} ops out0 rb (s : St) :
  ring_wf rb →
  ∃ out rb', ring_run ops (out0, rb) s = Ok ((out, rb'), s) ∧ ring_wf rb' ∧
    (out, ring_bytes rb') = queue_run ops (out0, ring_bytes rb) ∧
    PipeRingBuffer_available_read rb' = Z.of_nat (length (ring_bytes rb')) ∧
    PipeRingBuffer_available_write rb' = 32 - Z.of_nat (length (ring_bytes rb')).
Proof.
  intros Hwf. revert out0 rb Hwf. induction ops as [|op ops IH]; intros out0 rb Hwf.
  - exists out0, rb. rewrite ring_bytes_length. by split_and!; [..|apply available_read_size|apply available_write_size].
  - destruct (ring_step_spec op rb s Hwf) as (rb1 & Hrun & Hwf1 & Hb & _).
    destruct (IH (out0 ++ [(queue_step op (ring_bytes rb)).1]) rb1 Hwf1) as (out' & rb' & Hrun' & Hwf' & Hq & Hav).
    exists out', rb'. split; [|split; [done|split; [|done]]].
    + unfold ring_run in *. cbn [mfold]. erewrite bind_Ok by (by erewrite bind_Ok by exact Hrun). exact Hrun'.
    + rewrite Hq. unfold queue_run. cbn [foldl]. rewrite Hb. by destruct (queue_step op (ring_bytes rb)).
Qed.
Lemma ring_buffer_fifo_witness :
  ∃ out rb', ring_run ([Take; Put 7] ++ (Put <$> seqZ 0 40) ++ replicate 20 Take ++ [Put 99]) ([], PipeRingBuffer_new) ()
      = Ok ((out, rb'), ()) ∧ ring_wf rb' ∧
    (out, ring_bytes rb') = queue_run ([Take; Put 7] ++ (Put <$> seqZ 0 40) ++ replicate 20 Take ++ [Put 99])
      ([], ring_bytes PipeRingBuffer_new) ∧
    PipeRingBuffer_available_read rb' = Z.of_nat (length (ring_bytes rb')) ∧
    PipeRingBuffer_available_write rb' = 32 - Z.of_nat (length (ring_bytes rb')).
Proof. exact (ring_buffer_fifo _ [] PipeRingBuffer_new () ring_wf_new). Defined.
