(* ===== verification/Signal.v ===== *)
(** Signals (os/src/task/signal.rs, os/src/task/action.rs): the flags, their error
    codes, and the table of actions. *)

From S2P Require Export Bytes.

Definition MAX_SIG : Z := 31.

(** [SignalFlags]: 32 bits, all of them named, so [from_bits] never fails. *)
Definition SIGDEF : Z := 1.
Definition SIGINT : Z := Z.shiftl 1 2.
Definition SIGILL : Z := Z.shiftl 1 4.
Definition SIGABRT : Z := Z.shiftl 1 6.
Definition SIGFPE : Z := Z.shiftl 1 8.
Definition SIGKILL : Z := Z.shiftl 1 9.
Definition SIGSEGV : Z := Z.shiftl 1 11.
Definition SIGCONT : Z := Z.shiftl 1 18.
Definition SIGSTOP : Z := Z.shiftl 1 19.

Definition SignalFlags_from_bits (bits : Z) : option Z := Some bits.
Definition SignalFlags_contains (self other : Z) : bool := Z.land self other =? other.

(** [1 << sig] as a [u32]: in a release build the shift distance is masked. *)
Definition signal_bit (sig : Z) : Z := wrap 32 (Z.shiftl 1 (sig mod 32)).

Definition SignalFlags_check_error (self : Z) : option (Z * string) :=
  if SignalFlags_contains self SIGINT then Some (-2, "Killed, SIGINT=2"%string)
  else if SignalFlags_contains self SIGILL then Some (-4, "Illegal Instruction, SIGILL=4"%string)
  else if SignalFlags_contains self SIGABRT then Some (-6, "Aborted, SIGABRT=6"%string)
  else if SignalFlags_contains self SIGFPE then Some (-8, "Erroneous Arithmetic Operation, SIGFPE=8"%string)
  else if SignalFlags_contains self SIGKILL then Some (-9, "Killed, SIGKILL=9"%string)
  else if SignalFlags_contains self SIGSEGV then Some (-11, "Segmentation Fault, SIGSEGV=11"%string)
  else None.

(** [SignalAction], sixteen bytes with the padding. *)
Record SignalAction : Type := MkSignalAction { sa_handler : Z; sa_mask : Z }.
#[global] Instance SignalAction_eq_dec : EqDecision SignalAction.
Proof. solve_decision. Defined.
Definition SignalAction_default : SignalAction := MkSignalAction 0 40.
#[global] Instance SignalAction_inhabited : Inhabited SignalAction := populate SignalAction_default.
Definition SignalActions_default : list SignalAction := replicate 32 SignalAction_default.

(** The kernel handles these itself. *)
Definition is_kernel_signal (signal : Z) : bool :=
  (signal =? SIGKILL) || (signal =? SIGSTOP) || (signal =? SIGCONT) || (signal =? SIGDEF).

(** * Lemmas *)

Lemma signal_bit_pow sig : 0 ≤ sig ≤ MAX_SIG → signal_bit sig = 2 ^ sig.
Proof.
  unfold MAX_SIG. intros Hs. unfold signal_bit. rewrite Z.mod_small, Z.shiftl_1_l by lia.
  apply wrap_small. split; [lia|]. apply Z.pow_lt_mono_r; lia.
Qed.
Lemma contains_testbit flags sig :
  0 ≤ sig ≤ MAX_SIG → SignalFlags_contains flags (signal_bit sig) = Z.testbit flags sig.
Proof.
  intros Hs. unfold SignalFlags_contains. rewrite signal_bit_pow by done. unfold MAX_SIG in Hs.
  apply eq_true_iff_eq. rewrite Z.eqb_eq. split.
  - intros H. apply (f_equal (λ z, Z.testbit z sig)) in H. rewrite Z.land_spec, Z.pow2_bits_true in H by lia.
    by rewrite andb_true_r in H.
  - intros H. apply Z.bits_inj'. intros i Hi. rewrite Z.land_spec, Z.pow2_bits_eqb by lia.
    destruct (Z.eqb_spec sig i) as [->|]; [by rewrite H|by rewrite andb_false_r].
Qed.
Lemma testbit_lxor_pow flags sig i :
  0 ≤ sig → 0 ≤ i → Z.testbit (Z.lxor flags (2 ^ sig)) i = xorb (Z.testbit flags i) (sig =? i).
Proof. intros. by rewrite Z.lxor_spec, Z.pow2_bits_eqb. Qed.
(** [kill(pid, 40)] sends SIGFPE. *)
Example signal_bit_40 : signal_bit 40 = SIGFPE.
Proof. reflexivity. Qed.
