(* ===== verification/Task.v ===== *)
(** Tasks (os/src/task/task.rs, os/src/task/context.rs, os/src/trap/context.rs):
    the task control block and its parts. *)

From S2P Require Export MemorySet Scheduler Pid Pipe Signal Vfs.

(** * Trap contexts *)

(** [TrapContext]: 37 words at the start of the trap-context page of a task. *)
Record TrapContext : Type := MkTrapContext {
  tc_x : list Z;
  sstatus : Z;
  sepc : Z;
  kernel_satp : Z;
  kernel_sp : Z;
  tc_trap_handler : Z }.
Definition TrapContext_words (c : TrapContext) : list Z :=
  tc_x c ++ [sstatus c; sepc c; kernel_satp c; kernel_sp c; tc_trap_handler c].
Definition TrapContext_of_words (ws : list Z) : TrapContext :=
  MkTrapContext (take 32 ws) (ws !!! 32%nat) (ws !!! 33%nat) (ws !!! 34%nat) (ws !!! 35%nat) (ws !!! 36%nat).
(** [cx.x[i] = v] *)
Definition set_x (i : nat) (v : Z) (c : TrapContext) : TrapContext :=
  MkTrapContext (<[i := v]> (tc_x c)) (sstatus c) (sepc c) (kernel_satp c) (kernel_sp c) (tc_trap_handler c).
Definition set_sepc (v : Z) (c : TrapContext) : TrapContext :=
  MkTrapContext (tc_x c) (sstatus c) v (kernel_satp c) (kernel_sp c) (tc_trap_handler c).
Definition set_kernel_sp (v : Z) (c : TrapContext) : TrapContext :=
  MkTrapContext (tc_x c) (sstatus c) (sepc c) (kernel_satp c) v (tc_trap_handler c).
Definition TrapContext_set_sp (sp : Z) (c : TrapContext) : TrapContext := set_x 2 sp c.
(** [user_sstatus] is the status register with the previous privilege set to
    user mode, the way the riscv crate reads and edits it. *)
Definition TrapContext_app_init_context (user_sstatus entry sp kernel_satp kernel_sp trap_handler : Z) : TrapContext :=
  TrapContext_set_sp sp
    (MkTrapContext (replicate 32 0) user_sstatus entry kernel_satp kernel_sp trap_handler).

(** * Task contexts *)

(** Where a task that gave up the processor inside the kernel goes on: the call
    of [suspend_current_and_run_next] it made and the local variables that are
    live there. *)
Inductive Resume : Type :=
| in_yield                                                  (** [sys_yield] *)
| in_timer                                                  (** the timer interrupt *)
| in_signals                                                (** [handle_signals] *)
| in_stdin (buffers : list Buf)                             (** [Stdin::read] *)
| in_pipe_read (buffer : nat) (it : UserBufferIterator) (read_size : Z)
| in_pipe_write (buffer : nat) (it : UserBufferIterator) (write_size : Z).

(** [TaskContext]: what [__switch] saves and restores.  A new task returns to
    [trap_return] on its kernel stack. *)
Inductive TaskContext : Type :=
| TaskContext_zero_init
| TaskContext_goto_trap_return (kstack_ptr : Z)
| TaskContext_suspended (r : Resume).

Inductive TaskStatus : Type := UnInit | Ready | Running | Zombie | Exited.
#[global] Instance TaskStatus_eq_dec : EqDecision TaskStatus.
Proof. solve_decision. Defined.

(** * Task control blocks *)

(** [TaskControlBlock] with its inner part.  Tasks and files are shared
    ([Arc]); a reference is an index into the kernel's stores. *)
Record TaskControlBlock : Type := MkTask {
  pid : Z;
  kernel_stack : Z;
  trap_cx_ppn : Z;
  base_size : Z;
  priority : Z;
  task_pass : Z;
  task_cx : TaskContext;
  task_status : TaskStatus;
  memory_set : MemorySet;
  parent : option nat;
  children : list nat;
  exit_code : Z;
  fd_table : list (option nat);
  signals : Z;
  signal_mask : Z;
  handling_sig : Z;
  signal_actions : list SignalAction;
  killed : bool;
  frozen : bool;
  trap_ctx_backup : option TrapContext }.

(** Assignments to the fields of the inner part. *)
Definition set_trap_cx_ppn (v : Z) (t : TaskControlBlock) : TaskControlBlock :=
  MkTask (pid t) (kernel_stack t) v (base_size t) (priority t) (task_pass t) (task_cx t)
    (task_status t) (memory_set t) (parent t) (children t) (exit_code t) (fd_table t) (signals t)
    (signal_mask t) (handling_sig t) (signal_actions t) (killed t) (frozen t) (trap_ctx_backup t).
Definition set_priority (v : Z) (t : TaskControlBlock) : TaskControlBlock :=
  MkTask (pid t) (kernel_stack t) (trap_cx_ppn t) (base_size t) v (task_pass t) (task_cx t)
    (task_status t) (memory_set t) (parent t) (children t) (exit_code t) (fd_table t) (signals t)
    (signal_mask t) (handling_sig t) (signal_actions t) (killed t) (frozen t) (trap_ctx_backup t).
Definition set_task_pass (v : Z) (t : TaskControlBlock) : TaskControlBlock :=
  MkTask (pid t) (kernel_stack t) (trap_cx_ppn t) (base_size t) (priority t) v (task_cx t)
    (task_status t) (memory_set t) (parent t) (children t) (exit_code t) (fd_table t) (signals t)
    (signal_mask t) (handling_sig t) (signal_actions t) (killed t) (frozen t) (trap_ctx_backup t).
Definition set_task_cx (v : TaskContext) (t : TaskControlBlock) : TaskControlBlock :=
  MkTask (pid t) (kernel_stack t) (trap_cx_ppn t) (base_size t) (priority t) (task_pass t) v
    (task_status t) (memory_set t) (parent t) (children t) (exit_code t) (fd_table t) (signals t)
    (signal_mask t) (handling_sig t) (signal_actions t) (killed t) (frozen t) (trap_ctx_backup t).
Definition set_task_status (v : TaskStatus) (t : TaskControlBlock) : TaskControlBlock :=
  MkTask (pid t) (kernel_stack t) (trap_cx_ppn t) (base_size t) (priority t) (task_pass t) (task_cx
    t) v (memory_set t) (parent t) (children t) (exit_code t) (fd_table t) (signals t) (signal_mask
    t) (handling_sig t) (signal_actions t) (killed t) (frozen t) (trap_ctx_backup t).
Definition set_memory_set (v : MemorySet) (t : TaskControlBlock) : TaskControlBlock :=
  MkTask (pid t) (kernel_stack t) (trap_cx_ppn t) (base_size t) (priority t) (task_pass t) (task_cx
    t) (task_status t) v (parent t) (children t) (exit_code t) (fd_table t) (signals t) (signal_mask
    t) (handling_sig t) (signal_actions t) (killed t) (frozen t) (trap_ctx_backup t).
Definition set_parent (v : option nat) (t : TaskControlBlock) : TaskControlBlock :=
  MkTask (pid t) (kernel_stack t) (trap_cx_ppn t) (base_size t) (priority t) (task_pass t) (task_cx
    t) (task_status t) (memory_set t) v (children t) (exit_code t) (fd_table t) (signals t)
    (signal_mask t) (handling_sig t) (signal_actions t) (killed t) (frozen t) (trap_ctx_backup t).
Definition set_children (v : list nat) (t : TaskControlBlock) : TaskControlBlock :=
  MkTask (pid t) (kernel_stack t) (trap_cx_ppn t) (base_size t) (priority t) (task_pass t) (task_cx
    t) (task_status t) (memory_set t) (parent t) v (exit_code t) (fd_table t) (signals t)
    (signal_mask t) (handling_sig t) (signal_actions t) (killed t) (frozen t) (trap_ctx_backup t).
Definition set_exit_code (v : Z) (t : TaskControlBlock) : TaskControlBlock :=
  MkTask (pid t) (kernel_stack t) (trap_cx_ppn t) (base_size t) (priority t) (task_pass t) (task_cx
    t) (task_status t) (memory_set t) (parent t) (children t) v (fd_table t) (signals t)
    (signal_mask t) (handling_sig t) (signal_actions t) (killed t) (frozen t) (trap_ctx_backup t).
Definition set_fd_table (v : list (option nat)) (t : TaskControlBlock) : TaskControlBlock :=
  MkTask (pid t) (kernel_stack t) (trap_cx_ppn t) (base_size t) (priority t) (task_pass t) (task_cx
    t) (task_status t) (memory_set t) (parent t) (children t) (exit_code t) v (signals t)
    (signal_mask t) (handling_sig t) (signal_actions t) (killed t) (frozen t) (trap_ctx_backup t).
Definition set_signals (v : Z) (t : TaskControlBlock) : TaskControlBlock :=
  MkTask (pid t) (kernel_stack t) (trap_cx_ppn t) (base_size t) (priority t) (task_pass t) (task_cx
    t) (task_status t) (memory_set t) (parent t) (children t) (exit_code t) (fd_table t) v
    (signal_mask t) (handling_sig t) (signal_actions t) (killed t) (frozen t) (trap_ctx_backup t).
Definition set_signal_mask (v : Z) (t : TaskControlBlock) : TaskControlBlock :=
  MkTask (pid t) (kernel_stack t) (trap_cx_ppn t) (base_size t) (priority t) (task_pass t) (task_cx
    t) (task_status t) (memory_set t) (parent t) (children t) (exit_code t) (fd_table t) (signals t)
    v (handling_sig t) (signal_actions t) (killed t) (frozen t) (trap_ctx_backup t).
Definition set_handling_sig (v : Z) (t : TaskControlBlock) : TaskControlBlock :=
  MkTask (pid t) (kernel_stack t) (trap_cx_ppn t) (base_size t) (priority t) (task_pass t) (task_cx
    t) (task_status t) (memory_set t) (parent t) (children t) (exit_code t) (fd_table t) (signals t)
    (signal_mask t) v (signal_actions t) (killed t) (frozen t) (trap_ctx_backup t).
Definition set_signal_actions (v : list SignalAction) (t : TaskControlBlock) : TaskControlBlock :=
  MkTask (pid t) (kernel_stack t) (trap_cx_ppn t) (base_size t) (priority t) (task_pass t) (task_cx
    t) (task_status t) (memory_set t) (parent t) (children t) (exit_code t) (fd_table t) (signals t)
    (signal_mask t) (handling_sig t) v (killed t) (frozen t) (trap_ctx_backup t).
Definition set_killed (v : bool) (t : TaskControlBlock) : TaskControlBlock :=
  MkTask (pid t) (kernel_stack t) (trap_cx_ppn t) (base_size t) (priority t) (task_pass t) (task_cx
    t) (task_status t) (memory_set t) (parent t) (children t) (exit_code t) (fd_table t) (signals t)
    (signal_mask t) (handling_sig t) (signal_actions t) v (frozen t) (trap_ctx_backup t).
Definition set_frozen (v : bool) (t : TaskControlBlock) : TaskControlBlock :=
  MkTask (pid t) (kernel_stack t) (trap_cx_ppn t) (base_size t) (priority t) (task_pass t) (task_cx
    t) (task_status t) (memory_set t) (parent t) (children t) (exit_code t) (fd_table t) (signals t)
    (signal_mask t) (handling_sig t) (signal_actions t) (killed t) v (trap_ctx_backup t).
Definition set_trap_ctx_backup (v : option TrapContext) (t : TaskControlBlock) : TaskControlBlock :=
  MkTask (pid t) (kernel_stack t) (trap_cx_ppn t) (base_size t) (priority t) (task_pass t) (task_cx
    t) (task_status t) (memory_set t) (parent t) (children t) (exit_code t) (fd_table t) (signals t)
    (signal_mask t) (handling_sig t) (signal_actions t) (killed t) (frozen t) v.

Definition TaskControlBlockInner_get_user_token (t : TaskControlBlock) : Z := MemorySet_token (memory_set t).
Definition TaskControlBlockInner_is_zombie (t : TaskControlBlock) : bool := bool_decide (task_status t = Zombie).

(** [alloc_fd]: the first free descriptor, or a new one at the end. *)
Definition TaskControlBlockInner_alloc_fd (t : TaskControlBlock) : Z * TaskControlBlock :=
  match find_index (λ fd, bool_decide (fd = None)) (fd_table t) with
  | Some (fd, _) => (Z.of_nat fd, t)
  | None =>
      let table := fd_table t ++ [None] in
      (Z.of_nat (length table) -₆₄ 1, set_fd_table table t)
  end.
