(* ===== verification/Kernel.v ===== *)
(** The kernel's state and its task management (os/src/task/manager.rs,
    processor.rs, mod.rs, pid.rs): the ready queue and the stride scheduler, the
    processor, suspending a task, kernel stacks, signals of the current task. *)

From S2P Require Export Task.

(** What the kernel finds outside its sources: the symbols of the linker script,
    the ELF parser, the user-mode status register, the address of
    [trap_handler], and a bound on the strings and argument vectors it reads
    from user memory. *)
Class Platform : Type := {
  p_symbols : KernelSymbols;
  p_elf : list Z → option ElfFile;
  p_sstatus : Z;
  p_trap_handler : Z;
  p_fuel : nat }.

(** An open file; [OSInode] holds the offset of its inner part. *)
Inductive FileObj : Type :=
| Stdin
| Stdout
| OSInode (readable writable : bool) (offset : Z) (inode : Inode)
| Pipe (readable writable : bool) (buffer : nat).

Record TaskManager : Type := MkTaskManager {
  ready_queue : gmap Z nat;          (** by pid *)
  scheduler : StrideScheduler }.

(** The statics of the kernel, the stores of the objects behind [Arc]s (tasks,
    open files, pipe buffers), and the devices: the answers the console will
    give, what was printed, the time counter and the next timer interrupt. *)
Record Kernel (St : Type) : Type := MkKernel {
  mm : Mm;
  kernel_space : MemorySet;
  disk : St;
  root : option (EasyFileSystem * Inode);     (** [ROOT_INODE], once it is used *)
  pids : PidAllocator;
  tasks : gmap nat TaskControlBlock;
  files : gmap nat FileObj;
  pipes : gmap nat PipeRingBuffer;
  next_object : nat;
  manager : TaskManager;
  processor : option nat;                     (** [PROCESSOR.current] *)
  initproc : option nat;                      (** [INITPROC], once it is used *)
  console_in : list Z;
  console_out : list Z;
  time : Z;
  mtimecmp : Z }.
Arguments MkKernel {St}. Arguments mm {St}. Arguments kernel_space {St}. Arguments disk {St}.
Arguments root {St}. Arguments pids {St}. Arguments tasks {St}. Arguments files {St}. Arguments pipes {St}.
Arguments next_object {St}. Arguments manager {St}. Arguments processor {St}. Arguments initproc {St}.
Arguments console_in {St}. Arguments console_out {St}. Arguments time {St}. Arguments mtimecmp {St}.

(** The end of an operation that can wait: it is done, or the task gave up the
    processor and goes on at a [Resume]. *)
Inductive flow (A : Type) : Type :=
| Return (a : A)
| Switched.
Arguments Return {A} a.
Arguments Switched {A}.

Section setters.
Context {St : Type}.
Implicit Types k : Kernel St.
Definition set_mm (v : Mm) k : Kernel St :=
  MkKernel v (kernel_space k) (disk k) (root k) (pids k) (tasks k) (files k) (pipes k) (next_object k)
    (manager k) (processor k) (initproc k) (console_in k) (console_out k) (time k) (mtimecmp k).
Definition set_kernel_space (v : MemorySet) k : Kernel St :=
  MkKernel (mm k) v (disk k) (root k) (pids k) (tasks k) (files k) (pipes k) (next_object k) (manager k)
    (processor k) (initproc k) (console_in k) (console_out k) (time k) (mtimecmp k).
Definition set_disk (v : St) k : Kernel St :=
  MkKernel (mm k) (kernel_space k) v (root k) (pids k) (tasks k) (files k) (pipes k) (next_object k)
    (manager k) (processor k) (initproc k) (console_in k) (console_out k) (time k) (mtimecmp k).
Definition set_root (v : option (EasyFileSystem * Inode)) k : Kernel St :=
  MkKernel (mm k) (kernel_space k) (disk k) v (pids k) (tasks k) (files k) (pipes k) (next_object k)
    (manager k) (processor k) (initproc k) (console_in k) (console_out k) (time k) (mtimecmp k).
Definition set_pids (v : PidAllocator) k : Kernel St :=
  MkKernel (mm k) (kernel_space k) (disk k) (root k) v (tasks k) (files k) (pipes k) (next_object k)
    (manager k) (processor k) (initproc k) (console_in k) (console_out k) (time k) (mtimecmp k).
Definition set_tasks (v : gmap nat TaskControlBlock) k : Kernel St :=
  MkKernel (mm k) (kernel_space k) (disk k) (root k) (pids k) v (files k) (pipes k) (next_object k)
    (manager k) (processor k) (initproc k) (console_in k) (console_out k) (time k) (mtimecmp k).
Definition set_files (v : gmap nat FileObj) k : Kernel St :=
  MkKernel (mm k) (kernel_space k) (disk k) (root k) (pids k) (tasks k) v (pipes k) (next_object k)
    (manager k) (processor k) (initproc k) (console_in k) (console_out k) (time k) (mtimecmp k).
Definition set_pipes (v : gmap nat PipeRingBuffer) k : Kernel St :=
  MkKernel (mm k) (kernel_space k) (disk k) (root k) (pids k) (tasks k) (files k) v (next_object k)
    (manager k) (processor k) (initproc k) (console_in k) (console_out k) (time k) (mtimecmp k).
Definition set_next_object (v : nat) k : Kernel St :=
  MkKernel (mm k) (kernel_space k) (disk k) (root k) (pids k) (tasks k) (files k) (pipes k) v (manager
    k) (processor k) (initproc k) (console_in k) (console_out k) (time k) (mtimecmp k).
Definition set_manager (v : TaskManager) k : Kernel St :=
  MkKernel (mm k) (kernel_space k) (disk k) (root k) (pids k) (tasks k) (files k) (pipes k) (next_object
    k) v (processor k) (initproc k) (console_in k) (console_out k) (time k) (mtimecmp k).
Definition set_processor (v : option nat) k : Kernel St :=
  MkKernel (mm k) (kernel_space k) (disk k) (root k) (pids k) (tasks k) (files k) (pipes k) (next_object
    k) (manager k) v (initproc k) (console_in k) (console_out k) (time k) (mtimecmp k).
Definition set_initproc (v : option nat) k : Kernel St :=
  MkKernel (mm k) (kernel_space k) (disk k) (root k) (pids k) (tasks k) (files k) (pipes k) (next_object
    k) (manager k) (processor k) v (console_in k) (console_out k) (time k) (mtimecmp k).
Definition set_console_in (v : list Z) k : Kernel St :=
  MkKernel (mm k) (kernel_space k) (disk k) (root k) (pids k) (tasks k) (files k) (pipes k) (next_object
    k) (manager k) (processor k) (initproc k) v (console_out k) (time k) (mtimecmp k).
Definition set_console_out (v : list Z) k : Kernel St :=
  MkKernel (mm k) (kernel_space k) (disk k) (root k) (pids k) (tasks k) (files k) (pipes k) (next_object
    k) (manager k) (processor k) (initproc k) (console_in k) v (time k) (mtimecmp k).
Definition set_time (v : Z) k : Kernel St :=
  MkKernel (mm k) (kernel_space k) (disk k) (root k) (pids k) (tasks k) (files k) (pipes k) (next_object
    k) (manager k) (processor k) (initproc k) (console_in k) (console_out k) v (mtimecmp k).
Definition set_mtimecmp (v : Z) k : Kernel St :=
  MkKernel (mm k) (kernel_space k) (disk k) (root k) (pids k) (tasks k) (files k) (pipes k) (next_object
    k) (manager k) (processor k) (initproc k) (console_in k) (console_out k) (time k) v.
End setters.

Section kernel.
Context {St : Type} `{!BlockStore St} `{!Platform}.
Abbreviation K := (Kernel St).

Definition in_mm {A} (m : M Mm A) : M K A := zoom mm set_mm m.
Definition in_disk {A} (m : M St A) : M K A := zoom disk set_disk m.

(** * References *)

Definition get_task (t : nat) : M K TaskControlBlock := ts ← gets tasks; unwrap_ub (ts !! t).
Definition put_task (t : nat) (tcb : TaskControlBlock) : M K () := upd (λ k, set_tasks (<[t := tcb]> (tasks k)) k).
(** An assignment to the inner part of a task. *)
Definition update_task (t : nat) (f : TaskControlBlock → TaskControlBlock) : M K () :=
  tcb ← get_task t; put_task t (f tcb).
(** [Arc::new] *)
Definition fresh_object : M K nat := n ← gets next_object; upd (set_next_object (S n));; mret n.
Definition new_task (tcb : TaskControlBlock) : M K nat := t ← fresh_object; put_task t tcb;; mret t.

(** [Arc::strong_count] of a task, apart from local variables. *)
Definition task_refs (k : K) (t : nat) : nat :=
  sum_list_with (λ p, count_occ Nat.eq_dec (children p.2) t) (map_to_list (tasks k)) +
  length (filter (λ p, p.2 = t) (map_to_list (ready_queue (manager k)))) +
  (if decide (processor k = Some t) then 1 else 0) +
  (if decide (initproc k = Some t) then 1 else 0).

(** * Processor *)

Definition current_task : M K (option nat) := gets processor.
(** [current_task().unwrap()] *)
Definition current : M K nat := t ← current_task; unwrap t.
Definition take_current_task : M K (option nat) := t ← gets processor; upd (set_processor None);; mret t.
Definition current_pid : M K Z := t ← current; tcb ← get_task t; mret (pid tcb).
Definition current_user_token : M K Z :=
  t ← current; tcb ← get_task t; mret (TaskControlBlockInner_get_user_token tcb).

(** [get_trap_cx]: the structure at the start of the trap-context page. *)
Definition get_trap_cx (tcb : TaskControlBlock) : M K TrapContext :=
  p ← in_mm (get_bytes_array (trap_cx_ppn tcb));
  mret (TrapContext_of_words (words_dec 8 37 (take 296 p))).
Definition put_trap_cx (tcb : TaskControlBlock) (c : TrapContext) : M K () :=
  p ← in_mm (get_bytes_array (trap_cx_ppn tcb));
  in_mm (set_bytes_array (trap_cx_ppn tcb) (splice 0 (words_enc 8 (TrapContext_words c)) p)).

(** * Task manager *)

(** [TaskManager::add]; a zero priority would divide by zero. *)
Definition add_task (t : nat) : M K () :=
  tcb ← get_task t;
  assert_ (negb (priority tcb =? 0));;
  let tcb := set_task_pass (task_pass tcb +₆₄ BIG_STRIDE / priority tcb) tcb in
  put_task t tcb;;
  upd (λ k, set_manager (MkTaskManager (<[pid tcb := t]> (ready_queue (manager k)))
    (StrideScheduler_insert_task (scheduler (manager k)) (pid tcb) (task_pass tcb))) k).

(** [TaskManager::fetch]: skips heap entries of tasks that are not queued; the
    heap shrinks every round. *)
Definition fetch_task : M K (option nat) :=
  m ← gets manager;
  next_pid ← mloop (S (length (queue (scheduler m)))) (λ _ : (),
    m ← gets manager;
    let '(next, s) := StrideScheduler_find_next_task (scheduler m) in
    upd (set_manager (MkTaskManager (ready_queue m) s));;
    match next with
    | Some next_pid =>
        if bool_decide (is_Some (ready_queue m !! next_pid)) then mret (inr (Some next_pid)) else mret (inl ())
    | None => mret (inr None)
    end) ();
  match next_pid with
  | Some next_pid =>
      m ← gets manager;
      task ← unwrap (ready_queue m !! next_pid);
      upd (set_manager (MkTaskManager (delete next_pid (ready_queue m)) (scheduler m)));;
      mret (Some task)
  | None => mret None
  end.

Definition pid2task (p : Z) : M K (option nat) :=
  c ← current_pid;
  if p =? c then current_task else m ← gets manager; mret (ready_queue m !! p).

(** One round of [run_tasks]: the task to switch to, or [None] when the
    processor stays idle. *)
Definition run_tasks_round : M K (option nat) :=
  task ← fetch_task;
  match task with
  | Some t => update_task t (set_task_status Running);; upd (set_processor (Some t));; mret (Some t)
  | None => mret None
  end.

(** [suspend_current_and_run_next], called at [r]. *)
Definition suspend_current_and_run_next (r : Resume) : M K () :=
  t ← take_current_task;
  task ← unwrap t;
  update_task task (λ tcb, set_task_cx (TaskContext_suspended r) (set_task_status Ready tcb));;
  add_task task.

(** * Pids and kernel stacks *)

Definition in_pids {A} (m : M PidAllocator A) : M K A := zoom pids set_pids m.
Definition pid_alloc : M K Z := a ← gets pids; let '(p, a) := PidAllocator_alloc a in upd (set_pids a);; mret p.
Definition PidHandle_drop (p : Z) : M K () := in_pids (PidAllocator_dealloc p).

(** [KernelStack] is the pid it holds, [usize::MAX] when the memory is full. *)
Definition KernelStack_new (p : Z) : M K Z :=
  let '(bottom, top) := kernel_stack_position p in
  ks ← gets kernel_space;
  '(ok, ks) ← in_mm (MemorySet_insert_framed_area ks (VirtAddr_from bottom) (VirtAddr_from top)
                       (Z.lor MapPermission_R MapPermission_W));
  upd (set_kernel_space ks);;
  mret (if ok : bool then p else usize_MAX).
Definition KernelStack_get_top (p : Z) : Z := (kernel_stack_position p).2.
Definition KernelStack_drop (p : Z) : M K () :=
  let '(kernel_stack_bottom, _) := kernel_stack_position p in
  vpn ← PageNum_from_Addr (VirtAddr_from kernel_stack_bottom);
  ks ← gets kernel_space;
  ks ← in_mm (MemorySet_remove_area_with_start_vpn ks vpn);
  upd (set_kernel_space ks).

(** The last reference to a task goes: pid, kernel stack, address space.  The
    files it had open are found closed by their reference counts; its list of
    children is empty, since only exited tasks are dropped. *)
Definition TaskControlBlock_drop (t : nat) : M K () :=
  tcb ← get_task t;
  upd (λ k, set_tasks (delete t (tasks k)) k);;
  PidHandle_drop (pid tcb);;
  KernelStack_drop (kernel_stack tcb);;
  in_mm (MemorySet_drop (memory_set tcb)).

(** * The current task *)

Definition set_current_prio (prio : Z) : M K () := t ← current; update_task t (set_priority prio).
Definition current_memory_set_mmap (start_va end_va permission : Z) : M K bool :=
  t ← current;
  tcb ← get_task t;
  '(ok, ms) ← in_mm (MemorySet_insert_framed_area (memory_set tcb) start_va end_va permission);
  put_task t (set_memory_set ms tcb);;
  mret ok.
Definition current_memory_set_munmap (start_va end_va : Z) : M K Z :=
  t ← current;
  tcb ← get_task t;
  '(res, ms) ← in_mm (MemorySet_remove_mapped_frames (memory_set tcb) start_va end_va);
  put_task t (set_memory_set ms tcb);;
  mret res.

(** ** Signals *)

Definition current_add_signal (signal : Z) : M K () :=
  t ← current; update_task t (λ tcb, set_signals (Z.lor (signals tcb) signal) tcb).
Definition check_signals_error_of_current : M K (option (Z * string)) :=
  t ← current; tcb ← get_task t; mret (SignalFlags_check_error (signals tcb)).

Definition call_kernel_signal_handler (signal : Z) : M K () :=
  t ← current;
  update_task t (λ tcb,
    if signal =? SIGSTOP then
      set_signals (Z.lxor (signals tcb) SIGSTOP) (set_frozen true tcb)
    else if signal =? SIGCONT then
      if SignalFlags_contains (signals tcb) SIGCONT then
        set_frozen false (set_signals (Z.lxor (signals tcb) SIGCONT) tcb)
      else tcb
    else set_killed true tcb).

Definition call_user_signal_handler (sig signal : Z) : M K () :=
  t ← current;
  tcb ← get_task t;
  action ← index (signal_actions tcb) sig;
  if negb (sa_handler action =? 0) then
    trap_ctx ← get_trap_cx tcb;
    let tcb := set_signal_mask (sa_mask action) tcb in
    let tcb := set_handling_sig sig tcb in
    let tcb := set_signals (Z.lxor (signals tcb) signal) tcb in
    put_task t (set_trap_ctx_backup (Some trap_ctx) tcb);;
    put_trap_cx tcb (set_x 10 sig (set_sepc (sa_handler action) trap_ctx))
  else mret ().

(** The signal is delivered; [true] ends the search. *)
Definition deliver (sig signal : Z) : M K bool :=
  if is_kernel_signal signal then call_kernel_signal_handler signal;; mret false
  else call_user_signal_handler sig signal;; mret true.

(** The loop of [check_pending_signals]. *)
Fixpoint check_signals (sigs : list Z) : M K () :=
  match sigs with
  | [] => mret ()
  | sig :: sigs =>
      t ← current;
      tcb ← get_task t;
      let signal := signal_bit sig in
      stop ← (if SignalFlags_contains (signals tcb) signal && negb (SignalFlags_contains (signal_mask tcb) signal) then
                if handling_sig tcb =? -1 then deliver sig signal
                else
                  action ← index (signal_actions tcb) (handling_sig tcb);
                  if negb (SignalFlags_contains (sa_mask action) signal) then deliver sig signal else mret false
              else mret false);
      if stop : bool then mret () else check_signals sigs
  end.
Definition check_pending_signals : M K () := check_signals (range 0 (MAX_SIG + 1)).

(** The loop of [handle_signals]; it gives up the processor once per round. *)
Definition handle_signals_loop : M K (flow ()) :=
  t ← current;
  tcb ← get_task t;
  if negb (frozen tcb) || killed tcb then mret (Return ())
  else
    check_pending_signals;;
    suspend_current_and_run_next in_signals;;
    mret Switched.
Definition handle_signals : M K (flow ()) := check_pending_signals;; handle_signals_loop.

(** ** Reading and writing the tasks: lemmas *)

Lemma get_task_run t tcb (k : K) : tasks k !! t = Some tcb → get_task t k = Ok (tcb, k).
Proof. intros Ht. unfold get_task. erewrite bind_Ok by reflexivity. by rewrite Ht. Qed.
Lemma update_task_run t tcb (k : K) f :
  tasks k !! t = Some tcb → update_task t f k = Ok ((), set_tasks (<[t := f tcb]> (tasks k)) k).
Proof. intros Ht. unfold update_task. by erewrite bind_Ok by (by apply get_task_run). Qed.
Lemma current_run t (k : K) : processor k = Some t → current k = Ok (t, k).
Proof. intros Hp. unfold current, current_task. erewrite bind_Ok by reflexivity. by rewrite Hp. Qed.

End kernel.

(** A platform without a linker script and programs, for examples. *)
Definition bare_platform : Platform :=
  {| p_symbols := MkSymbols 0 0 0 0 0 0 0 0 0 0; p_elf := λ _, None; p_sstatus := 0; p_trap_handler := 0; p_fuel := 1 |}.
