(* ===== verification/Files.v ===== *)
(** Open files (os/src/fs/): inode files with their offset, opening by name,
    pipe ends, the console.  Reads and writes go to user memory through the
    physical buffers a [UserBuffer] lists. *)

From S2P Require Export Kernel.

(** * Strings *)

(** The UTF-8 bytes of a [String] built from characters below 256. *)
Definition str_bytes (l : list Z) : list Z :=
  l ≫= λ c, if c <? 128 then [c] else [Z.lor 192 (Z.shiftr c 6); Z.lor 128 (Z.land c 63)].

(** * Flags *)

Definition OpenFlags_RDONLY : Z := 0.
Definition OpenFlags_WRONLY : Z := 1.
Definition OpenFlags_RDWR : Z := 2.
Definition OpenFlags_CREATE : Z := 512.
Definition OpenFlags_TRUNC : Z := 1024.
Definition OpenFlags_all : Z := 1 + 2 + 512 + 1024.
Definition OpenFlags_from_bits (bits : Z) : option Z :=
  if Z.ldiff bits OpenFlags_all =? 0 then Some bits else None.
Definition OpenFlags_contains (self other : Z) : bool := Z.land self other =? other.
Definition OpenFlags_read_write (self : Z) : bool * bool :=
  if self =? 0 then (true, false)
  else if OpenFlags_contains self OpenFlags_WRONLY then (false, true)
  else (true, true).

(** * [Stat] *)

Definition StatMode_NULL : Z := 0.
Definition StatMode_DIR : Z := 0x4000.
Definition StatMode_FILE : Z := 0x8000.
Record Stat : Type := MkStat { st_dev : Z; st_ino : Z; st_mode : Z; st_nlink : Z; st_pad : list Z }.
Definition Stat_new : Stat := MkStat 0 0 StatMode_NULL 0 (replicate 7 0).
(** The 80 bytes of the structure. *)
Definition Stat_bytes (st : Stat) : list Z :=
  le_enc 8 (st_dev st) ++ le_enc 8 (st_ino st) ++ le_enc 4 (st_mode st) ++ le_enc 4 (st_nlink st) ++
  words_enc 8 (st_pad st).

(** * Buffers in physical memory *)

Definition Buf_get (b : Buf) : M Mm (list Z) :=
  p ← get_bytes_array (buf_ppn b); slice p (buf_off b) (buf_off b + buf_len b).
Definition Buf_set (b : Buf) (l : list Z) : M Mm () :=
  p ← get_bytes_array (buf_ppn b);
  p ← copy_into p (buf_off b) (buf_off b + buf_len b) l;
  set_bytes_array (buf_ppn b) p.
Definition Buf_addr (b : Buf) : Z := buf_ppn b * PAGE_SIZE + buf_off b.
(** A structure stored through a raw pointer: consecutive physical bytes. *)
Definition write_phys (pa : Z) (bytes : list Z) : M Mm () :=
  mfor (λ '(i, b), set_phys_byte (pa + i) b) (zip (range 0 (Z.of_nat (length bytes))) bytes).
Definition read_phys (pa : Z) (n : nat) : M Mm (list Z) :=
  mfold (λ i l, b ← phys_byte (pa + i); mret (l ++ [b])) (range 0 (Z.of_nat n)) [].

Section files.
Context {St : Type} `{!BlockStore St} `{!Platform}.
Abbreviation K := (Kernel St).

Definition get_file (f : nat) : M K FileObj := fs ← gets files; unwrap_ub (fs !! f).
Definition put_file (f : nat) (obj : FileObj) : M K () := upd (λ k, set_files (<[f := obj]> (files k)) k).
Definition new_file (obj : FileObj) : M K nat := f ← fresh_object; put_file f obj;; mret f.

(** * The file system *)

(** [ROOT_INODE] is initialised by its first use. *)
Definition ROOT_INODE : M K (EasyFileSystem * Inode) :=
  r ← gets root;
  match r with
  | Some r => mret r
  | None =>
      efs ← in_disk EasyFileSystem_open;
      inode ← in_disk (EasyFileSystem_root_inode efs);
      upd (set_root (Some (efs, inode)));;
      mret (efs, inode)
  end.

Definition list_apps : M K (list (list Z)) := '(_, root) ← ROOT_INODE; in_disk (Inode_ls root).

Definition open_file (name : list Z) (flags : Z) : M K (option FileObj) :=
  let '(readable, writable) := OpenFlags_read_write flags in
  '(efs, root) ← ROOT_INODE;
  if OpenFlags_contains flags OpenFlags_CREATE then
    found ← in_disk (Inode_find efs root name);
    match found with
    | Some inode =>
        in_disk (Inode_clear efs inode);;
        mret (Some (OSInode readable writable 0 inode))
    | None =>
        inode ← in_disk (Inode_create efs root name);
        mret (OSInode readable writable 0 <$> inode)
    end
  else
    found ← in_disk (Inode_find efs root name);
    match found with
    | Some inode =>
        (if OpenFlags_contains flags OpenFlags_TRUNC then in_disk (Inode_clear efs inode) else mret ());;
        mret (Some (OSInode readable writable 0 inode))
    | None => mret None
    end.

Definition fs_linkat (oldpath newpath : list Z) (flags : Z) : M K Z :=
  '(efs, root) ← ROOT_INODE; in_disk (Inode_linkat efs root oldpath newpath flags).
Definition fs_unlinkat (path : list Z) (flags : Z) : M K Z :=
  '(efs, root) ← ROOT_INODE; in_disk (Inode_unlinkat efs root path flags).

(** [OSInode::read_all] with its 512-byte buffer: the contents and the offset. *)
Definition read_all_round (inode : Inode)
    : Z * list Z * list Z → M K ((Z * list Z * list Z) + (list Z * Z)) :=
  λ '(offset, buffer, v),
    '(len, buffer) ← in_disk (Inode_read_at inode offset buffer);
    if len =? 0 then mret (inr (v, offset))
    else
      got ← slice buffer 0 len;
      mret (inl (offset +₆₄ len, buffer, v ++ got)).
Definition OSInode_read_all (offset : Z) (inode : Inode) : M K (list Z * Z) :=
  mloop (Z.to_nat (INDIRECT2_BOUND + 2)) (read_all_round inode) (offset, replicate 512 0, []).

(** [OSInode::read]: a short count ends the loop. *)
Fixpoint OSInode_read_bufs (bufs : list Buf) (offset total : Z) (inode : Inode) : M K (Z * Z) :=
  match bufs with
  | [] => mret (offset, total)
  | b :: bufs =>
      old ← in_mm (Buf_get b);
      '(read_size, new) ← in_disk (Inode_read_at inode offset old);
      in_mm (Buf_set b new);;
      if read_size =? 0 then mret (offset, total)
      else OSInode_read_bufs bufs (offset +₆₄ read_size) (total +₆₄ read_size) inode
  end.
Definition OSInode_read (f : nat) (r w : bool) (offset : Z) (inode : Inode) (bufs : list Buf) : M K Z :=
  '(offset, total) ← OSInode_read_bufs bufs offset 0 inode;
  put_file f (OSInode r w offset inode);;
  mret total.

Definition OSInode_write (f : nat) (r w : bool) (offset : Z) (inode : Inode) (bufs : list Buf) : M K Z :=
  '(efs, _) ← ROOT_INODE;
  '(offset, total) ← mfold (λ b '(offset, total),
      data ← in_mm (Buf_get b);
      write_size ← in_disk (Inode_write_at efs inode offset data);
      assert_ (write_size =? buf_len b);;
      mret (offset +₆₄ write_size, total +₆₄ write_size)) bufs (offset, 0);
  put_file f (OSInode r w offset inode);;
  mret total.

Definition OSInode_fstat (inode : Inode) : M K Stat :=
  mode ← in_disk (Inode_mode inode);
  ino ← in_disk (Inode_inode_id inode);
  n ← in_disk (Inode_nlink inode);
  mret (MkStat 0 ino (match mode with File => StatMode_FILE | Directory => StatMode_DIR end) n (replicate 7 0)).

(** * Pipes *)

Definition get_pipe (b : nat) : M K PipeRingBuffer := ps ← gets pipes; unwrap_ub (ps !! b).
Definition put_pipe (b : nat) (rb : PipeRingBuffer) : M K () := upd (λ k, set_pipes (<[b := rb]> (pipes k)) k).

(** A weak reference to a file upgrades while some descriptor table holds it. *)
Definition file_alive (k : K) (f : nat) : bool :=
  existsb (λ p, bool_decide (Some f ∈ fd_table p.2)) (map_to_list (tasks k)).
Definition all_write_ends_closed (rb : PipeRingBuffer) : M K bool :=
  w ← unwrap (write_end rb); k ← get; mret (negb (file_alive k w)).

Definition make_pipe : M K (nat * nat) :=
  b ← fresh_object;
  read_end ← new_file (Pipe true false b);
  write_end ← new_file (Pipe false true b);
  put_pipe b (PipeRingBuffer_set_write_end PipeRingBuffer_new write_end);;
  mret (read_end, write_end).

(** The [for] loop of [Pipe::read]: [true] when the user buffer is full. *)
Fixpoint pipe_read_bytes (n : nat) (b : nat) (it : UserBufferIterator) (read_size : Z)
    : M K (bool * UserBufferIterator * Z) :=
  match n with
  | O => mret (false, it, read_size)
  | S n =>
      '(byte_ref, it) ← UserBufferIterator_next it;
      match byte_ref with
      | Some pa =>
          rb ← get_pipe b;
          '(c, rb) ← PipeRingBuffer_read_byte rb;
          put_pipe b rb;;
          in_mm (set_phys_byte pa c);;
          pipe_read_bytes n b it (read_size +₆₄ 1)
      | None => mret (true, it, read_size)
      end
  end.
(** A round of the loop of [Pipe::read]. *)
Definition pipe_read_round (b : nat) : UserBufferIterator * Z → M K ((UserBufferIterator * Z) + flow Z) :=
  λ '(it, read_size),
    rb ← get_pipe b;
    let loop_read := PipeRingBuffer_available_read rb in
    if loop_read =? 0 then
      closed ← all_write_ends_closed rb;
      if closed : bool then mret (inr (Return read_size))
      else suspend_current_and_run_next (in_pipe_read b it read_size);; mret (inr Switched)
    else
      '(full, it, read_size) ← pipe_read_bytes (Z.to_nat loop_read) b it read_size;
      mret (if full : bool then inr (Return read_size) else inl (it, read_size)).
(** A round that reads empties the buffer, so the round after it waits or
    returns. *)
Definition pipe_read_loop (b : nat) (it : UserBufferIterator) (read_size : Z) : M K (flow Z) :=
  mloop 3 (pipe_read_round b) (it, read_size).

Fixpoint pipe_write_bytes (n : nat) (b : nat) (it : UserBufferIterator) (write_size : Z)
    : M K (bool * UserBufferIterator * Z) :=
  match n with
  | O => mret (false, it, write_size)
  | S n =>
      '(byte_ref, it) ← UserBufferIterator_next it;
      match byte_ref with
      | Some pa =>
          rb ← get_pipe b;
          c ← in_mm (phys_byte pa);
          rb ← PipeRingBuffer_write_byte rb c;
          put_pipe b rb;;
          pipe_write_bytes n b it (write_size +₆₄ 1)
      | None => mret (true, it, write_size)
      end
  end.
Definition pipe_write_round (b : nat) : UserBufferIterator * Z → M K ((UserBufferIterator * Z) + flow Z) :=
  λ '(it, write_size),
    rb ← get_pipe b;
    let loop_write := PipeRingBuffer_available_write rb in
    if loop_write =? 0 then
      suspend_current_and_run_next (in_pipe_write b it write_size);; mret (inr Switched)
    else
      '(done_, it, write_size) ← pipe_write_bytes (Z.to_nat loop_write) b it write_size;
      mret (if done_ : bool then inr (Return write_size) else inl (it, write_size)).
Definition pipe_write_loop (b : nat) (it : UserBufferIterator) (write_size : Z) : M K (flow Z) :=
  mloop 3 (pipe_write_round b) (it, write_size).

(** * The console *)

(** [console_getchar]: 0 when no key was pressed. *)
Definition console_getchar : M K Z :=
  l ← gets console_in;
  match l with
  | [] => mret 0
  | c :: l => upd (set_console_in l);; mret c
  end.

(** The loop of [Stdin::read] and the byte it stores. *)
Definition stdin_loop (bufs : list Buf) : M K (flow Z) :=
  c ← console_getchar;
  if c =? 0 then suspend_current_and_run_next (in_stdin bufs);; mret Switched
  else
    (if c =? 3 then current_add_signal SIGINT else mret ());;
    b ← index bufs 0;
    in_mm (set_phys_byte (Buf_addr b) (u8 c));;
    mret (Return 1).

Definition print (s : list Z) : M K () := upd (λ k, set_console_out (console_out k ++ s) k).
Definition Stdout_write (bufs : list Buf) : M K Z :=
  mfor (λ b, s ← in_mm (Buf_get b); assert_ (utf8_valid s);; print s) bufs;;
  mret (UserBuffer_len bufs).

(** * The trait [File] *)

Definition File_readable (f : FileObj) : bool :=
  match f with Stdin => true | Stdout => false | OSInode r _ _ _ | Pipe r _ _ => r end.
Definition File_writable (f : FileObj) : bool :=
  match f with Stdin => false | Stdout => true | OSInode _ w _ _ | Pipe _ w _ => w end.

Definition File_read (f : nat) (bufs : list Buf) : M K (flow Z) :=
  obj ← get_file f;
  match obj with
  | Stdin => assert_ (UserBuffer_len bufs =? 1);; stdin_loop bufs
  | Stdout => mret (Return 0)
  | OSInode r w offset inode => n ← OSInode_read f r w offset inode bufs; mret (Return n)
  | Pipe r _ b => assert_ r;; pipe_read_loop b (UserBuffer_into_iter bufs) 0
  end.
Definition File_write (f : nat) (bufs : list Buf) : M K (flow Z) :=
  obj ← get_file f;
  match obj with
  | Stdin => mret (Return 0)
  | Stdout => n ← Stdout_write bufs; mret (Return n)
  | OSInode r w offset inode => n ← OSInode_write f r w offset inode bufs; mret (Return n)
  | Pipe _ w b => assert_ w;; pipe_write_loop b (UserBuffer_into_iter bufs) 0
  end.
Definition File_fstat (f : nat) : M K Stat :=
  obj ← get_file f;
  match obj with
  | OSInode _ _ _ inode => OSInode_fstat inode
  | _ => mret Stat_new
  end.
End files.
