(* ===== verification/PipeSpec.v ===== *)
(** Reading and writing a pipe (os/src/fs/pipe.rs, [UserBufferIterator] of
    os/src/mm/page_table.rs): the iterator visits the bytes of the user buffer in
    order, and the loops move bytes between those addresses and the queue. *)

From S2P Require Export PageTableSpec Files.

(** * The iterator *)

(** The addresses still to come. *)
Definition iter_addrs (it : UserBufferIterator) : list Z :=
  drop (Z.to_nat (current_idx it)) (concat (buf_addrs <$> drop (Z.to_nat (current_buffer it)) (ub_buffers it))).
Record iter_wf (it : UserBufferIterator) : Prop := {
  iw_bufs : Forall (λ b, 0 < buf_len b < 2 ^ 64) (ub_buffers it);
  iw_count : Z.of_nat (length (ub_buffers it)) < 2 ^ 64;
  iw_buffer : 0 ≤ current_buffer it;
  iw_idx : match ub_buffers it !! Z.to_nat (current_buffer it) with
           | Some b => 0 ≤ current_idx it < buf_len b
           | None => current_idx it = 0
           end }.

Lemma length_buf_addrs b : length (buf_addrs b) = Z.to_nat (buf_len b).
Proof. unfold buf_addrs. rewrite length_fmap, length_seqZ. done. Qed.
Lemma buf_addrs_lookup b i :
  0 ≤ i < buf_len b → buf_addrs b !! Z.to_nat i = Some (buf_ppn b * PAGE_SIZE + buf_off b + i).
Proof.
  intros Hi. unfold buf_addrs. rewrite list_lookup_fmap, lookup_seqZ_lt by lia. cbn. f_equal. lia.
Qed.

Lemma iter_start bufs :
  Forall (λ b, 0 < buf_len b < 2 ^ 64) bufs → Z.of_nat (length bufs) < 2 ^ 64 →
  iter_wf (UserBuffer_into_iter bufs) ∧ iter_addrs (UserBuffer_into_iter bufs) = concat (buf_addrs <$> bufs).
Proof.
  intros Hb Hn. split; [|done]. split; cbn; [done|done|lia|]. destruct bufs as [|b bufs]; [done|].
  destruct (Forall_inv Hb). change (Z.to_nat 0) with 0%nat. cbn. lia.
Qed.

Lemma iter_next_spec {T} it (s : T) :
  iter_wf it →
  match iter_addrs it with
  | [] => UserBufferIterator_next it s = Ok ((None, it), s)
  | a :: rest => ∃ it', UserBufferIterator_next it s = Ok ((Some a, it'), s) ∧ iter_wf it' ∧ iter_addrs it' = rest
  end.
Proof.
  intros [Hb Hn Hbuf Hidx]. unfold iter_addrs, UserBufferIterator_next.
  destruct (ub_buffers it !! Z.to_nat (current_buffer it)) as [b|] eqn:E.
  - pose proof (lookup_lt_Some _ _ _ E) as Hlt. rewrite (drop_S _ _ _ E). cbn [fmap list_fmap concat].
    assert (0 < buf_len b < 2 ^ 64) as Hlen by (rewrite Forall_forall in Hb; apply Hb; by eapply list_elem_of_lookup_2).
    rewrite drop_app_le by (rewrite length_buf_addrs; lia).
    rewrite (drop_S _ _ _ (buf_addrs_lookup b _ Hidx)). cbn [app].
    rewrite (proj2 (Z.leb_gt _ _)) by lia.
    assert (index (S := T) (ub_buffers it) (current_buffer it) s = Ok (b, s)) as Hi.
    { unfold index. destruct (_ && _) eqn:Eb; [by rewrite E|]. lia. }
    erewrite bind_Ok by exact Hi. rewrite (proj2 (Z.ltb_lt _ _)) by lia. erewrite bind_Ok by reflexivity. cbv zeta.
    rewrite (wrap_small 64 (current_idx it + 1)) by lia. rewrite (wrap_small 64 (current_buffer it + 1)) by lia.
    replace (S (Z.to_nat (current_idx it))) with (Z.to_nat (current_idx it + 1)) by lia.
    replace (S (Z.to_nat (current_buffer it))) with (Z.to_nat (current_buffer it + 1)) by lia.
    destruct (Z.eqb_spec (current_idx it + 1) (buf_len b)) as [He|Hne].
    + eexists. split; [done|]. split.
      * split; cbn; [done|done|lia|]. destruct (ub_buffers it !! Z.to_nat (current_buffer it + 1)) as [b'|] eqn:E'; [|done].
        rewrite Forall_forall in Hb. destruct (Hb b' (list_elem_of_lookup_2 _ _ _ E')). lia.
      * cbn [current_idx current_buffer ub_buffers]. rewrite (drop_ge (buf_addrs b)) by (rewrite length_buf_addrs; lia). done.
    + eexists. split; [done|]. split.
      * split; cbn; [done|done|lia|]. rewrite E. lia.
      * cbn [current_idx current_buffer ub_buffers]. rewrite (drop_S _ _ _ E). cbn [fmap list_fmap concat].
        rewrite drop_app_le by (rewrite length_buf_addrs; lia).
        by replace (Z.to_nat (current_buffer it + 1)) with (S (Z.to_nat (current_buffer it))) by lia.
  - apply lookup_ge_None in E. rewrite (drop_ge (ub_buffers it)) by lia. cbn. rewrite drop_nil.
    rewrite (proj2 (Z.leb_le _ _)) by lia. done.
Qed.

(** * Bytes of physical memory *)

Definition ram_at (s : Mm) (pa : Z) : Prop :=
  0 ≤ pa ∧ ∃ p, mm_pages s !! (pa / PAGE_SIZE) = Some p ∧ length p = 4096%nat.
Definition load (s : Mm) (pa : Z) : Z := page_at s (pa / PAGE_SIZE) !!! Z.to_nat (pa mod PAGE_SIZE).
Definition store (pa c : Z) (s : Mm) : Mm :=
  set_page (pa / PAGE_SIZE) (<[Z.to_nat (pa mod PAGE_SIZE) := c]> (page_at s (pa / PAGE_SIZE))) s.
(** Bytes stored one after the other. *)
Fixpoint stores (addrs bytes : list Z) (s : Mm) : Mm :=
  match addrs, bytes with
  | pa :: addrs, c :: bytes => stores addrs bytes (store pa c s)
  | _, _ => s
  end.

Lemma phys_byte_run s pa : ram_at s pa → phys_byte pa s = Ok (load s pa, s).
Proof.
  intros (Hpa & p & Hp & Hl). unfold phys_byte, load, page_at. rewrite Hp. cbn [default].
  erewrite bind_Ok by (by apply get_bytes_array_Ok). unfold PAGE_SIZE in *. unfold index.
  destruct (_ && _) eqn:E; [|lia]. by rewrite list_lookup_lookup_total_lt by lia.
Qed.
Lemma set_phys_byte_run s pa c : ram_at s pa → set_phys_byte pa c s = Ok ((), store pa c s).
Proof.
  intros (Hpa & p & Hp & Hl). unfold set_phys_byte, store, page_at. rewrite Hp. cbn [default].
  erewrite bind_Ok by (by apply get_bytes_array_Ok). unfold PAGE_SIZE in *.
  assert (set_index (S := Mm) p (pa mod 4096) c s = Ok (<[Z.to_nat (pa mod 4096) := c]> p, s)) as Hi.
  { unfold set_index. destruct (_ && _) eqn:E; [done|lia]. }
  unfold PAGE_SIZE. erewrite bind_Ok by exact Hi. by apply set_bytes_array_Ok with p.
Qed.
Lemma ram_at_store s pa c pa' : ram_at s pa → ram_at s pa' → ram_at (store pa c s) pa'.
Proof.
  intros (_ & q & Hq & Hlq) (Hpa & p & Hp & Hl). split; [done|]. unfold store, set_page. cbn.
  destruct (decide (pa' / PAGE_SIZE = pa / PAGE_SIZE)) as [->|Hne].
  - rewrite lookup_insert_eq. eexists. split; [done|]. unfold page_at. rewrite Hq. cbn. by rewrite length_insert.
  - rewrite lookup_insert_ne by done. by exists p.
Qed.
Lemma load_store s pa c pa' :
  ram_at s pa → ram_at s pa' → load (store pa c s) pa' = if decide (pa' = pa) then c else load s pa'.
Proof.
  intros (Hpa & q & Hq & Hlq) (Hpa' & p & Hp & Hl). unfold load, store. rewrite page_at_set. unfold PAGE_SIZE in *.
  destruct (decide (pa' / 4096 = pa / 4096)) as [He|Hne].
  - rewrite list_lookup_total_insert. unfold page_at. rewrite He, Hq. cbn [default]; unfold Datatypes.id.
    destruct (decide (pa' = pa)) as [->|Hne']; [rewrite decide_True by lia; done|].
    rewrite decide_False by lia. done.
  - rewrite decide_False; [done|]. congruence.
Qed.
(** What was stored is there, when the addresses differ. *)
Lemma load_stores s addrs bytes :
  NoDup addrs → (∀ a, a ∈ addrs → ram_at s a) → length addrs = length bytes →
  (λ a, load (stores addrs bytes s) a) <$> addrs = bytes ∧
  ∀ a, ram_at s a → (a ∉ addrs) → load (stores addrs bytes s) a = load s a.
Proof.
  revert bytes s. induction addrs as [|a addrs IH]; intros [|c bytes] s Hnd Hram Hlen; try done.
  apply NoDup_cons in Hnd as [Hnin Hnd]. cbn [stores fmap list_fmap].
  assert (ram_at s a) as Ha by (apply Hram; by left).
  destruct (IH bytes (store a c s) Hnd) as [IH1 IH2]; [|cbn in Hlen; lia|].
  { intros x Hx. apply ram_at_store; [done|]. apply Hram. by right. }
  split.
  - f_equal; [|done]. rewrite IH2 by (done || by apply ram_at_store). rewrite load_store by done. by rewrite decide_True.
  - intros x Hx [Hxa Hxn]%not_elem_of_cons. rewrite IH2 by (done || by apply ram_at_store).
    rewrite load_store by done. by rewrite decide_False.
Qed.

(** * The loops *)

Section loops.
Context {St : Type} `{!BlockStore St} `{!Platform}.
Implicit Types k : Kernel St.

(** The state after bytes moved from or to the pipe [b]. *)
Definition piped (b : nat) (rb : PipeRingBuffer) (s : Mm) k : Kernel St :=
  set_mm s (set_pipes (<[b := rb]> (pipes k)) k).
Lemma piped_same b rb k : pipes k !! b = Some rb → piped b rb (mm k) k = k.
Proof. intros Hrb. unfold piped, set_mm, set_pipes. destruct k. cbn in *. by rewrite insert_id. Qed.
Lemma piped_piped b rb1 rb2 s1 s2 k : piped b rb2 s2 (piped b rb1 s1 k) = piped b rb2 s2 k.
Proof. unfold piped, set_mm, set_pipes. cbn. by rewrite insert_insert_eq. Qed.
Lemma get_pipe_run b rb k : pipes k !! b = Some rb → get_pipe b k = Ok (rb, k).
Proof. intros Hrb. unfold get_pipe. erewrite bind_Ok by reflexivity. by rewrite Hrb. Qed.
Lemma store_run pa c k : ram_at (mm k) pa → in_mm (set_phys_byte pa c) k = Ok ((), set_mm (store pa c (mm k)) k).
Proof. intros Hr. unfold in_mm, zoom. by rewrite set_phys_byte_run. Qed.
Lemma load_run pa k : ram_at (mm k) pa → in_mm (phys_byte pa) k = Ok (load (mm k) pa, k).
Proof. intros Hr. unfold in_mm, zoom. rewrite phys_byte_run by done. by destruct k. Qed.

Lemma pipe_read_bytes_spec b n it r k rb :
  pipes k !! b = Some rb → ring_wf rb → iter_wf it → (∀ a, a ∈ iter_addrs it → ram_at (mm k) a) →
  (n ≤ ring_size rb)%nat → 0 ≤ r → r + Z.of_nat (length (iter_addrs it)) < 2 ^ 64 →
  let m := Nat.min n (length (iter_addrs it)) in
  ∃ it' rb', pipe_read_bytes n b it r k =
      Ok ((bool_decide (length (iter_addrs it) < n)%nat, it', r + Z.of_nat m),
          piped b rb' (stores (take m (iter_addrs it)) (take m (ring_bytes rb)) (mm k)) k) ∧
    iter_wf it' ∧ iter_addrs it' = drop m (iter_addrs it) ∧ ring_wf rb' ∧
    ring_bytes rb' = drop m (ring_bytes rb) ∧ write_end rb' = write_end rb.
Proof.
  revert it r k rb. induction n as [|n IH]; intros it r k rb Hrb Hwf Hit Hram Hn Hr Hmax m.
  - exists it, rb. cbn -[piped]. rewrite !take_0, !drop_0. cbn [stores]. rewrite piped_same, Z.add_0_r by done. by rewrite bool_decide_eq_false_2 by lia.
  - pose proof (iter_next_spec it k Hit) as Hnext. unfold m. clear m. cbn [pipe_read_bytes].
    destruct (iter_addrs it) as [|a addrs] eqn:Ha.
    + exists it, rb. erewrite bind_Ok by exact Hnext. cbn -[piped]. rewrite Z.add_0_r, piped_same by done.
      by rewrite bool_decide_eq_true_2 by lia.
    + destruct Hnext as (it1 & Hnext & Hit1 & Ha1). erewrite bind_Ok by exact Hnext. cbn beta iota.
      erewrite bind_Ok by (by apply get_pipe_run).
      destruct (read_byte_spec rb k Hwf ltac:(lia)) as (c & rb1 & Hread & Hwf1 & Hbytes & Hw).
      erewrite bind_Ok by exact Hread. cbn beta iota. erewrite bind_Ok by reflexivity.
      erewrite bind_Ok by (apply store_run; apply Hram; by left). cbn [length] in Hmax. rewrite wrap_small by lia.
      change (set_mm _ _) with (piped b rb1 (store a c (mm k)) k).
      assert (ram_at (mm k) a) as Hra by (apply Hram; by left).
      pose proof (f_equal length Hbytes) as Hlen. cbn [length] in Hlen. rewrite !ring_bytes_length in Hlen.
      destruct (IH it1 (r + 1) (piped b rb1 (store a c (mm k)) k) rb1) as (it' & rb' & Hrun & Hit' & Ha' & Hwf' & Hb' & Hw');
        rewrite ?Ha1; [cbn; by rewrite lookup_insert_eq|done|done| |lia|lia|lia|].
      { intros x Hx. apply ram_at_store; [done|]. apply Hram. by right. }
      rewrite Ha1 in Hrun, Ha', Hb'. exists it', rb'. cbn [length]. rewrite Hbytes. cbn [Nat.min take drop stores].
      split_and!; [|done|done|done|done|congruence].
      rewrite Hrun, piped_piped. replace (r + 1 + Z.of_nat (n `min` length addrs)) with (r + Z.of_nat (S (n `min` length addrs))) by lia.
      by rewrite (bool_decide_ext (S (length addrs) < S n)%nat (length addrs < n)%nat) by lia.
Qed.

Lemma pipe_write_bytes_spec b n it r k rb :
  pipes k !! b = Some rb → ring_wf rb → iter_wf it → (∀ a, a ∈ iter_addrs it → ram_at (mm k) a) →
  (n ≤ 32 - ring_size rb)%nat → 0 ≤ r → r + Z.of_nat (length (iter_addrs it)) < 2 ^ 64 →
  let m := Nat.min n (length (iter_addrs it)) in
  ∃ it' rb', pipe_write_bytes n b it r k =
      Ok ((bool_decide (length (iter_addrs it) < n)%nat, it', r + Z.of_nat m), piped b rb' (mm k) k) ∧
    iter_wf it' ∧ iter_addrs it' = drop m (iter_addrs it) ∧ ring_wf rb' ∧
    ring_bytes rb' = ring_bytes rb ++ (load (mm k) <$> take m (iter_addrs it)) ∧ write_end rb' = write_end rb.
Proof.
  revert it r k rb. induction n as [|n IH]; intros it r k rb Hrb Hwf Hit Hram Hn Hr Hmax m.
  - exists it, rb. cbn -[piped]. rewrite !take_0, !drop_0. cbn [fmap list_fmap]. rewrite piped_same, app_nil_r, Z.add_0_r by done. by rewrite bool_decide_eq_false_2 by lia.
  - pose proof (iter_next_spec it k Hit) as Hnext. unfold m. clear m. cbn [pipe_write_bytes].
    destruct (iter_addrs it) as [|a addrs] eqn:Ha.
    + exists it, rb. erewrite bind_Ok by exact Hnext. cbn -[piped]. rewrite Z.add_0_r, piped_same, app_nil_r by done.
      by rewrite bool_decide_eq_true_2 by lia.
    + destruct Hnext as (it1 & Hnext & Hit1 & Ha1). erewrite bind_Ok by exact Hnext. cbn beta iota.
      erewrite bind_Ok by (by apply get_pipe_run). erewrite bind_Ok by (apply load_run, Hram; by left).
      destruct (write_byte_spec rb (load (mm k) a) k Hwf ltac:(lia)) as (rb1 & Hwrite & Hwf1 & Hbytes & Hw).
      erewrite bind_Ok by exact Hwrite. cbn beta iota. erewrite bind_Ok by reflexivity.
      cbn [length] in Hmax. rewrite wrap_small by lia.
      pose proof (f_equal length Hbytes) as Hlen. rewrite length_app in Hlen. cbn [length] in Hlen.
      rewrite !ring_bytes_length in Hlen. pose proof (ring_size_le rb1 Hwf1).
      change (set_pipes _ k) with (piped b rb1 (mm k) k).
      destruct (IH it1 (r + 1) (piped b rb1 (mm k) k) rb1) as (it' & rb' & Hrun & Hit' & Ha' & Hwf' & Hb' & Hw');
        rewrite ?Ha1; [cbn; by rewrite lookup_insert_eq|done|done| |lia|lia|lia|].
      { intros x Hx. apply Hram. by right. }
      rewrite Ha1 in Hrun, Ha', Hb'. exists it', rb'. cbn [length Nat.min take drop fmap list_fmap].
      split_and!; [|done|done|done| |congruence].
      * rewrite Hrun, piped_piped. replace (r + 1 + Z.of_nat (n `min` length addrs)) with (r + Z.of_nat (S (n `min` length addrs))) by lia.
      by rewrite (bool_decide_ext (S (length addrs) < S n)%nat (length addrs < n)%nat) by lia.
      * rewrite Hb', Hbytes. cbn. by rewrite <-app_assoc.
Qed.

(** ** The whole loops *)

Lemma pipe_read_round_empty b it r k rb w :
  pipes k !! b = Some rb → ring_wf rb → ring_size rb = 0%nat → write_end rb = Some w →
  pipe_read_round b (it, r) k =
  if file_alive k w then (suspend_current_and_run_next (in_pipe_read b it r);; mret (inr Switched)) k
  else Ok (inr (Return r), k).
Proof.
  intros Hrb Hwf Hsz Hw. unfold pipe_read_round. erewrite bind_Ok by (by apply get_pipe_run).
  cbv beta zeta. rewrite available_read_size, Hsz by done. change (Z.of_nat 0 =? 0) with true. cbv beta iota.
  assert (all_write_ends_closed rb k = Ok (negb (file_alive k w), k)) as Hc.
  { unfold all_write_ends_closed. by rewrite Hw. }
  erewrite bind_Ok by exact Hc. by destruct (file_alive k w).
Qed.
Lemma pipe_write_round_full b it r k rb :
  pipes k !! b = Some rb → ring_wf rb → ring_size rb = 32%nat →
  pipe_write_round b (it, r) k = (suspend_current_and_run_next (in_pipe_write b it r);; mret (inr Switched)) k.
Proof.
  intros Hrb Hwf Hsz. unfold pipe_write_round. erewrite bind_Ok by (by apply get_pipe_run).
  cbv zeta. by rewrite available_write_size, Hsz by done.
Qed.
Lemma mloop_switch {A} (m : M (Kernel St) ()) n (body : A → M (Kernel St) (A + flow Z)) a k :
  body a k = (m;; mret (inr Switched)) k → mloop (S n) body a k = (m;; mret Switched) k.
Proof. intros Hb. cbn [mloop]. unfold mbind, M_bind in *. rewrite Hb. by destruct (m k) as [[[] ?]|]. Qed.
Lemma mloop_break {A} n (body : A → M (Kernel St) (A + flow Z)) a f k k' :
  body a k = Ok (inr f, k') → mloop (S n) body a k = Ok (f, k').
Proof. intros Hb. cbn [mloop]. by erewrite bind_Ok by exact Hb. Qed.
Lemma mloop_again {A} n (body : A → M (Kernel St) (A + flow Z)) a a' k k' :
  body a k = Ok (inl a', k') → mloop (S n) body a k = mloop n body a' k'.
Proof. intros Hb. cbn [mloop]. by erewrite bind_Ok by exact Hb. Qed.

(** C35: Reading a pipe, from any point of the read: as many bytes as the ring
    buffer and the user buffer allow go, oldest first, to the next addresses of
    the user buffer, and leave the ring buffer.  If bytes are left over, the read
    returns its count.  If the ring buffer is empty then (also when the user
    buffer is exactly full), the read returns its count when no descriptor holds
    the write end, and otherwise gives up the processor, to go on later after the
    bytes it has. *)
Theorem pipe_read_loop_spec b it r k rb w :
  pipes k !! b = Some rb → ring_wf rb → write_end rb = Some w →
  iter_wf it → (∀ a, a ∈ iter_addrs it → ram_at (mm k) a) →
  0 ≤ r → r + Z.of_nat (length (iter_addrs it)) < 2 ^ 64 →
  let m := Nat.min (length (ring_bytes rb)) (length (iter_addrs it)) in
  ∃ it' rb', let k' := piped b rb' (stores (take m (iter_addrs it)) (take m (ring_bytes rb)) (mm k)) k in
    iter_wf it' ∧ iter_addrs it' = drop m (iter_addrs it) ∧
    ring_wf rb' ∧ ring_bytes rb' = drop m (ring_bytes rb) ∧ write_end rb' = Some w ∧
    pipe_read_loop b it r k =
      if bool_decide (ring_bytes rb' = []) && file_alive k w
      then (suspend_current_and_run_next (in_pipe_read b it' (r + Z.of_nat m));; mret Switched) k'
      else Ok (Return (r + Z.of_nat m), k').
Proof.
  intros Hrb Hwf Hw Hit Hram Hr Hmax m. unfold m. clear m. rewrite ring_bytes_length.
  unfold pipe_read_loop. destruct (decide (ring_size rb = 0%nat)) as [Hz|Hz].
  - exists it, rb. rewrite Hz. cbn [Nat.min]. rewrite !take_0, !drop_0, Z.add_0_r. cbn [stores]. rewrite piped_same by done.
    split_and!; [done..|]. rewrite bool_decide_eq_true_2 by (apply length_zero_iff_nil; by rewrite ring_bytes_length).
    pose proof (pipe_read_round_empty b it r k rb w Hrb Hwf Hz Hw) as Hround. cbn [andb].
    destruct (file_alive k w); [by apply mloop_switch|by apply mloop_break].
  - destruct (pipe_read_bytes_spec b (ring_size rb) it r k rb) as (it' & rb' & Hrun & Hit' & Ha' & Hwf' & Hb' & Hw'); [done..|lia|done|done|].
    exists it', rb'. cbv zeta in *. split_and!; [done..|congruence|].
    set (m := Nat.min _ _) in *. set (k' := piped _ _ _ _) in *.
    assert (pipe_read_round b (it, r) k = Ok (if bool_decide (length (iter_addrs it) < ring_size rb)%nat
              then inr (Return (r + Z.of_nat m)) else inl (it', r + Z.of_nat m), k')) as Hround.
    { unfold pipe_read_round. erewrite bind_Ok by (by apply get_pipe_run). cbv beta zeta.
      rewrite available_read_size, (proj2 (Z.eqb_neq _ _)), Nat2Z.id by (done || lia). by erewrite bind_Ok by exact Hrun. }
    assert (ring_size rb' = ring_size rb - m)%nat as Hsz.
    { rewrite <-!ring_bytes_length, Hb', length_drop. done. }
    case_bool_decide as Hd.
    + rewrite bool_decide_eq_false_2; [by apply mloop_break|]. intros He%(f_equal length). rewrite ring_bytes_length in He. cbn in He. lia.
    + rewrite bool_decide_eq_true_2 by (apply length_zero_iff_nil; rewrite ring_bytes_length; lia). cbn [andb].
      erewrite mloop_again by exact Hround.
      pose proof (pipe_read_round_empty b it' (r + Z.of_nat m) k' rb' w) as Hr2.
      change (file_alive k' w) with (file_alive k w) in Hr2.
      destruct (file_alive k w); [apply mloop_switch|apply mloop_break]; apply Hr2; try done; try lia; try congruence; cbn; apply lookup_insert_eq.
Qed.

(** C36: Writing a pipe, from any point of the write: as many bytes as the ring
    buffer has room for and the user buffer has left are appended to the ring
    buffer in order, and memory is unchanged.  If room is left, the write returns
    its count; if the ring buffer is full then (also when the last byte of the
    user buffer just fitted), it gives up the processor, to go on later with the
    bytes that are left. *)
Theorem pipe_write_loop_spec b it r k rb :
  pipes k !! b = Some rb → ring_wf rb →
  iter_wf it → (∀ a, a ∈ iter_addrs it → ram_at (mm k) a) →
  0 ≤ r → r + Z.of_nat (length (iter_addrs it)) < 2 ^ 64 →
  let m := Nat.min (32 - length (ring_bytes rb)) (length (iter_addrs it)) in
  ∃ it' rb', let k' := piped b rb' (mm k) k in
    iter_wf it' ∧ iter_addrs it' = drop m (iter_addrs it) ∧
    ring_wf rb' ∧ ring_bytes rb' = ring_bytes rb ++ (load (mm k) <$> take m (iter_addrs it)) ∧
    write_end rb' = write_end rb ∧
    pipe_write_loop b it r k =
      if bool_decide (length (ring_bytes rb') = 32%nat)
      then (suspend_current_and_run_next (in_pipe_write b it' (r + Z.of_nat m));; mret Switched) k'
      else Ok (Return (r + Z.of_nat m), k').
Proof.
  intros Hrb Hwf Hit Hram Hr Hmax m. unfold m. clear m. rewrite ring_bytes_length.
  pose proof (ring_size_le rb Hwf) as Hle.
  unfold pipe_write_loop. destruct (decide (ring_size rb = 32%nat)) as [Hz|Hz].
  - exists it, rb. rewrite Hz. cbn [Nat.min Nat.sub]. rewrite !take_0, !drop_0, Z.add_0_r. cbn [fmap list_fmap].
    rewrite app_nil_r, piped_same by done. split_and!; [done..|]. rewrite ring_bytes_length, bool_decide_eq_true_2 by done.
    apply mloop_switch. by apply pipe_write_round_full with rb.
  - destruct (pipe_write_bytes_spec b (32 - ring_size rb) it r k rb) as (it' & rb' & Hrun & Hit' & Ha' & Hwf' & Hb' & Hw'); [done..|].
    exists it', rb'. cbv zeta in *. split_and!; [done..|].
    set (m := Nat.min _ _) in *. set (k' := piped _ _ _ _) in *.
    assert (pipe_write_round b (it, r) k = Ok (if bool_decide (length (iter_addrs it) < 32 - ring_size rb)%nat
              then inr (Return (r + Z.of_nat m)) else inl (it', r + Z.of_nat m), k')) as Hround.
    { unfold pipe_write_round. erewrite bind_Ok by (by apply get_pipe_run). cbv beta zeta.
      rewrite available_write_size, (proj2 (Z.eqb_neq _ _)) by (done || lia).
      replace (Z.to_nat (32 - Z.of_nat (ring_size rb))) with (32 - ring_size rb)%nat by lia.
      by erewrite bind_Ok by exact Hrun. }
    assert (ring_size rb' = ring_size rb + m)%nat as Hsz.
    { rewrite <-!ring_bytes_length, Hb', length_app, length_fmap, length_take. lia. }
    rewrite ring_bytes_length. case_bool_decide as Hd.
    + rewrite bool_decide_eq_false_2 by lia. by apply mloop_break.
    + rewrite bool_decide_eq_true_2 by lia. erewrite mloop_again by exact Hround.
      apply mloop_switch. apply pipe_write_round_full with rb'; [cbn; apply lookup_insert_eq|done|lia].
Qed.
End loops.

(** ** A pipe with three bytes and a user buffer of four. *)

#[local] Existing Instance Flat_store.
Definition ex_ring : PipeRingBuffer := MkRing ([7; 8; 9] ++ replicate 29 0) 0 3 NORMAL (Some 2%nat).
Definition ex_buffers : UserBufferIterator := UserBuffer_into_iter [MkBuf 1 4094 2; MkBuf 5 0 2].
Definition ex_pipe_kernel : Kernel Flat :=
  set_pipes {[0%nat := ex_ring]}
    (MkKernel (MkMm {[1 := replicate 4096 0; 5 := replicate 4096 3]} StackFrameAllocator_new)
       (MkMemorySet (MkPageTable 0 []) []) (MkFlat ∅ ∅ false) None PidAllocator_new ∅ ∅ ∅ 0
       (MkTaskManager ∅ StrideScheduler_new) None None [] [] 0 0).
#[local] Existing Instance bare_platform.

Lemma ex_ring_wf : ring_wf ex_ring.
Proof. split; cbn; lia. Qed.
Lemma ex_buffers_wf : iter_wf ex_buffers ∧ iter_addrs ex_buffers = [8190; 8191; 20480; 20481].
Proof. apply iter_start; [|done]. repeat constructor; cbn; lia. Qed.
Lemma ex_buffers_ram a : a ∈ iter_addrs ex_buffers → ram_at (mm ex_pipe_kernel) a.
Proof.
  rewrite (proj2 ex_buffers_wf). intros Ha. split; [set_solver by lia|].
  assert (a / PAGE_SIZE = 1 ∨ a / PAGE_SIZE = 5) as [-> | ->] by set_solver.
  - exists (replicate 4096 0). split; [done|by rewrite length_replicate].
  - exists (replicate 4096 3). split; [done|by rewrite length_replicate].
Qed.

Lemma pipe_read_loop_spec_witness :
  ∃ rb', pipe_read_loop 0 ex_buffers 0 ex_pipe_kernel =
    Ok (Return 3, piped 0 rb' (stores [8190; 8191; 20480] [7; 8; 9] (mm ex_pipe_kernel)) ex_pipe_kernel).
Proof.
  destruct (pipe_read_loop_spec 0 ex_buffers 0 ex_pipe_kernel ex_ring 2%nat) as (it' & rb' & _ & _ & _ & _ & _ & Hrun);
    [reflexivity|exact ex_ring_wf|reflexivity|exact (proj1 ex_buffers_wf)|exact ex_buffers_ram|lia|
     rewrite (proj2 ex_buffers_wf); cbn; lia|].
  exists rb'. rewrite Hrun, (proj2 ex_buffers_wf). change (file_alive ex_pipe_kernel 2) with false. by rewrite andb_false_r.
Defined.
Lemma pipe_write_loop_spec_witness :
  ∃ it' rb', ring_bytes rb' = [7; 8; 9; 0; 0; 3; 3] ∧
    pipe_write_loop 0 ex_buffers 0 ex_pipe_kernel = Ok (Return 4, piped 0 rb' (mm ex_pipe_kernel) ex_pipe_kernel) ∧
    iter_addrs it' = [].
Proof.
  destruct (pipe_write_loop_spec 0 ex_buffers 0 ex_pipe_kernel ex_ring) as (it' & rb' & _ & Ha & _ & Hb & _ & Hrun);
    [reflexivity|exact ex_ring_wf|exact (proj1 ex_buffers_wf)|exact ex_buffers_ram|lia|
     rewrite (proj2 ex_buffers_wf); cbn; lia|].
  rewrite (proj2 ex_buffers_wf) in Ha, Hb, Hrun.
  exists it', rb'. assert (ring_bytes rb' = [7; 8; 9; 0; 0; 3; 3]) as Hbytes by (rewrite Hb; vm_compute; reflexivity).
  split; [exact Hbytes|]. split; [|exact Ha]. rewrite Hrun, Hbytes. reflexivity.
Defined.
