(* ===== verification/FilesSpec.v ===== *)
(** Reading a whole file (os/src/fs/inode.rs, [OSInode::read_all]), as [exec] and
    the first process do. *)

From S2P Require Export VfsSpec Files.

Section files.
Context `{!Platform}.
Implicit Types k : Kernel Flat.

Lemma in_disk_run {A} (m : M Flat A) (k : Kernel Flat) a : m (disk k) = Ok (a, disk k) → in_disk m k = Ok (a, k).
Proof. intros Hm. unfold in_disk, zoom. rewrite Hm. by destruct k. Qed.

Lemma read_all_round_spec self d k off buf v :
  inode_at self d (disk k) → fl_fs_locked (disk k) = false → room 2 (disk k) → length buf = 512%nat →
  Z.of_nat (off + 512) < 2 ^ 64 →
  let n := Nat.min 512 (length (content d (disk k)) - off) in
  read_all_round self (Z.of_nat off, buf, v) k =
    Ok (if decide (n = 0%nat) then inr (v, Z.of_nat off)
        else inl (Z.of_nat (off + n), sub_list off n (content d (disk k)) ++ drop n buf,
                  v ++ sub_list off n (content d (disk k))), k).
Proof.
  intros Hat Hl Hroom Hbuf H64 n. unfold read_all_round. erewrite bind_Ok.
  2:{ apply in_disk_run. by apply (Inode_read_at_run self d); [..|rewrite Hbuf]. }
  cbv beta iota. rewrite Hbuf. fold n. destruct (decide (n = 0%nat)) as [->|Hn]; [done|].
  rewrite (proj2 (Z.eqb_neq _ _)) by lia.
  assert (length (sub_list off n (content d (disk k))) = n) as Hlen by (rewrite length_sub_list; lia).
  assert (slice (S:=Kernel Flat) (sub_list off n (content d (disk k)) ++ drop n buf) 0 (Z.of_nat n) k =
    Ok (sub_list off n (content d (disk k)), k)) as Hsl.
  { unfold slice. destruct (_ && _) eqn:E; [|rewrite length_app, Hlen in E; rewrite !andb_false_iff, !Z.leb_gt in E; lia].
    change (Z.to_nat 0) with 0%nat. rewrite sub_list_prefix by lia. done. }
  erewrite bind_Ok by exact Hsl. rewrite wrap_small by lia. by rewrite Nat2Z.inj_add.
Qed.

(** As many rounds as there are 512-byte pieces left, and one more. *)
Lemma read_all_loop self d k fuel off buf v :
  inode_at self d (disk k) → fl_fs_locked (disk k) = false → room 2 (disk k) → length buf = 512%nat →
  Z.of_nat (Nat.max off (length (content d (disk k))) + 512) < 2 ^ 64 →
  (length (content d (disk k)) - off + 512 ≤ 512 * fuel)%nat →
  mloop fuel (read_all_round self) (Z.of_nat off, buf, v) k =
    Ok ((v ++ drop off (content d (disk k)), Z.of_nat (Nat.max off (length (content d (disk k))))), k).
Proof.
  intros Hat Hl Hroom. revert off buf v. induction fuel as [|fuel IH]; intros off buf v Hbuf H64 Hfuel; [lia|].
  cbn [mloop]. erewrite bind_Ok by (apply (read_all_round_spec self d); (done || lia)).
  remember (Nat.min 512 (length (content d (disk k)) - off)) as n eqn:Hndef.
  destruct (decide (n = 0%nat)) as [Hn|Hn].
  - rewrite drop_ge, app_nil_r by lia. by rewrite Nat.max_l by lia.
  - rewrite IH; [|rewrite length_app, length_sub_list, length_drop; lia|lia|lia]. rewrite <-app_assoc. rewrite Nat.max_r, Nat.max_r by lia. do 4 f_equal.
    unfold sub_list. by rewrite <-drop_drop, take_drop.
Qed.

(** C39: [read_all] terminates - the bound of its loop is enough for every file
    the block table can hold - and returns everything from the offset to the end
    of the file, leaves the offset there (or where it was, when it lay beyond), and
    changes nothing else. *)
Theorem OSInode_read_all_content self d k off :
  inode_at self d (disk k) → fl_fs_locked (disk k) = false → room 2 (disk k) → Z.of_nat off < 2 ^ 63 →
  OSInode_read_all (Z.of_nat off) self k =
    Ok ((drop off (content d (disk k)), Z.of_nat (Nat.max off (length (content d (disk k))))), k).
Proof.
  intros Hat Hl Hroom Hoff. unfold OSInode_read_all.
  assert (Z.of_nat (length (content d (disk k))) ≤ 8468480) as Hlen.
  { pose proof (ia_wf _ _ _ Hat) as Hwf. rewrite length_content by done. pose proof (wf_size _ _ Hwf) as Hs.
    change max_file_size with 8468480 in Hs. lia. }
  assert (Z.to_nat (INDIRECT2_BOUND + 2) = Z.to_nat 16542) as -> by reflexivity.
  apply (read_all_loop self d); [done..|by rewrite length_replicate|lia|lia].
Qed.
End files.

#[local] Existing Instance bare_platform.
Definition ex_files_kernel : Kernel Flat :=
  MkKernel (MkMm ∅ StackFrameAllocator_new) (MkMemorySet (MkPageTable 0 []) []) ex_root_disk None PidAllocator_new
    ∅ ∅ ∅ 0 (MkTaskManager ∅ StrideScheduler_new) None None [] [] 0 0.
Lemma OSInode_read_all_content_witness :
  OSInode_read_all 30 ex_self ex_files_kernel = Ok ((drop 30 (content ex_root ex_root_disk), 64), ex_files_kernel).
Proof.
  pose proof (OSInode_read_all_content ex_self ex_root ex_files_kernel 30 ex_root_at eq_refl ex_root_room ltac:(cbn; lia)) as H.
  rewrite length_content in H by exact (ia_wf _ _ _ ex_root_at). exact H.
Defined.
