(* ===== verification/Process.v ===== *)
(** Processes (os/src/task/task.rs, os/src/task/mod.rs): building a task from an
    ELF file, [exec], [fork], [exit] and the first process. *)

From S2P Require Export Files.

Section process.
Context {St : Type} `{!BlockStore St} `{!Platform}.
Abbreviation K := (Kernel St).

Definition from_elf (elf_data : list Z) : M K (MemorySet * Z * Z) :=
  in_mm (MemorySet_from_elf p_symbols p_elf elf_data).

(** The frame behind the trap-context page. *)
Definition trap_cx_ppn_of (ms : MemorySet) : M K Z :=
  vpn ← PageNum_from_Addr (VirtAddr_from TRAP_CONTEXT);
  r ← in_mm (MemorySet_translate ms vpn);
  pte ← unwrap r;
  mret (PageTableEntry_ppn pte).

Definition kernel_token : M K Z := ks ← gets kernel_space; mret (MemorySet_token ks).

(** [TaskControlBlock::new] *)
Definition TaskControlBlock_new (elf_data : list Z) : M K TaskControlBlock :=
  '(ms, user_sp, entry_point) ← from_elf elf_data;
  trap_cx_ppn ← trap_cx_ppn_of ms;
  pid_handle ← pid_alloc;
  kernel_stack ← KernelStack_new pid_handle;
  let kernel_stack_top := KernelStack_get_top kernel_stack in
  stdin ← new_file Stdin;
  stdout ← new_file Stdout;
  stderr ← new_file Stdout;
  let tcb := MkTask pid_handle kernel_stack trap_cx_ppn user_sp 16 0
    (TaskContext_goto_trap_return kernel_stack_top) Ready ms None [] 0
    [Some stdin; Some stdout; Some stderr] 0 0 (-1) SignalActions_default false false None in
  satp ← kernel_token;
  put_trap_cx tcb (TrapContext_app_init_context p_sstatus entry_point user_sp satp kernel_stack_top p_trap_handler);;
  mret tcb.

(** ** [exec] *)

(** One argument string below the stack pointer, ending in a zero byte. *)
Definition push_arg (token argv_i : Z) (arg : list Z) (user_sp : Z) : M Mm Z :=
  let user_sp := user_sp -₆₄ (Z.of_nat (length arg) +₆₄ 1) in
  write_le 8 argv_i user_sp;;
  p ← mfold (λ c p, pa ← translated_ref token p; set_phys_byte pa c;; mret (p +₆₄ 1)) arg user_sp;
  pa ← translated_ref token p;
  set_phys_byte pa 0;;
  mret user_sp.

(** The vector of the arguments, ended by a null pointer, and the strings below
    it: where the vector is, and the new stack pointer. *)
Definition push_args (token user_sp : Z) (args : list (list Z)) : M Mm (Z * Z) :=
  let argc := Z.of_nat (length args) in
  let user_sp := user_sp -₆₄ (argc +₆₄ 1) *₆₄ 8 in
  let argv_base := user_sp in
  argv ← mfold (λ arg argv, pa ← translated_ref token (argv_base +₆₄ arg *₆₄ 8); mret (argv ++ [pa]))
           (range 0 (argc + 1)) [];
  last_ ← index argv argc;
  write_le 8 last_ 0;;
  user_sp ← mfold (λ '(pa, arg) user_sp, push_arg token pa arg user_sp) (zip argv args) user_sp;
  mret (argv_base, user_sp -₆₄ user_sp mod 8).

(** [TaskControlBlock::exec]; the old address space is dropped when it is
    replaced. *)
Definition TaskControlBlock_exec (self : nat) (elf_data : list Z) (args : list (list Z)) : M K () :=
  '(ms, user_sp, entry_point) ← from_elf elf_data;
  let token := MemorySet_token ms in
  '(argv_base, user_sp) ← in_mm (push_args token user_sp args);
  trap_cx_ppn ← trap_cx_ppn_of ms;
  tcb ← get_task self;
  let tcb' := set_trap_cx_ppn trap_cx_ppn (set_memory_set ms tcb) in
  in_mm (MemorySet_drop (memory_set tcb));;
  put_task self tcb';;
  satp ← kernel_token;
  let trap_cx := TrapContext_app_init_context p_sstatus entry_point user_sp satp
                   (KernelStack_get_top (kernel_stack tcb)) p_trap_handler in
  put_trap_cx tcb' (set_x 11 argv_base (set_x 10 (Z.of_nat (length args)) trap_cx)).

(** ** [fork] *)

Definition TaskControlBlock_fork (self : nat) : M K nat :=
  parent ← get_task self;
  ms ← in_mm (MemorySet_from_existed_userspace p_symbols (memory_set parent));
  pid_handle ← pid_alloc;
  kernel_stack ← KernelStack_new pid_handle;
  let kernel_stack_top := KernelStack_get_top kernel_stack in
  trap_cx_ppn ← trap_cx_ppn_of ms;
  let tcb := MkTask pid_handle kernel_stack trap_cx_ppn (base_size parent) (priority parent) (task_pass parent)
    (TaskContext_goto_trap_return kernel_stack_top) Ready ms (Some self) [] 0
    (fd_table parent) 0 (signal_mask parent) (-1) (signal_actions parent) false false None in
  trap_cx ← get_trap_cx tcb;
  put_trap_cx tcb (set_kernel_sp kernel_stack_top trap_cx);;
  child ← new_task tcb;
  update_task self (λ parent, set_children (children parent ++ [child]) parent);;
  mret child.

(** ** The first process and [exit] *)

Definition INITPROC : M K nat :=
  r ← gets initproc;
  match r with
  | Some t => mret t
  | None =>
      file ← open_file [105; 110; 105; 116; 112; 114; 111; 99] OpenFlags_RDONLY;   (* "initproc" *)
      obj ← unwrap file;
      match obj with
      | OSInode _ _ offset inode =>
          '(v, _) ← OSInode_read_all offset inode;
          tcb ← TaskControlBlock_new v;
          t ← new_task tcb;
          upd (set_initproc (Some t));;
          mret t
      | _ => panic
      end
  end.
Definition add_initproc : M K () := t ← INITPROC; add_task t.

(** [exit_current_and_run_next].  The exit of [INITPROC] itself would borrow its
    inner part twice. *)
Definition exit_current_and_run_next (exit_code : Z) : M K () :=
  t ← take_current_task;
  task ← unwrap t;
  update_task task (λ tcb, set_exit_code exit_code (set_task_status Zombie tcb));;
  init ← INITPROC;
  assert_ (negb (Nat.eqb init task));;
  tcb ← get_task task;
  mfor (λ child,
    update_task child (set_parent (Some init));;
    update_task init (λ i, set_children (children i ++ [child]) i)) (children tcb);;
  update_task task (set_children []);;
  tcb ← get_task task;
  ms ← in_mm (MemorySet_recycle_data_pages (memory_set tcb));
  update_task task (set_memory_set ms).

End process.
