(* ===== verification/ExecArgs.v ===== *)
(** How arguments reach a program: [exec] pushes them on the stack of the new
    address space (os/src/task/task.rs), [_start] of the user library reads them
    back (user/src/lib.rs). *)

From stdpp Require Import functions.
From S2P Require Export ForkSpec Process.

(** * [_start] *)

Section start.
Context (token : Z) (fuel : nat).

(** Loads of the program go through its page table. *)
Definition load_byte (va : Z) : M Mm Z := pa ← translated_ref token va; phys_byte pa.
Definition load_usize (va : Z) : M Mm Z := pa ← translated_ref token va; read_le 8 pa.

(** [(0usize..).find(..)]; [fuel] bounds the length of the string. *)
Definition find_zero (str_start : Z) : M Mm Z :=
  mloop fuel (λ i,
    b ← load_byte (str_start +₆₄ i);
    if b =? 0 then mret (inr i) else mret (inl (i +₆₄ 1))) 0.
(** [core::slice::from_raw_parts] *)
Definition from_raw_parts (str_start len : Z) : M Mm (list Z) :=
  mfold (λ i v, b ← load_byte (str_start +₆₄ i); mret (v ++ [b])) (range 0 len) [].

(** The vector that [_start] gives to [main]. *)
Definition start_args (argc argv : Z) : M Mm (list (list Z)) :=
  mfold (λ i v,
    str_start ← load_usize (argv +₆₄ i *₆₄ 8);
    len ← find_zero str_start;
    s ← from_raw_parts str_start len;
    assert_ (utf8_valid s);;
    mret (v ++ [s])) (range 0 argc) [].
End start.

(** * Memory as a program sees it *)

(** Bytes written from [a] on. *)
Fixpoint fill (a : Z) (bs : list Z) (mem : Z → Z) : Z → Z :=
  match bs with [] => mem | b :: bs => fill (a + 1) bs (<[a := b]> mem) end.
Definition bytes_at (mem : Z → Z) (a : Z) (bs : list Z) : Prop := ∀ i b, bs !! i = Some b → mem (a + Z.of_nat i) = b.

Lemma fill_other bs a mem x : ¬ a ≤ x < a + Z.of_nat (length bs) → fill a bs mem x = mem x.
Proof.
  revert a mem. induction bs as [|b bs IH]; intros a mem Hx; [done|]. cbn [fill length] in *.
  rewrite IH by lia. apply fn_lookup_insert_ne. lia.
Qed.
Lemma fill_bytes bs a mem : bytes_at (fill a bs mem) a bs.
Proof.
  revert a mem. induction bs as [|b bs IH]; intros a mem [|i] c Hi; [done..| |].
  - injection Hi as <-. cbn [fill]. rewrite fill_other by lia. replace (a + Z.of_nat 0) with a by lia. apply fn_lookup_insert.
  - cbn [fill]. rewrite <-(IH (a + 1) (<[a := b]> mem) i c Hi). f_equal. lia.
Qed.
Lemma fill_app bs cs a mem : fill a (bs ++ cs) mem = fill (a + Z.of_nat (length bs)) cs (fill a bs mem).
Proof.
  revert a mem. induction bs as [|b bs IH]; intros a mem; cbn [fill app length]; [by replace (a + Z.of_nat 0) with a by lia|].
  rewrite IH. f_equal. lia.
Qed.
Lemma bytes_at_eq mem mem' a bs :
  bytes_at mem a bs → (∀ x, a ≤ x < a + Z.of_nat (length bs) → mem' x = mem x) → bytes_at mem' a bs.
Proof. intros Hb He i b Hi. apply lookup_lt_Some in Hi as Hl. rewrite He by lia. by apply Hb. Qed.

(** The room the strings need. *)
Definition args_size (args : list (list Z)) : Z := foldr (λ arg n, Z.of_nat (length arg) + 1 + n) 0 args.
Lemma args_size_pos args : 0 ≤ args_size args.
Proof. unfold args_size. induction args; cbn; lia. Qed.

(** The strings [args] lie below [sp], with the pointers to them in the vector
    from index [j] on. *)
Fixpoint pushed (mem : Z → Z) (base j sp : Z) (args : list (list Z)) : Prop :=
  match args with
  | [] => True
  | arg :: args =>
      let p := sp - (Z.of_nat (length arg) + 1) in
      bytes_at mem (base + 8 * j) (le_enc 8 p) ∧ bytes_at mem p (arg ++ [0]) ∧ pushed mem base (j + 1) p args
  end.
Lemma zip_app_short {A B} (l1 l2 : list A) (k : list B) : length l1 = length k → zip (l1 ++ l2) k = zip l1 k.
Proof. revert k. induction l1 as [|a l1 IH]; intros [|b k] Hl; try done; cbn in *; [by destruct l2|]. f_equal. apply IH. lia. Qed.

Section window.
Context (l r : Z) (ms : MemorySet) (lo hi : Z) (s0 : Mm).
Context (Hroot : 0 ≤ ms_root ms < 2 ^ 44) (Hlo : 0 ≤ lo) (Hhi : hi ≤ 2 ^ 39).
Abbreviation token := (MemorySet_token ms).
Implicit Types mem : Z → Z.

(** A virtual address of the window and where it is in memory. *)
Definition located (va pa : Z) : Prop := lo ≤ va < hi ∧ ∃ p, held ms (va / 4096) p ∧ pa = p * 4096 + va mod 4096.
(** The window holds [mem]; nothing but its pages differs from [s0]. *)
Record usermem mem (s : Mm) : Prop := {
  um_wf : ms_wf l r s ms;
  um_mem va : lo ≤ va < hi → ∃ p, held ms (va / 4096) p ∧ page_ok s p ∧ page_at s p !! Z.to_nat (va mod 4096) = Some (mem va);
  um_alloc : mm_alloc s = mm_alloc s0;
  um_others q : (∀ va, lo ≤ va < hi → ¬ held ms (va / 4096) q) → page_at s q = page_at s0 q }.

Lemma wp_ref mem s va : usermem mem s → lo ≤ va < hi → wp (translated_ref token va) s (λ pa s', s' = s ∧ located va pa).
Proof.
  intros Hm Hva. destruct (um_mem _ _ Hm va Hva) as (p & Hp & _).
  destruct (held_mapped _ _ _ _ _ _ (um_wf _ _ Hm) Hp) as (Hv & b & Hb & Hbp).
  assert (VirtAddr_from va = va) as Hfrom by (rewrite VirtAddr_from_mod; lia).
  assert (0 ≤ p < 2 ^ 44) as Hpr by (subst p; rewrite PageTableEntry_ppn_eq; lia).
  unfold translated_ref, PageTable_translate_va. rewrite Hfrom. apply wp_bind, wp_bind.
  unfold wp at 1. rewrite (translate_spec l r s (page_table ms)); [|apply (mw_pt _ _ _ _ (um_wf _ _ Hm))|by apply token_root].
  change (Address.floor va) with (va / 4096). rewrite Hb. apply wp_ret. cbn [fmap option_fmap option_map]. apply wp_unwrap.
  eexists. split; [reflexivity|]. split; [done|]. split; [done|]. exists p. split; [done|].
  rewrite Hbp, page_offset_mod, Addr_from_PageNum_mul, PhysAddr_from_mod by lia. rewrite wrap_small by lia. lia.
Qed.

(** Where a byte of the window is, page and offset. *)
Lemma located_page mem s va pa :
  usermem mem s → located va pa → ∃ p, held ms (va / 4096) p ∧ pa / PAGE_SIZE = p ∧ pa mod PAGE_SIZE = va mod 4096 ∧
    page_ok s p ∧ page_at s p !! Z.to_nat (va mod 4096) = Some (mem va).
Proof.
  intros Hm (Hva & p & Hp & ->). destruct (um_mem _ _ Hm va Hva) as (q & Hq & Hok & Hb).
  rewrite (held_fun _ _ _ _ _ _ _ (um_wf _ _ Hm) Hq Hp) in *. exists p. unfold PAGE_SIZE. split_and!; [done|lia|lia|done|done].
Qed.
Lemma located_next va pa i : located va pa → 0 ≤ i → va mod 4096 + i < 4096 → va + i < hi → located (va + i) (pa + i).
Proof.
  intros (Hva & p & Hp & ->) Hi Hpage Hend. split; [lia|]. exists p. replace ((va + i) / 4096) with (va / 4096) by lia.
  split; [done|lia].
Qed.

Lemma wp_load mem s va pa : usermem mem s → located va pa → wp (phys_byte pa) s (λ b s', s' = s ∧ b = mem va).
Proof.
  intros Hm Hpa. destruct (located_page mem s va pa Hm Hpa) as (p & _ & Hq & Hoff & (Hok & _ & _) & Hb).
  unfold phys_byte. rewrite Hq, Hoff. apply wp_bind. unfold wp at 1. rewrite (get_bytes_array_Ok p _ s Hok).
  apply wp_index. split; [lia|]. by exists (mem va).
Qed.
Lemma wp_store mem s va pa b :
  usermem mem s → located va pa → is_byte b → wp (set_phys_byte pa b) s (λ _ s', usermem (<[va := b]> mem) s').
Proof.
  intros Hm Hpa Hbyte. destruct (located_page mem s va pa Hm Hpa) as (p & Hp & Hq & Hoff & Hok & Hb).
  pose proof Hok as (Hpg & Hlen & Hall).
  unfold set_phys_byte. rewrite Hq, Hoff. apply wp_bind. unfold wp at 1. rewrite (get_bytes_array_Ok p _ s Hpg).
  apply wp_bind, wp_set_index. split; [lia|]. unfold wp. rewrite (set_bytes_array_Ok p _ _ s Hpg).
  fold (set_page p (<[Z.to_nat (va mod 4096) := b]> (page_at s p)) s).
  destruct (ms_wf_set_page l r s ms p (<[Z.to_nat (va mod 4096) := b]> (page_at s p)) (um_wf _ _ Hm)) as [Hwf' _].
  { eapply held_not_table; [apply (um_wf _ _ Hm)|exact Hp]. }
  split; [done| |apply (um_alloc _ _ Hm)|].
  - intros va' Hva'. destruct (um_mem _ _ Hm va' Hva') as (q & Hq' & Hokq & Hbq). exists q. split; [done|].
    split; [apply page_ok_set; [done|by rewrite length_insert|by apply Forall_insert]|].
    rewrite page_at_set. case_decide as Hqp.
    + subst q. pose proof (held_inj _ _ _ _ _ _ _ (um_wf _ _ Hm) Hp Hq') as Hpage.
      destruct (decide (va = va')) as [<-|Hne].
      * rewrite list_lookup_insert_eq, fn_lookup_insert by lia. done.
      * rewrite list_lookup_insert_ne, fn_lookup_insert_ne by lia. done.
    + rewrite fn_lookup_insert_ne; [done|]. intros <-. apply Hqp. by eapply held_fun; [apply (um_wf _ _ Hm)|..].
  - intros q' Hq'. rewrite page_at_set, decide_False; [by apply (um_others _ _ Hm)|]. intros ->.
    by apply (Hq' va (proj1 Hpa)).
Qed.

Lemma wp_write_bytes bs k mem s va pa :
  usermem mem s → located va pa → 0 ≤ k → va mod 4096 + k + Z.of_nat (length bs) ≤ 4096 →
  va + k + Z.of_nat (length bs) ≤ hi → Forall is_byte bs →
  wp (mfor (λ '(i, b), set_phys_byte (pa + i) b) (zip (seqZ k (Z.of_nat (length bs))) bs)) s
    (λ _ s', usermem (fill (va + k) bs mem) s').
Proof.
  intros Hm Hpa Hk Hpage Hend Hbs. revert k mem s Hm Hk Hpage Hend.
  induction Hbs as [|b bs Hb _ IH]; intros k mem s Hm Hk Hpage Hend; [exact Hm|]. cbn [length] in *.
  rewrite seqZ_cons by lia. cbn [zip zip_with]. unfold mfor. cbn [mfold]. apply wp_bind.
  eapply wp_mono; [apply (wp_store mem s (va + k) (pa + k) b Hm); [apply located_next; [done|lia..]|done]|].
  intros [] s' Hm'. replace (Z.pred (Z.of_nat (S (length bs)))) with (Z.of_nat (length bs)) by lia.
  eapply wp_mono; [apply (IH (Z.succ k) _ s' Hm'); lia|]. intros [] s'' Hm''. cbn [fill].
  by replace (va + k + 1) with (va + Z.succ k) by lia.
Qed.
Lemma wp_write_le n v mem s va pa :
  usermem mem s → located va pa → va mod 4096 + Z.of_nat n ≤ 4096 → va + Z.of_nat n ≤ hi →
  wp (write_le n pa v) s (λ _ s', usermem (fill va (le_enc n v) mem) s').
Proof.
  intros Hm Hpa Hpage Hend. unfold write_le, range. pose proof (length_le_enc n v) as Hl.
  replace (Z.of_nat n - 0) with (Z.of_nat (length (le_enc n v))) by lia.
  pose proof (wp_write_bytes (le_enc n v) 0 mem s va pa) as Hw. rewrite (Z.add_0_r va) in Hw.
  apply Hw; [done|done|lia|lia|lia|apply le_enc_bytes].
Qed.

Lemma wp_read_bytes n k v mem s va pa :
  usermem mem s → located va pa → 0 ≤ k → va mod 4096 + k + Z.of_nat n ≤ 4096 → va + k + Z.of_nat n ≤ hi →
  wp (mfold (λ i l, b ← phys_byte (pa + i); mret (l ++ [b])) (seqZ k (Z.of_nat n)) v) s
    (λ l s', s' = s ∧ l = v ++ (mem <$> seqZ (va + k) (Z.of_nat n))).
Proof.
  intros Hm Hpa. revert k v. induction n as [|n IH]; intros k v Hk Hpage Hend; [by rewrite app_nil_r|].
  rewrite !(seqZ_cons _ (Z.of_nat (S n))) by lia. cbn [mfold fmap list_fmap]. apply wp_bind, wp_bind.
  eapply wp_mono; [apply (wp_load mem s (va + k) (pa + k) Hm); apply located_next; [done|lia..]|].
  intros b s' [-> ->]. apply wp_ret. replace (Z.pred (Z.of_nat (S n))) with (Z.of_nat n) by lia.
  eapply wp_mono; [apply IH; lia|]. intros l' s' [-> ->]. split; [done|]. rewrite <-app_assoc. cbn.
  by replace (Z.succ (va + k)) with (va + Z.succ k) by lia.
Qed.
Lemma bytes_at_read mem a bs : bytes_at mem a bs → mem <$> seqZ a (Z.of_nat (length bs)) = bs.
Proof.
  intros Hb. apply list_eq. intros i. rewrite list_lookup_fmap. destruct (bs !! i) as [b|] eqn:E.
  - apply lookup_lt_Some in E as Hl. rewrite lookup_seqZ_lt by lia. cbn. f_equal. by apply Hb.
  - apply lookup_ge_None in E. by rewrite lookup_seqZ_ge by lia.
Qed.
Lemma wp_load_usize v mem s va :
  usermem mem s → lo ≤ va → va + 8 ≤ hi → va mod 8 = 0 → 0 ≤ v < 2 ^ 64 → bytes_at mem va (le_enc 8 v) →
  wp (load_usize token va) s (λ x s', s' = s ∧ x = v).
Proof.
  intros Hm Hva Hend Hal Hv Hb. unfold load_usize. apply wp_bind.
  eapply wp_mono; [apply (wp_ref mem); [done|lia]|]. intros pa s' [-> Hpa]. unfold read_le, range. apply wp_bind.
  eapply wp_mono; [apply (wp_read_bytes 8 0 [] mem s va pa); [done|done|lia..]|]. intros bs s' [-> ->]. apply wp_ret.
  split; [done|]. apply bytes_at_read in Hb. rewrite length_le_enc in Hb. rewrite Z.add_0_r. cbn [app]. rewrite Hb.
  by apply le_dec_enc_small.
Qed.

(** ** Pushing *)

Lemma wp_push_bytes arg p mem s :
  usermem mem s → lo ≤ p → p + Z.of_nat (length arg) ≤ hi → Forall is_byte arg →
  wp (mfold (λ c p, pa ← translated_ref token p; set_phys_byte pa c;; mret (p +₆₄ 1)) arg p) s
    (λ p' s', p' = p + Z.of_nat (length arg) ∧ usermem (fill p arg mem) s').
Proof.
  intros Hm Hp Hend Harg. revert p mem s Hm Hp Hend. induction Harg as [|c arg Hc _ IH]; intros p mem s Hm Hp Hend.
  { split; [cbn; lia|done]. }
  cbn [mfold length fill] in *. apply wp_bind, wp_bind. eapply wp_mono; [apply (wp_ref mem); [done|lia]|].
  intros pa s' [-> Hpa]. apply wp_bind. eapply wp_mono; [by apply (wp_store mem s p)|]. intros [] s' Hm'. apply wp_ret.
  rewrite wrap_small by lia. eapply wp_mono; [apply (IH (p + 1) _ s' Hm'); lia|]. intros p' s'' [-> Hm'']. split; [lia|done].
Qed.
Lemma wp_push_arg mem s ai argv_i arg sp :
  usermem mem s → located ai argv_i → ai mod 8 = 0 → ai + 8 ≤ hi → Forall is_byte arg →
  lo ≤ sp - (Z.of_nat (length arg) + 1) → sp ≤ hi →
  wp (push_arg token argv_i arg sp) s (λ sp' s', sp' = sp - (Z.of_nat (length arg) + 1) ∧
    usermem (fill sp' (arg ++ [0]) (fill ai (le_enc 8 sp') mem)) s').
Proof.
  intros Hm Hai Hal Hend Harg Hsp Htop. unfold push_arg. rewrite (wrap_small 64 (_ + 1)) by lia. rewrite wrap_small by lia.
  set (sp' := sp - _). cbv zeta. apply wp_bind. eapply wp_mono; [by apply (wp_write_le 8 sp' mem s ai); [..|lia|]|].
  intros [] s1 Hm1. apply wp_bind. eapply wp_mono; [apply (wp_push_bytes arg sp' _ s1 Hm1); [lia|lia|done]|].
  intros p s2 [-> Hm2]. apply wp_bind. eapply wp_mono; [apply (wp_ref _ s2 _ Hm2); lia|]. intros pa s' [-> Hpa]. apply wp_bind.
  eapply wp_mono; [by apply (wp_store _ s2 _ _ _ Hm2 Hpa)|]. intros [] s3 Hm3. apply wp_ret. split; [done|].
  by rewrite fill_app.
Qed.


Lemma wp_push_loop mem s base j sp argv args :
  usermem mem s → base mod 8 = 0 → 0 ≤ j → sp ≤ base → lo ≤ sp - args_size args →
  base + 8 * (j + Z.of_nat (length args)) ≤ hi → Forall (Forall is_byte) args →
  Forall2 (λ i pa, located (base + 8 * i) pa) (seqZ j (Z.of_nat (length args))) argv →
  wp (mfold (λ '(pa, arg) user_sp, push_arg token pa arg user_sp) (zip argv args) sp) s (λ sp' s', ∃ mem',
    sp' = sp - args_size args ∧ usermem mem' s' ∧ pushed mem' base j sp args ∧
    ∀ x, ¬ sp' ≤ x < sp → ¬ base + 8 * j ≤ x < base + 8 * (j + Z.of_nat (length args)) → mem' x = mem x).
Proof.
  intros Hm Hbase Hj Hsp Hlow Hend Hargs. revert mem s j sp argv Hm Hj Hsp Hlow Hend.
  induction Hargs as [|arg args Harg _ IH]; intros mem s j sp argv Hm Hj Hsp Hlow Hend Hargv.
  { apply Forall2_nil_inv_l in Hargv as ->. exists mem. split; [cbn; lia|]. done. }
  pose proof (args_size_pos args) as Hpos. cbn [length args_size foldr] in *. fold (args_size args) in *.
  rewrite seqZ_cons in Hargv by lia. apply Forall2_cons_inv_l in Hargv as (pa & argv' & Hpa & Hargv & ->).
  replace (Z.pred (Z.of_nat (S (length args)))) with (Z.of_nat (length args)) in Hargv by lia.
  cbn [zip zip_with mfold]. apply wp_bind.
  eapply wp_mono; [apply (wp_push_arg mem s (base + 8 * j) pa arg sp); [done|done|lia|lia|done|lia|lia]|].
  intros p s1 [-> Hm1]. set (p := sp - (Z.of_nat (length arg) + 1)) in *.
  eapply wp_mono; [apply (IH _ s1 (j + 1) p argv' Hm1); [lia|lia|lia|lia|exact Hargv]|].
  intros sp' s' (mem' & -> & Hm' & Hpushed & Hsame). exists mem'. split; [lia|]. split; [done|].
  pose proof (length_le_enc 8 p) as Hl8.
  assert (∀ x, p ≤ x < sp → mem' x = fill p (arg ++ [0]) (fill (base + 8 * j) (le_enc 8 p) mem) x) as Hstr
    by (intros x Hx; apply Hsame; lia).
  assert (∀ x, base + 8 * j ≤ x < base + 8 * j + 8 → mem' x = fill (base + 8 * j) (le_enc 8 p) mem x) as Hptr.
  { intros x Hx. rewrite Hsame by lia. apply fill_other. rewrite length_app. cbn. lia. }
  cbn [pushed]. fold p. split; [split; [|split; [|done]]|].
  - eapply bytes_at_eq; [apply fill_bytes|]. rewrite Hl8. exact Hptr.
  - eapply bytes_at_eq; [apply fill_bytes|]. intros x Hx. apply Hstr. rewrite length_app in Hx. cbn in Hx. lia.
  - intros x Hx1 Hx2. rewrite Hsame by lia. rewrite fill_other by (rewrite length_app; cbn; lia).
    apply fill_other. rewrite Hl8. lia.
Qed.

Lemma wp_vector mem s base k m argv :
  usermem mem s → lo ≤ base → 0 ≤ k → base + 8 * (k + Z.of_nat m) ≤ hi →
  wp (mfold (λ arg argv, pa ← translated_ref token (base +₆₄ arg *₆₄ 8); mret (argv ++ [pa])) (seqZ k (Z.of_nat m)) argv) s
    (λ v s', s' = s ∧ ∃ w, v = argv ++ w ∧ Forall2 (λ i pa, located (base + 8 * i) pa) (seqZ k (Z.of_nat m)) w).
Proof.
  intros Hm Hbase. revert k argv. induction m as [|m IH]; intros k argv Hk Hend.
  { split; [done|]. exists []. by rewrite app_nil_r. }
  rewrite !(seqZ_cons _ (Z.of_nat (S m))) by lia. replace (Z.pred (Z.of_nat (S m))) with (Z.of_nat m) by lia.
  cbn [mfold]. apply wp_bind, wp_bind. rewrite (wrap_small 64 (k * 8)) by lia. rewrite wrap_small by lia.
  eapply wp_mono; [apply (wp_ref mem); [done|lia]|]. intros pa s' [-> Hpa]. apply wp_ret.
  eapply wp_mono; [apply IH; lia|]. intros v s' [-> (w & -> & Hw)]. split; [done|]. exists (pa :: w).
  rewrite <-app_assoc. split; [done|]. constructor; [|done]. by replace (base + 8 * k) with (base + k * 8) by lia.
Qed.
Lemma wp_push_args mem s user_sp args :
  usermem mem s → user_sp mod 8 = 0 → user_sp ≤ hi → lo ≤ user_sp - 8 * (Z.of_nat (length args) + 1) - args_size args →
  Forall (Forall is_byte) args →
  wp (push_args token user_sp args) s (λ '(base, sp) s', ∃ mem',
    base = user_sp - 8 * (Z.of_nat (length args) + 1) ∧ sp = (base - args_size args) / 8 * 8 ∧ usermem mem' s' ∧
    pushed mem' base 0 base args ∧ bytes_at mem' (base + 8 * Z.of_nat (length args)) (le_enc 8 0) ∧
    ∀ x, ¬ base - args_size args ≤ x < user_sp → mem' x = mem x).
Proof.
  intros Hm Hal Htop Hlow Hargs. pose proof (args_size_pos args) as Hpos. set (n := length args) in *.
  unfold push_args. fold n. cbv zeta. rewrite (wrap_small 64 (Z.of_nat n + 1)) by lia.
  rewrite (wrap_small 64 (_ * 8)) by lia. rewrite (wrap_small 64 (user_sp - _)) by lia.
  replace (user_sp - (Z.of_nat n + 1) * 8) with (user_sp - 8 * (Z.of_nat n + 1)) by lia. set (base := user_sp - _) in *.
  apply wp_bind. unfold range. replace (Z.of_nat n + 1 - 0) with (Z.of_nat (S n)) by lia.
  eapply wp_mono; [apply (wp_vector mem s base 0 (S n) []); [done|lia..]|]. intros argv s' [-> (w & -> & Hw)]. cbn [app].
  replace (Z.of_nat (S n)) with (Z.of_nat n + 1) in Hw by lia. rewrite seqZ_app in Hw by lia.
  apply Forall2_app_inv_l in Hw as (argv & last & Hargv & Hlast & ->). cbn in Hlast.
  apply Forall2_cons_inv_l in Hlast as (pa & ? & Hpa & ->%Forall2_nil_inv_l & ->).
  pose proof (Forall2_length _ _ _ Hargv) as Hl. rewrite length_seqZ, Nat2Z.id in Hl.
  apply wp_bind, wp_index. split; [lia|]. exists pa. split; [rewrite Nat2Z.id, Hl; by apply list_lookup_middle|].
  replace (0 + Z.of_nat n) with (Z.of_nat n) in Hpa by lia. apply wp_bind.
  eapply wp_mono; [apply (wp_write_le 8 0 mem s _ pa Hm Hpa); lia|]. intros [] s1 Hm1. apply wp_bind.
  rewrite zip_app_short by (symmetry; exact Hl).
  eapply wp_mono; [apply (wp_push_loop _ s1 base 0 base argv args Hm1); [lia|lia|lia|lia|unfold n in *; lia|done|exact Hargv]|].
  intros sp s2 (mem' & -> & Hm2 & Hpushed & Hsame). apply wp_ret. exists mem'. fold n in Hsame.
  pose proof (length_le_enc 8 0) as Hl8. split_and!; [done| |done|done| |].
  - rewrite wrap_small by lia. lia.
  - eapply bytes_at_eq; [apply fill_bytes|]. rewrite Hl8. intros x Hx. apply Hsame; lia.
  - intros x Hx. rewrite Hsame by lia. apply fill_other. rewrite Hl8. lia.
Qed.

(** ** Reading back *)

Lemma wp_load_byte mem s va : usermem mem s → lo ≤ va < hi → wp (load_byte token va) s (λ b s', s' = s ∧ b = mem va).
Proof.
  intros Hm Hva. unfold load_byte. apply wp_bind. eapply wp_mono; [by apply (wp_ref mem)|]. intros pa s' [-> Hpa].
  by apply wp_load.
Qed.
Lemma wp_find_zero mem s p arg fuel :
  usermem mem s → lo ≤ p → p + Z.of_nat (length arg) < hi → bytes_at mem p (arg ++ [0]) → Forall (λ b, 0 < b < 256) arg →
  (length arg < fuel)%nat → wp (find_zero token fuel p) s (λ i s', s' = s ∧ i = Z.of_nat (length arg)).
Proof.
  intros Hm Hp Hend Hb Harg Hf. unfold find_zero.
  eapply (wp_mloop (λ i s', s' = s ∧ 0 ≤ i ≤ Z.of_nat (length arg)) (λ i, length arg - Z.to_nat i)%nat); [split; [done|lia]|lia|].
  intros i ? [-> Hi]. apply wp_bind. rewrite wrap_small by lia.
  eapply wp_mono; [apply (wp_load_byte mem); [done|lia]|]. intros b ? [-> ->].
  destruct (decide (i = Z.of_nat (length arg))) as [->|Hne].
  - rewrite (Hb (length arg) 0) by (by apply list_lookup_middle). by apply wp_ret.
  - destruct (lookup_lt_is_Some_2 arg (Z.to_nat i)) as [c Hc]; [lia|].
    assert (mem (p + i) = c) as -> by (rewrite <-(Hb (Z.to_nat i) c); [f_equal; lia|by apply lookup_app_l_Some]).
    rewrite Forall_forall in Harg. assert (0 < c < 256) as Hc' by (eapply Harg, list_elem_of_lookup_2, Hc).
    rewrite (proj2 (Z.eqb_neq _ _)) by lia. rewrite wrap_small by lia. apply wp_ret. split; [split; [done|lia]|lia].
Qed.
Lemma wp_from_raw_parts mem s p n k v :
  usermem mem s → lo ≤ p → 0 ≤ k → p + k + Z.of_nat n ≤ hi →
  wp (mfold (λ i v, b ← load_byte token (p +₆₄ i); mret (v ++ [b])) (seqZ k (Z.of_nat n)) v) s
    (λ l s', s' = s ∧ l = v ++ (mem <$> seqZ (p + k) (Z.of_nat n))).
Proof.
  intros Hm Hp. revert k v. induction n as [|n IH]; intros k v Hk Hend; [by rewrite app_nil_r|].
  rewrite !(seqZ_cons _ (Z.of_nat (S n))) by lia. cbn [mfold fmap list_fmap]. apply wp_bind, wp_bind.
  rewrite wrap_small by lia. eapply wp_mono; [apply (wp_load_byte mem s (p + k) Hm); lia|].
  intros b s' [-> ->]. apply wp_ret. replace (Z.pred (Z.of_nat (S n))) with (Z.of_nat n) by lia.
  eapply wp_mono; [apply IH; lia|]. intros l' s' [-> ->]. split; [done|]. rewrite <-app_assoc. cbn.
  by replace (Z.succ (p + k)) with (p + Z.succ k) by lia.
Qed.

Lemma wp_start_loop mem s base fuel j sp args v :
  usermem mem s → base mod 8 = 0 → lo ≤ base → 0 ≤ j → sp ≤ base → lo ≤ sp - args_size args →
  base + 8 * (j + Z.of_nat (length args)) ≤ hi → pushed mem base j sp args →
  Forall (λ arg, Forall (λ b, 0 < b < 256) arg ∧ utf8_valid arg = true ∧ (length arg < fuel)%nat) args →
  wp (mfold (λ i v,
      str_start ← load_usize token (base +₆₄ i *₆₄ 8);
      len ← find_zero token fuel str_start;
      s ← from_raw_parts token str_start len;
      assert_ (utf8_valid s);;
      mret (v ++ [s])) (seqZ j (Z.of_nat (length args))) v) s (λ w s', s' = s ∧ w = v ++ args).
Proof.
  intros Hm Hbase Hlb Hj Hsp Hlow Hend Hpushed Hargs. revert j sp v Hj Hsp Hlow Hend Hpushed.
  induction Hargs as [|arg args (Harg & Hutf & Hfuel) _ IH]; intros j sp v Hj Hsp Hlow Hend Hpushed; [by rewrite app_nil_r|].
  pose proof (args_size_pos args) as Hpos. cbn [length args_size foldr pushed] in *. fold (args_size args) in *.
  destruct Hpushed as (Hptr & Hstr & Hpushed). set (p := sp - (Z.of_nat (length arg) + 1)) in *.
  rewrite (seqZ_cons _ (Z.of_nat (S (length args)))) by lia.
  replace (Z.pred (Z.of_nat (S (length args)))) with (Z.of_nat (length args)) by lia. cbn [mfold]. apply wp_bind, wp_bind.
  rewrite (wrap_small 64 (j * 8)) by lia. rewrite wrap_small by lia.
  eapply wp_mono; [apply (wp_load_usize p mem); [done|lia|lia|lia|lia|by replace (base + j * 8) with (base + 8 * j) by lia]|].
  intros ? ? [-> ->]. apply wp_bind. eapply wp_mono; [apply (wp_find_zero mem s p arg); [done|lia|lia|done..]|].
  intros ? ? [-> ->]. apply wp_bind. unfold from_raw_parts, range. rewrite Z.sub_0_r.
  eapply wp_mono; [apply (wp_from_raw_parts mem s p (length arg) 0 []); [done|lia..]|]. intros ? ? [-> ->].
  assert (bytes_at mem (p + 0) arg) as Hb.
  { rewrite Z.add_0_r. intros i b Hi. apply Hstr. by apply lookup_app_l_Some. }
  rewrite (bytes_at_read mem (p + 0) arg Hb). cbn [app]. apply wp_bind, wp_assert. split; [done|]. apply wp_ret.
  eapply wp_mono; [apply (IH (Z.succ j) p); [lia|lia|lia|lia|exact Hpushed]|]. intros w ? [-> ->]. by rewrite <-app_assoc.
Qed.
Lemma wp_start_args mem s base fuel args :
  usermem mem s → base mod 8 = 0 → lo ≤ base - args_size args → base + 8 * Z.of_nat (length args) ≤ hi →
  pushed mem base 0 base args →
  Forall (λ arg, Forall (λ b, 0 < b < 256) arg ∧ utf8_valid arg = true ∧ (length arg < fuel)%nat) args →
  wp (start_args token fuel (Z.of_nat (length args)) base) s (λ w s', s' = s ∧ w = args).
Proof.
  intros Hm Hbase Hlow Hend Hpushed Hargs. pose proof (args_size_pos args). unfold start_args, range. rewrite Z.sub_0_r.
  apply (wp_start_loop mem s base fuel 0 base args []); [done|done|lia|lia|lia|lia|lia|done|done].
Qed.
End window.

(** What an address space holds at a virtual address. *)
Definition mem_of (s : Mm) (ms : MemorySet) (va : Z) : Z :=
  default 0 (page_at s (PageTableEntry_ppn (default 0 (entry s (ms_root ms) (va / 4096)))) !! Z.to_nat (va mod 4096)).
Lemma usermem_start l r s ms lo hi :
  ms_wf l r s ms → (∀ va, lo ≤ va < hi → ∃ p, held ms (va / 4096) p ∧ page_ok s p) →
  usermem l r ms lo hi s (mem_of s ms) s.
Proof.
  intros Hwf Hstack. split; [done| |done|done]. intros va Hva. destruct (Hstack va Hva) as (p & Hp & Hok).
  exists p. split; [done|]. split; [done|]. destruct (held_mapped _ _ _ _ _ _ Hwf Hp) as (_ & b & Hb & Hbp).
  unfold mem_of. rewrite Hb. cbn. rewrite Hbp.
  destruct (lookup_lt_is_Some_2 (page_at s p) (Z.to_nat (va mod 4096))) as [c Hc]; [rewrite (proj1 (proj2 Hok)); lia|].
  by rewrite Hc.
Qed.
(** It may move on as long as the pages of the window stay. *)
Lemma usermem_move l r ms lo hi s0 mem s s' :
  usermem l r ms lo hi s0 mem s → ms_wf l r s' ms →
  (∀ va p, lo ≤ va < hi → held ms (va / 4096) p → mm_pages s' !! p = mm_pages s !! p) → usermem l r ms lo hi s' mem s'.
Proof.
  intros Hm Hwf Hsame. split; [done| |done|done]. intros va Hva.
  destruct (um_mem _ _ _ _ _ _ _ _ Hm va Hva) as (p & Hp & Hok & Hb). exists p. split; [done|].
  unfold page_ok, page_at in *. by rewrite (Hsame va p Hva Hp).
Qed.

(** * Property *)

Lemma ms_root_bound l r s ms : ms_wf l r s ms → 0 ≤ ms_root ms < 2 ^ 44.
Proof.
  intros Hwf. pose proof (mw_pt _ _ _ _ Hwf) as Hpt. destruct (tw_root _ _ _ _ _ (pw_tables _ _ _ _ Hpt)) as [_ Hin].
  apply (pt_frames_alloc l r s _ _ Hpt), elem_of_allocated in Hin as [Hin _].
  pose proof (aw_range _ _ _ (proj1 (pw_mm _ _ _ _ Hpt))). lia.
Qed.

(** C4: Arguments survive [exec].  When the pages between [lo] and the stack
    pointer of a new address space are mapped and have room for the strings and
    their vector, [exec] pushes the arguments without a fault, and [_start] in that
    space, given their number and the address of the vector, finds exactly these
    arguments, in order, whatever their contents.  The vector is aligned and ends
    with a null pointer, the new stack pointer is aligned and below everything that
    was pushed, the stack below it is as it was, no frame of another space or of
    the page tables changes, and the address space stays well formed. *)
Theorem exec_passes_arguments l r s ms lo user_sp args fuel :
  ms_wf l r s ms → 0 ≤ lo → user_sp ≤ 2 ^ 39 → user_sp mod 8 = 0 →
  (∀ va, lo ≤ va < user_sp → ∃ p, held ms (va / 4096) p ∧ page_ok s p) →
  lo ≤ user_sp - 8 * (Z.of_nat (length args) + 1) - args_size args →
  Forall (λ arg, Forall (λ b, 0 < b < 256) arg ∧ utf8_valid arg = true ∧ (length arg < fuel)%nat) args →
  ∃ argv sp s', push_args (MemorySet_token ms) user_sp args s = Ok ((argv, sp), s') ∧
    start_args (MemorySet_token ms) fuel (Z.of_nat (length args)) argv s' = Ok (args, s') ∧
    argv mod 8 = 0 ∧ load_usize (MemorySet_token ms) (argv + 8 * Z.of_nat (length args)) s' = Ok (0, s') ∧
    sp mod 8 = 0 ∧ lo - 8 < sp ≤ argv - args_size args ∧
    (∀ va, lo ≤ va < sp → ∃ b, load_byte (MemorySet_token ms) va s = Ok (b, s) ∧ load_byte (MemorySet_token ms) va s' = Ok (b, s')) ∧
    (∀ q, (∀ va, lo ≤ va < user_sp → ¬ held ms (va / 4096) q) → page_at s' q = page_at s q) ∧
    mm_alloc s' = mm_alloc s ∧ ms_wf l r s' ms.
Proof.
  intros Hwf Hlo Htop Hal Hstack Hroom Hargs. pose proof (ms_root_bound _ _ _ _ Hwf) as Hroot. pose proof (args_size_pos args) as Hpos.
  set (mem := mem_of s ms). pose proof (usermem_start l r s ms lo user_sp Hwf Hstack) as Hm. fold mem in Hm.
  assert (Forall (Forall is_byte) args) as Hbytes.
  { eapply Forall_impl; [exact Hargs|]. intros arg (Ha & _). eapply Forall_impl; [exact Ha|]. unfold is_byte. cbn. lia. }
  pose proof (wp_push_args l r ms lo user_sp s Hroot Hlo Htop mem s user_sp args Hm Hal (Z.le_refl _) Hroom Hbytes) as Hpush.
  apply wp_Ok in Hpush as ([argv sp] & s' & Hrun & mem' & Hargv & Hsp & Hm' & Hpushed & Hnull & Hsame).
  exists argv, sp, s'. split; [exact Hrun|].
  assert (wp (start_args (MemorySet_token ms) fuel (Z.of_nat (length args)) argv) s' (λ w s2, s2 = s' ∧ w = args)) as Hstart
    by (eapply wp_start_args; [exact Hroot|exact Hlo|exact Htop|exact Hm'|lia|lia|lia|done|done]).
  apply wp_Ok in Hstart as (w & s2 & Hstart & -> & ->). split; [exact Hstart|]. split; [lia|]. split.
  { pose proof (wp_load_usize l r ms lo user_sp s Hroot Hlo Htop 0 mem' s' (argv + 8 * Z.of_nat (length args)) Hm' ltac:(lia) ltac:(lia) ltac:(lia) ltac:(lia) Hnull) as H0.
    apply wp_Ok in H0 as (x & s2 & H0 & -> & ->). exact H0. }
  split; [lia|]. split; [lia|]. split; [|split; [|split]].
  - intros va Hva. exists (mem va). assert (lo ≤ va < user_sp) as Hin by lia.
    pose proof (wp_load_byte l r ms lo user_sp s Hroot Hlo Htop mem s va Hm Hin) as H1.
    apply wp_Ok in H1 as (b & s2 & H1 & -> & ->). split; [exact H1|]. rewrite <-(Hsame va) by lia.
    pose proof (wp_load_byte l r ms lo user_sp s Hroot Hlo Htop mem' s' va Hm' Hin) as H2.
    apply wp_Ok in H2 as (b & s2 & H2 & -> & ->). exact H2.
  - apply (um_others _ _ _ _ _ _ _ _ Hm').
  - apply (um_alloc _ _ _ _ _ _ _ _ Hm').
  - apply (um_wf _ _ _ _ _ _ _ _ Hm').
Qed.

(** * Witness: [cat -n] on a stack of one page *)

Lemma exec_passes_arguments_witness :
  ∃ ms s argv sp s', ms_wf 100 120 s ms ∧
    push_args (MemorySet_token ms) 24576 [[99; 97; 116]; [45; 110]] s = Ok ((argv, sp), s') ∧
    start_args (MemorySet_token ms) 100 2 argv s' = Ok ([[99; 97; 116]; [45; 110]], s').
Proof.
  destruct ex_full_space as (ms & s & Hwf & Hok & _ & _ & _ & a & p & Ha & Hp).
  assert (held ms 5 p) as Hheld by (by exists a).
  destruct (exec_passes_arguments 100 120 s ms 20480 24576 [[99; 97; 116]; [45; 110]] 100 Hwf)
    as (argv & sp & s' & Hpush & Hstart & _).
  - lia.
  - lia.
  - done.
  - intros va Hva. exists p. replace (va / 4096) with 5 by lia. split; [done|]. by eapply Hok.
  - cbn. lia.
  - repeat constructor; cbn; lia.
  - exists ms, s, argv, sp, s'. by split_and!.
Defined.
