(* ===== verification/Syscall.v ===== *)
(** System calls (os/src/syscall/): one function per call and the dispatcher.
    Arguments are the registers, results are [isize]. *)

From S2P Require Export Process.

Definition CLOCK_FREQ : Z := 12500000.
Definition TICKS_PER_SEC : Z := 10000.
Definition MICRO_PER_SEC : Z := 1000000.

Definition AT_FDCWD : Z := -100.

(** The numbers the dispatcher knows. *)
Definition SYSCALL_DUP : Z := 24.
Definition SYSCALL_UNLINKAT : Z := 35.
Definition SYSCALL_LINKAT : Z := 37.
Definition SYSCALL_CLOSE : Z := 57.
Definition SYSCALL_PIPE : Z := 59.
Definition SYSCALL_READ : Z := 63.
Definition SYSCALL_WRITE : Z := 64.
Definition SYSCALL_FSTAT : Z := 80.
Definition SYSCALL_EXIT : Z := 93.
Definition SYSCALL_YIELD : Z := 124.
Definition SYSCALL_KILL : Z := 129.
Definition SYSCALL_SIGACTION : Z := 134.
Definition SYSCALL_SIGPROCMASK : Z := 135.
Definition SYSCALL_SIGRETURN : Z := 139.
Definition SYSCALL_SETPRIORITY : Z := 140.
Definition SYSCALL_GET_TIME : Z := 169.
Definition SYSCALL_GETPID : Z := 172.
Definition SYSCALL_MUNMAP : Z := 215.
Definition SYSCALL_FORK : Z := 220.
Definition SYSCALL_EXEC : Z := 221.
Definition SYSCALL_MMAP : Z := 222.
Definition SYSCALL_WAITPID : Z := 260.
Definition SYSCALL_OPEN : Z := 1024.

Section syscall.
Context {St : Type} `{!BlockStore St} `{!Platform}.
Abbreviation K := (Kernel St).

(** A string of the user, as the UTF-8 bytes of the [String] built from it. *)
Definition user_str (token ptr : Z) : M K (list Z) :=
  s ← in_mm (translated_str p_fuel token ptr); mret (str_bytes s).

(** * syscall/fs.rs *)

(** The current task and the table of its open files. *)
Definition current_fds : M K (nat * list (option nat)) := t ← current; tcb ← get_task t; mret (t, fd_table tcb).

Definition sys_write (fd buf len : Z) : M K (flow Z) :=
  token ← current_user_token;
  '(_, fds) ← current_fds;
  if Z.of_nat (length fds) <=? fd then mret (Return (-1)) else
  file ← index fds fd;
  match file with
  | Some file =>
      obj ← get_file file;
      if negb (File_writable obj) then mret (Return (-1)) else
      bufs ← in_mm (translated_byte_buffers token buf len);
      File_write file bufs
  | None => mret (Return (-1))
  end.

Definition sys_read (fd buf len : Z) : M K (flow Z) :=
  token ← current_user_token;
  '(_, fds) ← current_fds;
  if Z.of_nat (length fds) <=? fd then mret (Return (-1)) else
  file ← index fds fd;
  match file with
  | Some file =>
      obj ← get_file file;
      if negb (File_readable obj) then mret (Return (-1)) else
      bufs ← in_mm (translated_byte_buffers token buf len);
      File_read file bufs
  | None => mret (Return (-1))
  end.

(** [fd_table[alloc_fd()] = Some(file)] *)
Definition install_fd (t file : nat) : M K Z :=
  tcb ← get_task t;
  let '(fd, tcb) := TaskControlBlockInner_alloc_fd tcb in
  fds ← set_index (fd_table tcb) fd (Some file);
  put_task t (set_fd_table fds tcb);;
  mret fd.

Definition sys_open (path flags : Z) : M K Z :=
  task ← current;
  token ← current_user_token;
  path ← user_str token path;
  flags ← unwrap (OpenFlags_from_bits flags);
  inode ← open_file path flags;
  match inode with
  | Some obj => file ← new_file obj; fd ← install_fd task file; mret (isize fd)
  | None => mret (-1)
  end.

Definition sys_close (fd : Z) : M K Z :=
  '(t, fds) ← current_fds;
  if Z.of_nat (length fds) <=? fd then mret (-1) else
  file ← index fds fd;
  match file with
  | None => mret (-1)
  | Some _ =>
      fds ← set_index fds fd None;
      update_task t (set_fd_table fds);;
      mret 0
  end.

Definition sys_linkat (olddirfd oldpath newdirfd newpath flags : Z) : M K Z :=
  assert_ (olddirfd =? AT_FDCWD);;
  assert_ (newdirfd =? AT_FDCWD);;
  assert_ (flags =? 0);;
  token ← current_user_token;
  oldpath ← user_str token oldpath;
  newpath ← user_str token newpath;
  fs_linkat oldpath newpath flags.

Definition sys_unlinkat (dirfd path flags : Z) : M K Z :=
  assert_ (dirfd =? AT_FDCWD);;
  assert_ (flags =? 0);;
  token ← current_user_token;
  path ← user_str token path;
  fs_unlinkat path flags.

Definition sys_fstat (fd st : Z) : M K Z :=
  '(_, fds) ← current_fds;
  if Z.of_nat (length fds) <=? fd then mret (-1) else
  token ← current_user_token;
  ts_buffers ← in_mm (translated_byte_buffers token st 80);
  match ts_buffers with
  | [] => mret (-1)
  | st :: _ =>
      file ← index fds fd;
      match file with
      | Some file =>
          stat ← File_fstat file;
          in_mm (write_phys (Buf_addr st) (Stat_bytes stat));;
          mret 0
      | None => mret (-1)
      end
  end.

Definition sys_pipe (pipe : Z) : M K Z :=
  task ← current;
  token ← current_user_token;
  '(pipe_read, pipe_write) ← make_pipe;
  read_fd ← install_fd task pipe_read;
  write_fd ← install_fd task pipe_write;
  pa ← in_mm (translated_ref token pipe);
  in_mm (write_le 8 pa read_fd);;
  pa ← in_mm (translated_ref token (pipe +₆₄ 8));
  in_mm (write_le 8 pa write_fd);;
  mret 0.

Definition sys_dup (fd : Z) : M K Z :=
  '(task, fds) ← current_fds;
  if Z.of_nat (length fds) <=? fd then mret (-1) else
  file ← index fds fd;
  match file with
  | None => mret (-1)
  | Some file => new_fd ← install_fd task file; mret (isize new_fd)
  end.

(** * syscall/memory.rs *)

(** The length in whole pages. *)
Definition page_round (len : Z) : Z := (len +₆₄ PAGE_SIZE -₆₄ 1) / PAGE_SIZE *₆₄ PAGE_SIZE.

(** Whether [translate] of some page of the range passes the test: the early
    return of the two loops. *)
Definition any_page (test : option Z → bool) (start len : Z) : M K bool :=
  r ← SimpleRange_new (Address.floor (VirtAddr_from start)) (Address.ceil (VirtAddr_from (start +₆₄ len)));
  token ← current_user_token;
  found ← mfind (λ vpn,
      pte ← in_mm (PageTable_translate (PageTable_from_token token) vpn);
      mret (if test pte then Some () else None)) (range_elems r);
  mret (bool_decide (is_Some found)).
Definition is_some {A} (o : option A) : bool := match o with Some _ => true | None => false end.

Definition mmap_permission (prot : Z) : Z :=
  let map_perm := MapPermission_U in
  let map_perm := if negb (Z.land prot 1 =? 0) then Z.lor map_perm MapPermission_R else map_perm in
  let map_perm := if negb (Z.land prot 2 =? 0) then Z.lor map_perm MapPermission_W else map_perm in
  if negb (Z.land prot 4 =? 0) then Z.lor map_perm MapPermission_X else map_perm.

Definition sys_mmap (start len prot : Z) : M K Z :=
  if negb (Z.land start (PAGE_SIZE - 1) =? 0) || negb (Z.ldiff prot 7 =? 0) || (Z.land prot 7 =? 0)
  then mret (-1) else
  let len := page_round len in
  mapped ← any_page is_some start len;
  if mapped : bool then mret (-1) else
  ok ← current_memory_set_mmap (VirtAddr_from start) (VirtAddr_from (start +₆₄ len)) (mmap_permission prot);
  mret (if ok : bool then 0 else -1).

Definition sys_munmap (start len : Z) : M K Z :=
  if negb (Z.land start (PAGE_SIZE - 1) =? 0) then mret (-1) else
  let len := page_round len in
  unmapped ← any_page (λ pte, negb (is_some pte)) start len;
  if unmapped : bool then mret (-1) else
  current_memory_set_munmap (VirtAddr_from start) (VirtAddr_from (start +₆₄ len)).

(** * syscall/process.rs *)

(** [sys_exit] does not return. *)
Definition sys_exit (exit_code : Z) : M K (flow Z) := exit_current_and_run_next exit_code;; mret Switched.
Definition sys_yield : M K (flow Z) := suspend_current_and_run_next in_yield;; mret Switched.

Definition sys_set_priority (prio : Z) : M K Z :=
  if isize prio <? 2 then mret (-1) else set_current_prio prio;; mret (isize prio).

Definition get_time_us : M K Z := t ← gets time; mret (t / (CLOCK_FREQ / MICRO_PER_SEC)).

Definition sys_get_time (ts : Z) : M K Z :=
  token ← current_user_token;
  ts_buffers ← in_mm (translated_byte_buffers token ts 16);
  match ts_buffers with
  | [] => mret (-1)
  | ts :: _ =>
      us ← get_time_us;
      in_mm (write_phys (Buf_addr ts) (le_enc 8 (us / 1000000) ++ le_enc 8 (us mod 1000000)));;
      mret 0
  end.

Definition sys_getpid : M K Z := p ← current_pid; mret (isize p).

Definition sys_fork : M K Z :=
  current ← current;
  child_task ← TaskControlBlock_fork current;
  child ← get_task child_task;
  trap_cx ← get_trap_cx child;
  put_trap_cx child (set_x 10 0 trap_cx);;
  add_task child_task;;
  mret (isize (pid child)).

(** The vector of argument pointers ends with a null pointer. *)
Definition user_args (token args : Z) : M K (list (list Z)) :=
  mloop p_fuel (λ '(args, args_vec),
    pa ← in_mm (translated_ref token args);
    arg_str_ptr ← in_mm (read_le 8 pa);
    if arg_str_ptr =? 0 then mret (inr args_vec)
    else
      arg ← user_str token arg_str_ptr;
      mret (inl (args +₆₄ 8, args_vec ++ [arg])))
    (args, []).

Definition sys_exec (path args : Z) : M K Z :=
  token ← current_user_token;
  path ← user_str token path;
  args_vec ← user_args token args;
  app_inode ← open_file path OpenFlags_RDONLY;
  match app_inode with
  | Some (OSInode _ _ offset inode) =>
      '(all_data, _) ← OSInode_read_all offset inode;
      task ← current;
      TaskControlBlock_exec task all_data args_vec;;
      mret (Z.of_nat (length args_vec))
  | Some _ => panic
  | None => mret (-1)
  end.

Definition pid_matches (p : Z) (child : TaskControlBlock) : bool := (p =? -1) || (wrap 64 p =? pid child).

Definition sys_waitpid (p exit_code_ptr : Z) : M K Z :=
  task ← current;
  tcb ← get_task task;
  procs ← mfold (λ c l, child ← get_task c; mret (l ++ [(c, child)])) (children tcb) [];
  match find_index (λ '(_, child), pid_matches p child) procs with
  | None => mret (-1)
  | Some _ =>
      match find_index (λ '(_, child), TaskControlBlockInner_is_zombie child && pid_matches p child) procs with
      | None => mret (-2)
      | Some (idx, (c, child)) =>
          update_task task (set_children (delete idx (children tcb)));;
          k ← get;
          assert_ (Nat.eqb (task_refs k c) 0);;
          pa ← in_mm (translated_ref (MemorySet_token (memory_set tcb)) exit_code_ptr);
          in_mm (write_le 4 pa (u32 (exit_code child)));;
          TaskControlBlock_drop c;;
          mret (isize (pid child))
      end
  end.

Definition sys_kill (p signum : Z) : M K Z :=
  task ← pid2task p;
  match task with
  | Some task =>
      match SignalFlags_from_bits (signal_bit signum) with
      | Some flag =>
          tcb ← get_task task;
          if SignalFlags_contains (signals tcb) flag then mret (-1)
          else put_task task (set_signals (Z.lor (signals tcb) flag) tcb);; mret 0
      | None => mret (-1)
      end
  | None => mret (-1)
  end.

Definition sys_sigprocmask (mask : Z) : M K Z :=
  task ← current_task;
  match task with
  | Some t =>
      tcb ← get_task t;
      match SignalFlags_from_bits mask with
      | Some flag => put_task t (set_signal_mask flag tcb);; mret (signal_mask tcb)
      | None => mret (-1)
      end
  | None => mret (-1)
  end.

Definition sys_sigretrun : M K Z :=
  task ← current_task;
  match task with
  | Some t =>
      tcb ← get_task t;
      put_task t (set_handling_sig (-1) tcb);;
      backup ← unwrap (trap_ctx_backup tcb);
      put_trap_cx tcb backup;;
      mret 0
  | None => mret (-1)
  end.

Definition check_sigaction_error (signal action old_action : Z) : bool :=
  (action =? 0) || (old_action =? 0) || (signal =? SIGKILL) || (signal =? SIGSTOP).

Definition sys_sigaction (signum action old_action : Z) : M K Z :=
  token ← current_user_token;
  task ← current_task;
  match task with
  | Some t =>
      tcb ← get_task t;
      if MAX_SIG <? wrap 64 signum then mret (-1) else
      match SignalFlags_from_bits (signal_bit signum) with
      | Some flag =>
          if check_sigaction_error flag action old_action then mret (-1) else
          old_kernel_action ← index (signal_actions tcb) (wrap 64 signum);
          pa ← in_mm (translated_ref token old_action);
          (if negb (sa_mask old_kernel_action =? 40) then
             in_mm (write_le 8 pa (sa_handler old_kernel_action));;
             in_mm (write_le 4 (pa + 8) (sa_mask old_kernel_action))
           else mret ());;
          pa ← in_mm (translated_ref token action);
          h ← in_mm (read_le 8 pa);
          m ← in_mm (read_le 4 (pa + 8));
          actions ← set_index (signal_actions tcb) (wrap 64 signum) (MkSignalAction h m);
          put_task t (set_signal_actions actions tcb);;
          mret 0
      | None => mret (-1)
      end
  | None => mret (-1)
  end.

(** * syscall/mod.rs *)

(** A call that returns to its caller. *)
Definition returns (m : M K Z) : M K (flow Z) := r ← m; mret (Return r).

Definition syscall (syscall_id : Z) (a0 a1 a2 a3 a4 : Z) : M K (flow Z) :=
  if syscall_id =? SYSCALL_DUP then returns (sys_dup a0)
  else if syscall_id =? SYSCALL_UNLINKAT then returns (sys_unlinkat (i32 a0) a1 (u32 a2))
  else if syscall_id =? SYSCALL_LINKAT then returns (sys_linkat (i32 a0) a1 (i32 a2) a3 (u32 a4))
  else if syscall_id =? SYSCALL_OPEN then returns (sys_open a0 (u32 a1))
  else if syscall_id =? SYSCALL_CLOSE then returns (sys_close a0)
  else if syscall_id =? SYSCALL_PIPE then returns (sys_pipe a0)
  else if syscall_id =? SYSCALL_READ then sys_read a0 a1 a2
  else if syscall_id =? SYSCALL_WRITE then sys_write a0 a1 a2
  else if syscall_id =? SYSCALL_FSTAT then returns (sys_fstat a0 a1)
  else if syscall_id =? SYSCALL_EXIT then sys_exit (i32 a0)
  else if syscall_id =? SYSCALL_YIELD then sys_yield
  else if syscall_id =? SYSCALL_KILL then returns (sys_kill a0 (i32 a1))
  else if syscall_id =? SYSCALL_SIGACTION then returns (sys_sigaction (i32 a0) a1 a2)
  else if syscall_id =? SYSCALL_SIGPROCMASK then returns (sys_sigprocmask (u32 a0))
  else if syscall_id =? SYSCALL_SIGRETURN then returns sys_sigretrun
  else if syscall_id =? SYSCALL_SETPRIORITY then returns (sys_set_priority a0)
  else if syscall_id =? SYSCALL_GET_TIME then returns (sys_get_time a0)
  else if syscall_id =? SYSCALL_GETPID then returns sys_getpid
  else if syscall_id =? SYSCALL_FORK then returns sys_fork
  else if syscall_id =? SYSCALL_EXEC then returns (sys_exec a0 a1)
  else if syscall_id =? SYSCALL_MUNMAP then returns (sys_munmap a0 a1)
  else if syscall_id =? SYSCALL_MMAP then returns (sys_mmap a0 a1 a2)
  else if syscall_id =? SYSCALL_WAITPID then returns (sys_waitpid (isize a0) a1)
  else panic.

End syscall.
