(* ===== verification/Trap.v ===== *)
(** Traps and the processor's main loop (os/src/trap/mod.rs, processor.rs,
    main.rs): from the trap of a user program through its system call, the
    signals and the scheduler back to user mode, and the steps of the machine. *)

From S2P Require Export Syscall.

(** [scause], as far as [trap_handler] tells causes apart. *)
Inductive Trap : Type :=
| UserEnvCall
| StoreFault | StorePageFault
| InstructionFault | InstructionPageFault
| LoadFault | LoadPageFault
| IllegalInstruction
| SupervisorTimer
| OtherCause.

Section trap.
Context {St : Type} `{!BlockStore St} `{!Platform}.
Abbreviation K := (Kernel St).

(** [current_trap_cx()], read and written. *)
Definition current_trap_cx : M K TrapContext := t ← current; tcb ← get_task t; get_trap_cx tcb.
Definition put_current_trap_cx (cx : TrapContext) : M K () := t ← current; tcb ← get_task t; put_trap_cx tcb cx.

(** timer.rs; the SBI call arms the timer. *)
Definition set_next_trigger : M K () :=
  t ← gets time; upd (set_mtimecmp (t +₆₄ CLOCK_FREQ / TICKS_PER_SEC)).

(** * [trap_handler]

    [Return] is [trap_return]: the current task goes on in user mode.  With
    [Switched] the processor is back in [run_tasks]. *)

(** The end of the handler, after [handle_signals]. *)
Definition after_signals (f : flow ()) : M K (flow ()) :=
  match f with
  | Return _ =>
      err ← check_signals_error_of_current;
      match err with
      | Some (errno, _) => exit_current_and_run_next errno;; mret Switched
      | None => mret (Return ())
      end
  | Switched => mret Switched
  end.
Definition trap_end : M K (flow ()) := f ← handle_signals; after_signals f.

(** The result of a system call goes to [a0]; [sys_exec] may have changed the
    trap context. *)
Definition syscall_end (f : flow Z) : M K (flow ()) :=
  match f with
  | Return result =>
      cx ← current_trap_cx;
      put_current_trap_cx (set_x 10 (wrap 64 result) cx);;
      trap_end
  | Switched => mret Switched
  end.

Definition trap_handler (scause : Trap) : M K (flow ()) :=
  match scause with
  | UserEnvCall =>
      cx ← current_trap_cx;
      put_current_trap_cx (set_sepc (sepc cx +₆₄ 4) cx);;
      let x i := usize (tc_x cx !!! i) in
      f ← syscall (x 17%nat) (x 10%nat) (x 11%nat) (x 12%nat) (x 13%nat) (x 14%nat);
      syscall_end f
  | StoreFault | StorePageFault | InstructionFault | InstructionPageFault | LoadFault | LoadPageFault =>
      current_add_signal SIGSEGV;; trap_end
  | IllegalInstruction => current_add_signal SIGILL;; trap_end
  | SupervisorTimer =>
      set_next_trigger;;
      suspend_current_and_run_next in_timer;;
      mret Switched
  | OtherCause => panic
  end.

(** * [run_tasks] *)

(** Where a task that was suspended goes on. *)
Definition resume (r : Resume) : M K (flow ()) :=
  match r with
  | in_yield => syscall_end (Return 0)
  | in_timer => trap_end
  | in_signals => f ← handle_signals_loop; after_signals f
  | in_stdin bufs => f ← stdin_loop bufs; syscall_end f
  | in_pipe_read b it n => f ← pipe_read_loop b it n; syscall_end f
  | in_pipe_write b it n => f ← pipe_write_loop b it n; syscall_end f
  end.

(** [__switch] to the context of a task; a new task starts in [trap_return]. *)
Definition switch_to (t : nat) : M K (flow ()) :=
  tcb ← get_task t;
  match task_cx tcb with
  | TaskContext_goto_trap_return _ => mret (Return ())
  | TaskContext_suspended r => resume r
  | TaskContext_zero_init => fail Undefined
  end.

(** A round of [run_tasks] up to the next switch back or return to user mode. *)
Definition run_tasks_step : M K (flow ()) :=
  t ← run_tasks_round;
  match t with
  | Some t => switch_to t
  | None => mret Switched
  end.

(** * Boot *)

(** The statics before their first use. *)
Definition Kernel_boot (mem : gmap Z page) (dev : St) (kernel_space : MemorySet) : K :=
  MkKernel (MkMm mem StackFrameAllocator_new) kernel_space dev None PidAllocator_new ∅ ∅ ∅ 0 (MkTaskManager ∅ StrideScheduler_new) None None
    [] [] 0 0.

(** [rust_main] up to [run_tasks]. *)
Definition rust_main : M K () :=
  in_mm (init_frame_allocator (ekernel p_symbols));;
  ks ← in_mm (MemorySet_new_kernel p_symbols);
  upd (set_kernel_space ks);;
  add_initproc;;
  set_next_trigger.

(** * The machine *)

(** What user mode does to the state between two traps: a store to a page the
    task may write, and any change of the saved registers. *)
Definition user_store (va b : Z) : M K () :=
  token ← current_user_token;
  pte ← in_mm (PageTable_translate (PageTable_from_token token) (Address.floor (VirtAddr_from va)));
  pte ← unwrap pte;
  assert_ (PageTableEntry_writable pte && has_flag PTE_U pte);;
  pa ← in_mm (translated_ref token va);
  in_mm (set_phys_byte pa (u8 b)).
Definition user_registers (x : list Z) (pc status : Z) : M K () :=
  cx ← current_trap_cx;
  put_current_trap_cx (MkTrapContext x status pc (kernel_satp cx) (kernel_sp cx) (tc_trap_handler cx)).

Inductive mode : Type := User | Idle.
Definition mode_of (f : flow ()) : mode := match f with Return _ => User | Switched => Idle end.

(** The processor is in user mode, or in the loop of [run_tasks]. *)
Inductive machine_step : mode * K → mode * K → Prop :=
| step_schedule k f k' : run_tasks_step k = Ok (f, k') → machine_step (Idle, k) (mode_of f, k')
| step_trap cause k f k' : trap_handler cause k = Ok (f, k') → machine_step (User, k) (mode_of f, k')
| step_store va b k k' : user_store va b k = Ok ((), k') → machine_step (User, k) (User, k')
| step_registers x pc status k k' :
    length x = 32%nat → user_registers x pc status k = Ok ((), k') → machine_step (User, k) (User, k')
| step_clock m dt k : machine_step (m, k) (m, set_time (time k +₆₄ dt) k)
| step_key m c k : machine_step (m, k) (m, set_console_in (console_in k ++ [c]) k).

End trap.
