(* ===== verification/SignalSpec.v ===== *)
(** Signals of the current task (os/src/task/mod.rs, the signal calls of
    os/src/syscall/process.rs): which pending signals a round of
    [check_pending_signals] acts on, and the way into a handler and back. *)

From S2P Require Export PageTableSpec Trap.

(** * Trap contexts in memory *)

Definition cx_wf (c : TrapContext) : Prop := words_valid 8 37 (TrapContext_words c) ∧ length (tc_x c) = 32%nat.

Lemma TrapContext_of_to c : length (tc_x c) = 32%nat → TrapContext_of_words (TrapContext_words c) = c.
Proof.
  intros Hl. destruct c as [x a b d e g]. cbn in Hl. unfold TrapContext_of_words, TrapContext_words.
  cbn [tc_x sstatus sepc kernel_satp kernel_sp tc_trap_handler].
  rewrite take_app_length' by done. do 32 (destruct x as [|? x]; [discriminate|]). by destruct x.
Qed.
Lemma TrapContext_to_of ws : length ws = 37%nat → TrapContext_words (TrapContext_of_words ws) = ws.
Proof. intros Hl. do 37 (destruct ws as [|? ws]; [discriminate|]). by destruct ws. Qed.
Lemma words_valid_set_x i v c : 0 ≤ v < 2 ^ 64 → cx_wf c → cx_wf (set_x i v c).
Proof.
  intros Hv [[Hl Hw] Hx]. split; [|by cbn; rewrite length_insert]. unfold TrapContext_words, set_x in *. cbn in *. split.
  - rewrite length_app, length_insert in *. done.
  - apply Forall_app in Hw as [Hw ?]. apply Forall_app_2; [|done]. by apply Forall_insert.
Qed.
Lemma words_valid_set_sepc v c : 0 ≤ v < 2 ^ 64 → cx_wf c → cx_wf (set_sepc v c).
Proof.
  intros Hv [[Hl Hw] Hx]. split; [|done]. unfold TrapContext_words, set_sepc in *. split; [by rewrite length_app in *|].
  cbn [tc_x sstatus sepc kernel_satp kernel_sp tc_trap_handler] in *.
  apply Forall_app in Hw as [? Hw]. apply Forall_app_2; [done|]. rewrite !Forall_cons in *. naive_solver.
Qed.

Section contexts.
Context {St : Type} `{!BlockStore St} `{!Platform}.
Implicit Types k : Kernel St.

Definition cx_of (tcb : TaskControlBlock) k : TrapContext :=
  TrapContext_of_words (words_dec 8 37 (take 296 (page_at (mm k) (trap_cx_ppn tcb)))).
Definition with_cx (tcb : TaskControlBlock) (c : TrapContext) k : Kernel St :=
  set_mm (set_page (trap_cx_ppn tcb) (splice 0 (words_enc 8 (TrapContext_words c)) (page_at (mm k) (trap_cx_ppn tcb))) (mm k)) k.
Definition has_cx (tcb : TaskControlBlock) k : Prop := page_ok (mm k) (trap_cx_ppn tcb).

Lemma get_trap_cx_run tcb k : has_cx tcb k → get_trap_cx tcb k = Ok (cx_of tcb k, k).
Proof.
  intros (Hp & _). unfold get_trap_cx, in_mm. erewrite bind_Ok; [done|]. unfold zoom.
  erewrite get_bytes_array_Ok by exact Hp. by destruct k.
Qed.
Lemma put_trap_cx_run tcb c k : has_cx tcb k → put_trap_cx tcb c k = Ok ((), with_cx tcb c k).
Proof.
  intros (Hp & _). unfold put_trap_cx, in_mm. erewrite bind_Ok.
  2:{ unfold zoom. erewrite get_bytes_array_Ok by exact Hp. done. }
  unfold zoom. erewrite set_bytes_array_Ok; [by destruct k|exact Hp].
Qed.
Lemma length_cx_words c : cx_wf c → length (words_enc 8 (TrapContext_words c)) = 296%nat.
Proof. intros [[Hl _] _]. by rewrite length_words_enc, Hl. Qed.
Lemma has_cx_with tcb c k : cx_wf c → has_cx tcb k → has_cx tcb (with_cx tcb c k).
Proof.
  intros Hc Hk. apply page_ok_set; [done| |].
  - rewrite length_splice; [by destruct Hk as (_ & ? & _)|]. rewrite length_cx_words by done. destruct Hk as (_ & -> & _). lia.
  - apply Forall_splice; [by destruct Hk as (_ & _ & ?)|apply words_enc_bytes].
Qed.
Lemma cx_of_with tcb c k : cx_wf c → has_cx tcb k → cx_of tcb (with_cx tcb c k) = c.
Proof.
  intros Hc (_ & Hlen & _). unfold cx_of, with_cx. cbn [mm set_mm]. rewrite page_at_set, decide_True by done.
  unfold splice. rewrite take_0, app_nil_l, Nat.add_0_l, <-(length_cx_words c Hc), take_app_length.
  rewrite words_dec_enc by apply Hc. apply TrapContext_of_to. apply Hc.
Qed.
Lemma cx_of_wf tcb k : has_cx tcb k → cx_wf (cx_of tcb k).
Proof.
  intros (_ & Hlen & Hb). unfold cx_wf, cx_of.
  assert (words_valid 8 37 (words_dec 8 37 (take 296 (page_at (mm k) (trap_cx_ppn tcb))))) as Hv.
  { split; [apply length_words_dec|]. apply Forall_lookup. intros i w Hi.
    pose proof (lookup_lt_Some _ _ _ Hi) as Hlt. rewrite length_words_dec in Hlt.
    rewrite words_dec_lookup in Hi by done. injection Hi as <-.
    pose proof (le_dec_bound (sub_list (8 * i) 8 (take 296 (page_at (mm k) (trap_cx_ppn tcb))))) as Hbd.
    rewrite length_sub_list in Hbd by (rewrite length_take; lia). apply Hbd. by apply Forall_sub_list, Forall_take. }
  rewrite TrapContext_to_of by apply Hv. split; [done|]. cbn. rewrite length_take. destruct Hv as [-> _]. done.
Qed.
Lemma with_cx_twice tcb c1 c2 k :
  cx_wf c1 → cx_wf c2 → has_cx tcb k → with_cx tcb c2 (with_cx tcb c1 k) = with_cx tcb c2 k.
Proof.
  intros H1 H2 (_ & Hlen & _). unfold with_cx, set_page, set_mm. cbn. f_equal. f_equal. rewrite insert_insert_eq. f_equal.
  unfold page_at at 1. cbn. rewrite lookup_insert_eq. cbn. unfold splice.
  rewrite !take_0, !app_nil_l, !Nat.add_0_l. rewrite (length_cx_words c1 H1), (length_cx_words c2 H2). f_equal.
  rewrite drop_app_length' by (by rewrite length_cx_words). done.
Qed.
Lemma with_cx_self tcb k : has_cx tcb k → with_cx tcb (cx_of tcb k) k = k.
Proof.
  intros (Hp & Hlen & Hb). unfold with_cx, set_page, set_mm, cx_of.
  rewrite TrapContext_to_of by apply length_words_dec.
  rewrite words_enc_dec; [|rewrite length_take; lia|by apply Forall_take].
  unfold splice. rewrite take_0, app_nil_l, Nat.add_0_l, length_take, Nat.min_l by lia. rewrite take_drop, insert_id by done.
  destruct k as [[] ]. done.
Qed.
End contexts.

(** * Which signals a round acts on *)

Definition kernel_signal_number (sig : Z) : bool := (sig =? 0) || (sig =? 9) || (sig =? 18) || (sig =? 19).

(** Pending, not blocked by the mask of the task, nor by the mask of the handler
    that runs. *)
Definition deliverable (tcb : TaskControlBlock) (sig : Z) : bool :=
  Z.testbit (signals tcb) sig && negb (Z.testbit (signal_mask tcb) sig) &&
  ((handling_sig tcb =? -1) ||
   negb (Z.testbit (sa_mask (signal_actions tcb !!! Z.to_nat (handling_sig tcb))) sig)).

(** The least deliverable signal the kernel does not handle itself. *)
Definition user_signal (tcb : TaskControlBlock) : option Z :=
  List.find (λ sig, deliverable tcb sig && negb (kernel_signal_number sig)) (range 0 32).

(** What the deliverable kernel signals below [u] do to the task. *)
Definition kernel_signals (u : Z) (tcb : TaskControlBlock) : TaskControlBlock :=
  let d sig := deliverable tcb sig && (sig <? u) in
  set_signals (Z.lxor (Z.lxor (signals tcb) (if d 18 then SIGCONT else 0)) (if d 19 then SIGSTOP else 0))
    (set_frozen (if d 19 then true else if d 18 then false else frozen tcb)
       (set_killed (killed tcb || d 0 || d 9) tcb)).

Definition sig_wf (tcb : TaskControlBlock) : Prop :=
  length (signal_actions tcb) = 32%nat ∧ -1 ≤ handling_sig tcb < 32.

Lemma is_kernel_signal_number sig : 0 ≤ sig < 32 → is_kernel_signal (signal_bit sig) = kernel_signal_number sig.
Proof.
  intros Hs. assert (sig ∈ seqZ 0 32) as Hin by (apply elem_of_seqZ; lia).
  clear Hs. revert sig Hin. apply Forall_forall. repeat (constructor; [vm_compute; reflexivity|]). constructor.
Qed.
Lemma deliverable_beyond tcb f sig :
  Z.testbit f sig = Z.testbit (signals tcb) sig → ∀ b1 b2,
  deliverable (set_signals f (set_frozen b1 (set_killed b2 tcb))) sig = deliverable tcb sig.
Proof. intros Hf b1 b2. unfold deliverable. cbn [signals signal_mask handling_sig signal_actions set_signals set_frozen set_killed]. by rewrite Hf. Qed.
Lemma kernel_signals_deliverable u tcb sig : u ≤ sig → deliverable (kernel_signals u tcb) sig = deliverable tcb sig.
Proof.
  intros Hu. unfold kernel_signals. apply deliverable_beyond. rewrite !Z.lxor_spec.
  destruct (deliverable tcb 18 && (18 <? u)) eqn:E18, (deliverable tcb 19 && (19 <? u)) eqn:E19;
    unfold SIGCONT, SIGSTOP; rewrite ?Z.shiftl_1_l, ?Z.pow2_bits_eqb, ?Z.bits_0 by lia;
    repeat match goal with |- context [?a =? sig] => destruct (Z.eqb_spec a sig); [subst; lia|] end; by rewrite ?xorb_false_r.
Qed.
(** One more signal. *)
Lemma kernel_signals_0 tcb : kernel_signals 0 tcb = tcb.
Proof. unfold kernel_signals. rewrite !andb_false_r, !orb_false_r, !Z.lxor_0_r. by destruct tcb. Qed.
Lemma kernel_signals_skip u tcb :
  kernel_signal_number u = false ∨ deliverable tcb u = false → kernel_signals (u + 1) tcb = kernel_signals u tcb.
Proof.
  intros Hu. assert (∀ n, kernel_signal_number n = true → deliverable tcb n && (n <? u + 1) = deliverable tcb n && (n <? u)) as He.
  { intros n Hn. destruct (Z.ltb_spec n (u + 1)), (Z.ltb_spec n u); [done| |lia|done].
    assert (n = u) as -> by lia. destruct Hu as [Hu| ->]; [congruence|done]. }
  unfold kernel_signals. by rewrite !He.
Qed.

Lemma bind_ext {S A B} (m m' : M S A) (f : A → M S B) s : m s = m' s → (m ≫= f) s = (m' ≫= f) s.
Proof. intros He. unfold mbind, M_bind. by rewrite He. Qed.
Lemma bind_bind {S A B C} (m : M S A) (f : A → M S B) (g : B → M S C) s : ((m ≫= f) ≫= g) s = (m ≫= λ a, f a ≫= g) s.
Proof. unfold mbind, M_bind. by destruct (m s) as [[]|]. Qed.
Lemma bind_ret_unit {S} (m : M S ()) s : (m ≫= λ _, mret ()) s = m s.
Proof. unfold mbind, M_bind. by destruct (m s) as [[[] ?]|]. Qed.

Lemma find_none_false {A} (f : A → bool) l : (∀ x, f x = false) → List.find f l = None.
Proof. intros Hf. induction l as [|x l IH]; [done|]. cbn. by rewrite Hf. Qed.

Section delivery.
Context {St : Type} `{!BlockStore St} `{!Platform}.
Implicit Types k : Kernel St.

(** The state in which the current task is [tcb]. *)
Definition runs (t : nat) (tcb : TaskControlBlock) k : Prop := processor k = Some t ∧ tasks k !! t = Some tcb.
Definition with_task (t : nat) (tcb : TaskControlBlock) k : Kernel St := set_tasks (<[t := tcb]> (tasks k)) k.

Lemma runs_with t tcb tcb' k : runs t tcb k → runs t tcb' (with_task t tcb' k).
Proof. intros [Hp _]. split; [done|]. cbn. by rewrite lookup_insert_eq. Qed.
Lemma with_task_twice t t1 t2 k : with_task t t2 (with_task t t1 k) = with_task t t2 k.
Proof. unfold with_task, set_tasks. cbn. by rewrite insert_insert_eq. Qed.
Lemma with_task_same t tcb k : tasks k !! t = Some tcb → with_task t tcb k = k.
Proof. intros Ht. unfold with_task, set_tasks. rewrite insert_id by done. by destruct k. Qed.

(** The kernel's own signals. *)
Lemma call_kernel_signal_handler_run t tcb k sig :
  runs t (kernel_signals sig tcb) k → kernel_signal_number sig = true → deliverable tcb sig = true →
  call_kernel_signal_handler (signal_bit sig) k = Ok ((), with_task t (kernel_signals (sig + 1) tcb) k).
Proof.
  intros Hr Hk Hd. unfold call_kernel_signal_handler. erewrite bind_Ok by (by apply current_run, Hr).
  erewrite update_task_run by apply Hr. do 3 f_equal.
  pose proof (kernel_signals_deliverable sig tcb sig ltac:(lia)) as Hd'. rewrite Hd in Hd'.
  unfold deliverable in Hd' at 1. rewrite !andb_true_iff in Hd'. destruct Hd' as [[Hbit _] _].
  unfold kernel_signal_number in Hk.
  destruct (Z.eqb_spec sig 0) as [->|]; [|destruct (Z.eqb_spec sig 9) as [->|]; [|destruct (Z.eqb_spec sig 18) as [->|];
    [|destruct (Z.eqb_spec sig 19) as [->|]; [|done]]]].
  - change (signal_bit 0 =? SIGSTOP) with false. change (signal_bit 0 =? SIGCONT) with false. cbv iota.
    unfold kernel_signals. rewrite Hd. destruct (deliverable tcb 9), (killed tcb); reflexivity.
  - change (signal_bit 9 =? SIGSTOP) with false. change (signal_bit 9 =? SIGCONT) with false. cbv iota.
    unfold kernel_signals. rewrite Hd. destruct (deliverable tcb 0), (killed tcb); reflexivity.
  - change (signal_bit 18 =? SIGSTOP) with false. change (signal_bit 18 =? SIGCONT) with true. change SIGCONT with (signal_bit 18) at 1.
    cbv iota. rewrite contains_testbit, Hbit by (unfold MAX_SIG; lia). unfold kernel_signals. rewrite Hd.
    destruct (deliverable tcb 0), (deliverable tcb 9), (killed tcb); cbn; rewrite ?andb_false_r, !Z.lxor_0_r; reflexivity.
  - change (signal_bit 19 =? SIGSTOP) with true. cbv iota. unfold kernel_signals. rewrite Hd.
    destruct (deliverable tcb 0), (deliverable tcb 9), (deliverable tcb 18), (killed tcb); cbn; rewrite ?Z.lxor_0_r; reflexivity.
Qed.

(** The test of the loop body is [deliverable]. *)
Lemma check_signal_test tcb u k (m : M (Kernel St) bool) :
  sig_wf tcb → 0 ≤ u < 32 →
  (if SignalFlags_contains (signals tcb) (signal_bit u) && negb (SignalFlags_contains (signal_mask tcb) (signal_bit u)) then
     if handling_sig tcb =? -1 then m
     else
       action ← index (signal_actions tcb) (handling_sig tcb);
       if negb (SignalFlags_contains (sa_mask action) (signal_bit u)) then m else mret false
   else mret false) k = (if deliverable tcb u then m else mret false) k.
Proof.
  intros [Hlen Hh] Hu. unfold deliverable. rewrite !contains_testbit by (unfold MAX_SIG; lia).
  destruct (_ && negb (Z.testbit (signal_mask tcb) u)); [|done]. cbn [andb].
  destruct (Z.eqb_spec (handling_sig tcb) (-1)) as [|Hne]; [done|]. cbn [orb].
  assert (index (signal_actions tcb) (handling_sig tcb) k = Ok (signal_actions tcb !!! Z.to_nat (handling_sig tcb), k)) as Hi.
  { unfold index. destruct (_ && _) eqn:E; [|lia]. by rewrite list_lookup_lookup_total_lt by lia. }
  erewrite bind_Ok by exact Hi. rewrite contains_testbit by (unfold MAX_SIG; lia). done.
Qed.

(** From the signal [u] on, after those below it. *)
Lemma check_signals_from t tcb k u :
  runs t (kernel_signals u tcb) k → sig_wf tcb → 0 ≤ u ≤ 32 →
  let user := List.find (λ sig, deliverable tcb sig && negb (kernel_signal_number sig)) (range u 32) in
  check_signals (range u 32) k =
    match user with
    | Some sig => call_user_signal_handler sig (signal_bit sig)
    | None => mret ()
    end (with_task t (kernel_signals (default 32 user) tcb) k).
Proof.
  intros Hr Hwf. remember (Z.to_nat (32 - u)) as n eqn:Hn. revert u k Hr Hn.
  induction n as [|n IH]; intros u k Hr Hn Hu.
  - assert (u = 32) as -> by lia. cbn. rewrite with_task_same by apply Hr. done.
  - unfold range. rewrite seqZ_cons by lia. replace (Z.pred (32 - u)) with (32 - (u + 1)) by lia.
    replace (Z.succ u) with (u + 1) by lia. fold (range (u + 1) 32). cbn [List.find check_signals].
    erewrite bind_Ok by (by apply current_run, Hr). erewrite bind_Ok by (by apply get_task_run, Hr). cbv zeta.
    rewrite (bind_ext _ _ _ _ (check_signal_test (kernel_signals u tcb) u k _ Hwf ltac:(lia))).
    rewrite kernel_signals_deliverable by done.
    destruct (deliverable tcb u) eqn:Hd; cbn [andb].
    + unfold deliver. rewrite is_kernel_signal_number by lia. destruct (kernel_signal_number u) eqn:Hk; cbn [negb].
      * rewrite bind_bind. erewrite bind_Ok by (by apply call_kernel_signal_handler_run). cbv beta.
        erewrite bind_Ok by reflexivity. cbv beta iota.
        rewrite (IH (u + 1)); [|by eapply runs_with|lia|lia]. by rewrite with_task_twice.
      * cbn [default]. rewrite with_task_same by apply Hr. rewrite bind_bind. apply bind_ret_unit.
    + erewrite bind_Ok by reflexivity. cbv beta iota.
      assert (kernel_signals (u + 1) tcb = kernel_signals u tcb) as He by (apply kernel_signals_skip; by right).
      apply IH; [by rewrite He|lia|lia].
Qed.

(** C37: A round of [check_pending_signals] acts on the deliverable signals -
    pending, not masked by the task, nor by the action whose handler runs - in
    ascending order up to the first one the kernel does not handle itself: of the
    kernel's signals before it, SIGDEF and SIGKILL mark the task killed, SIGCONT
    thaws it, SIGSTOP freezes it (the stop wins, it comes last), and the bits of
    SIGCONT and SIGSTOP are cleared; the user's signal goes to its handler, and
    everything above it, kernel signals included, stays pending. *)
Theorem check_pending_signals_spec t tcb k :
  runs t tcb k → sig_wf tcb →
  check_pending_signals k =
    match user_signal tcb with
    | Some sig => call_user_signal_handler sig (signal_bit sig)
    | None => mret ()
    end (with_task t (kernel_signals (default 32 (user_signal tcb)) tcb) k).
Proof.
  intros Hr Hwf. unfold check_pending_signals. change (MAX_SIG + 1) with 32.
  apply check_signals_from; [by rewrite kernel_signals_0|done|lia].
Qed.

(** * Into a handler and back *)

Lemma call_user_signal_handler_run t tcb k sig a :
  runs t tcb k → has_cx tcb k → 0 ≤ sig < Z.of_nat (length (signal_actions tcb)) →
  signal_actions tcb !! Z.to_nat sig = Some a → sa_handler a ≠ 0 →
  let tcb1 := set_trap_ctx_backup (Some (cx_of tcb k))
    (set_signals (Z.lxor (signals tcb) (signal_bit sig)) (set_handling_sig sig (set_signal_mask (sa_mask a) tcb))) in
  call_user_signal_handler sig (signal_bit sig) k =
    Ok ((), with_cx tcb (set_x 10 sig (set_sepc (sa_handler a) (cx_of tcb k))) (with_task t tcb1 k)).
Proof.
  intros Hr Hcx Hs Ha Hh tcb1. unfold call_user_signal_handler. erewrite bind_Ok by (by apply current_run, Hr).
  erewrite bind_Ok by (by apply get_task_run, Hr).
  assert (index (signal_actions tcb) sig k = Ok (a, k)) as Hi.
  { unfold index. destruct (_ && _) eqn:E; [by rewrite Ha|lia]. }
  erewrite bind_Ok by exact Hi. rewrite (proj2 (Z.eqb_neq _ _)) by done. cbn [negb].
  erewrite bind_Ok by (by apply get_trap_cx_run). cbv zeta. erewrite bind_Ok by reflexivity.
  exact (put_trap_cx_run tcb _ (with_task t tcb1 k) Hcx).
Qed.

Lemma sys_sigretrun_run t tcb k c :
  runs t tcb k → has_cx tcb k → trap_ctx_backup tcb = Some c →
  sys_sigretrun k = Ok (0, with_cx tcb c (with_task t (set_handling_sig (-1) tcb) k)).
Proof.
  intros [Hp Ht] Hcx Hb. unfold sys_sigretrun, current_task. erewrite bind_Ok by reflexivity. rewrite Hp.
  erewrite bind_Ok by (by apply get_task_run). erewrite bind_Ok by reflexivity. rewrite Hb. erewrite bind_Ok by reflexivity.
  erewrite bind_Ok by (exact (put_trap_cx_run tcb c (with_task t (set_handling_sig (-1) tcb) k) Hcx)). done.
Qed.

Lemma current_trap_cx_run t tcb k : runs t tcb k → has_cx tcb k → current_trap_cx k = Ok (cx_of tcb k, k).
Proof.
  intros Hr Hcx. unfold current_trap_cx. erewrite bind_Ok by (by apply current_run, Hr).
  erewrite bind_Ok by (by apply get_task_run, Hr). by apply get_trap_cx_run.
Qed.
Lemma put_current_trap_cx_run t tcb k c :
  runs t tcb k → has_cx tcb k → put_current_trap_cx c k = Ok ((), with_cx tcb c k).
Proof.
  intros Hr Hcx. unfold put_current_trap_cx. erewrite bind_Ok by (by apply current_run, Hr).
  erewrite bind_Ok by (by apply get_task_run, Hr). by apply put_trap_cx_run.
Qed.

Lemma no_signal_deliverable tcb sig : signals tcb = 0 → deliverable tcb sig = false.
Proof. intros Hs. unfold deliverable. by rewrite Hs, Z.bits_0. Qed.
(** Nothing pending: the way out of the kernel changes nothing. *)
Lemma trap_end_quiet t tcb k :
  runs t tcb k → sig_wf tcb → signals tcb = 0 → frozen tcb = false → trap_end k = Ok (Return (), k).
Proof.
  intros Hr Hwf Hs Hf.
  assert (check_pending_signals k = Ok ((), k)) as Hc.
  { unfold check_pending_signals. change (MAX_SIG + 1) with 32.
    rewrite (check_signals_from t tcb k 0) by (rewrite ?kernel_signals_0; done || lia).
    rewrite (find_none_false _ (range 0 32)) by (intros; by rewrite no_signal_deliverable).
    cbn [default mret M_ret]. do 2 f_equal. rewrite <-(with_task_same t tcb k) at 2 by apply Hr. f_equal.
    unfold kernel_signals. rewrite !(no_signal_deliverable tcb) by done. rewrite !andb_false_l, !orb_false_r, !Z.lxor_0_r.
    by destruct tcb. }
  unfold trap_end, handle_signals. rewrite bind_bind. erewrite bind_Ok by exact Hc. unfold handle_signals_loop. rewrite bind_bind.
  erewrite bind_Ok by (by apply current_run, Hr). rewrite bind_bind. erewrite bind_Ok by (by apply get_task_run, Hr).
  rewrite Hf. cbn [negb orb]. erewrite bind_Ok by reflexivity. unfold after_signals, check_signals_error_of_current.
  rewrite bind_bind. erewrite bind_Ok by (by apply current_run, Hr). rewrite bind_bind. erewrite bind_Ok by (by apply get_task_run, Hr).
  rewrite Hs. done.
Qed.

Lemma with_cx_task tcb c t tcb' k : with_cx tcb c (with_task t tcb' k) = with_task t tcb' (with_cx tcb c k).
Proof. done. Qed.
(** The trap of a handler that calls [sigreturn] with nothing else pending. *)
Lemma sigreturn_trap t tcb k c :
  runs t tcb k → has_cx tcb k → cx_wf c → trap_ctx_backup tcb = Some c →
  sig_wf tcb → signals tcb = 0 → frozen tcb = false → tc_x (cx_of tcb k) !!! 17%nat = SYSCALL_SIGRETURN →
  trap_handler UserEnvCall k =
    Ok (Return (), with_cx tcb (set_x 10 0 c) (with_task t (set_handling_sig (-1) tcb) k)).
Proof.
  intros Hr Hcx Hc Hb Hwf Hs Hf H17. unfold trap_handler. erewrite bind_Ok by (by eapply current_trap_cx_run).
  set (c1 := set_sepc _ _). assert (cx_wf c1) as Hc1.
  { apply words_valid_set_sepc; [|by apply cx_of_wf]. apply Z.mod_pos_bound. lia. }
  erewrite bind_Ok by (by eapply put_current_trap_cx_run). cbv zeta. set (k1 := with_cx tcb c1 k).
  assert (runs t tcb k1 ∧ has_cx tcb k1) as [Hr1 Hcx1] by (split; [exact Hr|by apply has_cx_with]).
  rewrite H17. change (syscall (usize SYSCALL_SIGRETURN)) with (λ a0 a1 a2 a3 a4 : Z, returns (sys_sigretrun (St:=St))).
  cbv beta. unfold returns. rewrite bind_bind. erewrite bind_Ok by (by eapply sys_sigretrun_run). erewrite bind_Ok by reflexivity.
  set (tcb' := set_handling_sig (-1) tcb).
  unfold k1. rewrite with_cx_task, with_cx_twice, <-with_cx_task by done.
  set (k2 := with_cx tcb c (with_task t tcb' k)).
  assert (runs t tcb' k2) as Hr2 by exact (runs_with t tcb tcb' k Hr).
  assert (has_cx tcb' k2) as Hcx2 by exact (has_cx_with tcb c (with_task t tcb' k) Hc Hcx).
  unfold syscall_end. erewrite bind_Ok by (by eapply current_trap_cx_run).
  erewrite bind_Ok by (by eapply put_current_trap_cx_run).
  assert (cx_of tcb' k2 = c) as -> by exact (cx_of_with tcb c (with_task t tcb' k) Hc Hcx).
  change (wrap 64 0) with 0. set (k3 := with_cx tcb' _ k2).
  assert (k3 = with_cx tcb (set_x 10 0 c) (with_task t tcb' k)) as <-.
  { apply (with_cx_twice tcb c (set_x 10 0 c) (with_task t tcb' k)); [done|by apply words_valid_set_x|exact Hcx]. }
  apply (trap_end_quiet t tcb'); [exact Hr2|split; [apply Hwf|cbn; lia]|exact Hs|exact Hf].
Qed.

(** C38: A handler and its return.  Delivering a signal with a handler makes the
    task continue at the handler with the signal's number in [a0] and everything
    else in its trap context unchanged, under the mask of the action, with the
    signal no longer pending.  Whatever then happens to the task's registers and
    memory, to other tasks, files and devices: when the task calls [sigreturn]
    and nothing is pending, it goes on where it was interrupted with the trap
    context it had - except for [a0], which the return path of system calls
    overwrites with the call's result 0 - and no handler runs; its signal mask
    stays the one of the action. *)
Theorem signal_handler_roundtrip t tcb k sig a :
  runs t tcb k → has_cx tcb k → sig_wf tcb → 0 ≤ sig ≤ MAX_SIG →
  signal_actions tcb !! Z.to_nat sig = Some a → 0 < sa_handler a < 2 ^ 64 → Z.testbit (signals tcb) sig = true →
  ∃ k1 tcb1, call_user_signal_handler sig (signal_bit sig) k = Ok ((), k1) ∧
    runs t tcb1 k1 ∧ has_cx tcb1 k1 ∧ trap_cx_ppn tcb1 = trap_cx_ppn tcb ∧
    cx_of tcb1 k1 = set_x 10 sig (set_sepc (sa_handler a) (cx_of tcb k)) ∧
    handling_sig tcb1 = sig ∧ signal_mask tcb1 = sa_mask a ∧
    (∀ i, 0 ≤ i → Z.testbit (signals tcb1) i = Z.testbit (signals tcb) i && negb (i =? sig)) ∧
    ∀ k2 tcb2, runs t tcb2 k2 → trap_cx_ppn tcb2 = trap_cx_ppn tcb1 → trap_ctx_backup tcb2 = trap_ctx_backup tcb1 →
      has_cx tcb2 k2 → sig_wf tcb2 → signals tcb2 = 0 → frozen tcb2 = false →
      tc_x (cx_of tcb2 k2) !!! 17%nat = SYSCALL_SIGRETURN →
      ∃ k3, trap_handler UserEnvCall k2 = Ok (Return (), k3) ∧ runs t (set_handling_sig (-1) tcb2) k3 ∧
        cx_of tcb2 k3 = set_x 10 0 (cx_of tcb k) ∧
        ∀ p, p ≠ trap_cx_ppn tcb → page_at (mm k3) p = page_at (mm k2) p.
Proof.
  intros Hr Hcx [Hlen Hh] Hs Ha Hha Hbit. unfold MAX_SIG in Hs.
  pose proof (call_user_signal_handler_run t tcb k sig a Hr Hcx ltac:(lia) Ha ltac:(lia)) as Hcall. cbv zeta in Hcall.
  set (tcb1 := set_trap_ctx_backup _ _) in Hcall. set (c1 := set_x 10 sig _) in Hcall.
  assert (cx_wf (cx_of tcb k)) as Hc by by apply cx_of_wf.
  assert (cx_wf c1) as Hc1 by (apply words_valid_set_x; [lia|by apply words_valid_set_sepc; [lia|]]).
  exists (with_cx tcb c1 (with_task t tcb1 k)), tcb1. split; [exact Hcall|].
  split; [exact (runs_with t tcb tcb1 k Hr)|]. split; [exact (has_cx_with tcb c1 (with_task t tcb1 k) Hc1 Hcx)|].
  split; [done|]. split; [exact (cx_of_with tcb c1 (with_task t tcb1 k) Hc1 Hcx)|]. split; [done|]. split; [done|]. split.
  - intros i Hi. cbn [tcb1 signals set_trap_ctx_backup set_signals]. rewrite signal_bit_pow, testbit_lxor_pow by (unfold MAX_SIG; lia).
    rewrite (Z.eqb_sym i). destruct (Z.eqb_spec sig i) as [->|]; [by rewrite Hbit|by rewrite andb_true_r, xorb_false_r].
  - intros k2 tcb2 Hr2 Hppn Hb Hcx2 Hwf2 Hs2 Hf2 H17.
    pose proof (sigreturn_trap t tcb2 k2 (cx_of tcb k) Hr2 Hcx2 Hc Hb Hwf2 Hs2 Hf2 H17) as Htrap.
    eexists. split; [exact Htrap|]. split; [exact (runs_with t tcb2 _ k2 Hr2)|]. split.
    + apply (cx_of_with tcb2 _ (with_task t _ k2)); [by apply words_valid_set_x|exact Hcx2].
    + intros p Hp. unfold with_cx. cbn [mm set_mm]. rewrite page_at_set, decide_False; [done|]. by rewrite Hppn.
Qed.
End delivery.

(** ** A task with SIGUSR1, a handler for it, SIGKILL and SIGCONT pending. *)

#[local] Existing Instance Flat_store.
#[local] Existing Instance bare_platform.
Definition ex_signal_task (pending : Z) : TaskControlBlock :=
  MkTask 0 0 5 0 16 0 TaskContext_zero_init Running (MkMemorySet (MkPageTable 0 []) []) None [] 0 [] pending 0 (-1)
    (<[10%nat := MkSignalAction 0x10040 0]> SignalActions_default) false true None.
Definition ex_signal_kernel (pending : Z) : Kernel Flat :=
  MkKernel (MkMm {[5 := words_enc 8 (seqZ 0 512)]} StackFrameAllocator_new) (MkMemorySet (MkPageTable 0 []) [])
    (MkFlat ∅ ∅ false) None PidAllocator_new {[0%nat := ex_signal_task pending]} ∅ ∅ 1
    (MkTaskManager ∅ StrideScheduler_new) (Some 0%nat) None [] [] 0 0.
Lemma ex_signal_runs pending : runs 0 (ex_signal_task pending) (ex_signal_kernel pending).
Proof. done. Qed.
Lemma ex_signal_cx pending : has_cx (ex_signal_task pending) (ex_signal_kernel pending).
Proof.
  assert (page_at (mm (ex_signal_kernel pending)) 5 = words_enc 8 (seqZ 0 512)) as Hp.
  { unfold page_at. change (mm_pages _) with ({[5 := words_enc 8 (seqZ 0 512)]} : gmap Z page). by rewrite lookup_singleton_eq. }
  unfold has_cx, page_ok. change (trap_cx_ppn _) with 5. rewrite Hp. split; [by rewrite <-Hp|].
  split; [by rewrite length_words_enc, length_seqZ|apply words_enc_bytes].
Qed.

(** SIGKILL (9) is below SIGUSR1 (10) and marks the task; SIGCONT (18) waits. *)
Lemma check_pending_signals_spec_witness :
  let k := ex_signal_kernel (2 ^ 9 + 2 ^ 10 + 2 ^ 18) in
  check_pending_signals k =
    call_user_signal_handler 10 (signal_bit 10)
      (with_task 0 (set_killed true (ex_signal_task (2 ^ 9 + 2 ^ 10 + 2 ^ 18))) k).
Proof. exact (check_pending_signals_spec 0 (ex_signal_task (2 ^ 9 + 2 ^ 10 + 2 ^ 18)) _ (ex_signal_runs _) ltac:(split; [done|cbn; lia])). Defined.

Lemma signal_handler_roundtrip_witness :
  let k := ex_signal_kernel (2 ^ 10) in
  ∃ k1 k2 k3, call_user_signal_handler 10 (signal_bit 10) k = Ok ((), k1) ∧
    cx_of (ex_signal_task (2 ^ 10)) k1 = set_x 10 10 (set_sepc 0x10040 (cx_of (ex_signal_task (2 ^ 10)) k)) ∧
    tc_x (cx_of (ex_signal_task (2 ^ 10)) k2) = <[17%nat := 139]> (replicate 32 77) ∧
    trap_handler UserEnvCall k2 = Ok (Return (), k3) ∧
    cx_of (ex_signal_task (2 ^ 10)) k3 = set_x 10 0 (cx_of (ex_signal_task (2 ^ 10)) k).
Proof.
  destruct (signal_handler_roundtrip 0 (ex_signal_task (2 ^ 10)) (ex_signal_kernel (2 ^ 10)) 10 (MkSignalAction 0x10040 0)
    (ex_signal_runs _) (ex_signal_cx _) ltac:(split; [done|cbn; lia]) ltac:(unfold MAX_SIG; lia) eq_refl ltac:(cbn; lia) eq_refl)
    as (k1 & tcb1 & Hcall & Hr1 & Hcx1 & Hppn & Hc1 & _ & _ & _ & Hret).
  set (c2 := MkTrapContext (<[17%nat := 139]> (replicate 32 77)) 0 0 0 0 0).
  assert (cx_wf c2) as Hc2.
  { split; [|done]. split; [done|]. unfold TrapContext_words, c2. cbn [tc_x sstatus sepc kernel_satp kernel_sp tc_trap_handler].
    repeat (apply Forall_cons; split; [lia|]). by apply Forall_nil. }
  set (tcb2 := set_frozen false (set_signals 0 (set_trap_ctx_backup (trap_ctx_backup tcb1) (ex_signal_task (2 ^ 10))))).
  set (k2 := with_cx tcb2 c2 (with_task 0 tcb2 k1)).
  assert (has_cx tcb2 (with_task 0 tcb2 k1)) as Hcx2 by (unfold has_cx in *; by rewrite Hppn in Hcx1).
  destruct (Hret k2 tcb2) as (k3 & Htrap & _ & Hc3 & _).
  - exact (runs_with 0 tcb1 tcb2 k1 Hr1).
  - by rewrite Hppn.
  - done.
  - by apply has_cx_with.
  - split; [done|cbn; lia].
  - done.
  - done.
  - unfold k2. rewrite cx_of_with by done. reflexivity.
  - exists k1, k2, k3. split; [exact Hcall|]. split.
    { unfold cx_of in *. rewrite Hppn in Hc1. exact Hc1. }
    split; [|split; [exact Htrap|exact Hc3]].
    change (cx_of (ex_signal_task (2 ^ 10)) k2) with (cx_of tcb2 k2). unfold k2. by rewrite cx_of_with by done.
Defined.

(** SIGHUP without a handler stays pending and ends every round before SIGCONT,
    so the frozen task is never thawed. *)
Example unhandled_signal_blocks_cont :
  let k := ex_signal_kernel (2 ^ 1 + 2 ^ 18) in check_pending_signals k = Ok ((), k).
Proof. vm_compute. reflexivity. Qed.
