(* ===== verification/ExecSpec.v ===== *)
(** [exec] as a whole (os/src/task/task.rs): what a program finds when it starts,
    and what becomes of the one it replaces. *)

From S2P Require Export ElfSpec ExecArgs SignalSpec FrameOwner.

(** * Dropping an address space *)

Lemma drop_frames_run l r fs s :
  mm_wf l r s → NoDup fs → (∀ p, p ∈ fs → p ∈ allocated l (mm_alloc s)) →
  ∃ s', drop_frames fs s = Ok ((), s') ∧ mm_wf l r s' ∧ mm_pages s' = mm_pages s ∧
    allocated l (mm_alloc s') = allocated l (mm_alloc s) ∖ list_to_set fs.
Proof.
  intros Hmm Hnd. revert s Hmm. induction Hnd as [|p fs Hp Hnd IH]; intros s Hmm Hin; [exists s; split_and!; [done|done|done|set_solver]|].
  destruct (frame_drop l r s p Hmm) as (s1 & Hrun & Hmm1 & Hpg1 & Hal1 & _); [apply Hin; by left|].
  destruct (IH s1 Hmm1) as (s' & Hrun' & Hmm' & Hpg' & Hal').
  { intros q Hq. rewrite Hal1. apply elem_of_difference. split; [apply Hin; by right|]. intros ->%elem_of_singleton. done. }
  exists s'. split_and!; [|done|by rewrite Hpg'|rewrite Hal', Hal1; set_solver].
  unfold drop_frames, mfor in *. cbn [mfold]. by erewrite bind_Ok by exact Hrun.
Qed.
Lemma drop_areas_run l r As s :
  mm_wf l r s → NoDup (areas_frames As) → (∀ p, p ∈ areas_frames As → p ∈ allocated l (mm_alloc s)) →
  ∃ s', mfor MapArea_drop As s = Ok ((), s') ∧ mm_wf l r s' ∧ mm_pages s' = mm_pages s ∧
    allocated l (mm_alloc s') = allocated l (mm_alloc s) ∖ list_to_set (areas_frames As).
Proof.
  revert s. induction As as [|a As IH]; intros s Hmm Hnd Hin; [exists s; split_and!; [done|done|done|set_solver]|].
  rewrite areas_frames_cons in *. apply NoDup_app in Hnd as (Hnd & Hd & Hnd').
  destruct (drop_frames_run l r (BTreeMap_values (data_frames a)) s Hmm) as (s1 & Hrun & Hmm1 & Hpg1 & Hal1).
  { by rewrite BTreeMap_values_perm. }
  { intros p. rewrite BTreeMap_values_perm. intros Hp. apply Hin, elem_of_app. by left. }
  assert (list_to_set (BTreeMap_values (data_frames a)) = (list_to_set (area_frames a) : gset Z)) as He.
  { apply set_eq. intros p. rewrite !elem_of_list_to_set. by rewrite BTreeMap_values_perm. }
  destruct (IH s1 Hmm1 Hnd') as (s' & Hrun' & Hmm' & Hpg' & Hal').
  { intros p Hp. rewrite Hal1, He. apply elem_of_difference. split; [apply Hin, elem_of_app; by right|].
    intros Hpa%elem_of_list_to_set. by apply (Hd p Hpa). }
  exists s'. split_and!; [|done|by rewrite Hpg'|rewrite Hal', Hal1, He; set_solver].
  unfold mfor in *. cbn [mfold]. by erewrite bind_Ok by exact Hrun.
Qed.
Lemma MemorySet_drop_run l r s ms :
  ms_wf l r s ms → ∃ s', MemorySet_drop ms s = Ok ((), s') ∧ mm_wf l r s' ∧ mm_pages s' = mm_pages s ∧
    allocated l (mm_alloc s') = allocated l (mm_alloc s) ∖ list_to_set (footprint ms).
Proof.
  intros Hwf. pose proof (mw_nodup _ _ _ _ Hwf) as Hnd. apply NoDup_app in Hnd as (Hnd & Hd & Hnd').
  destruct (drop_frames_run l r (pt_frames (page_table ms)) s) as (s1 & Hrun & Hmm1 & Hpg1 & Hal1);
    [apply (mw_pt _ _ _ _ Hwf)|done| |].
  { intros p Hp. eapply footprint_alloc; [exact Hwf|]. apply elem_of_app. by left. }
  destruct (drop_areas_run l r (areas ms) s1 Hmm1 Hnd') as (s' & Hrun' & Hmm' & Hpg' & Hal').
  { intros p Hp. rewrite Hal1. apply elem_of_difference. split.
    - eapply footprint_alloc; [exact Hwf|]. apply elem_of_app. by right.
    - intros Hpt%elem_of_list_to_set. by apply (Hd p Hpt). }
  exists s'. split_and!; [|done|by rewrite Hpg'|rewrite Hal', Hal1; unfold footprint; set_solver].
  unfold MemorySet_drop, PageTable_drop. by erewrite bind_Ok by exact Hrun.
Qed.

Lemma ms_wf_kept l r s s' ms :
  ms_wf l r s ms → mm_wf l r s' → (∀ x, x ∈ pt_frames (page_table ms) → page_at s' x = page_at s x) →
  (∀ x, x ∈ footprint ms → x ∈ allocated l (mm_alloc s')) →
  ms_wf l r s' ms ∧ ∀ v, entry s' (ms_root ms) v = entry s (ms_root ms) v.
Proof.
  intros Hwf Hmm Hpg Hin. destruct (pt_wf_frame l r s s' (page_table ms) (mw_pt _ _ _ _ Hwf) Hmm Hpg) as [Hpt He].
  { intros x Hx. apply Hin, elem_of_app. by left. }
  split; [|done]. destruct Hwf as [H1 H2 H3 H4 H5]. split; [done|done| | |done].
  - apply Forall_forall. intros x Hx. apply Hin, elem_of_app. by right.
  - intros a v p Ha Hv. rewrite He. by eapply H4.
Qed.

(** * Contexts of a new program *)

Section exec.
Context {St : Type} `{!BlockStore St} `{!Platform}.
Implicit Types k : Kernel St.

(** What the linker and the processor give the kernel. *)
Record platform_wf : Prop := {
  pf_trampoline : 0 ≤ strampoline p_symbols < 2 ^ 56 ∧ strampoline p_symbols mod 4096 = 0;
  pf_status : 0 ≤ p_sstatus < 2 ^ 64;
  pf_handler : 0 ≤ p_trap_handler < 2 ^ 64 }.

(** The registers of a program at its entry: argument count and vector in [a0]
    and [a1], the stack in [sp], zero elsewhere. *)
Definition start_context (entry_ sp argc argv satp stack : Z) : TrapContext :=
  set_x 11 argv (set_x 10 argc (TrapContext_app_init_context p_sstatus entry_ sp satp stack p_trap_handler)).
Lemma start_context_wf entry_ sp argc argv satp stack :
  platform_wf → 0 ≤ entry_ < 2 ^ 64 → 0 ≤ sp < 2 ^ 64 → 0 ≤ argc < 2 ^ 64 → 0 ≤ argv < 2 ^ 64 → 0 ≤ satp < 2 ^ 64 →
  0 ≤ stack < 2 ^ 64 → cx_wf (start_context entry_ sp argc argv satp stack).
Proof.
  intros [_ Hst Hh] H1 H2 H3 H4 H5 H6. unfold start_context, TrapContext_app_init_context, TrapContext_set_sp.
  do 3 (apply words_valid_set_x; [done|]). split; [|reflexivity].
  unfold TrapContext_words. cbn. split; [reflexivity|]. change (256 ^ Z.of_nat 8) with (2 ^ 64). repeat (constructor; [lia|]). constructor.
Qed.
Lemma token_bound pt : 0 ≤ root_ppn pt < 2 ^ 44 → 0 ≤ PageTable_token pt < 2 ^ 64.
Proof. intros Hr. unfold PageTable_token. apply lor_bound; [done|apply wrap_bound; lia|lia]. Qed.

Lemma trap_cx_ppn_run l r ms k q :
  ms_wf l r (mm k) ms → held ms (trampoline_vpn - 1) q →
  trap_cx_ppn_of ms k = Ok (q, k).
Proof.
  intros Hwf Hq. unfold trap_cx_ppn_of. destruct (held_mapped _ _ _ _ _ _ Hwf Hq) as (_ & b & Hb & Hbq).
  change (PageNum_from_Addr (VirtAddr_from TRAP_CONTEXT)) with (mret (trampoline_vpn - 1) : M (Kernel St) Z).
  erewrite bind_Ok by reflexivity. erewrite bind_Ok.
  2:{ unfold in_mm, zoom, MemorySet_translate. by rewrite (translate_spec l r (mm k) (page_table ms) _ _ (mw_pt _ _ _ _ Hwf) eq_refl). }
  rewrite Hb. erewrite bind_Ok by reflexivity.
  rewrite Hbq. by destruct k.
Qed.

(** The new address space once the arguments are on its stack. *)
Record pushed_space l r s0 elf_data elf args ms (argv sp : Z) (mem : Z → Z) s : Prop := {
  pp_argv : argv = (end_of 0 (loads elf) + 3) * 4096 - 8 * (Z.of_nat (length args) + 1);
  pp_sp : sp = (argv - args_size args) / 8 * 8;
  pp_mem : ∃ s1, usermem l r ms ((end_of 0 (loads elf) + 1) * 4096) ((end_of 0 (loads elf) + 3) * 4096) s1 mem s;
  pp_pushed : pushed mem argv 0 argv args;
  pp_alloc : allocated l (mm_alloc s0) ⊆ allocated l (mm_alloc s);
  pp_fresh x : x ∈ footprint ms → x ∉ allocated l (mm_alloc s0);
  pp_same x : x ∈ allocated l (mm_alloc s0) → page_at s x = page_at s0 x;
  pp_image ph v : ph ∈ loads elf → sg_in (ph_segment elf_data ph) v → ∃ q, held ms v q ∧
    page_at s q = sg_page (ph_segment elf_data ph) v ∧
    entry s (ms_root ms) v = Some (PageTableEntry_new q (Z.lor (ph_perm ph) PTE_V));
  pp_below ph v : ph ∈ loads elf → sg_in (ph_segment elf_data ph) v → v < end_of 0 (loads elf);
  pp_trap : ∃ q, held ms (trampoline_vpn - 1) q ∧ page_ok s q }.

Lemma build_and_push l r s0 elf_data elf args :
  platform_wf → mm_wf l r s0 → p_elf elf_data = Some elf → loadable elf_data elf →
  12 + 3 * pages_of (loads elf) ≤ free_frames s0 → Forall (Forall is_byte) args →
  8 * (Z.of_nat (length args) + 1) + args_size args ≤ 8192 →
  wp (MemorySet_from_elf p_symbols p_elf elf_data) s0 (λ '(ms, user_sp, entry_) s,
    entry_ = entry_point elf ∧ wp (push_args (MemorySet_token ms) user_sp args) s (λ '(argv, sp) s',
      ∃ mem, pushed_space l r s0 elf_data elf args ms argv sp mem s')).
Proof.
  intros [[Ht Hal] _ _] Hmm Hparse Hload Hfree Hargs Hroom.
  eapply wp_mono; [by apply (from_elf_run p_symbols p_elf l r s0 elf_data elf)|].
  intros [[ms user_sp] entry_] s ([Hwf Hall Hfr Hpg Hok Hpages Hheld Hnone] & -> & -> & _). split; [done|].
  destruct (loadable_end _ _ Hload) as (He0 & Hend & Hge).
  set (e := end_of 0 (loads elf)) in *. pose proof (ms_root_bound _ _ _ _ Hwf) as Hroot.
  assert (∀ va, (e + 1) * 4096 ≤ va < (e + 3) * 4096 → ∃ p, held ms (va / 4096) p ∧ page_ok s p) as Hstack.
  { intros va Hva. destruct (Hpages (stack_segment e) (va / 4096)) as (q & Hq & _).
    - apply elem_of_app. right. by left.
    - unfold sg_in. cbn. lia.
    - exists q. split; [done|]. by eapply Hok. }
  pose proof (usermem_start l r s ms _ _ Hwf Hstack) as Hm.
  eapply wp_mono; [apply (wp_push_args l r ms ((e + 1) * 4096) ((e + 3) * 4096) s Hroot ltac:(lia) ltac:(lia) _ s _ args Hm);
    [lia|lia|lia|done]|].
  intros [argv sp] s' (mem & -> & -> & Hm' & Hpushed & _ & _). exists mem.
  assert (∀ v q, held ms v q → ¬ e + 1 ≤ v < e + 3 → page_at s' q = page_at s q) as Hsame.
  { intros v q Hq Hv. apply (um_others _ _ _ _ _ _ _ _ Hm'). intros va Hva Hq'.
    pose proof (held_inj _ _ _ _ _ _ _ Hwf Hq Hq'). lia. }
  assert (∀ v, entry s' (ms_root ms) v = entry s (ms_root ms) v) as Hent.
  { apply (pt_wf_frame l r s s' (page_table ms) (mw_pt _ _ _ _ Hwf)); [apply (mw_pt _ _ _ _ (um_wf _ _ _ _ _ _ _ _ Hm'))| |
      intros x; apply (pt_frames_alloc l r s' _ _ (mw_pt _ _ _ _ (um_wf _ _ _ _ _ _ _ _ Hm')))].
    intros x Hx. apply (um_others _ _ _ _ _ _ _ _ Hm'). intros va _ Hh. by apply (held_not_table _ _ _ _ _ _ Hwf Hh). }
  split; try done.
  - by exists s.
  - by rewrite (um_alloc _ _ _ _ _ _ _ _ Hm').
  - intros x Hx. rewrite <-Hpg by done. apply (um_others _ _ _ _ _ _ _ _ Hm'). intros va _ Hh.
    apply (Hfr x); [by eapply held_footprint|done].
  - intros ph v Hin Hv. destruct (Hpages (ph_segment elf_data ph) v) as (q & Hq & Hp & He); [|done|].
    { apply elem_of_app. left. by apply list_elem_of_fmap_2. }
    exists q. split; [done|]. rewrite Hent. split; [|done]. rewrite <-Hp. apply (Hsame v); [done|].
    specialize (Hge ph Hin). unfold sg_in in Hv. cbn [sg_range ph_segment] in Hv. lia.
  - intros ph v Hin Hv. specialize (Hge ph Hin). unfold sg_in in Hv. cbn [sg_range ph_segment] in Hv. lia.
  - destruct (Hpages trap_segment (trampoline_vpn - 1)) as (q & Hq & _).
    + apply elem_of_app. right. right. by left.
    + unfold sg_in. cbn. lia.
    + exists q. split; [done|]. apply (page_ok_same l r s); [by eapply Hok|apply (mw_pt _ _ _ _ (um_wf _ _ _ _ _ _ _ _ Hm'))| |].
      * rewrite (um_alloc _ _ _ _ _ _ _ _ Hm'). eapply footprint_alloc; [exact Hwf|by eapply held_footprint].
      * apply (Hsame _ q Hq). unfold trampoline_vpn. lia.
Qed.

(** ** The new program *)

(** What the program [elf] with [args] finds in the task [tcb] when it starts. *)
Record started l r elf_data elf args fuel (tcb : TaskControlBlock) k : Prop := {
  st_wf : ms_wf l r (mm k) (memory_set tcb);
  st_image ph v : ph ∈ loads elf → range_l (ph_range ph) ≤ v < range_r (ph_range ph) →
    ∃ q, held (memory_set tcb) v q ∧ page_at (mm k) q = sg_page (ph_segment elf_data ph) v ∧
      entry (mm k) (ms_root (memory_set tcb)) v = Some (PageTableEntry_new q (Z.lor (ph_perm ph) PTE_V));
  st_context : ∃ sp argv, sp mod 8 = 0 ∧ (end_of 0 (loads elf) + 1) * 4096 ≤ sp ≤ argv - args_size args ∧
    get_trap_cx tcb k = Ok (start_context (entry_point elf) sp (Z.of_nat (length args)) argv
      (MemorySet_token (kernel_space k)) (KernelStack_get_top (kernel_stack tcb)), k) ∧
    start_args (MemorySet_token (memory_set tcb)) fuel (Z.of_nat (length args)) argv (mm k) = Ok (args, mm k) }.

(** Dropping the old space and writing the trap context keep what was built. *)
Lemma pushed_space_started l r s0 elf_data elf args fuel ms argv sp mem s s' q cx old tcb k :
  pushed_space l r s0 elf_data elf args ms argv sp mem s → loadable elf_data elf →
  8 * (Z.of_nat (length args) + 1) + args_size args ≤ 8192 →
  Forall (λ arg, Forall (λ b, 0 < b < 256) arg ∧ utf8_valid arg = true ∧ (length arg < fuel)%nat) args →
  mm_wf l r s' → mm_pages s' = mm_pages s → allocated l (mm_alloc s') = allocated l (mm_alloc s) ∖ list_to_set old →
  (∀ x, x ∈ old → x ∈ allocated l (mm_alloc s0)) → held ms (trampoline_vpn - 1) q → page_ok s q →
  memory_set tcb = ms → trap_cx_ppn tcb = q → cx_wf cx → mm k = s' →
  cx = start_context (entry_point elf) sp (Z.of_nat (length args)) argv (MemorySet_token (kernel_space k))
    (KernelStack_get_top (kernel_stack tcb)) →
  started l r elf_data elf args fuel tcb (with_cx tcb cx k).
Proof.
  intros [Hargv Hsp [s1 Hm] Hpushed Hall Hfr Hpg Himg Hbelow _] Hload Hroom Hargs Hmm' Hpages Hal Hold Hq Hqok <- Hppn Hcx Hk Hcxe.
  set (ms := memory_set tcb) in *. pose proof (um_wf _ _ _ _ _ _ _ _ Hm) as Hwf. pose proof (args_size_pos args) as Hpos.
  assert (∀ x, page_at s' x = page_at s x) as Hat by (intros x; unfold page_at; by rewrite Hpages).
  destruct (ms_wf_kept l r s s' ms Hwf Hmm') as [Hwf' He']; [auto| |].
  { intros x Hx. rewrite Hal. apply elem_of_difference. split; [by eapply footprint_alloc|].
    intros Ho%elem_of_list_to_set. apply (Hfr x Hx). by apply Hold. }
  set (k' := with_cx tcb cx k). assert (mm k' = set_page q (page_at (mm k') q) s') as Hmk.
  { unfold k', with_cx. cbn [mm set_mm]. rewrite Hk, Hppn, page_at_set, decide_True by done. done. }
  destruct (ms_wf_set_page l r s' ms q (page_at (mm k') q) Hwf') as [Hwf2 He2]; [by eapply held_not_table|].
  rewrite <-Hmk in Hwf2, He2.
  assert (∀ v p, held ms v p → v ≠ trampoline_vpn - 1 → mm_pages (mm k') !! p = mm_pages s !! p) as Hkeep.
  { intros v p Hp Hv. rewrite Hmk. cbn. rewrite lookup_insert_ne, Hpages; [done|]. intros ->. apply Hv.
    by eapply (held_inj _ _ _ _ _ _ _ Hwf). }
  destruct (loadable_end _ _ Hload) as (He0 & Hend & _). split.
  - exact Hwf2.
  - intros ph v Hin Hv. destruct (Himg ph v Hin Hv) as (p & Hp & Hpp & He). exists p. split; [done|].
    specialize (Hbelow ph v Hin Hv). rewrite He2, He'. split; [|done]. rewrite <-Hpp. unfold page_at.
    rewrite (Hkeep v p Hp); [done|unfold trampoline_vpn; lia].
  - exists sp, argv. split; [lia|]. split; [lia|]. split.
    + assert (has_cx tcb k) as Hhas.
      { unfold has_cx, page_ok. rewrite Hppn, Hk, Hat, Hpages. exact Hqok. }
      rewrite get_trap_cx_run by (by apply has_cx_with). assert (cx_of tcb k' = cx) as -> by (by apply cx_of_with).
      by rewrite Hcxe.
    + pose proof (ms_root_bound _ _ _ _ Hwf) as Hroot.
      pose proof (usermem_move l r ms _ _ s1 mem s (mm k') Hm Hwf2) as Hm2.
      assert (usermem l r ms ((end_of 0 (loads elf) + 1) * 4096) ((end_of 0 (loads elf) + 3) * 4096) (mm k') mem (mm k')) as Hm3.
      { apply Hm2. intros va p Hva Hp. apply (Hkeep _ p Hp). unfold trampoline_vpn. lia. }
      assert (wp (start_args (MemorySet_token ms) fuel (Z.of_nat (length args)) argv) (mm k') (λ w s2, s2 = mm k' ∧ w = args)) as Hst.
      { eapply wp_start_args; [exact Hroot| | |exact Hm3| | | |exact Hpushed|exact Hargs]; lia. }
      apply wp_Ok in Hst as (w & s2 & Hst & -> & ->). exact Hst.
Qed.
End exec.

(** * Property *)

(** C24: [exec] replaces the program of a task.  For a task with a well-formed
    address space, a file the kernel can load, enough free frames and arguments
    that fit the stack, the call returns without a fault, and the task then has
    the program: its address space holds every segment of the file at its pages,
    with its permissions; the trap context it will return to user mode with has
    the entry point, an aligned stack pointer inside the two pages of the stack,
    and in [a0] and [a1] the count and the vector of the arguments, from which
    [_start] reads back exactly these arguments.  All frames of the old program
    are free again; the frames of every other owner are still theirs and hold what
    they held; of the task only the address space and the place of its trap
    context change, and nothing else in the kernel changes. *)
Theorem exec_starts_program {St : Type} `{!BlockStore St} `{!Platform} (k : Kernel St) self tcb elf_data elf args l r fuel :
  tasks k !! self = Some tcb → ms_wf l r (mm k) (memory_set tcb) → 0 ≤ ms_root (kernel_space k) < 2 ^ 44 → platform_wf →
  p_elf elf_data = Some elf → loadable elf_data elf → 0 ≤ entry_point elf < 2 ^ 64 →
  12 + 3 * pages_of (loads elf) ≤ free_frames (mm k) → 8 * (Z.of_nat (length args) + 1) + args_size args ≤ 8192 →
  Forall (λ arg, Forall (λ b, 0 < b < 256) arg ∧ utf8_valid arg = true ∧ (length arg < fuel)%nat) args →
  wp (TaskControlBlock_exec self elf_data args) k (λ _ k', ∃ tcb',
    k' = set_mm (mm k') (set_tasks (<[self := tcb']> (tasks k)) k) ∧
    tcb' = set_trap_cx_ppn (trap_cx_ppn tcb') (set_memory_set (memory_set tcb') tcb) ∧
    started l r elf_data elf args fuel tcb' k' ∧
    (∀ x, x ∈ footprint (memory_set tcb) → x ∉ allocated l (mm_alloc (mm k'))) ∧
    (∀ x, x ∈ allocated l (mm_alloc (mm k)) → x ∉ footprint (memory_set tcb) →
       x ∈ allocated l (mm_alloc (mm k')) ∧ page_at (mm k') x = page_at (mm k) x)).
Proof.
  intros Htask Hold Hks Hpf Hparse Hload Hentry Hfree Hroom Hargs. pose proof (args_size_pos args) as Hpos.
  assert (Forall (Forall is_byte) args) as Hbytes.
  { eapply Forall_impl; [exact Hargs|]. intros arg (Ha & _). eapply Forall_impl; [exact Ha|]. unfold is_byte. cbn. lia. }
  unfold TaskControlBlock_exec, from_elf. apply wp_bind, wp_zoom.
  eapply wp_mono; [by apply (build_and_push l r (mm k) elf_data elf args Hpf (pw_mm _ _ _ _ (mw_pt _ _ _ _ Hold)))|].
  intros [[ms user_sp] entry_] s1 [-> Hpush]. cbv zeta. apply wp_bind, wp_zoom. eapply wp_mono; [exact Hpush|].
  intros [argv sp] s2 (mem & Hnew). change (set_mm s2 (set_mm s1 k)) with (set_mm s2 k). set (k2 := set_mm s2 k).
  destruct (pp_trap _ _ _ _ _ _ _ _ _ _ _ Hnew) as (q & Hq & Hqok). destruct (pp_mem _ _ _ _ _ _ _ _ _ _ _ Hnew) as [s3 Hm].
  pose proof (um_wf _ _ _ _ _ _ _ _ Hm) as Hwf.
  apply wp_bind. unfold wp at 1. rewrite (trap_cx_ppn_run l r ms k2 q Hwf Hq).
  apply wp_bind. unfold wp at 1. rewrite (get_task_run self tcb k2 Htask). cbv zeta.
  assert (ms_wf l r s2 (memory_set tcb)) as Hold2.
  { apply (ms_wf_other l r (mm k)); [done|apply (mw_pt _ _ _ _ Hwf)| |apply (pp_alloc _ _ _ _ _ _ _ _ _ _ _ Hnew)].
    intros x Hx. apply (pp_same _ _ _ _ _ _ _ _ _ _ _ Hnew). eapply footprint_alloc; [exact Hold|]. apply elem_of_app. by left. }
  destruct (MemorySet_drop_run l r s2 (memory_set tcb) Hold2) as (s4 & Hdrop & Hmm4 & Hpg4 & Hal4).
  apply wp_bind, wp_zoom. unfold wp at 1. change (mm k2) with s2. rewrite Hdrop. apply wp_bind. unfold wp at 1. cbn [put_task].
  set (tcb' := set_trap_cx_ppn q (set_memory_set ms tcb)). set (k4 := set_tasks (<[self := tcb']> (tasks k)) (set_mm s4 k)).
  change (put_task self tcb' (set_mm s4 k2)) with (Ok ((), k4)). apply wp_bind. unfold wp at 1.
  change (kernel_token k4) with (Ok (MemorySet_token (kernel_space k), k4)). cbv zeta.
  cbv beta iota. set (satp := MemorySet_token (kernel_space k)). set (stack := KernelStack_get_top (kernel_stack tcb)).
  change (set_x 11 argv (set_x 10 (Z.of_nat (length args)) _)) with
    (start_context (entry_point elf) sp (Z.of_nat (length args)) argv satp stack).
  set (cx := start_context _ _ _ _ _ _).
  destruct (loadable_end _ _ Hload) as (He0 & Hend & _).
  pose proof (pp_argv _ _ _ _ _ _ _ _ _ _ _ Hnew) as Hargv. pose proof (pp_sp _ _ _ _ _ _ _ _ _ _ _ Hnew) as Hsp.
  assert (cx_wf cx) as Hcx.
  { apply start_context_wf; [done|done|lia|lia|lia|by apply token_bound|].
    unfold stack, KernelStack_get_top. cbn. apply wrap_bound. lia. }
  unfold wp. rewrite put_trap_cx_run.
  2:{ unfold has_cx, page_ok, page_at. change (mm k4) with s4. rewrite Hpg4. exact Hqok. }
  exists tcb'. split; [reflexivity|]. split; [reflexivity|]. split; [|split].
  - eapply (pushed_space_started l r (mm k) elf_data elf args fuel ms argv sp mem s2 s4 q cx (footprint (memory_set tcb)));
      try done. intros x Hx. by eapply footprint_alloc.
  - intros x Hx. change (mm_alloc (mm (with_cx tcb' cx k4))) with (mm_alloc s4). rewrite Hal4.
    intros [_ Hn]%elem_of_difference. by apply Hn, elem_of_list_to_set.
  - intros x Hx Hnx. change (mm_alloc (mm (with_cx tcb' cx k4))) with (mm_alloc s4). rewrite Hal4. split.
    + apply elem_of_difference. split; [by apply (pp_alloc _ _ _ _ _ _ _ _ _ _ _ Hnew)|]. by rewrite elem_of_list_to_set.
    + unfold with_cx. cbn [mm set_mm]. rewrite page_at_set, decide_False.
      * rewrite <-(pp_same _ _ _ _ _ _ _ _ _ _ _ Hnew x Hx). unfold page_at. change (mm k4) with s4. by rewrite Hpg4.
      * intros ->. apply (pp_fresh _ _ _ _ _ _ _ _ _ _ _ Hnew q); [by eapply held_footprint|done].
Qed.

(** * Witness: a task with an empty address space executes [cat -n] *)

Definition ex_exec_mm : Mm := MkMm (list_to_map ((λ i, (i, zero_page)) <$> seqZ 100 40)) (MkAlloc 100 140 []).
Definition ex_exec_platform : Platform :=
  {| p_symbols := ex_symbols; p_elf := λ _, Some ex_elf; p_sstatus := 0x20; p_trap_handler := 0x80201000; p_fuel := 100 |}.
Definition ex_exec_task (ms : MemorySet) : TaskControlBlock :=
  MkTask 1 1 0 0 16 0 TaskContext_zero_init Running ms None [] 0 [] 0 0 (-1) SignalActions_default false false None.
Definition ex_exec_kernel (ms : MemorySet) (s : Mm) : Kernel Flat :=
  MkKernel s (MkMemorySet (MkPageTable 0 []) []) (MkFlat ∅ ∅ false) None PidAllocator_new {[7%nat := ex_exec_task ms]} ∅ ∅ 8
    (MkTaskManager ∅ StrideScheduler_new) (Some 7%nat) None [] [] 0 0.
#[local] Existing Instance Flat_store.
#[local] Existing Instance ex_exec_platform.

Lemma ex_exec_mm_wf : mm_wf 100 140 ex_exec_mm.
Proof.
  split; [split; cbn; [lia|constructor|constructor]|].
  intros p Hp. cbn [mm_pages ex_exec_mm]. apply elem_of_dom. rewrite dom_list_to_map_L.
  apply elem_of_list_to_set, list_elem_of_fmap. exists (p, zero_page). split; [done|].
  apply list_elem_of_fmap. exists p. split; [done|]. apply elem_of_seqZ. lia.
Qed.
Lemma ex_exec_space : ∃ ms s, ms_wf 100 140 s ms ∧ free_frames s = 39.
Proof.
  destruct (PageTable_new_spec 100 140 ex_exec_mm ex_exec_mm_wf ltac:(vm_compute; reflexivity))
    as (p & s & _ & Hwf & _ & _ & _ & Hf & _ & _).
  exists (MkMemorySet (MkPageTable p [p]) []), s. split; [|rewrite Hf; reflexivity].
  split; cbn; [done|by apply NoDup_singleton|constructor| |]; intros a v q Ha; by apply not_elem_of_nil in Ha.
Qed.
Lemma exec_starts_program_witness :
  ∃ ms s, wp (TaskControlBlock_exec 7 ex_elf_data [[99; 97; 116]; [45; 110]]) (ex_exec_kernel ms s) (λ _ k',
    ∃ tcb', tasks k' !! 7%nat = Some tcb' ∧ started 100 140 ex_elf_data ex_elf [[99; 97; 116]; [45; 110]] 100 tcb' k').
Proof.
  destruct ex_exec_space as (ms & s & Hwf & Hfree). exists ms, s.
  eapply wp_mono.
  - apply (exec_starts_program (ex_exec_kernel ms s) 7 (ex_exec_task ms) ex_elf_data ex_elf [[99; 97; 116]; [45; 110]] 100 140 100).
    + reflexivity.
    + exact Hwf.
    + cbn. lia.
    + split; cbn; lia.
    + reflexivity.
    + exact ex_elf_loadable.
    + cbn. lia.
    + change (mm (ex_exec_kernel ms s)) with s. rewrite Hfree. vm_compute. discriminate.
    + cbn. lia.
    + repeat constructor; cbn; lia.
  - intros [] k' (tcb' & Hk' & _ & Hst & _). exists tcb'. split; [|exact Hst]. rewrite Hk'. apply lookup_insert_eq.
Defined.
