(* ===== verification/Scenario.v ===== *)
(** A machine that boots: a disk made by [EasyFileSystem::create] with one
    program on it, a few sections for the kernel, half a megabyte of frames.
    The runs below go through the whole kernel: boot, scheduling, system calls,
    address spaces, the file system. *)

From S2P Require Export Trap.

Definition initproc_name : list Z := [105; 110; 105; 116; 112; 114; 111; 99].
(** A blank disk of 1300 blocks, a file system on it, the file [initproc]. *)
Definition blank_disk : Flat := MkFlat (list_to_map ((λ i, (i, zblock)) <$> seqZ 0 1300)) ∅ false.
Definition make_disk : M Flat () :=
  efs ← EasyFileSystem_create 1300 1;
  root ← EasyFileSystem_root_inode efs;
  inode ← Inode_create efs root initproc_name;
  inode ← unwrap inode;
  _ ← Inode_write_at efs inode 0 [0x13; 0; 0; 0; 0x73; 0; 0; 0];
  mret ().
Definition ex_boot_disk : Flat := match make_disk blank_disk with Ok (_, d) => d | Fail _ => blank_disk end.

(** One loadable segment of eight bytes at [0x10000]. *)
Definition ex_elf : ElfFile :=
  MkElfFile [0x7f; 0x45; 0x4c; 0x46] 1 (λ _, Some (MkProgramHeader (Some true) 0x10000 0x1000 0 8 true true true))
    0x10000.
Definition ex_platform : Platform := {|
  p_symbols := MkSymbols 0x80200000 0x80201000 0x80201000 0x80202000 0x80202000 0x80203000 0x80203000 0x80204000
                 0x80780000 0x80200000;
  p_elf := λ _, Some ex_elf;
  p_sstatus := 0;
  p_trap_handler := 0x80200100;
  p_fuel := 64 |}.
Definition ex_memory : gmap Z page := list_to_map ((λ i, (i, zero_page)) <$> seqZ 0x80780 128).
Definition ex_power_on : Kernel Flat := Kernel_boot ex_memory ex_boot_disk (MkMemorySet (MkPageTable 0 []) []).

#[local] Existing Instance ex_platform.

(** The registers of a user program about to make a system call. *)
Definition call_registers (n a0 a1 a2 : Z) : list Z :=
  <[17%nat := n]> (<[10%nat := a0]> (<[11%nat := a1]> (<[12%nat := a2]> (replicate 32 0)))).
Definition call (n a0 a1 a2 : Z) : M (Kernel Flat) (flow ()) :=
  user_registers (call_registers n a0 a1 a2) 0x10000 0;; trap_handler UserEnvCall.

Definition after_boot : M (Kernel Flat) (flow ()) := rust_main;; run_tasks_step.
(** A user word of four bytes and the register [a0] of the current task. *)
Definition peek (va : Z) : M (Kernel Flat) Z :=
  token ← current_user_token; pa ← in_mm (translated_ref token va); in_mm (read_le 4 pa).
Definition get_a0 : M (Kernel Flat) Z := cx ← current_trap_cx; mret (tc_x cx !!! 10%nat).
Definition result {A} (m : M (Kernel Flat) A) : option A :=
  match m ex_power_on with Ok (a, _) => Some a | Fail _ => None end.

(** [fork]; the parent yields, the child exits with 7, the parent waits and
    finds the child's pid and exit code. *)
Example fork_exit_wait :
  result (after_boot;; call SYSCALL_FORK 0 0 0;; call SYSCALL_YIELD 0 0 0;; run_tasks_step;;
    call SYSCALL_EXIT 7 0 0;; run_tasks_step;; call SYSCALL_WAITPID (2 ^ 64 - 1) 0x13000 0;;
    p ← get_a0; code ← peek 0x13000; mret (p, code)) = Some (1, 7).
Proof. vm_compute. reflexivity. Qed.

(** A pipe between parent and child: the child writes six bytes, the
    parent, which waited, reads four of them. *)
Example pipe_between_processes :
  result (after_boot;; call SYSCALL_PIPE 0x13000 0 0;; rfd ← peek 0x13000; wfd ← peek 0x13008;
    call SYSCALL_FORK 0 0 0;; call SYSCALL_READ rfd 0x13100 4;; run_tasks_step;;
    call SYSCALL_WRITE wfd 0x10000 6;; call SYSCALL_YIELD 0 0 0;; run_tasks_step;;
    n ← get_a0; w ← peek 0x13100; mret (rfd, wfd, n, w)) = Some (3, 4, 4, 0x13).
Proof. vm_compute. reflexivity. Qed.

(** A reader that takes exactly what was written stays suspended as long as a
    write end is open: the loop of [Pipe::read] looks at the ring buffer before it
    looks at the user buffer. *)
Example pipe_read_of_all_waits :
  result (after_boot;; call SYSCALL_PIPE 0x13000 0 0;; call SYSCALL_FORK 0 0 0;; call SYSCALL_READ 3 0x13100 4;;
    run_tasks_step;; call SYSCALL_WRITE 4 0x10000 4;; call SYSCALL_YIELD 0 0 0;;
    run_tasks_step) = Some Switched.
Proof. vm_compute. reflexivity. Qed.
