(* ===== verification/SchedInv.v ===== *)
(** The scheduling invariant of the kernel: tasks, pids, the ready queue, the
    heap of the stride scheduler and the processor agree.  It is stated on the
    part of the kernel's state it depends on, and preserved by the moves the
    kernel makes there. *)

From S2P Require Export Trap.

(** What scheduling reads of a task. *)
Record task_attrs : Type := MkAttrs {
  a_pid : Z; a_priority : Z; a_pass : Z; a_status : TaskStatus; a_children : list nat }.
Definition attrs (tcb : TaskControlBlock) : task_attrs :=
  MkAttrs (pid tcb) (priority tcb) (task_pass tcb) (task_status tcb) (children tcb).
Definition with_status (s : TaskStatus) (a : task_attrs) : task_attrs :=
  MkAttrs (a_pid a) (a_priority a) (a_pass a) s (a_children a).
Definition with_pass (p : Z) (a : task_attrs) : task_attrs :=
  MkAttrs (a_pid a) (a_priority a) p (a_status a) (a_children a).

Record core : Type := MkCore {
  c_pids : PidAllocator;
  c_tasks : gmap nat task_attrs;
  c_ready : gmap Z nat;
  c_sched : StrideScheduler;
  c_processor : option nat;
  c_init : option nat }.
Definition core_of {St} (k : Kernel St) : core :=
  MkCore (pids k) (attrs <$> tasks k) (ready_queue (manager k)) (scheduler (manager k)) (processor k) (initproc k).

(** The moves. *)
Definition core_put (t : nat) (a : task_attrs) (c : core) : core :=
  MkCore (c_pids c) (<[t := a]> (c_tasks c)) (c_ready c) (c_sched c) (c_processor c) (c_init c).
Definition core_current (p : option nat) (c : core) : core :=
  MkCore (c_pids c) (c_tasks c) (c_ready c) (c_sched c) p (c_init c).
Definition core_drop (t : nat) (pids' : PidAllocator) (c : core) : core :=
  MkCore pids' (delete t (c_tasks c)) (c_ready c) (c_sched c) (c_processor c) (c_init c).
Definition core_add (t : nat) (a : task_attrs) (c : core) : core :=
  let p := a_pass a +₆₄ BIG_STRIDE / a_priority a in
  MkCore (c_pids c) (<[t := with_pass p a]> (c_tasks c)) (<[a_pid a := t]> (c_ready c))
    (StrideScheduler_insert_task (c_sched c) (a_pid a) p) (c_processor c) (c_init c).
Definition core_fetch (p : Z) (s : StrideScheduler) (c : core) : core :=
  MkCore (c_pids c) (c_tasks c) (delete p (c_ready c)) s (c_processor c) (c_init c).
Definition core_pids (a : PidAllocator) (c : core) : core :=
  MkCore a (c_tasks c) (c_ready c) (c_sched c) (c_processor c) (c_init c).

(** [X] is a task between two places: it is on no queue and not current. *)
Record core_inv (X : option nat) (c : core) : Prop := {
  ci_pids : pids_wf (c_pids c);
  ci_live t a : c_tasks c !! t = Some a → a_pid a ∈ live_pids (c_pids c);
  ci_inj t1 t2 a1 a2 : c_tasks c !! t1 = Some a1 → c_tasks c !! t2 = Some a2 → a_pid a1 = a_pid a2 → t1 = t2;
  ci_prio t a : c_tasks c !! t = Some a → 2 ≤ a_priority a < 2 ^ 63;
  ci_children t a ch : c_tasks c !! t = Some a → ch ∈ a_children a → is_Some (c_tasks c !! ch);
  ci_init : ∃ t, c_init c = Some t ∧ is_Some (c_tasks c !! t);
  ci_ready p t : c_ready c !! p = Some t ↔
    ∃ a, c_tasks c !! t = Some a ∧ a_pid a = p ∧ a_status a = Ready ∧ X ≠ Some t;
  ci_current t : c_processor c = Some t ↔
    ∃ a, c_tasks c !! t = Some a ∧ a_status a = Running ∧ X ≠ Some t;
  ci_nodup : NoDup (id <$> queue (c_sched c));
  ci_heap s : s ∈ queue (c_sched c) ↔
    ∃ t a, c_ready c !! id s = Some t ∧ c_tasks c !! t = Some a ∧ a_pass a = pass s;
  ci_window : ∃ base, sched_wf base (c_sched c) ∧
    ∀ t a, c_processor c = Some t ∨ X = Some t → c_tasks c !! t = Some a → a_pass a = base }.

Section core.
Implicit Types c : core.

Lemma exists_insert (m : gmap nat task_attrs) t a a' t' (P : task_attrs → Prop) :
  m !! t = Some a → (t' = t → P a ↔ P a') →
  (∃ b, m !! t' = Some b ∧ P b) ↔ (∃ b, <[t := a']> m !! t' = Some b ∧ P b).
Proof.
  intros Ht HP. destruct (decide (t' = t)) as [->|Hne].
  - rewrite lookup_insert_eq, Ht. specialize (HP eq_refl). naive_solver.
  - by rewrite lookup_insert_ne.
Qed.
Lemma is_Some_insert (m : gmap nat task_attrs) t a t' : is_Some (m !! t') → is_Some (<[t := a]> m !! t').
Proof. rewrite lookup_insert_is_Some. destruct (decide (t = t')); [by left|by right]. Qed.

(** An assignment to a task that leaves its pid and its place alone. *)
Lemma core_inv_update X c t a a' :
  core_inv X c → c_tasks c !! t = Some a → a_pid a' = a_pid a → 2 ≤ a_priority a' < 2 ^ 63 →
  a_pass a' = a_pass a → (a_status a' = a_status a ∨ X = Some t) →
  (∀ ch, ch ∈ a_children a' → is_Some (c_tasks c !! ch)) →
  core_inv X (core_put t a' c).
Proof.
  intros [] Ht Hpid Hpr Hpass Hst Hch.
  assert (∀ t' b, <[t:=a']> (c_tasks c) !! t' = Some b →
    ∃ b', c_tasks c !! t' = Some b' ∧ a_pid b' = a_pid b ∧ a_pass b' = a_pass b) as Hold.
  { intros t' b. rewrite lookup_insert_Some. intros [[<- <-]|[? ?]]; [by exists a|by exists b]. }
  split; cbn; [done|..].
  - intros t' b (b' & Hb & <- & _)%Hold. by eapply ci_live0.
  - intros t1 t2 a1 a2 (b1 & H1 & E1 & _)%Hold (b2 & H2 & E2 & _)%Hold He. eapply ci_inj0; [done..|congruence].
  - intros t' b. rewrite lookup_insert_Some. intros [[<- <-]|[? ?]]; [done|by eapply ci_prio0].
  - intros t' b ch. rewrite lookup_insert_Some. intros [[<- <-]|[? Hb]] Hin; apply is_Some_insert; [by apply Hch|].
    by eapply ci_children0.
  - destruct ci_init0 as (i & ? & ?). exists i. split; [done|]. by apply is_Some_insert.
  - intros p t'. rewrite ci_ready0. apply (exists_insert _ _ a); [done|]. intros ->. rewrite Hpid. destruct Hst as [->| ->]; naive_solver.
  - intros t'. rewrite ci_current0. apply (exists_insert _ _ a); [done|]. intros ->. destruct Hst as [->| ->]; naive_solver.
  - done.
  - intros s. rewrite ci_heap0. split; intros (t' & H); exists t'; revert H.
    + intros (b & Hr & H). destruct (proj1 (exists_insert _ t a a' t' (λ b, a_pass b = pass s) Ht ltac:(intros _; cbn; by rewrite Hpass)))
        as (b' & ?); [by exists b|]. by exists b'.
    + intros (b & Hr & (b' & ? & _ & <-)%Hold & <-). by exists b'.
  - destruct ci_window0 as (base & Hw & Hb). exists base. split; [done|]. intros t' b Hx (b' & ? & _ & <-)%Hold. by eapply Hb.
Qed.

(** [take_current_task] *)
Lemma core_inv_take c t :
  core_inv None c → c_processor c = Some t →
  core_inv (Some t) (core_current None c).
Proof.
  intros [] Ht. pose proof (proj1 (ci_current0 t) Ht) as (a & Ha & Hrun & _). split; cbn; [done..| | |done|done|].
  - intros p t'. rewrite ci_ready0. split; intros (b & ? & ? & Hs & HX); exists b; split_and!; try done. intros [= <-]. congruence.
  - intros t'. split; [done|]. intros (b & Hb & Hs & HX). assert (c_processor c = Some t') as H; [|congruence].
    apply ci_current0. by exists b.
  - destruct ci_window0 as (base & Hw & Hb). exists base. split; [done|]. intros t' b [?|[= <-]]; [done|]. by apply Hb; left.
Qed.

(** A task that is neither [Ready] nor [Running] is in its place nowhere. *)
Lemma core_inv_release c t a :
  core_inv (Some t) c → c_tasks c !! t = Some a → a_status a ≠ Ready → a_status a ≠ Running → core_inv None c.
Proof.
  intros [] Ht H1 H2. split; try done.
  - intros p t'. rewrite ci_ready0. split; intros (b & ? & ? & Hs & HX); exists b; split_and!; try done. intros [= <-]. congruence.
  - intros t'. rewrite ci_current0. split; intros (b & ? & Hs & HX); exists b; split_and!; try done. intros [= <-]. congruence.
  - destruct ci_window0 as (base & Hw & Hb). exists base. split; [done|]. intros t' b [?|?]; [|done]. apply Hb. by left.
Qed.

(** A task between two places becomes current. *)
Lemma core_inv_run c t a :
  core_inv (Some t) c → c_tasks c !! t = Some a → a_status a = Running → c_processor c = None →
  core_inv None (core_current (Some t) c).
Proof.
  intros [] Ht Hs Hp. split; cbn; [done..| | |done|done|].
  - intros p t'. rewrite ci_ready0. split; intros (b & ? & ? & Hs' & HX); exists b; split_and!; try done. intros [= <-]. congruence.
  - intros t'. split.
    + intros [= <-]. by exists a.
    + intros (b & Hb & Hs' & _). destruct (decide (t = t')) as [|Hne]; [congruence|].
      assert (c_processor c = Some t') as H; [|congruence]. apply ci_current0. exists b. split_and!; congruence.
  - destruct ci_window0 as (base & Hw & Hb). exists base. split; [done|]. intros t' b [[= <-]|?]; [|done]. apply Hb. by right.
Qed.

(** A new task, with a pid of its own and the pass of the current task. *)
Lemma core_inv_create c t a :
  core_inv None c → c_tasks c !! t = None → a_pid a ∈ live_pids (c_pids c) →
  (∀ t' b, c_tasks c !! t' = Some b → a_pid b ≠ a_pid a) → 2 ≤ a_priority a < 2 ^ 63 → a_children a = [] →
  (∃ cur b, c_processor c = Some cur ∧ c_tasks c !! cur = Some b ∧ a_pass a = a_pass b) →
  core_inv (Some t) (core_put t a c).
Proof.
  intros [] Ht Hlive Hfresh Hpr Hch (cur & b0 & Hcur & Hb0 & Hpass).
  assert (∀ t' b, <[t := a]> (c_tasks c) !! t' = Some b ∧ Some t ≠ Some t' ↔ c_tasks c !! t' = Some b) as Hne.
  { intros t' b. rewrite lookup_insert_Some. split; [naive_solver|]. intros Hb. assert (t ≠ t') by congruence. naive_solver. }
  split; cbn; [done|..].
  - intros t' b. rewrite lookup_insert_Some. intros [[<- <-]|[? ?]]; [done|by eapply ci_live0].
  - intros t1 t2 a1 a2. rewrite !lookup_insert_Some. intros [[<- <-]|[? H1]] [[<- <-]|[? H2]] He; [done| | |by eapply ci_inj0].
    + exfalso. by apply (Hfresh t2 a2).
    + exfalso. by apply (Hfresh t1 a1).
  - intros t' b. rewrite lookup_insert_Some. intros [[<- <-]|[? ?]]; [done|by eapply ci_prio0].
  - intros t' b ch. rewrite lookup_insert_Some. intros [[<- <-]|[? Hb]] Hin; [rewrite Hch in Hin; by apply not_elem_of_nil in Hin|].
    apply is_Some_insert. by eapply ci_children0.
  - destruct ci_init0 as (i & ? & ?). exists i. split; [done|]. by apply is_Some_insert.
  - intros p t'. rewrite ci_ready0. split; intros (b & Hb); exists b; specialize (Hne t' b); naive_solver.
  - intros t'. rewrite ci_current0. split; intros (b & Hb); exists b; specialize (Hne t' b); naive_solver.
  - done.
  - intros s. rewrite ci_heap0. split; intros (t' & b & Hr & Hb & Hs); exists t', b; (split; [done|]); split; try done.
    + by apply Hne.
    + apply ci_ready0 in Hr as (b' & Hb' & _). apply Hne in Hb' as [? ?]. by apply Hne.
  - destruct ci_window0 as (base & Hw & Hb). exists base. split; [done|]. intros t' b [Hx|[= <-]].
    + rewrite lookup_insert_ne by congruence. apply Hb. by left.
    + rewrite lookup_insert_eq. intros [= <-]. rewrite Hpass. apply (Hb cur); [by left|done].
Qed.

(** A task without a place whose pid goes back with it. *)
Lemma core_inv_drop c t a pids' :
  core_inv None c → c_tasks c !! t = Some a → a_status a = Zombie →
  (∀ t' b, c_tasks c !! t' = Some b → t ∉ a_children b) → c_init c ≠ Some t →
  pids_wf pids' → live_pids pids' = live_pids (c_pids c) ∖ {[a_pid a]} →
  core_inv None (core_drop t pids' c).
Proof.
  intros [] Ht Hz Hnoch Hni Hwf Hlive.
  assert (∀ t' b, a_status b ≠ Zombie → c_tasks c !! t' = Some b ↔ delete t (c_tasks c) !! t' = Some b) as Hne.
  { intros t' b Hs. rewrite lookup_delete_Some. split; [|naive_solver]. intros Hb. split; [congruence|done]. }
  split; cbn; [done|..].
  - intros t' b [Htt Hb]%lookup_delete_Some. rewrite Hlive, elem_of_difference, elem_of_singleton.
    split; [by eapply ci_live0|]. intros He. apply Htt. eapply ci_inj0; [done..|by rewrite He].
  - intros t1 t2 a1 a2 [_ ?]%lookup_delete_Some [_ ?]%lookup_delete_Some. by eapply ci_inj0.
  - intros t' b [_ ?]%lookup_delete_Some. by eapply ci_prio0.
  - intros t' b ch [_ Hb]%lookup_delete_Some Hin. rewrite lookup_delete_is_Some. split; [|by eapply ci_children0].
    intros <-. by apply (Hnoch t' b).
  - destruct ci_init0 as (i & Hi & ?). exists i. split; [done|]. rewrite lookup_delete_is_Some. split; [congruence|done].
  - intros p t'. rewrite ci_ready0. split; intros (b & Hb & Hp & Hs & HX); exists b; (split; [|done]); by apply Hne; [rewrite Hs|].
  - intros t'. rewrite ci_current0. split; intros (b & Hb & Hs & HX); exists b; (split; [|done]); by apply Hne; [rewrite Hs|].
  - done.
  - intros s. rewrite ci_heap0. split; intros (t' & b & Hr & Hb & Hs); exists t', b; split_and!; try done.
    + apply ci_ready0 in Hr as (b' & Hb' & _ & Hs' & _). simplify_eq. apply Hne; [by rewrite Hs'|done].
    + by apply lookup_delete_Some in Hb as [_ ?].
  - destruct ci_window0 as (base & Hw & Hb). exists base. split; [done|]. intros t' b Hx [_ ?]%lookup_delete_Some. by eapply Hb.
Qed.
(** More live pids. *)
Lemma core_inv_pids X c a :
  core_inv X c → pids_wf a → live_pids (c_pids c) ⊆ live_pids a → core_inv X (core_pids a c).
Proof. intros [] Hwf Hsub. split; try done. intros t b Hb. cbn. apply Hsub. by eapply ci_live0. Qed.

(** [TaskManager::add] of a task between two places. *)
Lemma core_inv_add c t a :
  core_inv (Some t) c → c_tasks c !! t = Some a → a_status a = Ready →
  core_inv None (core_add t a c).
Proof.
  intros [] Ht Hs. set (p := a_pass a +₆₄ BIG_STRIDE / a_priority a).
  destruct ci_window0 as (base & Hw & Hbase). assert (a_pass a = base) as Hpb by (apply (Hbase t); [by right|done]).
  pose proof (stride_inc _ (ci_prio0 t a Ht)) as Hinc.
  destruct (insert_task_spec base (c_sched c) (a_pid a) (BIG_STRIDE / a_priority a) Hw ltac:(lia)) as [Hw' Hq].
  rewrite <-Hpb in Hw', Hq. fold p in Hw', Hq.
  assert (∀ t' b, <[t:=with_pass p a]> (c_tasks c) !! t' = Some b →
    ∃ b', c_tasks c !! t' = Some b' ∧ a_pid b' = a_pid b ∧ a_priority b' = a_priority b ∧ a_children b' = a_children b ∧
      (t' ≠ t → b' = b)) as Hold.
  { intros t' b. rewrite lookup_insert_Some. intros [[<- <-]|[? ?]]; [by exists a|by exists b]. }
  assert (c_ready c !! a_pid a = None) as Hnone.
  { destruct (c_ready c !! a_pid a) as [t'|] eqn:E; [|done]. exfalso.
    apply ci_ready0 in E as (b & Hb & Hp & _ & HX). apply HX. f_equal. by eapply ci_inj0. }
  assert (∀ t', Some t = Some t' ↔ t' = t) as HX by naive_solver.
  split; cbn [core_add c_pids c_tasks c_ready c_sched c_processor c_init]; fold p; [done|..].
  - intros t' b (b' & Hb & <- & _)%Hold. by eapply ci_live0.
  - intros t1 t2 a1 a2 (b1 & H1 & E1 & _)%Hold (b2 & H2 & E2 & _)%Hold He. eapply ci_inj0; [done..|congruence].
  - intros t' b (b' & Hb & _ & <- & _)%Hold. by eapply ci_prio0.
  - intros t' b ch (b' & Hb & _ & _ & <- & _)%Hold Hin. apply is_Some_insert. by eapply ci_children0.
  - destruct ci_init0 as (i & ? & ?). exists i. split; [done|]. by apply is_Some_insert.
  - intros q t'. rewrite lookup_insert_Some, ci_ready0. split.
    + intros [[<- <-]|[Hne (b & Hb & Hp & Hst & HX')]]; [rewrite lookup_insert_eq; by eexists|].
      rewrite HX in HX'. exists b. by rewrite lookup_insert_ne by congruence.
    + intros (b & Hb & Hp & Hst & _). apply lookup_insert_Some in Hb as [[<- <-]|[Hne Hb]]; [by left|].
      right. split; [intros He; apply Hne; eapply ci_inj0; [done..|congruence]|]. exists b. rewrite HX. naive_solver.
  - intros t'. rewrite ci_current0. split.
    + intros (b & Hb & Hst & HX'). rewrite HX in HX'. exists b. by rewrite lookup_insert_ne by congruence.
    + intros (b & Hb & Hst & _). apply lookup_insert_Some in Hb as [[<- <-]|[Hne Hb]]; [by cbn in Hst; rewrite Hs in Hst|].
      exists b. rewrite HX. naive_solver.
  - rewrite Hq. cbn. constructor; [|done]. rewrite list_elem_of_fmap. intros (s & Hid & Hin).
    apply ci_heap0 in Hin as (t' & b & Hr & _). rewrite <-Hid, Hnone in Hr. done.
  - intros s. rewrite Hq, elem_of_cons, ci_heap0. split.
    + intros [->|(t' & b & Hr & Hb & Hp)]; cbn [id pass]; [exists t, (with_pass p a); by rewrite !lookup_insert_eq|].
      exists t', b. pose proof (proj1 (ci_ready0 _ _) Hr) as (b' & _ & _ & _ & HX'). rewrite HX in HX'.
      rewrite !lookup_insert_ne; [done|congruence|]. intros He. rewrite <-He, Hnone in Hr. done.
    + intros (t' & b & Hr & Hb & Hp). apply lookup_insert_Some in Hr as [[Hid <-]|[Hid Hr]].
      * rewrite lookup_insert_eq in Hb. injection Hb as <-. left. destruct s. cbn in *. congruence.
      * right. exists t', b. pose proof (proj1 (ci_ready0 _ _) Hr) as (b' & _ & _ & _ & HX'). rewrite HX in HX'.
        rewrite lookup_insert_ne in Hb by congruence. done.
  - exists (a_pass a). split; [done|]. intros t' b [Hc|?] (b' & Hb & _ & _ & _ & He)%Hold; [|done].
    assert (t' ≠ t). { apply ci_current0 in Hc as (? & _ & _ & HX'). by rewrite HX in HX'. }
    rewrite <-He, Hpb by done. apply (Hbase t'); [by left|done].
Qed.

(** [TaskManager::fetch] on an idle processor: the first stride that leaves the
    heap belongs to a queued task, one with the least pass. *)
Lemma core_inv_fetch c :
  core_inv None c → c_processor c = None →
  match StrideScheduler_find_next_task (c_sched c) with
  | (None, s) => c_ready c = ∅ ∧ s = c_sched c
  | (Some i, s) => ∃ t a base, c_ready c !! i = Some t ∧ c_tasks c !! t = Some a ∧ a_pid a = i ∧ a_status a = Ready ∧
      sched_wf base (c_sched c) ∧
      (∀ q t' b, c_ready c !! q = Some t' → c_tasks c !! t' = Some b →
        (a_pass a - base) mod 2 ^ 64 ≤ (a_pass b - base) mod 2 ^ 64) ∧
      core_inv (Some t) (core_fetch i s c)
  end.
Proof.
  intros [] Hidle. destruct ci_window0 as (base & Hw & Hbase). unfold StrideScheduler_find_next_task.
  pose proof (find_next_task_spec base _ Hw) as Hpop.
  destruct (BinaryHeap_pop Stride_le (queue (c_sched c))) as [[x|] q].
  2: { destruct Hpop as [Hq ->]. split; [|rewrite <-Hq; by destruct (c_sched c)].
       apply map_eq. intros p. rewrite lookup_empty. destruct (c_ready c !! p) as [t|] eqn:E; [|done]. exfalso.
       pose proof (proj1 (ci_ready0 _ _) E) as (a & Ha & _).
       assert (MkStride p (a_pass a) ∈ queue (c_sched c)) as Hin by (apply ci_heap0; by exists t, a).
       rewrite Hq in Hin. by apply not_elem_of_nil in Hin. }
  destruct Hpop as (Hperm & Hmin & Hw').
  assert (x ∈ queue (c_sched c)) as Hx by (rewrite <-Hperm; by left).
  apply ci_heap0 in Hx as (t & a & Hr & Ha & Hp). pose proof (proj1 (ci_ready0 _ _) Hr) as (a' & ? & Hpid & Hst & _).
  simplify_eq. exists t, a, base. split_and!; try done.
  { intros i t' b Hri Hb. rewrite Forall_forall in Hmin. rewrite Hp.
    apply (Hmin (MkStride i (a_pass b))). apply ci_heap0. by exists t', b. }
  assert (∀ t', Some t = Some t' ↔ t' = t) as HX by naive_solver.
  rewrite <-Hperm in ci_nodup0. apply NoDup_cons in ci_nodup0 as [Hnx Hnd].
  split; cbn [core_fetch c_pids c_tasks c_ready c_sched c_processor c_init queue]; try done.
  - intros i t'. rewrite lookup_delete_Some, ci_ready0. setoid_rewrite HX. split.
    + intros (Hne & b & Hb & Hpb & Hsb & _). exists b. split_and!; [done..|]. intros ->. simplify_eq.
    + intros (b & Hb & Hpb & Hsb & Hne). split; [|by exists b]. intros He. apply Hne. eapply ci_inj0; [done..|congruence].
  - intros t'. rewrite Hidle. split; [done|]. intros (b & Hb & Hs' & _).
    assert (c_processor c = Some t') as H; [|congruence]. apply ci_current0. by exists b.
  - intros s. assert (s ∈ q ↔ s ∈ queue (c_sched c) ∧ id s ≠ id x) as ->.
    { rewrite <-Hperm, elem_of_cons. split.
      - intros Hs. split; [by right|]. intros He. apply Hnx. apply list_elem_of_fmap. by exists s.
      - intros [[->|?] ?]; done. }
    rewrite ci_heap0. split.
    + intros [(t' & b & Hrb & ?) Hne]. exists t', b. by rewrite lookup_delete_ne by congruence.
    + intros (t' & b & [Hne ?]%lookup_delete_Some & ?). split; [by exists t', b|congruence].
  - exists (pass x). split; [done|]. intros t' b [?|[= <-]] Hb; [congruence|]. congruence.
Qed.
End core.
