(* ===== verification/KernelInv.v ===== *)
(** Every step of the machine keeps the scheduling invariant: rules for the
    kernel's computations, the calls that leave scheduling alone, and those
    that move tasks. *)

From S2P Require Export FrameOwner SchedInv.

(** * Computations that leave scheduling alone *)

Inductive view : Set := Scheduling | Frames.

Section evolves.
Context {St : Type}.
Implicit Types k : Kernel St.

(** What an invariant may depend on: the tables scheduling reads, or the address
    spaces with the frame allocator. *)
Definition frames_of k : MemorySet * gmap nat MemorySet * StackFrameAllocator :=
  (kernel_space k, memory_set <$> tasks k, mm_alloc (mm k)).
Definition same (v : view) k0 k : Prop :=
  match v with
  | Scheduling => core_of k = core_of k0
  | Frames => frames_of k = frames_of k0
  end.
Definition evolves v k0 k : Prop := same v k0 k ∧ (next_object k0 ≤ next_object k)%nat.

Lemma evolves_refl v k : evolves v k k.
Proof. by destruct v. Qed.
Lemma evolves_trans v k1 k2 k3 : evolves v k1 k2 → evolves v k2 k3 → evolves v k1 k3.
Proof. intros [H1 H2] [H3 H4]. split; [|lia]. destruct v; cbn in *; congruence. Qed.
Lemma core_of_task k t : c_tasks (core_of k) !! t = attrs <$> tasks k !! t.
Proof. apply lookup_fmap. Qed.
(** What the invariant sees of the task [t] is the one of [tcb]. *)
Definition seen (v : view) k0 (t : nat) (tcb : TaskControlBlock) : Prop :=
  match v with
  | Scheduling => c_tasks (core_of k0) !! t = Some (attrs tcb)
  | Frames => (frames_of k0).1.2 !! t = Some (memory_set tcb)
  end.
Lemma seen_task v k0 k t tcb : same v k0 k → tasks k !! t = Some tcb → seen v k0 t tcb.
Proof. destruct v; cbn [same seen]; intros <- Ht; cbn; by rewrite lookup_fmap, Ht. Qed.
Definition alike (v : view) (tcb tcb' : TaskControlBlock) : Prop :=
  match v with Scheduling => attrs tcb' = attrs tcb | Frames => memory_set tcb' = memory_set tcb end.
Lemma seen_update v k0 t tcb tcb' : seen v k0 t tcb → alike v tcb tcb' → seen v k0 t tcb'.
Proof. destruct v; cbn [seen alike]; intros Ht E; by rewrite E. Qed.

(** From a state that [k0] evolved to, [m] leads to another one. *)
Definition stays v k0 {A} (m : M (Kernel St) A) : Prop := hoare (evolves v k0) m (λ _, evolves v k0).
Definition quiet v {A} (m : M (Kernel St) A) : Prop := ∀ k a k', m k = Ok (a, k') → evolves v k k'.

Lemma stays_quiet v k0 {A} (m : M (Kernel St) A) : quiet v m → stays v k0 m.
Proof. intros Hm k a k' Hk Hrun. eapply evolves_trans; [done|]. by eapply Hm. Qed.
Lemma stays_ret v k0 {A} (a : A) : stays v k0 (mret a).
Proof. by apply hoare_ret. Qed.
Lemma stays_bind v k0 {A B} (m : M (Kernel St) A) (f : A → M (Kernel St) B) :
  stays v k0 m → (∀ a, stays v k0 (f a)) → stays v k0 (m ≫= f).
Proof. intros Hm Hf. by eapply hoare_bind. Qed.
Lemma stays_mfold v k0 {A B} (f : A → B → M (Kernel St) B) l b :
  (∀ x b, stays v k0 (f x b)) → stays v k0 (mfold f l b).
Proof. apply hoare_mfold. Qed.
Lemma stays_mfor v k0 {A} (f : A → M (Kernel St) ()) l : (∀ x, stays v k0 (f x)) → stays v k0 (mfor f l).
Proof. intros Hf. by apply stays_mfold. Qed.
Lemma stays_mloop v k0 {A B} (body : A → M (Kernel St) (A + B)) n a :
  (∀ a, stays v k0 (body a)) → stays v k0 (mloop n body a).
Proof. intros Hb. apply hoare_mloop. intros a'. eapply hoare_mono; [apply Hb|done|]. by intros [?|?]. Qed.
Lemma stays_mfind v k0 {A B} (f : A → M (Kernel St) (option B)) l :
  (∀ x, stays v k0 (f x)) → stays v k0 (mfind f l).
Proof.
  intros Hf. induction l as [|x l IH]; [apply stays_ret|]. apply stays_bind; [apply Hf|].
  intros [b|]; [apply stays_ret|apply IH].
Qed.
Lemma stays_gets v k0 {A} (f : Kernel St → A) : stays v k0 (gets f).
Proof. by apply hoare_gets. Qed.
Lemma stays_get v k0 : stays v k0 (get : M (Kernel St) _).
Proof. apply (stays_gets v k0 (λ k, k)). Qed.
Lemma stays_fail v k0 {A} e : stays v k0 (fail e : M (Kernel St) A).
Proof. apply hoare_fail. Qed.
Lemma stays_panic v k0 {A} : stays v k0 (panic : M (Kernel St) A).
Proof. apply stays_fail. Qed.
Lemma stays_unwrap v k0 {A} (o : option A) : stays v k0 (unwrap o).
Proof. destruct o; [apply stays_ret|apply stays_fail]. Qed.
Lemma stays_unwrap_ub v k0 {A} (o : option A) : stays v k0 (unwrap_ub o).
Proof. destruct o; [apply stays_ret|apply stays_fail]. Qed.
Lemma stays_assert v k0 b : stays v k0 (assert_ b).
Proof. destruct b; [apply stays_ret|apply stays_fail]. Qed.
Lemma stays_index v k0 {A} (l : list A) i : stays v k0 (index l i).
Proof. unfold index. destruct (_ && _); [apply stays_unwrap|apply stays_fail]. Qed.
Lemma stays_set_index v k0 {A} (l : list A) i x : stays v k0 (set_index l i x).
Proof. unfold set_index. destruct (_ && _); [apply stays_ret|apply stays_fail]. Qed.
Lemma stays_slice v k0 {A} (l : list A) i j : stays v k0 (slice l i j).
Proof. unfold slice. destruct (_ && _); [apply stays_ret|apply stays_fail]. Qed.
(** An update of a part of the state that the invariant does not read. *)
Lemma stays_upd v k0 (f : Kernel St → Kernel St) :
  (∀ k, same v k (f k)) → (∀ k, (next_object k ≤ next_object (f k))%nat) → stays v k0 (upd f).
Proof. intros Hc Hn. apply stays_quiet. intros k a k' [= _ <-]. by split. Qed.
Lemma stays_in_mm v k0 {A} (m : M Mm A) : (v = Frames → keeps m) → stays v k0 (in_mm m).
Proof.
  intros Hm. apply stays_quiet. intros k a k'. unfold in_mm, zoom. destruct (m _) as [[? ?]|] eqn:E; [|done].
  intros [= _ <-]. split; [|done]. destruct v; [done|]. apply (Hm eq_refl) in E. cbn. unfold frames_of. cbn. by rewrite E.
Qed.
Lemma stays_in_disk v k0 {A} (m : M St A) : stays v k0 (in_disk m).
Proof.
  apply stays_quiet. intros k a k'. unfold in_disk, zoom. destruct (m _) as [[? ?]|]; [|done]. intros [= _ <-].
  split; [by destruct v|done].
Qed.
Lemma stays_fresh_object v k0 : stays v k0 (fresh_object (St := St)).
Proof. intros k a k' [Hc Hn] [= <- <-]. split; [by destruct v|cbn; lia]. Qed.

(** A task that is read and written keeps what the invariant reads of it. *)
Lemma get_task_Ok k t tcb k' : get_task t k = Ok (tcb, k') → k' = k ∧ tasks k !! t = Some tcb.
Proof.
  unfold get_task. intros (ts & k2 & [= <- <-] & H1)%bind_Ok_inv. destruct (tasks k !! t); [|done].
  by injection H1 as -> ->.
Qed.
Lemma stays_get_task v k0 {A} t (f : TaskControlBlock → M (Kernel St) A) :
  (∀ tcb, seen v k0 t tcb → stays v k0 (f tcb)) → stays v k0 (get_task t ≫= f).
Proof.
  intros Hf k a k' Hk (tcb & k1 & [-> Ht]%get_task_Ok & H2)%bind_Ok_inv.
  eapply Hf; [|done..]. by eapply seen_task; [apply Hk|].
Qed.
Lemma stays_put_task v k0 t tcb : seen v k0 t tcb → stays v k0 (put_task t tcb).
Proof.
  intros Ht k a k' [Hc Hn] [= _ <-]. split; [|done]. destruct v; cbn [same seen] in *; rewrite <-Hc in *.
  - unfold core_of. cbn. f_equal. rewrite fmap_insert. by apply insert_id.
  - unfold frames_of. cbn. f_equal. f_equal. rewrite fmap_insert. by apply insert_id.
Qed.
Lemma stays_update_task v k0 t f :
  (∀ tcb, alike v tcb (f tcb)) → stays v k0 (update_task t f).
Proof. intros Hf. apply stays_get_task. intros tcb Ht. apply stays_put_task. by eapply seen_update. Qed.
Lemma stays_read_task v k0 t : stays v k0 (get_task (St := St) t).
Proof. by intros k a k' Hk [-> _]%get_task_Ok. Qed.
End evolves.

Create HintDb stays.
#[export] Hint Resolve stays_ret stays_gets stays_get stays_fail stays_panic stays_unwrap stays_unwrap_ub stays_assert
  stays_index stays_set_index stays_slice stays_in_disk stays_fresh_object stays_read_task : stays.

Ltac alike := lazymatch goal with |- alike ?v _ _ => first [is_var v; destruct v | idtac]; by repeat case_match end.
(** One rule of [stays], by the form of the computation. *)
Ltac stays_step :=
  lazymatch goal with
  | |- stays _ _ (get_task _ ≫= _) => apply stays_get_task; intros ? ?; cbn beta
  | |- stays _ _ (_ ≫= _) => apply stays_bind; [|intros ?; cbn beta]
  | |- stays _ _ (put_task _ _) => apply stays_put_task; first [assumption | eapply seen_update; [eassumption|alike]]
  | |- stays _ _ (update_task _ _) => apply stays_update_task; intros ?; alike
  | |- stays ?v _ (upd _) => apply stays_upd; intros ?; solve [reflexivity | by destruct v]
  | |- stays _ _ (in_mm _) => apply stays_in_mm; intros ?; solve [discriminate | keeps]
  | |- stays _ _ (mfold _ _ _) => apply stays_mfold; intros ? ?; cbn beta
  | |- stays _ _ (mfor _ _) => apply stays_mfor; intros ?; cbn beta
  | |- stays _ _ (mfind _ _) => apply stays_mfind; intros ?; cbn beta
  | |- stays _ _ (mloop _ _ _) => apply stays_mloop; intros ?; cbn beta
  | |- stays _ _ (let _ := _ in _) => cbv zeta
  | |- stays _ _ (match ?x with _ => _ end) => destruct x
  | |- stays _ _ (match ?x with _ => _ end _) => destruct x
  end.
Ltac stays := repeat (first [stays_step | solve [auto with stays nocore]]).

Lemma keeps_Buf_get b : keeps (Buf_get b).
Proof. unfold Buf_get. keeps. Qed.
Lemma keeps_Buf_set b l : keeps (Buf_set b l).
Proof. unfold Buf_set. keeps. Qed.
Lemma keeps_write_phys pa l : keeps (write_phys pa l).
Proof. unfold write_phys. keeps. Qed.
Lemma keeps_read_phys pa n : keeps (read_phys pa n).
Proof. unfold read_phys. keeps. Qed.
Lemma keeps_push_args a b c : keeps (push_args a b c).
Proof. unfold push_args, push_arg. keeps. Qed.
#[export] Hint Resolve keeps_Buf_get keeps_Buf_set keeps_write_phys keeps_read_phys keeps_push_args : keeps.

Section calls.
Context {St : Type} `{!BlockStore St} `{!Platform}.
Implicit Types k : Kernel St.

Lemma stays_get_trap_cx v (k0 : Kernel St) tcb : stays v k0 (get_trap_cx tcb).
Proof. unfold get_trap_cx. stays. Qed.
Lemma stays_put_trap_cx v (k0 : Kernel St) tcb c : stays v k0 (put_trap_cx tcb c).
Proof. unfold put_trap_cx. stays. Qed.
Lemma stays_current v (k0 : Kernel St) : stays v k0 (current ).
Proof. unfold current, current_task. stays. Qed.
#[local] Hint Resolve stays_get_trap_cx stays_put_trap_cx stays_current : stays.
Lemma stays_current_user_token v (k0 : Kernel St) : stays v k0 (current_user_token ).
Proof. unfold current_user_token. stays. Qed.
Lemma stays_current_pid v (k0 : Kernel St) : stays v k0 (current_pid ).
Proof. unfold current_pid. stays. Qed.
#[local] Hint Resolve stays_current_user_token stays_current_pid : stays.
Lemma stays_get_file v (k0 : Kernel St) f : stays v k0 (get_file f).
Proof. unfold get_file. stays. Qed.
Lemma stays_put_file v (k0 : Kernel St) f o : stays v k0 (put_file f o).
Proof. unfold put_file. stays. Qed.
#[local] Hint Resolve stays_get_file stays_put_file : stays.
Lemma stays_new_file v (k0 : Kernel St) o : stays v k0 (new_file o).
Proof. unfold new_file. stays. Qed.
Lemma stays_ROOT_INODE v (k0 : Kernel St) : stays v k0 ROOT_INODE.
Proof. unfold ROOT_INODE. stays. Qed.
#[local] Hint Resolve stays_new_file stays_ROOT_INODE : stays.
Lemma stays_open_file v (k0 : Kernel St) name flags : stays v k0 (open_file name flags).
Proof. unfold open_file. stays. Qed.
Lemma stays_OSInode_read_all v (k0 : Kernel St) offset inode : stays v k0 (OSInode_read_all offset inode).
Proof. unfold OSInode_read_all, read_all_round. stays. Qed.
Lemma stays_OSInode_read_bufs v (k0 : Kernel St) bufs offset total inode : stays v k0 (OSInode_read_bufs bufs offset total inode).
Proof. revert offset total. induction bufs; intros offset total; cbn [OSInode_read_bufs]; stays. Qed.
#[local] Hint Resolve stays_open_file stays_OSInode_read_all stays_OSInode_read_bufs : stays.
Lemma stays_OSInode_read v (k0 : Kernel St) f r w offset inode bufs : stays v k0 (OSInode_read f r w offset inode bufs).
Proof. unfold OSInode_read. stays. Qed.
Lemma stays_OSInode_write v (k0 : Kernel St) f r w offset inode bufs : stays v k0 (OSInode_write f r w offset inode bufs).
Proof. unfold OSInode_write. stays. Qed.
Lemma stays_Stdout_write v (k0 : Kernel St) bufs : stays v k0 (Stdout_write  bufs).
Proof. unfold Stdout_write, print. stays. Qed.
Lemma stays_File_fstat v (k0 : Kernel St) f : stays v k0 (File_fstat f).
Proof. unfold File_fstat, OSInode_fstat. stays. Qed.
Lemma stays_user_str v (k0 : Kernel St) token ptr : stays v k0 (user_str token ptr).
Proof. unfold user_str. stays. Qed.
#[local] Hint Resolve stays_OSInode_read stays_OSInode_write stays_Stdout_write stays_File_fstat stays_user_str : stays.
Lemma stays_get_pipe v (k0 : Kernel St) b : stays v k0 (get_pipe b).
Proof. unfold get_pipe. stays. Qed.
Lemma stays_put_pipe v (k0 : Kernel St) b rb : stays v k0 (put_pipe b rb).
Proof. unfold put_pipe. stays. Qed.
Lemma stays_all_write_ends_closed v (k0 : Kernel St) rb : stays v k0 (all_write_ends_closed rb).
Proof. unfold all_write_ends_closed. stays. Qed.
Lemma stays_UserBufferIterator_next v (k0 : Kernel St) it : stays v k0 (UserBufferIterator_next it).
Proof. unfold UserBufferIterator_next. stays. Qed.
#[local] Hint Resolve stays_get_pipe stays_put_pipe stays_all_write_ends_closed stays_UserBufferIterator_next : stays.
Lemma stays_pipe_read_bytes v (k0 : Kernel St) n b it r : stays v k0 (pipe_read_bytes n b it r).
Proof. revert it r. induction n; intros it r; cbn [pipe_read_bytes]; unfold PipeRingBuffer_read_byte; stays. Qed.
Lemma stays_pipe_write_bytes v (k0 : Kernel St) n b it r : stays v k0 (pipe_write_bytes n b it r).
Proof. revert it r. induction n; intros it r; cbn [pipe_write_bytes]; unfold PipeRingBuffer_write_byte; stays. Qed.
Lemma stays_make_pipe v (k0 : Kernel St) : stays v k0 make_pipe.
Proof. unfold make_pipe. stays. Qed.
#[local] Hint Resolve stays_pipe_read_bytes stays_pipe_write_bytes stays_make_pipe : stays.

(** ** Calls that only look at tasks or change what scheduling does not read *)

Lemma stays_set_index_fds v (k0 : Kernel St) t fds : stays v k0 (update_task t (set_fd_table fds)).
Proof. stays. Qed.
Lemma stays_install_fd v (k0 : Kernel St) t f : stays v k0 (install_fd t f).
Proof.
  unfold install_fd, TaskControlBlockInner_alloc_fd. stays_step. destruct (find_index _ _) as [[fd ?]|]; stays.
Qed.
#[local] Hint Resolve stays_install_fd : stays.
Lemma stays_current_fds v (k0 : Kernel St) : stays v k0 current_fds.
Proof. unfold current_fds. stays. Qed.
#[local] Hint Resolve stays_current_fds : stays.
Lemma stays_sys_open v (k0 : Kernel St) path flags : stays v k0 (sys_open path flags).
Proof. unfold sys_open. stays. Qed.
Lemma stays_sys_close v (k0 : Kernel St) fd : stays v k0 (sys_close fd).
Proof. unfold sys_close. stays. Qed.
Lemma stays_sys_linkat v (k0 : Kernel St) a b c d e : stays v k0 (sys_linkat a b c d e).
Proof. unfold sys_linkat, fs_linkat. stays. Qed.
Lemma stays_sys_unlinkat v (k0 : Kernel St) a b c : stays v k0 (sys_unlinkat a b c).
Proof. unfold sys_unlinkat, fs_unlinkat. stays. Qed.
Lemma stays_sys_fstat v (k0 : Kernel St) a b : stays v k0 (sys_fstat a b).
Proof. unfold sys_fstat. stays. Qed.
Lemma stays_sys_pipe v (k0 : Kernel St) a : stays v k0 (sys_pipe a).
Proof. unfold sys_pipe. stays. Qed.
Lemma stays_sys_dup v (k0 : Kernel St) a : stays v k0 (sys_dup a).
Proof. unfold sys_dup. stays. Qed.
Lemma stays_any_page v (k0 : Kernel St) f a b : stays v k0 (any_page f a b).
Proof. unfold any_page, SimpleRange_new. stays. Qed.
#[local] Hint Resolve stays_any_page : stays.
Lemma stays_sys_mmap (k0 : Kernel St) a b c : stays Scheduling k0 (sys_mmap a b c).
Proof. unfold sys_mmap, current_memory_set_mmap. stays. Qed.
Lemma stays_sys_munmap (k0 : Kernel St) a b : stays Scheduling k0 (sys_munmap a b).
Proof. unfold sys_munmap, current_memory_set_munmap. stays. Qed.
Lemma stays_sys_get_time v (k0 : Kernel St) a : stays v k0 (sys_get_time a).
Proof. unfold sys_get_time, get_time_us. stays. Qed.
Lemma stays_sys_getpid v (k0 : Kernel St) : stays v k0 sys_getpid.
Proof. unfold sys_getpid. stays. Qed.
Lemma stays_trap_cx_ppn_of v (k0 : Kernel St) ms : stays v k0 (trap_cx_ppn_of ms).
Proof. unfold trap_cx_ppn_of, PageNum_from_Addr. stays. Qed.
Lemma stays_kernel_token v (k0 : Kernel St) : stays v k0 kernel_token.
Proof. unfold kernel_token. stays. Qed.
Lemma stays_KernelStack_new (k0 : Kernel St) p : stays Scheduling k0 (KernelStack_new p).
Proof. unfold KernelStack_new. stays. Qed.
Lemma stays_KernelStack_drop (k0 : Kernel St) p : stays Scheduling k0 (KernelStack_drop p).
Proof. unfold KernelStack_drop, PageNum_from_Addr. stays. Qed.
#[local] Hint Resolve stays_trap_cx_ppn_of stays_kernel_token stays_KernelStack_new stays_KernelStack_drop : stays.
Lemma stays_exec (k0 : Kernel St) t elf args : stays Scheduling k0 (TaskControlBlock_exec t elf args).
Proof. unfold TaskControlBlock_exec, from_elf. stays. Qed.
Lemma stays_user_args v (k0 : Kernel St) a b : stays v k0 (user_args a b).
Proof. unfold user_args. stays. Qed.
#[local] Hint Resolve stays_exec stays_user_args : stays.
Lemma stays_sys_exec (k0 : Kernel St) a b : stays Scheduling k0 (sys_exec a b).
Proof. unfold sys_exec. stays. Qed.
Lemma stays_pid2task v (k0 : Kernel St) p : stays v k0 (pid2task p).
Proof. unfold pid2task, current_task. stays. Qed.
#[local] Hint Resolve stays_pid2task : stays.
Lemma stays_sys_kill v (k0 : Kernel St) a b : stays v k0 (sys_kill a b).
Proof. unfold sys_kill. stays. Qed.
Lemma stays_sys_sigprocmask v (k0 : Kernel St) a : stays v k0 (sys_sigprocmask a).
Proof. unfold sys_sigprocmask, current_task. stays. Qed.
Lemma stays_sys_sigretrun v (k0 : Kernel St) : stays v k0 sys_sigretrun.
Proof. unfold sys_sigretrun, current_task. stays. Qed.
Lemma stays_sys_sigaction v (k0 : Kernel St) a b c : stays v k0 (sys_sigaction a b c).
Proof. unfold sys_sigaction, current_task. stays. Qed.

(** ** Signals and trap contexts *)

Lemma stays_current_add_signal v (k0 : Kernel St) s : stays v k0 (current_add_signal s).
Proof. unfold current_add_signal. stays. Qed.
Lemma stays_check_signals_error v (k0 : Kernel St) : stays v k0 check_signals_error_of_current.
Proof. unfold check_signals_error_of_current. stays. Qed.
Lemma stays_deliver v (k0 : Kernel St) sig signal : stays v k0 (deliver sig signal).
Proof. unfold deliver, call_kernel_signal_handler, call_user_signal_handler. stays. Qed.
#[local] Hint Resolve stays_deliver : stays.
Lemma stays_check_signals v (k0 : Kernel St) l : stays v k0 (check_signals l).
Proof. induction l; cbn [check_signals]; stays. Qed.
Lemma stays_check_pending_signals v (k0 : Kernel St) : stays v k0 check_pending_signals.
Proof. apply stays_check_signals. Qed.
Lemma stays_current_trap_cx v (k0 : Kernel St) : stays v k0 current_trap_cx.
Proof. unfold current_trap_cx. stays. Qed.
Lemma stays_put_current_trap_cx v (k0 : Kernel St) cx : stays v k0 (put_current_trap_cx cx).
Proof. unfold put_current_trap_cx. stays. Qed.
Lemma stays_console_getchar v (k0 : Kernel St) : stays v k0 console_getchar.
Proof. unfold console_getchar. stays. Qed.
End calls.

#[export] Hint Resolve stays_get_trap_cx stays_put_trap_cx stays_current stays_current_user_token stays_current_pid 
  stays_get_file stays_put_file stays_new_file stays_ROOT_INODE stays_open_file 
  stays_OSInode_read_all stays_OSInode_read_bufs stays_OSInode_read stays_OSInode_write 
  stays_Stdout_write stays_File_fstat stays_user_str stays_get_pipe stays_put_pipe 
  stays_all_write_ends_closed stays_UserBufferIterator_next stays_pipe_read_bytes 
  stays_pipe_write_bytes stays_make_pipe stays_set_index_fds stays_install_fd stays_current_fds 
  stays_sys_open stays_sys_close stays_sys_linkat stays_sys_unlinkat stays_sys_fstat stays_sys_pipe 
  stays_sys_dup stays_any_page stays_sys_mmap stays_sys_munmap stays_sys_get_time stays_sys_getpid 
  stays_trap_cx_ppn_of stays_kernel_token stays_KernelStack_new 
  stays_KernelStack_drop stays_exec stays_user_args stays_sys_exec stays_pid2task stays_sys_kill 
  stays_sys_sigprocmask stays_sys_sigretrun stays_sys_sigaction stays_current_add_signal 
  stays_check_signals_error stays_deliver stays_check_signals stays_check_pending_signals 
  stays_current_trap_cx stays_put_current_trap_cx stays_console_getchar : stays.
