(* ===== verification/KernelMoves.v ===== *)
(** The calls that move tasks - suspending, exiting, forking, waiting, setting a
    priority, fetching - keep the scheduling invariant. *)

From S2P Require Export KernelInv.

Section moves.
Context {St : Type} `{!BlockStore St} `{!Platform}.
Implicit Types k : Kernel St.

(** * Rules that follow the moves *)

Definition has_core (c : core) (k : Kernel St) : Prop :=
  core_of k = c ∧ ∀ t, is_Some (c_tasks c !! t) → (t < next_object k)%nat.

Lemma hc_stays {A} c (m : M (Kernel St) A) : (∀ k0, stays Scheduling k0 m) → hoare (has_core c) m (λ _, has_core c).
Proof.
  intros Hm k a k' [Hc Hn] Hr. destruct (Hm k k a k' (evolves_refl _ k) Hr) as [He Hle].
  split; [congruence|]. intros t Ht. apply Hn in Ht. lia.
Qed.
Lemma hc_bind {A B} c (m : M (Kernel St) A) (f : A → M (Kernel St) B) Q :
  (∀ k0, stays Scheduling k0 m) → (∀ a, hoare (has_core c) (f a) Q) → hoare (has_core c) (m ≫= f) Q.
Proof. intros Hm Hf. eapply hoare_bind; [by apply hc_stays|done]. Qed.
Lemma hc_get_task {B} c t (f : TaskControlBlock → M (Kernel St) B) Q :
  (∀ tcb, c_tasks c !! t = Some (attrs tcb) → hoare (has_core c) (f tcb) Q) → hoare (has_core c) (get_task t ≫= f) Q.
Proof.
  intros Hf k b k' [Hc Hn] (tcb & k1 & H1 & H2)%bind_Ok_inv. unfold get_task in H1.
  apply bind_Ok_inv in H1 as (ts & k2 & [= <- <-] & H1). destruct (tasks k !! t) as [tcb'|] eqn:E; [|done].
  injection H1 as -> ->. eapply Hf; [|by split|done]. by rewrite <-Hc, core_of_task, E.
Qed.
Lemma hc_put_task c t tcb :
  is_Some (c_tasks c !! t) → hoare (has_core c) (put_task t tcb) (λ _, has_core (core_put t (attrs tcb) c)).
Proof.
  intros Ht k a k' [<- Hn] [= _ <-]. split.
  - unfold core_put, core_of. cbn. by rewrite fmap_insert.
  - intros t'. cbn. rewrite lookup_insert_is_Some. intros [<-|[_ ?]]; by apply Hn.
Qed.
Lemma hc_update_task {B} c t f (m : M (Kernel St) B) Q :
  (∀ tcb, c_tasks c !! t = Some (attrs tcb) → hoare (has_core (core_put t (attrs (f tcb)) c)) m Q) →
  hoare (has_core c) (update_task t f;; m) Q.
Proof.
  intros Hf. apply hoare_assoc, hc_get_task. intros tcb Htcb.
  eapply hoare_bind; [apply hc_put_task; by eexists|]. intros []. by apply Hf.
Qed.
Lemma hc_update_task' c t f :
  hoare (has_core c) (update_task t f)
    (λ _ k, ∃ tcb, c_tasks c !! t = Some (attrs tcb) ∧ has_core (core_put t (attrs (f tcb)) c) k).
Proof.
  apply hc_get_task. intros tcb Htcb. eapply hoare_mono; [apply hc_put_task; by eexists|done|].
  intros ? k Hk. by exists tcb.
Qed.
Lemma hc_current {B} c (f : nat → M (Kernel St) B) Q :
  (∀ t, c_processor c = Some t → hoare (has_core c) (f t) Q) → hoare (has_core c) (current ≫= f) Q.
Proof.
  intros Hf k b k' [Hc Hn] (t & k1 & H1 & H2)%bind_Ok_inv. unfold current, current_task in H1.
  apply bind_Ok_inv in H1 as (o & k2 & [= <- <-] & H1). destruct (processor k) as [t'|] eqn:E; [|done].
  injection H1 as -> ->. eapply Hf; [|by split|done]. by rewrite <-Hc.
Qed.
Lemma hc_take {B} c (f : nat → M (Kernel St) B) Q :
  (∀ t, c_processor c = Some t → hoare (has_core (core_current None c)) (f t) Q) →
  hoare (has_core c) (t ← take_current_task; task ← unwrap t; f task) Q.
Proof.
  intros Hf k b k' [Hc Hn] (t & k1 & H1 & H2)%bind_Ok_inv. unfold take_current_task in H1.
  apply bind_Ok_inv in H1 as (o & k2 & [= <- <-] & H1). injection H1 as <- <-.
  destruct (processor k) as [t'|] eqn:E; [|done]. eapply Hf; [..|exact H2]; [by rewrite <-Hc|].
  split; [by rewrite <-Hc|done].
Qed.
Lemma hc_add_task c t :
  hoare (has_core c) (add_task t) (λ _ k, ∃ a, c_tasks c !! t = Some a ∧ has_core (core_add t a c) k).
Proof.
  unfold add_task. apply hc_get_task. intros tcb Ht. apply hc_bind; [intros; stays|]. intros _. cbv zeta.
  eapply hoare_bind; [apply hc_put_task; by eexists|]. intros []. apply hoare_upd. intros k [Hc Hn].
  exists (attrs tcb). split; [done|]. split.
  - unfold core_of in *. cbn. injection Hc as -> -> -> -> -> ->. done.
  - intros t'. cbn. apply Hn.
Qed.
Lemma hc_pid_alloc {B} c (f : Z → M (Kernel St) B) Q :
  (∀ p a, PidAllocator_alloc (c_pids c) = (p, a) → hoare (has_core (core_pids a c)) (f p) Q) →
  hoare (has_core c) (pid_alloc ≫= f) Q.
Proof.
  intros Hf k b k' [Hc Hn] (p & k1 & H1 & H2)%bind_Ok_inv. unfold pid_alloc in H1.
  apply bind_Ok_inv in H1 as (o & k2 & [= <- <-] & H1). destruct (PidAllocator_alloc (pids k)) as [p' a] eqn:E.
  injection H1 as -> <-. eapply (Hf p a); [by rewrite <-Hc| |done]. split; [by rewrite <-Hc|done].
Qed.
Lemma hc_new_task {B} c tcb (f : nat → M (Kernel St) B) Q :
  (∀ t, c_tasks c !! t = None → hoare (has_core (core_put t (attrs tcb) c)) (f t) Q) →
  hoare (has_core c) (new_task tcb ≫= f) Q.
Proof.
  intros Hf k b k' [Hc Hn] (t & k1 & H1 & H2)%bind_Ok_inv.
  injection H1 as <- <-. eapply Hf; [..|exact H2].
  - destruct (c_tasks c !! next_object k) eqn:E; [|done]. specialize (Hn (next_object k)). rewrite E in Hn.
    specialize (Hn ltac:(done)). lia.
  - rewrite <-Hc in *. split.
    + unfold core_put, core_of. cbn. by rewrite fmap_insert.
    + intros t'. cbn. rewrite lookup_insert_is_Some. intros [<-|[_ Ht]]; [lia|]. apply Hn in Ht. lia.
Qed.

(** ** The state between two calls *)

(** The current task runs, or the processor is idle. *)
Definition user_ok (k : Kernel St) : Prop := ∃ c, core_inv None c ∧ is_Some (c_processor c) ∧ has_core c k.
Definition idle_ok (k : Kernel St) : Prop := ∃ c, core_inv None c ∧ c_processor c = None ∧ has_core c k.
Definition flow_ok {A} (f : flow A) (k : Kernel St) : Prop :=
  match f with Return _ => user_ok k | Switched => idle_ok k end.

Lemma hoare_user {A} (m : M (Kernel St) A) Q :
  (∀ c, core_inv None c → is_Some (c_processor c) → hoare (has_core c) m Q) → hoare user_ok m Q.
Proof. intros Hm k a k' (c & Hc & Hp & Hk). by eapply Hm. Qed.
Lemma hoare_idle {A} (m : M (Kernel St) A) Q :
  (∀ c, core_inv None c → c_processor c = None → hoare (has_core c) m Q) → hoare idle_ok m Q.
Proof. intros Hm k a k' (c & Hc & Hp & Hk). by eapply Hm. Qed.
Lemma user_stays {A} (m : M (Kernel St) A) : (∀ k0, stays Scheduling k0 m) → hoare user_ok m (λ _, user_ok).
Proof.
  intros Hm. apply hoare_user. intros c Hc Hp. eapply hoare_mono; [by apply hc_stays|done|]. intros ? k Hk. by exists c.
Qed.

(** [suspend_current_and_run_next] *)
Lemma suspend_inv r : hoare user_ok (suspend_current_and_run_next r) (λ _, idle_ok).
Proof.
  apply hoare_user. intros c Hc _. unfold suspend_current_and_run_next. apply hc_take. intros t Ht.
  apply (core_inv_take _ _ Hc) in Ht as Hc1. apply hc_update_task. intros tcb Htcb. cbn in Htcb.
  eapply hoare_mono; [apply hc_add_task|done|]. intros ? k (a & Ha & Hk). cbn in Ha. rewrite lookup_insert_eq in Ha.
  injection Ha as <-. eexists. split; [|split; [|exact Hk]]; [|done].
  apply core_inv_add; [|cbn; by rewrite lookup_insert_eq|done].
  eapply (core_inv_update _ _ t (attrs tcb)); [done|done|done|exact (ci_prio _ _ Hc t _ Htcb)|done|by right|].
  intros ch Hch. exact (ci_children _ _ Hc t _ _ Htcb Hch).
Qed.

(** [exit_current_and_run_next] *)
Lemma hc_INITPROC {B} c t (f : nat → M (Kernel St) B) Q :
  c_init c = Some t → hoare (has_core c) (f t) Q → hoare (has_core c) (INITPROC ≫= f) Q.
Proof.
  intros Ht Hf k b k' Hk (i & k1 & H1 & H2)%bind_Ok_inv. unfold INITPROC in H1.
  apply bind_Ok_inv in H1 as (o & k2 & [= <- <-] & H1). replace (initproc k) with (Some t) in H1 by (by rewrite <-Ht, <-(proj1 Hk)).
  injection H1 as <- <-. by eapply Hf.
Qed.
Lemma hoare_mfor_in {A} (P : Kernel St → Prop) (f : A → M (Kernel St) ()) l :
  (∀ x, x ∈ l → hoare P (f x) (λ _, P)) → hoare P (mfor f l) (λ _, P).
Proof.
  unfold mfor. induction l as [|x l IH]; intros Hf; [by apply hoare_ret|].
  eapply hoare_bind; [apply Hf; by left|]. intros []. apply IH. intros y Hy. apply Hf. by right.
Qed.

(** The state while an exiting task hands its children over. *)
Definition exiting (t init : nat) (a : task_attrs) (k : Kernel St) : Prop :=
  ∃ c, core_inv (Some t) c ∧ c_processor c = None ∧ c_init c = Some init ∧ c_tasks c !! t = Some a ∧ has_core c k.
Lemma hand_over_inv t init a child :
  init ≠ t → child ∈ a_children a →
  hoare (exiting t init a)
    (update_task child (set_parent (Some init));;
     update_task init (λ i, set_children (children i ++ [child]) i)) (λ _, exiting t init a).
Proof.
  intros Hne Hch k u k' (c & Hc & Hp & Hi & Ht & Hk). revert k u k' Hk.
  apply hc_bind; [intros; stays|]. intros _.
  eapply hoare_mono; [apply hc_update_task'|done|]. intros ? s (tcb & Htcb & Hs).
  eexists. split; [|split; [|split; [|split; [|exact Hs]]]]; try done.
  - eapply (core_inv_update _ _ init (attrs tcb)); try done; [exact (ci_prio _ _ Hc init _ Htcb)|by left|].
    cbn. intros ch [Hin|Hin]%elem_of_app; [exact (ci_children _ _ Hc init _ _ Htcb Hin)|].
    apply list_elem_of_singleton in Hin as ->. exact (ci_children _ _ Hc t _ _ Ht Hch).
  - cbn. by rewrite lookup_insert_ne.
Qed.

Lemma exit_inv code : hoare user_ok (exit_current_and_run_next code) (λ _, idle_ok).
Proof.
  apply hoare_user. intros c Hc _. unfold exit_current_and_run_next. apply hc_take. intros t Ht.
  apply (core_inv_take _ _ Hc) in Ht as Hc1. destruct (ci_init _ _ Hc) as (init & Hinit & _).
  apply hc_update_task. intros tcb Htcb. cbn in Htcb. apply (hc_INITPROC _ init); [done|].
  destruct (Nat.eqb_spec init t) as [|Hne]; [apply hoare_fail|]. cbn [negb assert_].
  apply hc_bind; [intros; stays|]. intros _. apply hc_get_task. intros tcb2 Ht2. cbn in Ht2.
  rewrite lookup_insert_eq in Ht2. apply (inj Some) in Ht2 as Ha. set (a := attrs tcb2) in *.
  assert (a_status a = Zombie) as Hz by (by rewrite <-Ha).
  eapply (hoare_bind _ _ (λ _, exiting t init a)).
  { eapply (hoare_mono (exiting t init a)); [apply hoare_mfor_in; intros child Hin; by apply hand_over_inv| |done].
    intros s Hs. eexists. split; [|split; [|split; [|split; [|exact Hs]]]]; try done; [|cbn; by rewrite lookup_insert_eq, <-Ha].
    eapply (core_inv_update _ _ t (attrs tcb)); try done; [exact (ci_prio _ _ Hc t _ Htcb)|by right|].
    intros ch Hch. exact (ci_children _ _ Hc t _ _ Htcb Hch). }
  intros ? k u k' (c2 & Hc2 & Hp2 & Hi2 & Hta & Hk) Hr. revert k u k' Hk Hr.
  change (hoare (has_core c2) (update_task t (set_children []);; tcb ← get_task t;
    ms ← in_mm (MemorySet_recycle_data_pages (memory_set tcb)); update_task t (set_memory_set ms)) (λ _, idle_ok)).
  apply hc_update_task. intros tcb3 Ht3.
  assert (a_status (attrs tcb3) = Zombie) as Hz3 by congruence.
  eapply hoare_mono; [apply hc_stays; intros; stays|done|]. intros ? k Hk. eexists. split; [|split; [|exact Hk]]; [|done].
  eapply (core_inv_release _ t); [|cbn; by rewrite lookup_insert_eq|..]; [|intros E; cbn in E, Hz3; congruence..].
  eapply (core_inv_update _ _ t (attrs tcb3)); try done; [exact (ci_prio _ _ Hc2 t _ Ht3)|by left|].
  intros ch Hch. by apply not_elem_of_nil in Hch.
Qed.

(** [sys_set_priority] *)
Lemma isize_small prio : 0 ≤ prio < 2 ^ 64 → 2 ≤ isize prio → 2 ≤ prio < 2 ^ 63.
Proof.
  intros Hp. unfold signed. rewrite wrap_small by done. destruct (Z.ltb_spec prio (2 ^ (64 - 1))); lia.
Qed.
Lemma set_priority_inv prio : 0 ≤ prio < 2 ^ 64 → hoare user_ok (sys_set_priority prio) (λ _, user_ok).
Proof.
  intros Hp. unfold sys_set_priority. destruct (Z.ltb_spec (isize prio) 2); [by apply hoare_ret|].
  eapply (hoare_bind _ _ (λ _, user_ok)); [|intros; by apply hoare_ret]. apply hoare_user. intros c Hc Hcur. unfold set_current_prio.
  apply hc_current. intros t Ht. eapply hoare_mono; [apply hc_update_task'|done|]. intros ? k (tcb & Htcb & Hk).
  eexists. split; [|split; [|exact Hk]]; [|done].
  apply (core_inv_update _ _ t (attrs tcb)); try done; [by apply isize_small|by left|].
  intros ch Hch. exact (ci_children _ _ Hc t _ _ Htcb Hch).
Qed.

(** [sys_fork], as long as the counter of pids does not overflow *)
Definition pid_room (k : Kernel St) : Prop := pid_current (pids k) + 1 < 2 ^ 64.
Lemma fork_spec c t :
  core_inv None c → c_processor c = Some t → pid_current (c_pids c) + 1 < 2 ^ 64 →
  hoare (has_core c) (TaskControlBlock_fork t) (λ child k, ∃ c' a, core_inv (Some child) c' ∧
    is_Some (c_processor c') ∧ c_tasks c' !! child = Some a ∧ a_status a = Ready ∧ has_core c' k).
Proof.
  intros Hc Ht Hroom. unfold TaskControlBlock_fork. apply hc_get_task. intros parent Hparent.
  apply hc_bind; [intros; stays|]. intros ms. apply hc_pid_alloc. intros p a Hp.
  pose proof (pid_alloc_spec _ (ci_pids _ _ Hc) Hroom) as Hspec. rewrite Hp in Hspec.
  destruct Hspec as (Hwf & _ & Hfresh & Hlive & _).
  assert (core_inv None (core_pids a c)) as Hc1 by (apply core_inv_pids; [done|done|rewrite Hlive; set_solver]).
  apply hc_bind; [intros; stays|]. intros stack. cbv zeta. apply hc_bind; [intros; stays|]. intros ppn.
  set (tcb := MkTask _ _ _ _ _ _ _ _ _ _ _ _ _ _ _ _ _ _ _ _).
  apply hc_bind; [intros; stays|]. intros cx. apply hc_bind; [intros; stays|]. intros _.
  apply hc_new_task. intros child Hchild. cbn in Hchild.
  assert (core_inv (Some child) (core_put child (attrs tcb) (core_pids a c))) as Hc2.
  { apply core_inv_create; try done; cbn.
    - rewrite Hlive. set_solver.
    - intros t' b Hb He. apply Hfresh. rewrite <-He. by eapply (ci_live _ _ Hc).
    - exact (ci_prio _ _ Hc t _ Hparent).
    - by exists t, (attrs parent). }
  assert (child ≠ t) as Hne by congruence.
  apply hc_update_task. intros tcb' Ht'. cbn in Ht'. rewrite lookup_insert_ne in Ht' by done.
  apply hoare_ret. intros k Hk. eexists _, (attrs tcb). split; [|split; [|split; [|split; [|exact Hk]]]]; try done.
  - apply (core_inv_update _ _ t (attrs tcb')); try done.
    + cbn. by rewrite lookup_insert_ne.
    + exact (ci_prio _ _ Hc t _ Ht').
    + by left.
    + cbn. intros ch [Hin|Hin]%elem_of_app; apply lookup_insert_is_Some'; [right; exact (ci_children _ _ Hc t _ _ Ht' Hin)|].
      apply list_elem_of_singleton in Hin. by left.
  - cbn. by rewrite lookup_insert_ne, lookup_insert_eq.
Qed.
Lemma fork_inv : hoare (λ k, user_ok k ∧ pid_room k) sys_fork (λ _, user_ok).
Proof.
  intros k0 r k1 [(c & Hc & _ & Hk) Hroom]. unfold pid_room in Hroom.
  replace (pids k0) with (c_pids c) in Hroom by (by rewrite <-(proj1 Hk)). revert k0 r k1 Hk.
  change (hoare (has_core c) sys_fork (λ _, user_ok)). unfold sys_fork. apply hc_current. intros t Ht.
  eapply hoare_bind; [by apply fork_spec|]. intros child k r k' (c' & a & Hc' & Hp' & Ha & Hs & Hk). revert k r k' Hk.
  match goal with |- ∀ k r k', _ → ?m k = _ → _ => change (hoare (has_core c') m (λ _, user_ok)) end.
  apply hc_get_task. intros tcb Htcb. apply hc_bind; [intros; stays|]. intros cx.
  apply hc_bind; [intros; stays|]. intros _. eapply hoare_bind; [apply hc_add_task|]. intros ?.
  apply hoare_ret. intros k (a' & Ha' & Hk). simplify_eq. exists (core_add child (attrs tcb) c').
  split; [|by split]. apply core_inv_add; [done|done|congruence].
Qed.

(** [sys_waitpid] *)
Lemma task_refs_zero k c :
  task_refs k c = 0%nat →
  (∀ t a, c_tasks (core_of k) !! t = Some a → c ∉ a_children a) ∧ c_init (core_of k) ≠ Some c.
Proof.
  unfold task_refs. intros Hr. split.
  - intros t a Ht Hin. rewrite core_of_task in Ht. destruct (tasks k !! t) as [tcb|] eqn:E; [|done].
    injection Ht as <-. cbn in Hin. assert (count_occ Nat.eq_dec (children tcb) c = 0%nat) as Hz.
    { pose proof (sum_list_with_in (t, tcb) (λ p, count_occ Nat.eq_dec (children p.2) c) (map_to_list (tasks k))) as Hle.
      cbn in Hle. specialize (Hle ltac:(by apply elem_of_map_to_list)). lia. }
    apply (proj2 (count_occ_not_In Nat.eq_dec (children tcb) c)) in Hz. apply Hz. by apply list_elem_of_In.
  - cbn. intros Hi. rewrite (decide_True (P := initproc k = Some c)) in Hr by done. lia.
Qed.
Lemma TaskControlBlock_drop_inv c t a :
  core_inv None c → is_Some (c_processor c) → c_tasks c !! t = Some a → a_status a = Zombie →
  (∀ t' b, c_tasks c !! t' = Some b → t ∉ a_children b) → c_init c ≠ Some t →
  hoare (has_core c) (TaskControlBlock_drop t) (λ _, user_ok).
Proof.
  intros Hc Hp Ha Hz Hch Hi.
  unfold TaskControlBlock_drop. apply hc_get_task. intros tcb Htcb.
  assert (attrs tcb = a) as <- by congruence.
  eapply (hoare_bind _ _ (λ _, has_core (MkCore (c_pids c) (delete t (c_tasks c)) (c_ready c) (c_sched c) (c_processor c) (c_init c)))).
  { apply hoare_upd. intros k [Hck Hn]. split.
    - rewrite <-Hck. unfold core_of. cbn. by rewrite fmap_delete.
    - intros t'. cbn. rewrite lookup_delete_is_Some. intros [_ ?]. by apply Hn. }
  intros _ k u k' Hk' (v & k2 & H1 & H2)%bind_Ok_inv. unfold PidHandle_drop, in_pids, zoom in H1.
  pose proof (pid_dealloc_spec (pids k) (pid tcb)) as Hd.
  assert (pids k = c_pids c) as Hpids by exact (f_equal c_pids (proj1 Hk')). rewrite Hpids in *.
  specialize (Hd (ci_pids _ _ Hc)). pose proof (ci_live _ _ Hc t _ Htcb) as Hlive. cbn in Hlive.
  rewrite decide_True in Hd by done. apply elem_of_live_pids in Hlive as Hrange.
  destruct Hd as (a' & Hd & Hwf & Hl); [lia|]. rewrite Hd in H1. injection H1 as <- <-. revert H2.
  apply (λ Hx : hoare (has_core (core_drop t a' c)) (KernelStack_drop (kernel_stack tcb);; in_mm (MemorySet_drop (memory_set tcb)))
           (λ _, user_ok), Hx _ u k').
  - eapply hoare_mono; [apply hc_stays; intros; stays|done|]. intros ? s Hs. eexists. split; [|split; [|exact Hs]]; [|done].
    by apply (core_inv_drop _ _ (attrs tcb)).
  - split; [|apply (proj2 Hk')]. destruct Hk' as [Hk' _]. unfold core_of in *. cbn. by injection Hk' as _ -> -> -> -> ->.
Qed.

Lemma procs_spec c l procs :
  Forall (λ x, c_tasks c !! x.1 = Some (attrs x.2)) procs →
  hoare (has_core c) (mfold (λ c l, child ← get_task c; mret (l ++ [(c, child)])) l procs)
    (λ r k, (r.*1 = procs.*1 ++ l ∧ Forall (λ x, c_tasks c !! x.1 = Some (attrs x.2)) r) ∧ has_core c k).
Proof.
  revert procs. induction l as [|t l IH]; intros procs Hprocs.
  - apply hoare_ret. intros k Hk. by rewrite app_nil_r.
  - cbn [mfold]. apply hoare_assoc, hc_get_task. intros tcb Ht.
    eapply (hoare_mono (has_core c)); [|done|].
    + apply (IH (procs ++ [(t, tcb)])). apply Forall_app_2; [done|by repeat constructor].
    + intros r k [[Hr1 Hr2] Hk]. rewrite fmap_app, <-app_assoc in Hr1. done.
Qed.
Lemma waitpid_inv p ptr : hoare user_ok (sys_waitpid p ptr) (λ _, user_ok).
Proof.
  apply hoare_user. intros c Hc Hp. unfold sys_waitpid. apply hc_current. intros t Ht. apply hc_get_task. intros tcb Htcb.
  eapply hoare_bind; [by apply (procs_spec c _ [])|]. cbn beta. intros procs. apply hoare_pure. intros [Hfst Hprocs].
  assert (∀ r : Z, hoare (has_core c) (mret r) (λ _, user_ok)) as Hret.
  { intros r. apply hoare_ret. intros k Hk. by exists c. }
  destruct (find_index _ procs); [|apply Hret].
  destruct (find_index _ procs) as [[idx [ch child]]|] eqn:Hfind; [|apply Hret].
  apply find_index_Some in Hfind as (Hidx & Hz & _). apply andb_true_iff in Hz as [Hz _]. apply bool_decide_eq_true in Hz.
  apply (Forall_lookup_1 _ _ _ _ Hprocs) in Hidx as Hchild. cbn in Hchild.
  assert (t ≠ ch) as Hne.
  { intros ->. apply (ci_current _ _ Hc) in Ht as (a & Ha & Hrun & _). rewrite Ha in Hchild. injection Hchild as ->.
    cbn in Hrun. congruence. }
  apply hc_update_task. intros tcb' Htcb'.
  set (c1 := core_put t _ c).
  assert (core_inv None c1) as Hc1.
  { apply (core_inv_update _ _ t (attrs tcb')); try done; [exact (ci_prio _ _ Hc t _ Htcb')|by left|].
    cbn. intros x [i Hx]%list_elem_of_lookup. apply (ci_children _ _ Hc t _ _ Htcb). cbn.
    apply list_elem_of_lookup. destruct (decide (i < idx)%nat).
    - exists i. by rewrite list_lookup_delete_lt in Hx by done.
    - exists (S i). by rewrite list_lookup_delete_ge in Hx by lia. }
  intros k0 r k1 Hk0 (? & ? & [= <- <-] & Hrun)%bind_Ok_inv.
  apply bind_Ok_inv in Hrun as (? & ? & Hassert & Hrun).
  destruct (Nat.eqb_spec (task_refs k0 ch) 0) as [Hrefs|]; [|done]. injection Hassert as _ <-.
  apply task_refs_zero in Hrefs as [Hnc Hni]. rewrite (proj1 Hk0) in Hnc, Hni. revert k0 r k1 Hk0 Hrun.
  match goal with |- ∀ k r k', _ → ?m k = _ → _ => change (hoare (has_core c1) m (λ _, user_ok)) end.
  apply hc_bind; [intros; stays|]. intros pa. apply hc_bind; [intros; stays|]. intros _.
  eapply (hoare_bind _ _ (λ _, user_ok)); [|intros; by apply hoare_ret].
  apply (TaskControlBlock_drop_inv c1 ch (attrs child)); try done. cbn. by rewrite lookup_insert_ne.
Qed.

(** [run_tasks] *)
Lemma fetch_task_spec c :
  core_inv None c → c_processor c = None →
  hoare (has_core c) fetch_task (λ r k,
    match StrideScheduler_find_next_task (c_sched c) with
    | (None, _) => r = None ∧ has_core c k
    | (Some i, s) => r = c_ready c !! i ∧ is_Some r ∧ has_core (core_fetch i s c) k
    end).
Proof.
  intros Hc Hp k r k' Hk Hrun. pose proof (core_inv_fetch c Hc Hp) as Hfetch. destruct Hk as [Hk Hn].
  assert (scheduler (manager k) = c_sched c) as Hs by exact (f_equal c_sched Hk).
  assert (ready_queue (manager k) = c_ready c) as Hr by exact (f_equal c_ready Hk).
  unfold fetch_task in Hrun. cbn [mloop] in Hrun. unfold mbind, M_bind, gets, upd in Hrun. rewrite Hs in Hrun.
  destruct (StrideScheduler_find_next_task (c_sched c)) as [[i|] s].
  - destruct Hfetch as (t & a & base & Ht & Ha & _). rewrite Hr, bool_decide_eq_true_2 in Hrun by done.
    cbn in Hrun. rewrite Ht in Hrun. cbn in Hrun. injection Hrun as <- <-. split; [done|]. split; [done|]. split; [|done].
    rewrite <-Hk. unfold core_fetch, core_of. cbn. by rewrite Hr.
  - destruct Hfetch as [_ ->]. injection Hrun as <- <-. split; [done|]. split; [|done].
    by rewrite <-Hk.
Qed.
Lemma hc_set_processor c p : hoare (has_core c) (upd (set_processor p)) (λ _, has_core (core_current p c)).
Proof. apply hoare_upd. intros k [Hk Hn]. split; [|done]. by rewrite <-Hk. Qed.
Lemma run_tasks_round_inv :
  hoare idle_ok run_tasks_round (λ r k, match r with
    | Some t => user_ok k ∧ processor k = Some t
    | None => idle_ok k end).
Proof.
  apply hoare_idle. intros c Hc Hp. unfold run_tasks_round. eapply hoare_bind; [by apply fetch_task_spec|].
  pose proof (core_inv_fetch c Hc Hp) as Hfetch. intros r. cbn beta.
  destruct (StrideScheduler_find_next_task (c_sched c)) as [[i|] s].
  2: { apply hoare_pure. intros ->. apply hoare_ret. intros k Hk. by exists c. }
  destruct Hfetch as (t & a & base & Ht & Ha & Hpid & Hst & _ & _ & Hc1). rewrite Ht. apply hoare_pure. intros ->.
  apply hoare_pure. intros _. apply hc_update_task. intros tcb Htcb. cbn in Htcb.
  eapply hoare_bind; [apply hc_set_processor|].
  intros ?. apply hoare_ret. intros k Hk. split; [|exact (f_equal c_processor (proj1 Hk))].
  eexists. split; [|split; [|exact Hk]]; [|done].
  eapply core_inv_run; [|cbn; by rewrite lookup_insert_eq|done|done].
  apply (core_inv_update _ _ t (attrs tcb)); try done; [exact (ci_prio _ _ Hc t _ Htcb)|by right|].
  intros ch Hch. exact (ci_children _ _ Hc t _ _ Htcb Hch).
Qed.
End moves.
