(* ===== verification/Machine.v ===== *)
(** The machine: every step - a system call with all its effects, a fault, a
    timer interrupt, the delivery of signals, a round of the scheduler, a user
    program at work - keeps the scheduling invariant. *)

From S2P Require Export KernelMoves Scenario.

Section machine.
Context {St : Type} `{!BlockStore St} `{!Platform}.
Implicit Types k : Kernel St.

(** * Calls that may give up the processor *)

Definition yields {A} (m : M (Kernel St) (flow A)) : Prop := hoare user_ok m flow_ok.

Lemma yields_return {A} (a : A) : yields (mret (Return a)).
Proof. by apply hoare_ret. Qed.
Lemma yields_bind {A B} (m : M (Kernel St) A) (f : A → M (Kernel St) (flow B)) :
  (∀ k0, stays Scheduling k0 m) → (∀ a, yields (f a)) → yields (m ≫= f).
Proof. intros Hm Hf. eapply hoare_bind; [by apply user_stays|done]. Qed.
Lemma yields_returns (m : M (Kernel St) Z) : hoare user_ok m (λ _, user_ok) → yields (returns m).
Proof. intros Hm. eapply hoare_bind; [exact Hm|]. intros r. by apply hoare_ret. Qed.
Lemma yields_switch {A} (m : M (Kernel St) ()) : hoare user_ok m (λ _, idle_ok) → yields (m;; mret (Switched : flow A)).
Proof. intros Hm. eapply hoare_bind; [exact Hm|]. intros r. by apply hoare_ret. Qed.

Ltac yields :=
  repeat lazymatch goal with
  | |- yields (mret (Return _)) => apply yields_return
  | |- yields (_;; mret Switched) => apply yields_switch
  | |- yields (_ ≫= _) => apply yields_bind; [intros ?; stays|intros ?; cbn beta]
  | |- yields (match ?x with _ => _ end) => destruct x
  end.

Lemma pipe_read_yields b it n : yields (pipe_read_loop b it n).
Proof.
  apply hoare_mloop. intros [it' n']. eapply hoare_bind; [apply user_stays; intros; stays|]. intros rb.
  cbv zeta. destruct (PipeRingBuffer_available_read rb =? 0).
  - eapply hoare_bind; [apply user_stays; intros; stays|]. intros []; [by apply hoare_ret|].
    eapply hoare_bind; [apply suspend_inv|]. intros ?. by apply hoare_ret.
  - eapply hoare_bind; [apply user_stays; intros; stays|]. intros [[full ?] ?]. apply hoare_ret. by destruct full.
Qed.
Lemma pipe_write_yields b it n : yields (pipe_write_loop b it n).
Proof.
  apply hoare_mloop. intros [it' n']. eapply hoare_bind; [apply user_stays; intros; stays|]. intros rb.
  cbv zeta. destruct (PipeRingBuffer_available_write rb =? 0).
  - eapply hoare_bind; [apply suspend_inv|]. intros ?. by apply hoare_ret.
  - eapply hoare_bind; [apply user_stays; intros; stays|]. intros [[full ?] ?]. apply hoare_ret. by destruct full.
Qed.
Lemma stdin_yields bufs : yields (stdin_loop bufs).
Proof. unfold stdin_loop. yields; apply suspend_inv. Qed.
Lemma File_read_yields f bufs : yields (File_read f bufs).
Proof.
  unfold File_read. apply yields_bind; [intros; stays|]. intros []; yields; [apply stdin_yields|apply pipe_read_yields].
Qed.
Lemma File_write_yields f bufs : yields (File_write f bufs).
Proof. unfold File_write. apply yields_bind; [intros; stays|]. intros []; yields. apply pipe_write_yields. Qed.
Lemma sys_read_yields a b c : yields (sys_read a b c).
Proof. unfold sys_read. yields. apply File_read_yields. Qed.
Lemma sys_write_yields a b c : yields (sys_write a b c).
Proof. unfold sys_write. yields. apply File_write_yields. Qed.

(** Any system call. *)
Lemma syscall_yields n a0 a1 a2 a3 a4 :
  0 ≤ a0 < 2 ^ 64 → hoare (λ k, user_ok k ∧ pid_room k) (syscall n a0 a1 a2 a3 a4) flow_ok.
Proof.
  intros Ha0.
  assert (∀ m : M (Kernel St) (flow Z), yields m → hoare (λ k, user_ok k ∧ pid_room k) m flow_ok) as Hy.
  { intros m Hm. eapply hoare_mono; [exact Hm|by intros s [? _]|done]. }
  assert (∀ m : M (Kernel St) Z, (∀ k0, stays Scheduling k0 m) → yields (returns m)) as Hs.
  { intros m Hm. apply yields_returns. by apply user_stays. }
  unfold syscall.
  repeat match goal with
  | |- hoare _ (if _ then returns sys_fork else _) _ => case_match; [|]
  | |- hoare _ (if _ then _ else _) _ => case_match; [apply Hy; first [apply Hs; intros; solve [stays]|idtac]|]
  end; [apply sys_read_yields|apply sys_write_yields|apply yields_switch, exit_inv|apply yields_switch, suspend_inv| | | | ].
  - apply yields_returns. by apply set_priority_inv.
  - eapply hoare_bind; [apply fork_inv|]. intros r. by apply hoare_ret.
  - apply yields_returns, waitpid_inv.
  - apply hoare_fail.
Qed.

(** * Traps *)

Lemma after_signals_ok f : hoare (flow_ok f) (after_signals f) flow_ok.
Proof.
  destruct f as [[]|]; [|by apply hoare_ret]. eapply hoare_bind; [apply user_stays; intros; stays|].
  intros [[errno msg]|]; [apply yields_switch, exit_inv|by apply hoare_ret].
Qed.
Lemma handle_signals_loop_yields : yields handle_signals_loop.
Proof. unfold handle_signals_loop. yields. apply suspend_inv. Qed.
Lemma trap_end_yields : yields trap_end.
Proof.
  eapply hoare_bind; [|apply after_signals_ok]. unfold handle_signals.
  apply yields_bind; [intros; stays|]. intros _. apply handle_signals_loop_yields.
Qed.
Lemma syscall_end_ok f : hoare (flow_ok f) (syscall_end f) flow_ok.
Proof.
  destruct f as [r|]; [|by apply hoare_ret]. eapply hoare_bind; [apply user_stays; intros; stays|]. intros cx.
  eapply hoare_bind; [apply user_stays; intros; stays|]. intros ?. apply trap_end_yields.
Qed.
Lemma resume_yields r : yields (resume r).
Proof.
  destruct r; cbn [resume].
  - apply (syscall_end_ok (Return 0)).
  - apply trap_end_yields.
  - eapply hoare_bind; [apply handle_signals_loop_yields|apply after_signals_ok].
  - eapply hoare_bind; [apply stdin_yields|apply syscall_end_ok].
  - eapply hoare_bind; [apply pipe_read_yields|apply syscall_end_ok].
  - eapply hoare_bind; [apply pipe_write_yields|apply syscall_end_ok].
Qed.
Lemma put_current_trap_cx_room cx : hoare (λ k, user_ok k ∧ pid_room k) (put_current_trap_cx cx) (λ _ k, user_ok k ∧ pid_room k).
Proof.
  intros k u k' [Hk Hroom] Hrun. split; [eapply user_stays; [..|exact Hrun]; [intros; stays|done]|].
  assert (stays Scheduling k (put_current_trap_cx cx)) as Hs by stays.
  destruct (Hs k u k' (evolves_refl _ k) Hrun) as [He _]. unfold pid_room. by rewrite (f_equal c_pids He : pids k' = pids k).
Qed.
Lemma trap_handler_ok cause : hoare (λ k, user_ok k ∧ pid_room k) (trap_handler cause) flow_ok.
Proof.
  assert (∀ m : M (Kernel St) (flow ()), yields m → hoare (λ k, user_ok k ∧ pid_room k) m flow_ok) as Hy.
  { intros m Hm. eapply hoare_mono; [exact Hm|by intros s [? _]|done]. }
  destruct cause; cbn [trap_handler].
  2-7: apply Hy, yields_bind; [intros; stays|intros; apply trap_end_yields].
  - eapply hoare_bind; [|intros cx; eapply hoare_bind; [apply put_current_trap_cx_room|]].
    + intros k cx k' [Hk Hr] Hrun. split; [eapply user_stays; [..|exact Hrun]; [intros; stays|done]|].
      assert (stays Scheduling k current_trap_cx) as Hs by stays. destruct (Hs k cx k' (evolves_refl _ k) Hrun) as [He _].
      unfold pid_room. by rewrite (f_equal c_pids He : pids k' = pids k).
    + intros ?. cbv zeta. eapply hoare_bind; [apply syscall_yields; apply wrap_bound; lia|apply syscall_end_ok].
  - apply Hy, yields_bind; [intros; stays|intros; apply trap_end_yields].
  - apply Hy. unfold set_next_trigger. apply yields_bind; [intros; stays|intros ?]. apply yields_switch, suspend_inv.
  - apply hoare_fail.
Qed.

(** * Steps *)

Definition machine_ok (p : mode * Kernel St) : Prop :=
  match p.1 with User => user_ok p.2 | Idle => idle_ok p.2 end.

Lemma run_tasks_step_ok : hoare idle_ok run_tasks_step flow_ok.
Proof.
  eapply hoare_bind; [apply run_tasks_round_inv|]. intros [t|]; cbn beta iota; [|by apply hoare_ret].
  eapply (hoare_mono user_ok); [|by intros s [? _]|done]. unfold switch_to. apply yields_bind; [intros; stays|].
  intros tcb. destruct (task_cx tcb); [apply hoare_fail|by apply hoare_ret|apply resume_yields].
Qed.
Lemma machine_ok_evolves m k k' : machine_ok (m, k) → evolves Scheduling k k' → machine_ok (m, k').
Proof.
  intros Hk [He Hle]. destruct m; destruct Hk as (c & Hc & Hp & Hk & Hn); exists c; (split; [done|]); (split; [done|]);
    (split; [cbn in *; congruence|]); intros t Ht; apply Hn in Ht; cbn in *; lia.
Qed.
Lemma flow_ok_mode {A} (f : flow A) k : flow_ok f k → machine_ok (match f with Return _ => User | Switched => Idle end, k).
Proof. by destruct f. Qed.
Lemma machine_step_ok p q : machine_ok p → pid_room p.2 → machine_step p q → machine_ok q.
Proof.
  intros Hp Hroom Hstep. revert Hp Hroom.
  destruct Hstep as [k f k' Hrun|cause k f k' Hrun|va b k k' Hrun|x pc status k k' _ Hrun|m dt k|m ch k]; intros Hp Hroom.
  - apply flow_ok_mode. by apply (run_tasks_step_ok k).
  - apply flow_ok_mode. by apply (trap_handler_ok cause k).
  - apply (user_stays (user_store va b) ltac:(intros; unfold user_store; stays) k () k' Hp Hrun).
  - apply (user_stays (user_registers x pc status) ltac:(intros; unfold user_registers; stays) k () k' Hp Hrun).
  - by eapply machine_ok_evolves.
  - by eapply machine_ok_evolves.
Qed.

(** * Boot *)

Lemma TaskControlBlock_new_spec c elf :
  hoare (has_core c) (TaskControlBlock_new elf) (λ tcb k, ∃ p a, PidAllocator_alloc (c_pids c) = (p, a) ∧
    attrs tcb = MkAttrs p 16 0 Ready [] ∧ has_core (core_pids a c) k).
Proof.
  unfold TaskControlBlock_new. apply hc_bind; [intros; unfold from_elf; stays|]. intros [[ms sp] entry].
  apply hc_bind; [intros; stays|]. intros ppn. apply hc_pid_alloc. intros p a Hp.
  apply hc_bind; [intros; stays|]. intros stack. cbv zeta. do 3 (apply hc_bind; [intros; stays|]; intros ?).
  apply hc_bind; [intros; stays|]. intros satp. apply hc_bind; [intros; stays|]. intros _.
  apply hoare_ret. intros k Hk. by exists p, a.
Qed.

(** The tables of the first process. *)
Definition boot_core : core := MkCore PidAllocator_new ∅ ∅ StrideScheduler_new None None.
Definition first_core (t : nat) (a : PidAllocator) : core :=
  MkCore a {[t := MkAttrs 0 16 0 Ready []]} ∅ StrideScheduler_new None (Some t).
Lemma first_core_inv t : core_inv (Some t) (first_core t (MkPidAllocator 1 [])).
Proof.
  split; cbn [first_core c_pids c_tasks c_ready c_sched c_processor c_init].
  - split; cbn; [lia|constructor|constructor].
  - intros t' a [<- <-]%lookup_singleton_Some. rewrite elem_of_live_pids. cbn. split; [lia|apply not_elem_of_nil].
  - intros t1 t2 a1 a2 [<- _]%lookup_singleton_Some [<- _]%lookup_singleton_Some. done.
  - intros t' a [<- <-]%lookup_singleton_Some. cbn. lia.
  - intros t' a ch [<- <-]%lookup_singleton_Some Hin. by apply not_elem_of_nil in Hin.
  - exists t. split; [done|]. by rewrite lookup_singleton_eq.
  - intros p t'. rewrite lookup_empty. split; [done|]. intros (a & [<- _]%lookup_singleton_Some & _ & _ & ?). done.
  - intros t'. split; [done|]. intros (a & [<- _]%lookup_singleton_Some & _ & ?). done.
  - constructor.
  - intros s. split; [intros Hin; by apply not_elem_of_nil in Hin|]. intros (t' & a & Hr & _). by rewrite lookup_empty in Hr.
  - exists 0. split; [apply sched_wf_new|]. intros t' a _ [<- <-]%lookup_singleton_Some. done.
Qed.

Lemma INITPROC_boot :
  hoare (has_core boot_core) INITPROC (λ t, has_core (first_core t (MkPidAllocator 1 []))).
Proof.
  intros k t k' Hk (o & k2 & [= <- <-] & Hrun)%bind_Ok_inv.
  replace (initproc k) with (None : option nat) in Hrun by exact (eq_sym (f_equal c_init (proj1 Hk))).
  revert k t k' Hk Hrun.
  match goal with |- ∀ k r k', _ → ?m k = _ → _ => change (hoare (has_core boot_core) m (λ t, has_core (first_core t (MkPidAllocator 1 [])))) end.
  apply hc_bind; [intros; stays|]. intros file. apply hc_bind; [intros; stays|]. intros [| |r w offset inode|r w b]; try apply hoare_fail.
  apply hc_bind; [intros; stays|]. intros [v ?]. eapply hoare_bind; [apply TaskControlBlock_new_spec|].
  intros tcb k t k' (p & a & [= <- <-] & Ha & Hk). revert k t k' Hk.
  match goal with |- ∀ k r k', _ → ?m k = _ → _ =>
    change (hoare (has_core (core_pids (MkPidAllocator 1 []) boot_core)) m (λ t, has_core (first_core t (MkPidAllocator 1 [])))) end.
  apply hc_new_task. intros t _. rewrite Ha.
  eapply hoare_bind; [apply (hoare_upd _ _ (λ _, has_core (first_core t (MkPidAllocator 1 []))))|by intros ?; apply hoare_ret].
  intros k [Hk Hn]. split; [|exact Hn]. unfold core_of in *. cbn. by injection Hk as -> -> -> -> ->.
Qed.
Lemma boot_ok mem dev ks k : rust_main (Kernel_boot mem dev ks) = Ok ((), k) → idle_ok k.
Proof.
  assert (has_core boot_core (Kernel_boot mem dev ks)) as Hboot.
  { split; [done|]. intros t. cbn. rewrite lookup_empty. by intros [? ?]. }
  revert Hboot. generalize (Kernel_boot mem dev ks). intros k0 Hboot Hrun. revert k0 Hboot Hrun.
  assert (hoare (has_core boot_core) rust_main (λ _, idle_ok)) as Hall; [|intros k0 Hk0 Hr; by eapply Hall].
  unfold rust_main. apply hc_bind; [intros; stays|]. intros _. apply hc_bind; [intros; stays|]. intros ks'.
  apply hc_bind; [intros; stays|]. intros _. unfold add_initproc. apply hoare_assoc.
  eapply hoare_bind; [apply INITPROC_boot|]. intros t. eapply hoare_bind; [apply hc_add_task|]. intros ? k1 u k2.
  intros (b & Ha & Hk1) Hrun. cbn in Ha. apply lookup_singleton_Some in Ha as [_ <-].
  assert (idle_ok k1) as Hidle.
  { eexists. split; [|split; [|exact Hk1]]; [|done]. apply core_inv_add; [apply first_core_inv|cbn; apply lookup_singleton_eq|done]. }
  apply (machine_ok_evolves Idle k1 k2 Hidle).
  assert (stays Scheduling k1 set_next_trigger) as Hs by (unfold set_next_trigger; stays).
  by apply (Hs k1 u k2 (evolves_refl _ k1)).
Qed.

(** * Reachable states *)

(** The states a run can reach, as long as the counter of pids does not
    overflow. *)
Inductive reachable : mode * Kernel St → Prop :=
| reach_boot mem dev ks k : rust_main (Kernel_boot mem dev ks) = Ok ((), k) → reachable (Idle, k)
| reach_step p q : reachable p → pid_room p.2 → machine_step p q → reachable q.

Lemma reachable_ok p : reachable p → machine_ok p.
Proof.
  induction 1 as [mem dev ks k Hrun|p q _ IH Hroom Hstep]; [by eapply boot_ok|]. by eapply machine_step_ok.
Qed.

(** A round of [run_tasks] on an idle processor, computed. *)
Lemma run_tasks_round_eq k :
  core_inv None (core_of k) → processor k = None →
  match StrideScheduler_find_next_task (scheduler (manager k)) with
  | (None, _) => run_tasks_round k = Ok (None, k)
  | (Some i, s) => ∀ t tcb, ready_queue (manager k) !! i = Some t → tasks k !! t = Some tcb →
      run_tasks_round k = Ok (Some t, set_processor (Some t)
        (set_tasks (<[t := set_task_status Running tcb]> (tasks k))
          (set_manager (MkTaskManager (delete i (ready_queue (manager k))) s) k)))
  end.
Proof.
  intros Hc Hp. pose proof (core_inv_fetch _ Hc Hp) as Hfetch. cbn [core_of c_sched] in Hfetch.
  unfold run_tasks_round, fetch_task, update_task, get_task, put_task. cbn [mloop].
  unfold mbind, M_bind, gets, upd. destruct (StrideScheduler_find_next_task _) as [[i|] s].
  - intros t tcb Ht Htcb. cbn. rewrite bool_decide_eq_true_2 by (by exists t). cbn. rewrite Ht. cbn. rewrite Htcb. done.
  - destruct Hfetch as [_ ->]. cbn. by destruct k as [? ? ? ? ? ? ? ? ? []].
Qed.

(** * Properties *)

(** C31: However the kernel is driven - any sequence of system calls with any
    arguments, faults, timer interrupts, signals, keys and stores of user
    programs, from any disk and memory it booted with - the tables of its tasks
    agree in every state: pids are live and distinct, the ready queue holds
    exactly the [Ready] tasks, the heap of the scheduler exactly the queued ones
    with their passes, all within half the range of the last pass; at most one
    task is [Running], the current one, and there is one exactly in user mode;
    priorities never leave the range that divides [BIG_STRIDE] safely, and no
    reference to a child or to the first process dangles. *)
Theorem kernel_invariant m k :
  reachable (m, k) → core_inv None (core_of k) ∧ (is_Some (processor k) ↔ m = User).
Proof.
  intros Hr%reachable_ok. destruct m; destruct Hr as (c & Hc & Hp & Hk & _); cbn in Hk; rewrite Hk; (split; [done|]);
    rewrite (f_equal c_processor Hk : processor k = _); [naive_solver|]. rewrite Hp. split; [by intros [? ?]|done].
Qed.

(** C32: The scheduler never loses a task and never picks a wrong one: on an idle
    processor a round of [run_tasks] returns without fault; it finds no task
    exactly when no task is [Ready], and otherwise makes current a [Ready] task
    whose pass is the least of all [Ready] tasks, counted around the wrap from a
    base that bounds them all by half the range. *)
Theorem run_tasks_round_least k :
  reachable (Idle, k) →
  (run_tasks_round k = Ok (None, k) ∧ (∀ t tcb, tasks k !! t = Some tcb → task_status tcb ≠ Ready)) ∨
  ∃ t tcb k' base, run_tasks_round k = Ok (Some t, k') ∧ tasks k !! t = Some tcb ∧ task_status tcb = Ready ∧
    processor k' = Some t ∧ tasks k' = <[t := set_task_status Running tcb]> (tasks k) ∧
    sched_wf base (scheduler (manager k)) ∧
    ∀ t' tcb', tasks k !! t' = Some tcb' → task_status tcb' = Ready →
      (task_pass tcb - base) mod 2 ^ 64 ≤ (task_pass tcb' - base) mod 2 ^ 64.
Proof.
  intros Hr%reachable_ok. destruct Hr as (c & Hc & Hp & Hk & _). cbn in Hk. subst c. cbn in Hp.
  pose proof (run_tasks_round_eq k Hc Hp) as Hrun. pose proof (core_inv_fetch _ Hc Hp) as Hfetch. cbn in Hfetch.
  assert (∀ t tcb, tasks k !! t = Some tcb → task_status tcb = Ready → ready_queue (manager k) !! pid tcb = Some t) as Hready.
  { intros t tcb Ht Hs. apply (ci_ready _ _ Hc). exists (attrs tcb). by rewrite core_of_task, Ht. }
  destruct (StrideScheduler_find_next_task _) as [[i|] s].
  - right. destruct Hfetch as (t & a & base & Ht & Ha & Hpid & Hst & Hw & Hmin & _).
    rewrite lookup_fmap_Some in Ha. destruct Ha as (tcb & <- & Htcb).
    eexists t, tcb, _, base. split; [by apply Hrun|]. split_and!; try done.
    intros t' tcb' Ht' Hs'. apply (Hmin (pid tcb') t' (attrs tcb')); [by apply Hready|by rewrite lookup_fmap, Ht'].
  - left. split; [done|]. destruct Hfetch as [Hempty _]. intros t tcb Ht Hs. apply Hready in Ht; [|done].
    by rewrite Hempty, lookup_empty in Ht.
Qed.
End machine.

(** * Witnesses: the machine boots, its first program runs and forks *)

Section witness.
#[local] Existing Instance ex_platform.

#[local] Instance pid_room_dec (k : Kernel Flat) : Decision (pid_room k) :=
  decide (pid_current (pids k) + 1 < 2 ^ 64).
(** The idle machine after the boot, and the one whose first program made a call
    of the kernel. *)
Definition call_trace (n a0 : Z) (test : Kernel Flat → bool) (power_on : Kernel Flat) : option (Kernel Flat * Kernel Flat) :=
  match rust_main power_on with
  | Ok (_, k1) =>
      match run_tasks_step k1 with
      | Ok (Return _, k2) =>
          match user_registers (call_registers n a0 0 0) 0x10000 0 k2 with
          | Ok (_, k3) =>
              match trap_handler UserEnvCall k3 with
              | Ok (Return _, k4) =>
                  if bool_decide (pid_room k1 ∧ pid_room k2 ∧ pid_room k3) && test k4 then Some (k1, k4) else None
              | _ => None
              end
          | _ => None
          end
      | _ => None
      end
  | _ => None
  end.
Lemma call_trace_reachable n a0 test mem dev ks :
  is_some (call_trace n a0 test (Kernel_boot mem dev ks)) = true →
  ∃ k1 k4 : Kernel Flat, reachable (Idle, k1) ∧ reachable (User, k4) ∧ test k4 = true.
Proof.
  unfold call_trace. intros Hr.
  destruct (rust_main _) as [[[] k1]|] eqn:E1; [|done].
  destruct (run_tasks_step k1) as [[[[]|] k2]|] eqn:E2; try done.
  destruct (user_registers _ _ _ k2) as [[[] k3]|] eqn:E3; [|done].
  destruct (trap_handler UserEnvCall k3) as [[[[]|] k4]|] eqn:E4; try done.
  destruct (bool_decide _ && test k4) eqn:Hk; [|done]. apply andb_true_iff in Hk as [(H1 & H2 & H3)%bool_decide_eq_true H4].
  assert (reachable (Idle, k1)) as R1 by (eapply reach_boot; exact E1).
  assert (reachable (User, k2)) as R2 by (eapply reach_step; [exact R1|exact H1|exact (step_schedule _ _ _ E2)]).
  assert (reachable (User, k3)) as R3 by (eapply reach_step; [exact R2|exact H2|by eapply step_registers; [|exact E3]]).
  exists k1, k4. split; [done|]. split; [|done]. eapply reach_step; [exact R3|exact H3|exact (step_trap _ _ _ _ E4)].
Qed.

Definition fork_trace : Kernel Flat → option (Kernel Flat * Kernel Flat) :=
  call_trace SYSCALL_FORK 0 (λ k, bool_decide (size (tasks k) = 2%nat)).
Lemma fork_trace_runs : is_some (fork_trace ex_power_on) = true.
Proof. vm_compute. reflexivity. Qed.
Lemma fork_trace_reachable mem dev ks :
  is_some (fork_trace (Kernel_boot mem dev ks)) = true →
  ∃ k1 k4 : Kernel Flat, reachable (Idle, k1) ∧ reachable (User, k4) ∧ size (tasks k4) = 2%nat.
Proof.
  intros (k1 & k4 & H1 & H4 & Hn%bool_decide_eq_true)%call_trace_reachable. by exists k1, k4.
Qed.

Lemma kernel_invariant_witness :
  ∃ k : Kernel Flat, reachable (User, k) ∧ size (tasks k) = 2%nat ∧
    core_inv None (core_of k) ∧ (is_Some (processor k) ↔ User = User).
Proof.
  destruct (fork_trace_reachable _ _ _ fork_trace_runs) as (_ & k & _ & Hk & Hn). exists k. split; [exact Hk|]. split; [exact Hn|].
  exact (kernel_invariant User k Hk).
Defined.
Lemma run_tasks_round_least_witness :
  ∃ k : Kernel Flat, reachable (Idle, k) ∧
  ((run_tasks_round k = Ok (None, k) ∧ (∀ t tcb, tasks k !! t = Some tcb → task_status tcb ≠ Ready)) ∨
  ∃ t tcb k' base, run_tasks_round k = Ok (Some t, k') ∧ tasks k !! t = Some tcb ∧ task_status tcb = Ready ∧
    processor k' = Some t ∧ tasks k' = <[t := set_task_status Running tcb]> (tasks k) ∧
    sched_wf base (scheduler (manager k)) ∧
    ∀ t' tcb', tasks k !! t' = Some tcb' → task_status tcb' = Ready →
      (task_pass tcb - base) mod 2 ^ 64 ≤ (task_pass tcb' - base) mod 2 ^ 64).
Proof.
  destruct (fork_trace_reachable _ _ _ fork_trace_runs) as (k & _ & Hk & _). exists k. split; [exact Hk|].
  exact (run_tasks_round_least k Hk).
Defined.
End witness.
