(* ===== verification/TypeInv.v ===== *)
(** Every reachable state of the kernel is well typed: references lead to objects
    of the kind they are used at.  The types that Rust's compiler guarantees where
    the model has indexes into stores ([Arc]s and [Weak]s), bare lists (arrays) and
    integers, and the well-formedness the theorems on pipes and signals assume. *)

From S2P Require Export Machine.

Lemma elem_of_insert_inv {A} (l : list A) i x y : y ∈ <[i := x]> l → y = x ∨ y ∈ l.
Proof.
  intros [j Hj]%list_elem_of_lookup. apply list_lookup_insert_Some in Hj as [(_ & <- & _)|[_ Hj]]; [by left|].
  right. by eapply list_elem_of_lookup_2.
Qed.

Section types.
Context {St : Type}.
Implicit Types k : Kernel St.

(** ** Types of the objects *)

Definition is_file k (f : nat) : Prop := is_Some (files k !! f).
Definition is_pipe k (b : nat) : Prop := is_Some (pipes k !! b).

Definition resume_ty k (r : Resume) : Prop :=
  match r with in_pipe_read b _ _ | in_pipe_write b _ _ => is_pipe k b | _ => True end.
Definition context_ty k (cx : TaskContext) : Prop :=
  match cx with
  | TaskContext_suspended r => resume_ty k r
  | TaskContext_goto_trap_return _ => True
  | TaskContext_zero_init => False
  end.
Definition fds_ty k (fds : list (option nat)) : Prop := ∀ f, Some f ∈ fds → is_file k f.
(** A task: its descriptors name open files, its saved context is a place it can
    go on at, its table of signal actions has an entry for every signal, among
    them the one it is handling. *)
Record task_ty k (tcb : TaskControlBlock) : Prop := {
  tt_fds : fds_ty k (fd_table tcb);
  tt_context : context_ty k (task_cx tcb);
  tt_actions : length (signal_actions tcb) = 32%nat;
  tt_handling : -1 ≤ handling_sig tcb < 32 }.
Definition file_ty k (o : FileObj) : Prop :=
  match o with
  | Pipe r w b => r = negb w ∧ is_pipe k b
  | OSInode _ _ offset _ => 0 ≤ offset < 2 ^ 64
  | _ => True
  end.
(** A pipe: its ring is well formed and its weak reference is to its write end. *)
Definition ring_ty k (b : nat) (rb : PipeRingBuffer) : Prop :=
  ring_wf rb ∧ ∃ w, write_end rb = Some w ∧ files k !! w = Some (Pipe false true b).

Record well_typed k : Prop := {
  wt_fresh n : is_Some (tasks k !! n) ∨ is_file k n ∨ is_pipe k n → (n < next_object k)%nat;
  wt_tasks t tcb : tasks k !! t = Some tcb → task_ty k tcb;
  wt_files f o : files k !! f = Some o → file_ty k o;
  wt_pipes b rb : pipes k !! b = Some rb → ring_ty k b rb }.

(** ** How the objects evolve *)

(** An open file keeps its kind; only the offset of an inode file moves. *)
Inductive same_file : FileObj → FileObj → Prop :=
| same_file_refl o : same_file o o
| same_file_offset r w off off' i : same_file (OSInode r w off i) (OSInode r w off' i).
Lemma same_file_trans o o1 o2 : same_file o o1 → same_file o1 o2 → same_file o o2.
Proof. destruct 1; [done|]. inversion 1; constructor. Qed.

Record evolved k k' : Prop := {
  gr_files f o : files k !! f = Some o → ∃ o', files k' !! f = Some o' ∧ same_file o o';
  gr_pipes b : is_pipe k b → is_pipe k' b;
  gr_next : (next_object k ≤ next_object k')%nat }.
Lemma evolved_refl k : evolved k k.
Proof. split; [|done|done]. intros f o Ho. exists o. split; [done|constructor]. Qed.
Lemma evolved_trans k1 k2 k3 : evolved k1 k2 → evolved k2 k3 → evolved k1 k3.
Proof.
  intros [Hf1 Hp1 ?] [Hf2 Hp2 ?]. split; [|auto|lia]. intros f o (o1 & H1 & ?)%Hf1. apply Hf2 in H1 as (o2 & ? & ?).
  exists o2. split; [done|]. by eapply same_file_trans.
Qed.

(** What is known of a state stays true of those that it evolves to. *)
Definition old k (n : nat) : Prop := (n < next_object k)%nat.
Lemma old_evolved k k' n : evolved k k' → old k n → old k' n.
Proof. intros [_ _ ?]. unfold old. lia. Qed.
Definition has_file k (f : nat) (o : FileObj) : Prop := ∃ o', files k !! f = Some o' ∧ same_file o o'.
Lemma is_file_evolved k k' f : evolved k k' → is_file k f → is_file k' f.
Proof. intros [Hf _ _] [o (o' & ? & _)%Hf]. by exists o'. Qed.
Lemma is_pipe_evolved k k' b : evolved k k' → is_pipe k b → is_pipe k' b.
Proof. intros [_ Hp _]. apply Hp. Qed.
Lemma has_file_evolved k k' f o : evolved k k' → has_file k f o → has_file k' f o.
Proof. intros [Hf _ _] (o1 & (o2 & ? & ?)%Hf & ?). exists o2. split; [done|]. by eapply same_file_trans. Qed.
Lemma resume_ty_evolved k k' r : evolved k k' → resume_ty k r → resume_ty k' r.
Proof. intros Hg. destruct r; cbn; try done; by apply is_pipe_evolved. Qed.
Lemma fds_ty_evolved k k' fds : evolved k k' → fds_ty k fds → fds_ty k' fds.
Proof. intros Hg Hf f Hin. eapply is_file_evolved; [done|]. by apply Hf. Qed.
Lemma task_ty_evolved k k' tcb : evolved k k' → task_ty k tcb → task_ty k' tcb.
Proof.
  intros Hg [Hf Hc Ha Hh]. split; [by eapply fds_ty_evolved| |done|done].
  destruct (task_cx tcb); [done|done|by eapply resume_ty_evolved].
Qed.
Lemma file_ty_evolved k k' o : evolved k k' → file_ty k o → file_ty k' o.
Proof. intros Hg. destruct o; cbn; try done. intros [??]. split; [done|by eapply is_pipe_evolved]. Qed.
Lemma ring_ty_evolved k k' b rb : evolved k k' → ring_ty k b rb → ring_ty k' b rb.
Proof.
  intros [Hf _ _] (? & w & ? & (o & Ho & Hs)%Hf). split; [done|]. exists w. split; [done|]. by inversion Hs; subst.
Qed.

(** ** Computations that keep states well typed *)

(** From a well-typed state that [k0] evolved to, [m] leads to another one. *)
Definition ty k0 {A} (m : M (Kernel St) A) (Q : A → Kernel St → Prop) : Prop :=
  hoare (λ k, well_typed k ∧ evolved k0 k) m (λ a k, well_typed k ∧ evolved k0 k ∧ Q a k).
#[local] Abbreviation keeps_ty k0 m := (ty k0 m (λ _ _, True)).

Lemma ty_ret k0 {A} (a : A) Q : (∀ k, evolved k0 k → Q a k) → ty k0 (mret a) Q.
Proof. intros HQ. apply hoare_ret. intros k [? ?]. auto. Qed.
Lemma ty_fail k0 {A} e (Q : A → _) : ty k0 (fail e) Q.
Proof. apply hoare_fail. Qed.
Lemma ty_mono k0 {A} (m : M (Kernel St) A) (P Q : A → Kernel St → Prop) : ty k0 m P → (∀ a k, P a k → Q a k) → ty k0 m Q.
Proof. intros Hm HPQ. eapply hoare_mono; [exact Hm|done|]. intros a k (? & ? & ?). auto. Qed.
Lemma ty_keeps k0 {A} (m : M (Kernel St) A) Q : ty k0 m Q → keeps_ty k0 m.
Proof. intros Hm. by eapply ty_mono. Qed.
Lemma ty_weaken k0 k1 {A} (m : M (Kernel St) A) k a k' Q :
  ty k1 m Q → evolved k0 k1 → well_typed k → evolved k1 k → m k = Ok (a, k') → well_typed k' ∧ evolved k0 k' ∧ Q a k'.
Proof. intros Hm H01 Hk H1k Hr. destruct (Hm k a k' (conj Hk H1k) Hr) as (? & ? & ?). split; [done|]. split; [by eapply evolved_trans|done]. Qed.
Lemma ty_bind k0 {A B} (m : M (Kernel St) A) (f : A → M (Kernel St) B) Q :
  keeps_ty k0 m → (∀ a, ty k0 (f a) Q) → ty k0 (m ≫= f) Q.
Proof. intros Hm Hf. eapply hoare_bind; [exact Hm|]. intros a k b k' (? & ? & _). by apply Hf. Qed.
(** What [m] tells is about the state it ends in. *)
Lemma ty_bind_fact k0 {A B} (m : M (Kernel St) A) P (f : A → M (Kernel St) B) Q :
  ty k0 m P → (∀ k1 a, evolved k0 k1 → P a k1 → ty k1 (f a) Q) → ty k0 (m ≫= f) Q.
Proof.
  intros Hm Hf k b k' Hk (a & k1 & H1 & H2)%bind_Ok_inv. destruct (Hm k a k1 Hk H1) as (Hw & Hg & HP).
  eapply (ty_weaken k0 k1); [by apply Hf|done|exact Hw|apply evolved_refl|exact H2].
Qed.
Lemma ty_mfold k0 {A B} (I : B → Prop) (f : A → B → M (Kernel St) B) l b :
  I b → (∀ x b, I b → ty k0 (f x b) (λ b' _, I b')) → ty k0 (mfold f l b) (λ b' _, I b').
Proof.
  intros Hb Hf. revert b Hb. induction l as [|x l IH]; intros b Hb; [by apply ty_ret|].
  eapply hoare_bind; [by apply Hf|]. intros b' k a k' (? & ? & ?). by apply IH.
Qed.
Lemma ty_mfold' k0 {A B} (f : A → B → M (Kernel St) B) l b :
  (∀ x b, keeps_ty k0 (f x b)) → keeps_ty k0 (mfold f l b).
Proof. intros Hf. eapply ty_keeps, (ty_mfold k0 (λ _, True)); [done|]. intros x b' _. apply Hf. Qed.
Lemma ty_mloop k0 {A B} (body : A → M (Kernel St) (A + B)) n a :
  (∀ a, keeps_ty k0 (body a)) → keeps_ty k0 (mloop n body a).
Proof. intros Hb. apply hoare_mloop. intros a'. eapply hoare_mono; [apply Hb|done|]. intros [?|?] k (? & ? & ?); auto. Qed.
Lemma ty_mfind k0 {A B} (f : A → M (Kernel St) (option B)) l :
  (∀ x, keeps_ty k0 (f x)) → keeps_ty k0 (mfind f l).
Proof.
  intros Hf. induction l as [|x l IH]; [by apply ty_ret|]. apply ty_bind; [apply Hf|].
  intros [b|]; [by apply ty_ret|apply IH].
Qed.

(** A computation that leaves the objects alone. *)
Lemma ty_objects k0 {A} (m : M (Kernel St) A) :
  (∀ k a k', m k = Ok (a, k') → tasks k' = tasks k ∧ files k' = files k ∧ pipes k' = pipes k ∧ (next_object k ≤ next_object k')%nat) →
  keeps_ty k0 m.
Proof.
  intros Hm k a k' [[Hn Ht Hf Hp] [Hgf Hgp]] (E1 & E2 & E3 & Hle)%Hm. assert (evolved k k') as Hg.
  { split; [rewrite E2|unfold is_pipe; by rewrite E3|done]. intros f o Ho. exists o. split; [done|constructor]. }
  split; [|split; [by eapply evolved_trans|done]]. split.
  - unfold is_file, is_pipe. rewrite E1, E2, E3. intros n Hn'. apply Hn in Hn'. lia.
  - rewrite E1. intros t tcb Htcb. eapply task_ty_evolved; [done|by eapply Ht].
  - rewrite E2. intros f o Ho. eapply file_ty_evolved; [done|by eapply Hf].
  - rewrite E3. intros b rb Hrb. eapply ring_ty_evolved; [done|by eapply Hp].
Qed.
Lemma ty_gets k0 {A} (f : Kernel St → A) : keeps_ty k0 (gets f).
Proof. apply ty_objects. by intros k a k' [= _ <-]. Qed.
Lemma ty_upd k0 (f : Kernel St → Kernel St) :
  (∀ k, tasks (f k) = tasks k ∧ files (f k) = files k ∧ pipes (f k) = pipes k ∧ next_object (f k) = next_object k) → keeps_ty k0 (upd f).
Proof. intros Hf. apply ty_objects. intros k a k' [= _ <-]. destruct (Hf k) as (? & ? & ? & ->). by split_and!. Qed.
Lemma ty_in_mm k0 {A} (m : M Mm A) : keeps_ty k0 (in_mm m).
Proof. apply ty_objects. intros k a k'. unfold in_mm, zoom. destruct (m _) as [[? ?]|]; [|done]. by intros [= _ <-]. Qed.
Lemma ty_in_disk k0 {A} (m : M St A) : keeps_ty k0 (in_disk m).
Proof. apply ty_objects. intros k a k'. unfold in_disk, zoom. destruct (m _) as [[? ?]|]; [|done]. by intros [= _ <-]. Qed.
Lemma ty_in_pids k0 {A} (m : M PidAllocator A) : keeps_ty k0 (in_pids m).
Proof. apply ty_objects. intros k a k'. unfold in_pids, zoom. destruct (m _) as [[? ?]|]; [|done]. by intros [= _ <-]. Qed.
Lemma ty_same k0 {A} (m : M (Kernel St) A) : (∀ k a k', m k = Ok (a, k') → k' = k) → keeps_ty k0 m.
Proof. intros Hm. apply ty_objects. by intros k a k' ->%Hm. Qed.
Lemma ty_unwrap k0 {A} (o : option A) : keeps_ty k0 (unwrap o).
Proof. destruct o; [by apply ty_ret|apply ty_fail]. Qed.
Lemma ty_assert k0 b : keeps_ty k0 (assert_ b).
Proof. destruct b; [by apply ty_ret|apply ty_fail]. Qed.
Lemma ty_slice k0 {A} (l : list A) i j : keeps_ty k0 (slice l i j).
Proof. unfold slice. destruct (_ && _); [by apply ty_ret|apply ty_fail]. Qed.

(** A successful access to an array is in its bounds. *)
Lemma ty_index k0 {A} (l : list A) i : ty k0 (index l i) (λ a _, 0 ≤ i < Z.of_nat (length l) ∧ l !! Z.to_nat i = Some a).
Proof.
  unfold index. destruct (_ && _) eqn:E; [|apply ty_fail]. destruct (l !! Z.to_nat i) eqn:Hl; [|apply ty_fail].
  apply ty_ret. intros k _. split; [lia|done].
Qed.
Lemma ty_set_index k0 {A} (l : list A) i x :
  ty k0 (set_index l i x) (λ l' _, 0 ≤ i < Z.of_nat (length l) ∧ l' = <[Z.to_nat i := x]> l).
Proof. unfold set_index. destruct (_ && _) eqn:E; [|apply ty_fail]. apply ty_ret. intros k _. split; [lia|done]. Qed.

(** ** Reading and writing objects *)

Lemma get_task_ty k0 t : ty k0 (get_task t) (λ tcb k, old k t ∧ task_ty k tcb).
Proof.
  intros k tcb k' [Hk Hg] [-> Ht]%get_task_Ok. split; [done|]. split; [done|]. split; [|by eapply wt_tasks].
  apply (wt_fresh k Hk). left. by exists tcb.
Qed.
Lemma get_file_ty k0 f : ty k0 (get_file f) (λ o k, has_file k f o ∧ file_ty k o).
Proof.
  intros k o k' [Hk Hg] (fs & k1 & [= <- <-] & Hr)%bind_Ok_inv. destruct (files k !! f) as [o'|] eqn:Ho; [|done].
  injection Hr as -> ->. split; [done|]. split; [done|]. split; [|by eapply wt_files]. exists o. split; [done|constructor].
Qed.
Lemma get_pipe_ty k0 b : ty k0 (get_pipe b) (λ rb k, is_pipe k b ∧ ring_ty k b rb).
Proof.
  intros k rb k' [Hk Hg] (ps & k1 & [= <- <-] & Hr)%bind_Ok_inv. destruct (pipes k !! b) as [rb'|] eqn:Hb; [|done].
  injection Hr as -> ->. split; [done|]. split; [done|]. split; [by exists rb|by eapply wt_pipes].
Qed.

(** States that evolved: each entry of the stores is an old one or is typed. *)
Lemma well_typed_evolved k k' :
  well_typed k → evolved k k' →
  (∀ n, is_Some (tasks k' !! n) ∨ is_file k' n ∨ is_pipe k' n → (n < next_object k')%nat) →
  (∀ t tcb, tasks k' !! t = Some tcb → tasks k !! t = Some tcb ∨ task_ty k' tcb) →
  (∀ f o, files k' !! f = Some o → files k !! f = Some o ∨ file_ty k' o) →
  (∀ b rb, pipes k' !! b = Some rb → pipes k !! b = Some rb ∨ ring_ty k' b rb) → well_typed k'.
Proof.
  intros [Hn Ht Hf Hp] Hg Hn' Ht' Hf' Hp'. split; [done|..].
  - intros t tcb [?|?]%Ht'; [eapply task_ty_evolved; [done|by eapply Ht]|done].
  - intros f o [?|?]%Hf'; [eapply file_ty_evolved; [done|by eapply Hf]|done].
  - intros b rb [?|?]%Hp'; [eapply ring_ty_evolved; [done|by eapply Hp]|done].
Qed.
Lemma evolved_same k k' : files k' = files k → pipes k' = pipes k → (next_object k ≤ next_object k')%nat → evolved k k'.
Proof.
  intros Ef Ep Hn. split; [rewrite Ef|unfold is_pipe; by rewrite Ep|done]. intros f o Ho. exists o. split; [done|constructor].
Qed.
Lemma put_task_ty k0 t tcb : old k0 t → task_ty k0 tcb → keeps_ty k0 (put_task t tcb).
Proof.
  intros Ht Htcb k a k' [Hk Hg] [= _ <-]. assert (evolved k (set_tasks (<[t := tcb]> (tasks k)) k)) as Hg' by by apply evolved_same.
  assert (evolved k0 (set_tasks (<[t := tcb]> (tasks k)) k)) as Hg0 by by eapply evolved_trans.
  split; [|done]. eapply well_typed_evolved; [done|done| |..]; cbn; [|intros t' tcb'| |]; try by left.
  - intros n [[<-|[_ ?]]%lookup_insert_is_Some|?]; [by eapply old_evolved|apply (wt_fresh k Hk); by left|apply (wt_fresh k Hk); by right].
  - destruct (decide (t' = t)) as [->|]; [rewrite lookup_insert_eq|rewrite lookup_insert_ne by done; by left].
    intros [= <-]. right. by eapply task_ty_evolved.
Qed.
Lemma put_file_ty k0 f o o' : has_file k0 f o → same_file o o' → file_ty k0 o' → keeps_ty k0 (put_file f o').
Proof.
  intros Hf Ho Hty k a k' [Hk Hg] [= _ <-]. apply (has_file_evolved _ k) in Hf as (oc & Hoc & Hs); [|done].
  assert (same_file oc o') as Hs' by (inversion Hs; subst; inversion Ho; subst; constructor).
  set (k' := set_files _ _). assert (evolved k k') as Hg'.
  { split; [|done|done]. intros g og Hog. cbn. destruct (decide (g = f)) as [->|].
    - exists o'. rewrite lookup_insert_eq. split; [done|]. by simplify_eq.
    - exists og. rewrite lookup_insert_ne by done. split; [done|constructor]. }
  assert (evolved k0 k') as Hg0 by by eapply evolved_trans.
  split; [|done]. eapply well_typed_evolved; [done|done| | |intros g og|]; cbn; try by left.
  - intros n Hn. apply (wt_fresh k Hk). destruct Hn as [?|[Hn|?]]; [by left| |by right; right]. right. left.
    unfold is_file in *. cbn in Hn. apply lookup_insert_is_Some in Hn as [<-|[_ ?]]; [by exists oc|done].
  - destruct (decide (g = f)) as [->|]; [rewrite lookup_insert_eq|rewrite lookup_insert_ne by done; by left].
    intros [= <-]. right. by eapply file_ty_evolved.
Qed.
Lemma put_pipe_ty k0 b rb : is_pipe k0 b → ring_ty k0 b rb → keeps_ty k0 (put_pipe b rb).
Proof.
  intros Hb Hrb k a k' [Hk Hg] [= _ <-]. apply (is_pipe_evolved _ k) in Hb; [|done].
  set (k' := set_pipes _ _). assert (evolved k k') as Hg'.
  { split; [|intros c Hc|done]; [intros g og Hog; exists og; split; [done|constructor]|].
    unfold is_pipe. cbn. apply lookup_insert_is_Some'. by right. }
  assert (evolved k0 k') as Hg0 by by eapply evolved_trans.
  split; [|done]. eapply well_typed_evolved; [done|done| | | |intros c rc]; cbn; try by left.
  - intros n Hn. apply (wt_fresh k Hk). destruct Hn as [?|[?|Hn]]; [by left|by right; left|]. right. right.
    unfold is_pipe in *. cbn in Hn. apply lookup_insert_is_Some in Hn as [<-|[_ ?]]; done.
  - destruct (decide (c = b)) as [->|]; [rewrite lookup_insert_eq|rewrite lookup_insert_ne by done; by left].
    intros [= <-]. right. by eapply ring_ty_evolved.
Qed.
End types.

Abbreviation keeps_ty k0 m := (ty k0 m (λ _ _, True)).

Create HintDb ty.
#[export] Hint Resolve ty_fail ty_gets ty_in_mm ty_in_disk ty_in_pids ty_unwrap ty_assert ty_slice put_task_ty put_pipe_ty : ty.
#[export] Hint Extern 1 (ty _ (mret _) (λ _ _, True)) => (apply ty_ret; intros; exact I) : ty.
#[export] Hint Extern 1 (ty _ panic _) => (apply ty_fail) : ty.
#[export] Hint Extern 1 (ty _ (unwrap_ub _) _) => (apply ty_unwrap) : ty.
#[export] Hint Extern 1 (ty _ (upd _) (λ _ _, True)) => (apply ty_upd; intros ?; by split_and!) : ty.

#[export] Hint Extern 1 (resume_ty _ _) => exact I : ty.

(** Carry what is known over to the state that was reached. *)
Ltac ty_move H :=
  cbv beta in *;
  lazymatch type of H with
  | evolved ?k _ =>
      repeat match goal with
      | F : task_ty k _ |- _ => apply (task_ty_evolved _ _ _ H) in F
      | F : fds_ty k _ |- _ => apply (fds_ty_evolved _ _ _ H) in F
      | F : file_ty k _ |- _ => apply (file_ty_evolved _ _ _ H) in F
      | F : has_file k _ _ |- _ => apply (has_file_evolved _ _ _ _ H) in F
      | F : is_file k _ |- _ => apply (is_file_evolved _ _ _ H) in F
      | F : is_pipe k _ |- _ => apply (is_pipe_evolved _ _ _ H) in F
      | F : ring_ty k _ _ |- _ => apply (ring_ty_evolved _ _ _ _ H) in F
      | F : resume_ty k _ |- _ => apply (resume_ty_evolved _ _ _ H) in F
      | F : old k _ |- _ => apply (old_evolved _ _ _ H) in F
      end; clear H
  end.
Ltac open_task := match goal with F : task_ty _ _ |- _ => destruct F as [Hfds Hcx Hactions Hhandling] end.
(** A task that was changed in some fields. *)
Ltac task_ty :=
  repeat case_match; try assumption;
  lazymatch goal with
  | F : task_ty _ ?tcb |- task_ty _ _ => destruct F; split; cbn; try assumption; try lia
  end.
Tactic Notation "ty_fact" uconstr(L) := eapply ty_bind_fact; [apply L|let k := fresh "k" in let a := fresh "a" in let H := fresh in
  intros k a H; ty_move H; cbn beta].
Ltac ty_step :=
  lazymatch goal with
  | |- ty _ (get_task _ ≫= _) _ => ty_fact get_task_ty; intros [? ?]
  | |- ty _ (get_file _ ≫= _) _ => ty_fact get_file_ty; intros [? ?]
  | |- ty _ (get_pipe _ ≫= _) _ => ty_fact get_pipe_ty; intros [? ?]
  | |- ty _ (index _ _ ≫= _) _ => ty_fact @ty_index; intros [? ?]
  | |- ty _ (set_index _ _ _ ≫= _) _ => ty_fact @ty_set_index; intros [? ->]
  | |- ty _ (_ ≫= _) _ => apply ty_bind; [|intros ?; cbn beta]
  | |- ty _ (update_task _ _) _ => unfold update_task
  | |- ty _ (put_task _ _) _ => apply put_task_ty; [assumption|try solve [task_ty]]
  | |- ty _ (get_task _) _ => eapply ty_mono; [apply get_task_ty|done]
  | |- ty _ (get_file _) _ => eapply ty_mono; [apply get_file_ty|done]
  | |- ty _ (get_pipe _) _ => eapply ty_mono; [apply get_pipe_ty|done]
  | |- ty _ (index _ _) _ => eapply ty_mono; [apply ty_index|done]
  | |- ty _ (set_index _ _ _) _ => eapply ty_mono; [apply ty_set_index|done]
  | |- ty _ (mfold _ _ _) (λ _ _, True) => apply ty_mfold'; intros ? ?; cbn beta
  | |- ty _ (mfor _ _) (λ _ _, True) => apply ty_mfold'; intros ? ?; cbn beta
  | |- ty _ (mfind _ _) _ => apply ty_mfind; intros ?; cbn beta
  | |- ty _ (mloop _ _ _) _ => apply ty_mloop; intros ?; cbn beta
  | |- ty _ (let _ := _ in _) _ => cbv zeta
  | |- ty _ (match ?x with _ => _ end) _ => destruct x
  | |- ty _ (match ?x with _ => _ end _) _ => destruct x
  end.
Ltac ty := repeat (first [solve [auto with ty nocore] | ty_step]).

Section calls.
Context {St : Type} `{!BlockStore St} `{!Platform}.
Implicit Types k : Kernel St.

Lemma ty_get_trap_cx k0 tcb : keeps_ty k0 (get_trap_cx tcb).
Proof. unfold get_trap_cx. ty. Qed.
Lemma ty_put_trap_cx k0 tcb c : keeps_ty k0 (put_trap_cx tcb c).
Proof. unfold put_trap_cx. ty. Qed.
Lemma ty_current k0 : keeps_ty k0 current.
Proof. unfold current, current_task. ty. Qed.
#[local] Hint Resolve ty_get_trap_cx ty_put_trap_cx ty_current : ty.
Lemma ty_current_user_token k0 : keeps_ty k0 current_user_token.
Proof. unfold current_user_token. ty. Qed.
Lemma ty_current_pid k0 : keeps_ty k0 current_pid.
Proof. unfold current_pid. ty. Qed.
Lemma ty_ROOT_INODE k0 : keeps_ty k0 ROOT_INODE.
Proof. unfold ROOT_INODE. ty. Qed.
#[local] Hint Resolve ty_current_user_token ty_current_pid ty_ROOT_INODE : ty.
Lemma ty_OSInode_read_all k0 offset inode : keeps_ty k0 (OSInode_read_all offset inode).
Proof. unfold OSInode_read_all, read_all_round. ty. Qed.
Lemma ty_user_str k0 token ptr : keeps_ty k0 (user_str token ptr).
Proof. unfold user_str. ty. Qed.
Lemma ty_user_args k0 a b : keeps_ty k0 (user_args a b).
Proof. unfold user_args, user_str. ty. Qed.
Lemma ty_add_task k0 t : keeps_ty k0 (add_task t).
Proof. unfold add_task. ty. Qed.
#[local] Hint Resolve ty_OSInode_read_all ty_user_str ty_user_args ty_add_task : ty.
Lemma ty_suspend k0 rs : resume_ty k0 rs → keeps_ty k0 (suspend_current_and_run_next rs).
Proof. intros Hrs. unfold suspend_current_and_run_next, take_current_task. ty. Qed.
#[local] Hint Resolve ty_suspend : ty.

(** *** Files *)

Lemma new_file_ty k0 o :
  match o with Pipe _ _ _ => False | _ => True end → file_ty k0 o → ty k0 (new_file o) (λ f k, is_file k f).
Proof.
  intros Ho Hty k a k' [Hk Hg] [= <- <-]. set (k' := set_files _ _). assert (evolved k k') as Hg'.
  { split; [|done|cbn; lia]. intros g og Hog. exists og. cbn. rewrite lookup_insert_ne; [split; [done|constructor]|].
    intros <-. assert (next_object k < next_object k)%nat by (apply (wt_fresh k Hk); right; left; by exists og). lia. }
  assert (evolved k0 k') as Hg0 by by eapply evolved_trans.
  split; [|split; [done|]].
  - eapply well_typed_evolved; [done|done| | |intros g og|]; cbn; try by left.
    + intros n Hn. destruct (decide (n = next_object k)) as [->|Hne]; [lia|].
      assert (n < next_object k)%nat; [|lia]. apply (wt_fresh k Hk). unfold is_file in *. cbn in Hn. by rewrite lookup_insert_ne in Hn.
    + destruct (decide (g = next_object k)) as [->|]; [rewrite lookup_insert_eq|rewrite lookup_insert_ne by done; by left].
      intros [= <-]. right. by eapply file_ty_evolved.
  - exists o. cbn. by rewrite lookup_insert_eq.
Qed.
Lemma open_file_ty k0 name flags :
  ty k0 (open_file name flags) (λ r _, match r with Some (OSInode _ _ offset _) => offset = 0 | Some _ => False | None => True end).
Proof.
  unfold open_file. destruct (OpenFlags_read_write flags). ty_step; [ty|]. destruct a as [efs root].
  case_match; (ty_step; [ty|]); destruct a as [inode|]; repeat (ty_step; [ty|]); try by apply ty_ret.
  destruct a as [inode|]; by apply ty_ret.
Qed.
Lemma OSInode_read_bufs_ty bufs : ∀ k0 offset total inode,
  0 ≤ offset < 2 ^ 64 → ty k0 (OSInode_read_bufs bufs offset total inode) (λ '(o, _) _, 0 ≤ o < 2 ^ 64).
Proof.
  induction bufs as [|b bufs IH]; intros k0 offset total inode Ho; cbn [OSInode_read_bufs]; [by apply ty_ret|].
  ty_step; [ty|]. ty_step; [ty|]. destruct a0 as [n new]. ty_step; [ty|]. case_match; [by apply ty_ret|]. apply IH, wrap_bound. lia.
Qed.
Lemma OSInode_offset k0 f r w offset offset' inode :
  has_file k0 f (OSInode r w offset inode) → 0 ≤ offset' < 2 ^ 64 → keeps_ty k0 (put_file f (OSInode r w offset' inode)).
Proof. intros Hf Ho. eapply put_file_ty; [exact Hf|constructor|done]. Qed.
Lemma ty_OSInode_read k0 f r w offset inode bufs :
  has_file k0 f (OSInode r w offset inode) → file_ty k0 (OSInode r w offset inode) →
  keeps_ty k0 (OSInode_read f r w offset inode bufs).
Proof.
  intros Hf Ho. unfold OSInode_read. eapply ty_bind_fact; [by apply OSInode_read_bufs_ty|]. intros k1 [o t] Hg Ho'. ty_move Hg.
  apply ty_bind; [by eapply OSInode_offset|]. intros ?. ty.
Qed.
Lemma ty_OSInode_write k0 f r w offset inode bufs :
  has_file k0 f (OSInode r w offset inode) → file_ty k0 (OSInode r w offset inode) →
  keeps_ty k0 (OSInode_write f r w offset inode bufs).
Proof.
  intros Hf Ho. unfold OSInode_write. ty_step; [ty|]. destruct a as [efs root].
  eapply ty_bind_fact; [apply (ty_mfold k0 (λ '(o, _), 0 ≤ o < 2 ^ 64)); [exact Ho|]|].
  - intros b [o t] Ho'. do 3 (ty_step; [ty|]). apply ty_ret. intros k _. apply wrap_bound. lia.
  - intros k1 [o t] Hg Ho'. ty_move Hg. apply ty_bind; [by eapply OSInode_offset|]. intros ?. ty.
Qed.
Lemma ty_Stdout_write k0 bufs : keeps_ty k0 (Stdout_write bufs).
Proof. unfold Stdout_write, print. ty. Qed.
Lemma ty_File_fstat k0 f : keeps_ty k0 (File_fstat f).
Proof. unfold File_fstat, OSInode_fstat. ty. Qed.
#[local] Hint Resolve ty_OSInode_read ty_OSInode_write ty_Stdout_write ty_File_fstat : ty.

(** *** Pipes *)

Lemma read_byte_ty k0 b rb :
  ring_ty k0 b rb → ty k0 (PipeRingBuffer_read_byte rb) (λ '(_, rb') _, ring_ty k0 b rb').
Proof.
  intros ([Ha Hh Ht Hs] & w & Hw & Hf). unfold PipeRingBuffer_read_byte. eapply ty_bind_fact; [apply ty_index|].
  intros k1 c _ _. cbv zeta. apply ty_ret. intros k _. unfold RING_BUFFER_SIZE. split; [|by exists w].
  split; cbn; [done| |done|by destruct (Z.eqb_spec ((Pipe.head rb +₆₄ 1) mod 32) (Pipe.tail rb))]. apply Z.mod_pos_bound. lia.
Qed.
Lemma write_byte_ty k0 b rb c :
  ring_ty k0 b rb → ty k0 (PipeRingBuffer_write_byte rb c) (λ rb' _, ring_ty k0 b rb').
Proof.
  intros ([Ha Hh Ht Hs] & w & Hw & Hf). unfold PipeRingBuffer_write_byte. eapply ty_bind_fact; [apply ty_set_index|].
  intros k1 l _ [_ ->]. cbv zeta. apply ty_ret. intros k _. unfold RING_BUFFER_SIZE. split; [|by exists w].
  split; cbn; [by rewrite length_insert|done|apply Z.mod_pos_bound; lia|by destruct (Z.eqb_spec ((Pipe.tail rb +₆₄ 1) mod 32) (Pipe.head rb))].
Qed.
Lemma ty_UserBufferIterator_next k0 it : keeps_ty k0 (UserBufferIterator_next it).
Proof. unfold UserBufferIterator_next. ty. Qed.
Lemma ty_all_write_ends_closed k0 rb : keeps_ty k0 (all_write_ends_closed rb).
Proof. unfold all_write_ends_closed. ty. apply ty_gets. Qed.
#[local] Hint Resolve ty_UserBufferIterator_next ty_all_write_ends_closed : ty.
Lemma ty_pipe_read_bytes n b : ∀ k0 it r, keeps_ty k0 (pipe_read_bytes n b it r).
Proof.
  induction n as [|n IH]; intros k0 it r; cbn [pipe_read_bytes]; [ty|]. ty_step; [ty|]. destruct a as [[pa|] it']; [|ty].
  ty_step. eapply ty_bind_fact; [by apply read_byte_ty|]. intros k1 [c rb'] Hg Hrb'. assert (ring_ty k b rb') as Hr by done. ty_move Hg.
  do 2 (apply ty_bind; [ty|intros ?]). apply IH.
Qed.
Lemma ty_pipe_write_bytes n b : ∀ k0 it r, keeps_ty k0 (pipe_write_bytes n b it r).
Proof.
  induction n as [|n IH]; intros k0 it r; cbn [pipe_write_bytes]; [ty|]. ty_step; [ty|]. destruct a as [[pa|] it']; [|ty].
  ty_step. ty_step; [ty|]. eapply ty_bind_fact; [by apply write_byte_ty|]. intros k1 rb' Hg Hrb'. assert (ring_ty k b rb') as Hr by done. ty_move Hg.
  apply ty_bind; [ty|intros ?]. apply IH.
Qed.
#[local] Hint Resolve ty_pipe_read_bytes ty_pipe_write_bytes : ty.
Lemma ty_pipe_read_loop k0 b it n : is_pipe k0 b → keeps_ty k0 (pipe_read_loop b it n).
Proof. intros Hb. unfold pipe_read_loop, pipe_read_round. ty. Qed.
Lemma ty_pipe_write_loop k0 b it n : is_pipe k0 b → keeps_ty k0 (pipe_write_loop b it n).
Proof. intros Hb. unfold pipe_write_loop, pipe_write_round. ty. Qed.
Lemma make_pipe_ty k0 : ty k0 make_pipe (λ '(r, w) k, is_file k r ∧ is_file k w).
Proof.
  intros k a k' [Hk Hg] [= <- <-]. set (n := next_object k). set (k' := set_pipes _ _).
  assert (∀ i, (n ≤ i)%nat → tasks k !! i = None ∧ files k !! i = None ∧ pipes k !! i = None) as Hfresh.
  { intros i Hi. unfold n in Hi. repeat split; apply eq_None_not_Some; intros Hs;
      (assert (i < next_object k)%nat by (apply (wt_fresh k Hk); unfold is_file, is_pipe; tauto); lia). }
  assert (files k' = <[S (S n) := Pipe false true n]> (<[S n := Pipe true false n]> (files k))) as Ef by done.
  assert (pipes k' = <[n := PipeRingBuffer_set_write_end PipeRingBuffer_new (S (S n))]> (pipes k)) as Ep by done.
  assert (evolved k k') as Hg'.
  { split; [intros f o Hf|intros b Hb|cbn; lia].
    - exists o. split; [|constructor]. rewrite Ef, !lookup_insert_ne; [done|..]; intros <-.
      + destruct (Hfresh (S n) ltac:(lia)) as (_ & E & _). congruence.
      + destruct (Hfresh (S (S n)) ltac:(lia)) as (_ & E & _). congruence.
    - unfold is_pipe. rewrite Ep. apply lookup_insert_is_Some'. by right. }
  assert (evolved k0 k') as Hg0 by by eapply evolved_trans.
  split; [|split; [done|]].
  - eapply well_typed_evolved; [done|done| | | |].
    + intros i. unfold is_file, is_pipe. rewrite Ef, Ep, !lookup_insert_is_Some. cbn. intros Hi.
      destruct (decide (n ≤ i)%nat) as [Hle|]; [|unfold n in *; lia]. destruct (Hfresh i Hle) as (E1 & E2 & E3).
      change (next_object k') with (S (S (S n))). rewrite E1, E2, E3 in Hi. destruct Hi as [[? [=]]|[[<-|[_ [<-|[_ [? [=]]]]]]|[<-|[_ [? [=]]]]]]; lia.
    + intros t tcb Ht. by left.
    + intros f o. rewrite Ef. intros [[_ <-]|[_ [[_ <-]|[_ Hf]]%lookup_insert_Some]]%lookup_insert_Some; [right|right|by left];
        (split; [done|]); unfold is_pipe; rewrite Ep, lookup_insert_eq; done.
    + intros b rb. rewrite Ep. intros [[<- <-]|[_ Hb]]%lookup_insert_Some; [right|by left].
      split; [split; cbn; done || lia|]. exists (S (S n)). split; [done|]. by rewrite Ef, lookup_insert_eq.
  - unfold is_file. rewrite Ef. split; [rewrite lookup_insert_ne by lia|]; by rewrite lookup_insert_eq.
Qed.
Lemma ty_current_add_signal k0 s : keeps_ty k0 (current_add_signal s).
Proof. unfold current_add_signal. ty. Qed.
#[local] Hint Resolve ty_current_add_signal ty_pipe_read_loop ty_pipe_write_loop : ty.
Lemma ty_stdin_loop k0 bufs : keeps_ty k0 (stdin_loop bufs).
Proof. unfold stdin_loop, console_getchar. ty. Qed.
#[local] Hint Resolve ty_stdin_loop : ty.
Lemma ty_File_read k0 f bufs : keeps_ty k0 (File_read f bufs).
Proof.
  unfold File_read. ty_fact get_file_ty. intros [Hf Ho]. destruct a as [| |r w o i|r w b]; [ty|ty|ty|]. destruct Ho as [_ Hb]. ty.
Qed.
Lemma ty_File_write k0 f bufs : keeps_ty k0 (File_write f bufs).
Proof.
  unfold File_write. ty_fact get_file_ty. intros [Hf Ho]. destruct a as [| |r w o i|r w b]; [ty|ty|ty|]. destruct Ho as [_ Hb]. ty.
Qed.
#[local] Hint Resolve ty_File_read ty_File_write : ty.

(** *** Descriptors *)

Lemma current_fds_ty k0 : ty k0 current_fds (λ '(t, fds) k, old k t ∧ fds_ty k fds).
Proof.
  unfold current_fds. ty_step; [ty|]. eapply ty_bind_fact; [apply get_task_ty|]. intros k1 tcb _ [Ht Htcb].
  apply ty_ret. intros k Hg. split; [by eapply old_evolved|]. eapply fds_ty_evolved; [done|apply Htcb].
Qed.
Lemma fds_ty_insert k fds i f : fds_ty k fds → is_file k f → fds_ty k (<[i := Some f]> fds).
Proof. intros Hf H0 g [[= ->]|Hg]%elem_of_insert_inv; [done|by apply Hf]. Qed.
Lemma ty_install_fd k0 t f : is_file k0 f → keeps_ty k0 (install_fd t f).
Proof.
  intros Hf. unfold install_fd. ty_step. destruct (TaskControlBlockInner_alloc_fd a) as [fd tcb] eqn:E.
  assert (task_ty k tcb) as Htcb.
  { unfold TaskControlBlockInner_alloc_fd in E. destruct (find_index _ _) as [[i ?]|]; [by injection E as _ <-|].
    injection E as _ <-. open_task. split; cbn; try done. intros g [Hin|Hin]%elem_of_app; [by apply Hfds|].
    apply list_elem_of_singleton in Hin. done. }
  ty_step. apply ty_bind; [|intros ?; ty]. apply put_task_ty; [done|]. open_task. split; cbn; try done.
  by apply fds_ty_insert.
Qed.
#[local] Hint Resolve ty_install_fd : ty.
Lemma ty_sys_read k0 a b c : keeps_ty k0 (sys_read a b c).
Proof. unfold sys_read, current_fds. ty. Qed.
Lemma ty_sys_write k0 a b c : keeps_ty k0 (sys_write a b c).
Proof. unfold sys_write, current_fds. ty. Qed.
Lemma ty_sys_open k0 a b : keeps_ty k0 (sys_open a b).
Proof.
  unfold sys_open. do 4 (ty_step; [ty|]). ty_fact open_file_ty. intros Ho. destruct a4 as [[| |r w o i|]|]; try done; [|ty].
  subst o. eapply ty_bind_fact; [by apply new_file_ty|]. intros k1 f Hg Hf. ty_move Hg. ty.
Qed.
Lemma ty_sys_close k0 a : keeps_ty k0 (sys_close a).
Proof.
  unfold sys_close. ty_fact current_fds_ty. destruct a0 as [t fds]. intros [Ht Hf]. case_match; [ty|]. ty_step.
  destruct a0 as [f|]; [|ty]. ty_step. unfold update_task. apply ty_bind; [|intros ?; ty]. ty_step. apply put_task_ty; [done|].
  open_task. split; cbn; try done. intros g [?|Hg]%elem_of_insert_inv; [done|by apply Hf].
Qed.
Lemma ty_sys_pipe k0 a : keeps_ty k0 (sys_pipe a).
Proof.
  unfold sys_pipe. do 2 (ty_step; [ty|]). eapply ty_bind_fact; [apply make_pipe_ty|]. intros k1 [r w] _ [Hr Hw]. ty.
Qed.
Lemma ty_sys_dup k0 a : keeps_ty k0 (sys_dup a).
Proof.
  unfold sys_dup. ty_fact current_fds_ty. destruct a0 as [t fds]. intros [Ht Hf]. case_match; [ty|]. ty_step.
  destruct a0 as [f|]; [|ty]. assert (is_file k1 f) as Hfile by (eapply Hf, list_elem_of_lookup_2; done). ty.
Qed.
Lemma ty_sys_fstat k0 a b : keeps_ty k0 (sys_fstat a b).
Proof. unfold sys_fstat, current_fds. ty. Qed.
Lemma ty_sys_linkat k0 a b c d e : keeps_ty k0 (sys_linkat a b c d e).
Proof. unfold sys_linkat, fs_linkat. ty. Qed.
Lemma ty_sys_unlinkat k0 a b c : keeps_ty k0 (sys_unlinkat a b c).
Proof. unfold sys_unlinkat, fs_unlinkat. ty. Qed.

(** *** Memory and time *)

Lemma ty_any_page k0 f a b : keeps_ty k0 (any_page f a b).
Proof. unfold any_page, SimpleRange_new. ty. Qed.
#[local] Hint Resolve ty_any_page : ty.
Lemma ty_sys_mmap k0 a b c : keeps_ty k0 (sys_mmap a b c).
Proof. unfold sys_mmap, current_memory_set_mmap. ty. Qed.
Lemma ty_sys_munmap k0 a b : keeps_ty k0 (sys_munmap a b).
Proof. unfold sys_munmap, current_memory_set_munmap. ty. Qed.
Lemma ty_sys_get_time k0 a : keeps_ty k0 (sys_get_time a).
Proof. unfold sys_get_time, get_time_us. ty. Qed.
Lemma ty_sys_set_priority k0 a : keeps_ty k0 (sys_set_priority a).
Proof. unfold sys_set_priority, set_current_prio. ty. Qed.
Lemma ty_sys_getpid k0 : keeps_ty k0 sys_getpid.
Proof. unfold sys_getpid. ty. Qed.

(** *** Processes *)

Lemma ty_trap_cx_ppn_of k0 ms : keeps_ty k0 (trap_cx_ppn_of ms).
Proof. unfold trap_cx_ppn_of, PageNum_from_Addr. ty. Qed.
Lemma ty_kernel_token k0 : keeps_ty k0 kernel_token.
Proof. unfold kernel_token. ty. Qed.
Lemma ty_pid_alloc k0 : keeps_ty k0 pid_alloc.
Proof. unfold pid_alloc. ty. Qed.
Lemma ty_KernelStack_new k0 p : keeps_ty k0 (KernelStack_new p).
Proof. unfold KernelStack_new. ty. Qed.
Lemma ty_KernelStack_drop k0 p : keeps_ty k0 (KernelStack_drop p).
Proof. unfold KernelStack_drop, PageNum_from_Addr. ty. Qed.
#[local] Hint Resolve ty_trap_cx_ppn_of ty_kernel_token ty_pid_alloc ty_KernelStack_new ty_KernelStack_drop : ty.
Lemma new_task_ty k0 tcb : task_ty k0 tcb → ty k0 (new_task tcb) (λ t k, old k t).
Proof.
  intros Htcb k a k' [Hk Hg] [= <- <-]. set (k' := set_tasks _ _).
  assert (evolved k k') as Hg' by (apply evolved_same; [done|done|cbn; lia]). assert (evolved k0 k') as Hg0 by by eapply evolved_trans.
  split; [|split; [done|unfold old; cbn; lia]]. eapply well_typed_evolved; [done|done| |intros t' tcb'|by left|by left].
  - intros n Hn. change (next_object k') with (S (next_object k)). destruct (decide (n = next_object k)) as [->|]; [lia|].
    assert (n < next_object k)%nat; [|lia]. apply (wt_fresh k Hk). destruct Hn as [Hn|Hn]; [left|by right].
    cbn in Hn. by rewrite lookup_insert_ne in Hn.
  - cbn. intros [[_ <-]|[_ ?]]%lookup_insert_Some; [right|by left]. by eapply task_ty_evolved.
Qed.
Lemma ty_TaskControlBlock_drop k0 t : keeps_ty k0 (TaskControlBlock_drop t).
Proof.
  unfold TaskControlBlock_drop. ty_step. apply ty_bind; [|unfold PidHandle_drop; intros ?; ty].
  clear. intros k0' u k' [Hk Hg] [= _ <-]. assert (evolved k0' (set_tasks (delete t (tasks k0')) k0')) as Hg' by by apply evolved_same.
  split; [|split; [by eapply evolved_trans|done]]. eapply well_typed_evolved; [done|done| |intros t' tcb'|by left|by left].
  - intros n Hn. apply (wt_fresh k0' Hk). destruct Hn as [Hn|Hn]; [left|by right]. cbn in Hn. by apply lookup_delete_is_Some in Hn as [_ ?].
  - cbn. intros [_ ?]%lookup_delete_Some. by left.
Qed.
Lemma ty_exec k0 t elf args : keeps_ty k0 (TaskControlBlock_exec t elf args).
Proof. unfold TaskControlBlock_exec, from_elf. ty. Qed.
Lemma ty_fork k0 t : ty k0 (TaskControlBlock_fork t) (λ c k, old k c).
Proof.
  unfold TaskControlBlock_fork. ty_step. do 3 (ty_step; [ty|]). cbv zeta. do 3 (ty_step; [ty|]).
  eapply ty_bind_fact; [apply new_task_ty|].
  - open_task. by split; cbn.
  - intros k1 c Hg Hc. ty_move Hg. ty_step; [ty|]. apply ty_ret. intros k' Hg'. by eapply old_evolved.
Qed.
Lemma TaskControlBlock_new_ty k0 elf : ty k0 (TaskControlBlock_new elf) (λ tcb k, task_ty k tcb).
Proof.
  unfold TaskControlBlock_new, from_elf. ty_step; [ty|]. destruct a as [[ms sp] entry]. do 3 (ty_step; [ty|]). cbv zeta.
  do 3 (eapply ty_bind_fact; [by apply new_file_ty|]; let H := fresh in let H' := fresh in intros ?k ?f H H'; ty_move H).
  do 2 (ty_step; [ty|]). apply ty_ret. intros k' Hg. ty_move Hg. split; cbn; [|done|done|lia].
  intros g Hin. rewrite !elem_of_cons in Hin. destruct Hin as [[= ->]|[[= ->]|[[= ->]|Hin]]]; [done..|by apply not_elem_of_nil in Hin].
Qed.
Lemma ty_INITPROC k0 : keeps_ty k0 INITPROC.
Proof.
  unfold INITPROC. ty_step; [ty|]. destruct a as [t|]; [ty|]. ty_fact open_file_ty. intros _. ty_step; [ty|].
  destruct a0 as [| |r w o i|]; [ty|ty| |ty]. ty_step; [ty|]. destruct a0 as [v ?]. eapply ty_bind_fact; [apply TaskControlBlock_new_ty|].
  intros k1 tcb Hg Htcb. ty_move Hg. eapply ty_bind_fact; [by apply new_task_ty|]. intros k2 t Hg Ht. ty_move Hg. ty.
Qed.
#[local] Hint Resolve ty_TaskControlBlock_drop ty_exec ty_INITPROC : ty.
Lemma ty_exit k0 code : keeps_ty k0 (exit_current_and_run_next code).
Proof. unfold exit_current_and_run_next, take_current_task. ty. Qed.
#[local] Hint Resolve ty_exit : ty.
Lemma ty_sys_fork k0 : keeps_ty k0 sys_fork.
Proof. unfold sys_fork. ty_step; [ty|]. eapply ty_bind_fact; [apply ty_fork|]. intros k1 c _ _. ty. Qed.
Lemma ty_sys_exec k0 a b : keeps_ty k0 (sys_exec a b).
Proof. unfold sys_exec. do 3 (ty_step; [ty|]). ty_fact open_file_ty. intros _. ty. Qed.
Lemma ty_sys_waitpid k0 a b : keeps_ty k0 (sys_waitpid a b).
Proof. unfold sys_waitpid. ty. all: apply ty_gets. Qed.

(** *** Signals *)

Lemma ty_pid2task k0 p : keeps_ty k0 (pid2task p).
Proof. unfold pid2task, current_task. ty. Qed.
#[local] Hint Resolve ty_pid2task : ty.
Lemma ty_sys_kill k0 a b : keeps_ty k0 (sys_kill a b).
Proof. unfold sys_kill. ty. Qed.
Lemma ty_sys_sigprocmask k0 a : keeps_ty k0 (sys_sigprocmask a).
Proof. unfold sys_sigprocmask, current_task. ty. Qed.
Lemma ty_sys_sigretrun k0 : keeps_ty k0 sys_sigretrun.
Proof. unfold sys_sigretrun, current_task. ty. Qed.
Lemma ty_sys_sigaction k0 a b c : keeps_ty k0 (sys_sigaction a b c).
Proof.
  unfold sys_sigaction, current_task. ty. open_task. split; cbn; try done. by rewrite length_insert.
Qed.
Lemma ty_deliver k0 sig signal : keeps_ty k0 (deliver sig signal).
Proof. unfold deliver, call_kernel_signal_handler, call_user_signal_handler. ty. Qed.
#[local] Hint Resolve ty_deliver : ty.
Lemma ty_check_signals l : ∀ k0, keeps_ty k0 (check_signals l).
Proof. induction l as [|sig l IH]; intros k0; cbn [check_signals]; ty. Qed.
Lemma ty_check_pending_signals k0 : keeps_ty k0 check_pending_signals.
Proof. apply ty_check_signals. Qed.
#[local] Hint Resolve ty_check_pending_signals : ty.
Lemma ty_handle_signals_loop k0 : keeps_ty k0 handle_signals_loop.
Proof. unfold handle_signals_loop. ty. Qed.
Lemma ty_after_signals k0 f : keeps_ty k0 (after_signals f).
Proof. unfold after_signals, check_signals_error_of_current. ty. Qed.
#[local] Hint Resolve ty_handle_signals_loop ty_after_signals : ty.
Lemma ty_trap_end k0 : keeps_ty k0 trap_end.
Proof. unfold trap_end, handle_signals. ty. Qed.
#[local] Hint Resolve ty_trap_end : ty.

(** ** The machine *)

Lemma ty_syscall_end k0 f : keeps_ty k0 (syscall_end f).
Proof. unfold syscall_end, current_trap_cx, put_current_trap_cx. ty. Qed.
#[local] Hint Resolve ty_syscall_end ty_sys_read ty_sys_write ty_sys_open ty_sys_close ty_sys_pipe ty_sys_dup ty_sys_fstat
  ty_sys_linkat ty_sys_unlinkat ty_sys_mmap ty_sys_munmap ty_sys_get_time ty_sys_set_priority ty_sys_getpid ty_sys_fork
  ty_sys_exec ty_sys_waitpid ty_sys_kill ty_sys_sigprocmask ty_sys_sigretrun ty_sys_sigaction : ty.
Lemma ty_syscall k0 n a0 a1 a2 a3 a4 : keeps_ty k0 (syscall n a0 a1 a2 a3 a4).
Proof. unfold syscall, sys_exit, sys_yield, returns. repeat (case_match; [ty|]). ty. Qed.
#[local] Hint Resolve ty_syscall : ty.
Lemma ty_trap_handler k0 cause : keeps_ty k0 (trap_handler cause).
Proof. unfold trap_handler, set_next_trigger, current_trap_cx, put_current_trap_cx. ty. Qed.
Lemma ty_resume k0 r : resume_ty k0 r → keeps_ty k0 (resume r).
Proof. intros Hr. destruct r; cbn [resume_ty resume] in *; ty. Qed.
Lemma ty_run_tasks_step k0 : keeps_ty k0 run_tasks_step.
Proof.
  unfold run_tasks_step. ty_step; [unfold run_tasks_round, fetch_task; ty|]. destruct a as [t|]; [|ty].
  unfold switch_to. ty_fact get_task_ty. intros [_ Htcb]. pose proof (tt_context _ _ Htcb) as Hcx.
  destruct (task_cx a); [done|ty|by apply ty_resume].
Qed.

Lemma machine_step_typed p q : well_typed p.2 → machine_step p q → well_typed q.2.
Proof.
  assert (∀ A (m : M (Kernel St) A) k a k', (∀ k0, keeps_ty k0 m) → well_typed k → m k = Ok (a, k') → well_typed k') as Hty.
  { intros A m k a k' Hm Hk Hr. by destruct (Hm k k a k' (conj Hk (evolved_refl k)) Hr). }
  intros Hp Hstep. revert Hp. destruct Hstep as [k f k' Hrun|cause k f k' Hrun|va b k k' Hrun|x pc status k k' _ Hrun|m dt k|m ch k];
    intros Hp; cbn [snd] in *.
  - eapply Hty; [|exact Hp|exact Hrun]. apply ty_run_tasks_step.
  - eapply Hty; [|exact Hp|exact Hrun]. intros. apply ty_trap_handler.
  - eapply Hty; [|exact Hp|exact Hrun]. intros k0. unfold user_store. ty.
  - eapply Hty; [|exact Hp|exact Hrun]. intros k0. unfold user_registers, current_trap_cx, put_current_trap_cx. ty.
  - by destruct (ty_upd k (set_time (time k +₆₄ dt)) ltac:(by intros) k () _ (conj Hp (evolved_refl k)) eq_refl).
  - by destruct (ty_upd k (set_console_in (console_in k ++ [ch])) ltac:(by intros) k () _ (conj Hp (evolved_refl k)) eq_refl).
Qed.
Lemma boot_typed pages dev ks (k : Kernel St) : rust_main (Kernel_boot pages dev ks) = Ok ((), k) → well_typed k.
Proof.
  intros Hrun. assert (well_typed (Kernel_boot pages dev ks)) as Hboot.
  { split; cbn; [intros n [[? Hn]|[[? Hn]|[? Hn]]]|..]; intros *; try by rewrite lookup_empty. all: cbn in Hn; by rewrite lookup_empty in Hn. }
  assert (∀ k0, keeps_ty k0 (rust_main (St := St))) as Hm.
  { intros k0. unfold rust_main, add_initproc, set_next_trigger. ty. }
  by destruct (Hm _ _ () k (conj Hboot (evolved_refl _)) Hrun).
Qed.
Lemma reachable_typed p : reachable p → well_typed p.2.
Proof. induction 1 as [pages dev ks k Hrun|p q _ IH _ Hstep]; [by eapply boot_typed|by eapply machine_step_typed]. Qed.
End calls.

(** * Property *)

(** C13: No reference dangles and every object is of its type.  In every reachable
    state, however the kernel was driven from its boot on: an open descriptor of
    any task, also of a zombie, names an open file; a file that is a pipe end is a
    read end or a write end, never both, of a ring buffer that exists and is well
    formed, and whose weak reference leads to the write end of that same pipe; an
    offset is a 64-bit number.  A task that is not running was never left without
    a context to go on at, and if it waits in a pipe that pipe exists.  The table of
    signal actions has its 32 entries, and the signal a task is handling, if any,
    is one of them. *)
Theorem reachable_well_typed {St : Type} `{!BlockStore St} `{!Platform} m (k : Kernel St) :
  reachable (m, k) →
  (∀ t tcb, tasks k !! t = Some tcb →
     (∀ fd f, fd_table tcb !! fd = Some (Some f) → is_Some (files k !! f)) ∧
     match task_cx tcb with
     | TaskContext_suspended (in_pipe_read b _ _ | in_pipe_write b _ _) => is_Some (pipes k !! b)
     | TaskContext_zero_init => False
     | _ => True
     end ∧
     length (signal_actions tcb) = 32%nat ∧ -1 ≤ handling_sig tcb < 32) ∧
  (∀ f o, files k !! f = Some o →
     match o with
     | Pipe r w b => r = negb w ∧ ∃ rb e, pipes k !! b = Some rb ∧ ring_wf rb ∧
         write_end rb = Some e ∧ files k !! e = Some (Pipe false true b)
     | OSInode _ _ offset _ => 0 ≤ offset < 2 ^ 64
     | _ => True
     end).
Proof.
  intros Hr%reachable_typed. cbn in Hr. destruct Hr as [_ Ht Hf Hp]. split.
  - intros t tcb Htcb. destruct (Ht t tcb Htcb) as [Hfds Hcx Ha Hh]. split; [|split; [|done]].
    + intros fd f Hfd. by eapply Hfds, list_elem_of_lookup_2.
    + by destruct (task_cx tcb) as [| |[]].
  - intros f o Ho. specialize (Hf f o Ho). destruct o as [| |r w off i|r w b]; try done.
    destruct Hf as [Hrw [rb Hrb]]. split; [done|]. destruct (Hp b rb Hrb) as (Hwf & e & He & Hfe). by exists rb, e.
Qed.

(** * Witness: the first program makes a pipe *)

Section witness.
#[local] Existing Instance ex_platform.

Definition pipe_test (k : Kernel Flat) : bool :=
  bool_decide (size (pipes k) = 1%nat) &&
  existsb (λ p, bool_decide (omap (λ fd, fd) (drop 3 (fd_table p.2)) ≠ [])) (map_to_list (tasks k)).
Definition pipe_trace : Kernel Flat → option (Kernel Flat * Kernel Flat) := call_trace SYSCALL_PIPE 0x13000 pipe_test.
Lemma pipe_trace_runs : is_some (pipe_trace ex_power_on) = true.
Proof. vm_compute. reflexivity. Qed.

Lemma reachable_well_typed_witness :
  ∃ k : Kernel Flat, reachable (User, k) ∧ pipe_test k = true ∧
  (∀ t tcb, tasks k !! t = Some tcb →
     (∀ fd f, fd_table tcb !! fd = Some (Some f) → is_Some (files k !! f)) ∧
     match task_cx tcb with
     | TaskContext_suspended (in_pipe_read b _ _ | in_pipe_write b _ _) => is_Some (pipes k !! b)
     | TaskContext_zero_init => False
     | _ => True
     end ∧
     length (signal_actions tcb) = 32%nat ∧ -1 ≤ handling_sig tcb < 32).
Proof.
  destruct (call_trace_reachable _ _ _ _ _ _ pipe_trace_runs) as (_ & k & _ & Hk & Hn). exists k. split; [exact Hk|].
  split; [exact Hn|]. exact (proj1 (reachable_well_typed User k Hk)).
Defined.
End witness.
