(* ===== verification/FrameInv.v ===== *)
(** Every step of the machine keeps the frames of the kernel apart: each frame
    that is handed out belongs to one page table or area of one address space,
    the kernel's own or a task's, and none is lost. *)

From S2P Require Export Machine.

(** The frames behind the address spaces of the tasks. *)
Definition tasks_frames (ts : gmap nat MemorySet) : list Z := map_to_list ts ≫= λ p, ms_frames p.2.

Lemma tasks_frames_insert ts t ms :
  ts !! t = None → tasks_frames (<[t := ms]> ts) ≡ₚ ms_frames ms ++ tasks_frames ts.
Proof. intros Ht. unfold tasks_frames. by rewrite map_to_list_insert by done. Qed.
Lemma tasks_frames_delete ts t ms :
  ts !! t = Some ms → tasks_frames ts ≡ₚ ms_frames ms ++ tasks_frames (delete t ts).
Proof. intros Ht. unfold tasks_frames. by rewrite <-(map_to_list_delete ts t ms) by done. Qed.
Lemma tasks_frames_replace ts t ms : tasks_frames (<[t := ms]> ts) ≡ₚ ms_frames ms ++ tasks_frames (delete t ts).
Proof. rewrite <-insert_delete_eq. apply tasks_frames_insert, lookup_delete_eq. Qed.

Section frames.
Context {St : Type} `{!BlockStore St} `{!Platform} (l r : Z).
Implicit Types k : Kernel St.
Implicit Types ts : gmap nat MemorySet.

(** The tasks have the address spaces [ts]; the frames handed out are those of the
    kernel's address space and [F]. *)
Definition fr ts (F : list Z) k : Prop :=
  memory_set <$> tasks k = ts ∧ owns l r (ms_frames (kernel_space k) ++ F) (mm k) ∧
  ∀ t, is_Some (ts !! t) → (t < next_object k)%nat.
Definition frames_ok k : Prop := fr (memory_set <$> tasks k) (tasks_frames (memory_set <$> tasks k)) k.

Lemma fr_ok ts F k : fr ts F k → F ≡ₚ tasks_frames ts → frames_ok k.
Proof. intros (<- & Ho & Hn) HF. split; [done|]. split; [|done]. eapply owns_perm; [exact Ho|by rewrite HF]. Qed.
Lemma hoare_ok {A} (m : M (Kernel St) A) Q :
  (∀ ts, hoare (fr ts (tasks_frames ts)) m Q) → hoare frames_ok m Q.
Proof. intros Hm k a k' Hk. by eapply Hm. Qed.

Lemma fr_stays {A} ts F (m : M (Kernel St) A) : (∀ k0, stays Frames k0 m) → hoare (fr ts F) m (λ _, fr ts F).
Proof.
  intros Hm k a k' (Hts & Ho & Hn) Hr. destruct (Hm k k a k' (evolves_refl _ k) Hr) as [He Hle].
  injection He as H1 H2 H3. split; [congruence|]. split; [unfold owns; by rewrite H1, H3|].
  intros t Ht. apply Hn in Ht. lia.
Qed.
Lemma fr_bind {A B} ts F (m : M (Kernel St) A) (f : A → M (Kernel St) B) Q :
  (∀ k0, stays Frames k0 m) → (∀ a, hoare (fr ts F) (f a) Q) → hoare (fr ts F) (m ≫= f) Q.
Proof. intros Hm Hf. eapply hoare_bind; [by apply fr_stays|done]. Qed.
(** A call that moves frames. *)
Lemma fr_mm_bind {A B} X F1 G ts F (m : M Mm A) (f : A → M (Kernel St) B) Q :
  moves l r F1 m G → F ≡ₚ F1 ++ X → (∀ a, hoare (fr ts (G a ++ X)) (f a) Q) → hoare (fr ts F) (in_mm m ≫= f) Q.
Proof.
  intros Hm HF Hf. eapply hoare_bind; [|exact Hf]. intros k a k' (Hts & Ho & Hn). unfold in_mm, zoom.
  destruct (m (mm k)) as [[a' s]|] eqn:E; [|done]. intros [= <- <-]. split; [done|]. split; [|done].
  assert (owns l r (F1 ++ X ++ ms_frames (kernel_space k)) (mm k)) as Ho'.
  { eapply owns_perm; [exact Ho|]. rewrite HF. solve_Permutation. }
  eapply owns_perm; [exact (Hm _ _ _ _ Ho' E)|]. cbn. solve_Permutation.
Qed.
Lemma fr_get_task {B} ts F t (f : TaskControlBlock → M (Kernel St) B) Q :
  (∀ tcb, ts !! t = Some (memory_set tcb) → hoare (fr ts F) (f tcb) Q) → hoare (fr ts F) (get_task t ≫= f) Q.
Proof.
  intros Hf k b k' Hk (tcb & k1 & [-> Ht]%get_task_Ok & H2)%bind_Ok_inv. eapply Hf; [|done..].
  rewrite <-(proj1 Hk). by rewrite lookup_fmap, Ht.
Qed.
Lemma fr_put_task ts F t tcb :
  is_Some (ts !! t) → hoare (fr ts F) (put_task t tcb) (λ _, fr (<[t := memory_set tcb]> ts) F).
Proof.
  intros Ht k a k' (Hts & Ho & Hn) [= _ <-]. split; [cbn; by rewrite fmap_insert, Hts|]. split; [done|].
  intros t'. rewrite lookup_insert_is_Some. intros [<-|[_ ?]]; by apply Hn.
Qed.
Lemma fr_new_task {B} ts F tcb (f : nat → M (Kernel St) B) Q :
  (∀ t, ts !! t = None → hoare (fr (<[t := memory_set tcb]> ts) F) (f t) Q) → hoare (fr ts F) (new_task tcb ≫= f) Q.
Proof.
  intros Hf k b k' (Hts & Ho & Hn) (t & k1 & H1 & H2)%bind_Ok_inv. injection H1 as <- <-. eapply Hf; [..|exact H2].
  - destruct (ts !! next_object k) eqn:E; [|done]. specialize (Hn (next_object k)). rewrite E in Hn.
    specialize (Hn ltac:(done)). lia.
  - split; [cbn; by rewrite fmap_insert, Hts|]. split; [done|]. intros t'. rewrite lookup_insert_is_Some. cbn.
    intros [<-|[_ Ht]]; [lia|]. apply Hn in Ht. lia.
Qed.
(** A call on the kernel's address space, which it replaces. *)
Lemma fr_kernel_space {A} ts F ks (m : M Mm A) (ms : A → MemorySet) k a s :
  moves l r (ms_frames ks) m (λ a, ms_frames (ms a)) → fr ts F k → kernel_space k = ks → m (mm k) = Ok (a, s) →
  fr ts F (set_kernel_space (ms a) (set_mm s k)).
Proof. intros Hm (Hts & Ho & Hn) <- E. split; [done|]. split; [|done]. exact (Hm _ _ _ _ Ho E). Qed.
Lemma in_mm_Ok {A} (m : M Mm A) k a k' : in_mm m k = Ok (a, k') → ∃ s, m (mm k) = Ok (a, s) ∧ k' = set_mm s k.
Proof. unfold in_mm, zoom. destruct (m _) as [[a' s]|]; [|done]. intros [= <- <-]. by exists s. Qed.
Lemma fr_KernelStack_new ts F p : hoare (fr ts F) (KernelStack_new p) (λ _, fr ts F).
Proof.
  intros k a k' Hk Hrun. unfold KernelStack_new in Hrun. destruct (kernel_stack_position p) as [i j].
  apply bind_Ok_inv in Hrun as (ks & k1 & [= <- <-] & Hrun).
  apply bind_Ok_inv in Hrun as ([ok ks] & k2 & (s & H1 & ->)%in_mm_Ok & [= _ <-]).
  exact (fr_kernel_space ts F _ _ snd k _ s (moves_insert_framed_area l r _ _ _ _) Hk eq_refl H1).
Qed.
Lemma fr_KernelStack_drop ts F p : hoare (fr ts F) (KernelStack_drop p) (λ _, fr ts F).
Proof.
  unfold KernelStack_drop. destruct (kernel_stack_position p) as [i j]. apply fr_bind; [intros; unfold PageNum_from_Addr; stays|].
  intros v k a k' Hk (ks & k1 & [= <- <-] & Hrun)%bind_Ok_inv.
  apply bind_Ok_inv in Hrun as (ks & k2 & (s & H1 & ->)%in_mm_Ok & [= _ <-]).
  exact (fr_kernel_space ts F _ _ (λ ms, ms) k _ s (moves_remove_area l r _ _) Hk eq_refl H1).
Qed.

(** ** The calls that take and give back frames *)

Definition keeps_frames {A} (m : M (Kernel St) A) : Prop := hoare frames_ok m (λ _, frames_ok).

Lemma kf_stays {A} (m : M (Kernel St) A) : (∀ k0, stays Frames k0 m) → keeps_frames m.
Proof.
  intros Hm. apply hoare_ok. intros ts. eapply hoare_mono; [by apply (fr_stays ts (tasks_frames ts))|done|].
  intros ? k Hk. by apply (fr_ok ts (tasks_frames ts)).
Qed.
Lemma kf_bind {A B} (m : M (Kernel St) A) (f : A → M (Kernel St) B) :
  keeps_frames m → (∀ a, keeps_frames (f a)) → keeps_frames (m ≫= f).
Proof. intros Hm Hf. by eapply hoare_bind. Qed.

(** The address space of a task is replaced by one with the frames the call left. *)
Lemma fr_replace ts F t tcb ms k :
  fr ts F k → ts !! t = Some ms → F ≡ₚ ms_frames (memory_set tcb) ++ tasks_frames (delete t ts) →
  frames_ok (set_tasks (<[t := tcb]> (tasks k)) k).
Proof.
  intros Hk Ht HF. assert (hoare (fr ts F) (put_task t tcb) (λ _, fr (<[t := memory_set tcb]> ts) F)) as Hput.
  { apply fr_put_task. by exists ms. }
  eapply fr_ok; [by eapply Hput|]. by rewrite HF, tasks_frames_replace.
Qed.
Lemma kf_mmap i j p : keeps_frames (current_memory_set_mmap i j p).
Proof.
  apply hoare_ok. intros ts. unfold current_memory_set_mmap. apply fr_bind; [intros; stays|]. intros t.
  apply fr_get_task. intros tcb Ht.
  eapply (fr_mm_bind (tasks_frames (delete t ts))); [apply moves_insert_framed_area|by apply tasks_frames_delete|].
  intros [ok ms]. intros k a k' Hk (u & k1 & [= _ <-] & [= _ <-])%bind_Ok_inv. eapply fr_replace; [exact Hk|done|done].
Qed.
Lemma kf_munmap i j : keeps_frames (current_memory_set_munmap i j).
Proof.
  apply hoare_ok. intros ts. unfold current_memory_set_munmap. apply fr_bind; [intros; stays|]. intros t.
  apply fr_get_task. intros tcb Ht.
  eapply (fr_mm_bind (tasks_frames (delete t ts))); [apply moves_remove_mapped_frames|by apply tasks_frames_delete|].
  intros [res ms]. intros k a k' Hk (u & k1 & [= _ <-] & [= _ <-])%bind_Ok_inv. eapply fr_replace; [exact Hk|done|done].
Qed.
(** The end of [exit]: the data pages of the zombie go back. *)
Lemma kf_recycle t :
  keeps_frames (tcb ← get_task t; ms ← in_mm (MemorySet_recycle_data_pages (memory_set tcb));
    update_task t (set_memory_set ms)).
Proof.
  apply hoare_ok. intros ts. apply fr_get_task. intros tcb Ht.
  eapply (fr_mm_bind (tasks_frames (delete t ts))); [apply moves_recycle|by apply tasks_frames_delete|].
  intros ms. apply fr_get_task. intros tcb' Ht' k a k' Hk [= _ <-]. eapply fr_replace; [exact Hk|done|done].
Qed.
Lemma kf_exec t elf args : keeps_frames (TaskControlBlock_exec t elf args).
Proof.
  apply hoare_ok. intros ts. unfold TaskControlBlock_exec, from_elf.
  eapply (fr_mm_bind (tasks_frames ts)); [apply moves_from_elf|done|]. intros [[ms sp] entry]. cbn [fst].
  cbv zeta. apply fr_bind; [intros; stays|]. intros [base top]. apply fr_bind; [intros; stays|]. intros ppn.
  apply fr_get_task. intros tcb Ht. eapply (fr_mm_bind (ms_frames ms ++ tasks_frames (delete t ts))); [apply moves_MemorySet_drop| |].
  { rewrite (tasks_frames_delete ts t _ Ht). solve_Permutation. }
  intros ?. cbn. eapply (hoare_bind _ _ (λ _, frames_ok)).
  - intros k u k' Hk [= _ <-]. eapply fr_replace; [exact Hk|done|done].
  - intros ?. apply kf_stays. intros; stays.
Qed.
Lemma kf_fork t : keeps_frames (TaskControlBlock_fork t).
Proof.
  apply hoare_ok. intros ts. unfold TaskControlBlock_fork. apply fr_get_task. intros parent Hparent.
  eapply (fr_mm_bind (tasks_frames ts)); [apply moves_from_existed_userspace|done|]. intros ms.
  apply fr_bind; [intros; unfold pid_alloc; stays|]. intros p. eapply hoare_bind; [apply fr_KernelStack_new|].
  intros stack. cbv zeta. do 3 (apply fr_bind; [intros; stays|]; intros ?). apply fr_new_task. intros child Hc.
  eapply (hoare_bind _ _ (λ _, frames_ok)); [|intros ?; by apply hoare_ret].
  eapply hoare_mono; [apply (fr_stays (<[child := ms]> ts) (ms_frames ms ++ tasks_frames ts)); intros; stays|done|].
  intros ? k Hk. eapply fr_ok; [exact Hk|]. by rewrite tasks_frames_insert.
Qed.
Lemma fr_TaskControlBlock_new ts elf :
  hoare (fr ts (tasks_frames ts)) (TaskControlBlock_new elf) (λ tcb, fr ts (ms_frames (memory_set tcb) ++ tasks_frames ts)).
Proof.
  unfold TaskControlBlock_new, from_elf.
  eapply (fr_mm_bind (tasks_frames ts)); [apply moves_from_elf|done|]. intros [[ms sp] entry]. cbn [fst].
  apply fr_bind; [intros; stays|]. intros ppn. apply fr_bind; [intros; unfold pid_alloc; stays|]. intros p.
  eapply hoare_bind; [apply fr_KernelStack_new|]. intros stack. cbv zeta.
  do 5 (apply fr_bind; [intros; stays|]; intros ?). by apply hoare_ret.
Qed.
Lemma kf_INITPROC : keeps_frames INITPROC.
Proof.
  unfold INITPROC. apply kf_bind; [apply kf_stays; intros; stays|]. intros [t|]; [by apply hoare_ret|].
  apply kf_bind; [apply kf_stays; intros; stays|]. intros file. apply kf_bind; [apply kf_stays; intros; stays|].
  intros [| |rd wr offset inode|rd wr b]; try apply hoare_fail. apply kf_bind; [apply kf_stays; intros; stays|]. intros [v ?].
  apply hoare_ok. intros ts. eapply hoare_bind; [apply fr_TaskControlBlock_new|]. intros tcb. apply fr_new_task. intros t Ht.
  apply fr_bind; [intros; stays|]. intros ?. apply hoare_ret. intros k Hk. eapply fr_ok; [exact Hk|].
  by rewrite tasks_frames_insert.
Qed.
Lemma kf_drop t : keeps_frames (TaskControlBlock_drop t).
Proof.
  apply hoare_ok. intros ts. unfold TaskControlBlock_drop. apply fr_get_task. intros tcb Ht.
  eapply (hoare_bind _ _ (λ _, fr (delete t ts) (tasks_frames ts))).
  { apply hoare_upd. intros k (Hts & Ho & Hn). split; [cbn; by rewrite fmap_delete, Hts|]. split; [done|].
    intros t'. rewrite lookup_delete_is_Some. intros [_ ?]. by apply Hn. }
  intros _. apply fr_bind; [intros; unfold PidHandle_drop; apply stays_quiet; intros k a k'|].
  { unfold in_pids, zoom. destruct (PidAllocator_dealloc _ _) as [[? ?]|]; [|done]. by intros [= _ <-]. }
  intros _. eapply hoare_bind; [apply fr_KernelStack_drop|]. intros _ k u k' Hk (s & Hm & ->)%in_mm_Ok.
  destruct Hk as (Hts & Ho & Hn). apply (fr_ok (delete t ts) (tasks_frames (delete t ts))); [|done].
  split; [done|]. split; [|done].
  assert (owns l r (ms_frames (memory_set tcb) ++ tasks_frames (delete t ts) ++ ms_frames (kernel_space k)) (mm k)) as Ho'.
  { eapply owns_perm; [exact Ho|]. rewrite (tasks_frames_delete ts t _ Ht). solve_Permutation. }
  eapply owns_perm; [exact (moves_MemorySet_drop l r _ _ _ _ _ Ho' Hm)|]. cbn. solve_Permutation.
Qed.

(** ** Rules by the form of the call *)

Lemma kf_ret {A} (a : A) : keeps_frames (mret a).
Proof. by apply hoare_ret. Qed.
Lemma kf_fail {A} e : keeps_frames (fail e : M (Kernel St) A).
Proof. apply hoare_fail. Qed.
Lemma kf_mloop {A B} (body : A → M (Kernel St) (A + B)) n a :
  (∀ a, keeps_frames (body a)) → keeps_frames (mloop n body a).
Proof. intros Hb. apply hoare_mloop. intros a'. eapply hoare_mono; [apply Hb|done|]. by intros [?|?]. Qed.
Lemma kf_mfor {A} (f : A → M (Kernel St) ()) xs : (∀ x, keeps_frames (f x)) → keeps_frames (mfor f xs).
Proof. intros Hf. apply (hoare_mfold frames_ok). intros x []. apply Hf. Qed.
End frames.

Create HintDb kf.
#[export] Hint Resolve kf_ret kf_fail kf_mmap kf_munmap kf_exec kf_fork kf_INITPROC kf_drop kf_recycle : kf.
(** The calls that move tasks between the tables of the scheduler keep all
    address spaces. *)
Ltac kf_step :=
  lazymatch goal with
  | |- keeps_frames _ _ panic => apply kf_fail
  | |- keeps_frames _ _ (_ ≫= _) => apply kf_bind; [|intros ?; cbn beta]
  | |- keeps_frames _ _ (mloop _ _ _) => apply kf_mloop; intros ?; cbn beta
  | |- keeps_frames _ _ (let _ := _ in _) => cbv zeta
  | |- keeps_frames _ _ (match ?x with _ => _ end) => destruct x
  | |- keeps_frames _ _ (match ?x with _ => _ end _) => destruct x
  end.
Ltac kf := repeat (first [solve [auto with kf nocore] | solve [apply kf_stays; intros ?; stays] | kf_step]).

Section calls.
Context {St : Type} `{!BlockStore St} `{!Platform} (l r : Z).
Implicit Types k : Kernel St.
Abbreviation kf := (keeps_frames (St := St) l r).

Lemma stays_add_task (k0 : Kernel St) t : stays Frames k0 (add_task t).
Proof. unfold add_task. stays. Qed.
Lemma stays_suspend (k0 : Kernel St) rs : stays Frames k0 (suspend_current_and_run_next rs).
Proof. unfold suspend_current_and_run_next, take_current_task, add_task. stays. Qed.
Lemma stays_run_tasks_round (k0 : Kernel St) : stays Frames k0 run_tasks_round.
Proof. unfold run_tasks_round, fetch_task. stays. Qed.
#[local] Hint Resolve stays_add_task stays_suspend stays_run_tasks_round : stays.
Lemma kf_suspend rs : kf (suspend_current_and_run_next rs).
Proof. apply kf_stays. intros; stays. Qed.
Lemma kf_exit code : kf (exit_current_and_run_next code).
Proof. unfold exit_current_and_run_next, take_current_task. kf. Qed.
#[local] Hint Resolve kf_suspend kf_exit : kf.
Lemma kf_pipe_read b it n : kf (pipe_read_loop b it n).
Proof. unfold pipe_read_loop, pipe_read_round. kf. Qed.
Lemma kf_pipe_write b it n : kf (pipe_write_loop b it n).
Proof. unfold pipe_write_loop, pipe_write_round. kf. Qed.
Lemma kf_stdin bufs : kf (stdin_loop bufs).
Proof. unfold stdin_loop. kf. Qed.
#[local] Hint Resolve kf_pipe_read kf_pipe_write kf_stdin : kf.
Lemma kf_sys_read a b c : kf (sys_read a b c).
Proof. unfold sys_read, File_read. kf. Qed.
Lemma kf_sys_write a b c : kf (sys_write a b c).
Proof. unfold sys_write, File_write. kf. Qed.
Lemma kf_sys_mmap a b c : kf (sys_mmap a b c).
Proof. unfold sys_mmap. kf. Qed.
Lemma kf_sys_munmap a b : kf (sys_munmap a b).
Proof. unfold sys_munmap. kf. Qed.
Lemma kf_sys_fork : kf sys_fork.
Proof. unfold sys_fork. kf. Qed.
Lemma kf_sys_exec a b : kf (sys_exec a b).
Proof. unfold sys_exec. kf. Qed.
Lemma kf_sys_waitpid a b : kf (sys_waitpid a b).
Proof. unfold sys_waitpid. kf. Qed.
#[local] Hint Resolve kf_sys_read kf_sys_write kf_sys_mmap kf_sys_munmap kf_sys_fork kf_sys_exec kf_sys_waitpid : kf.
Lemma kf_returns m : kf m → kf (returns m).
Proof. intros Hm. apply kf_bind; [exact Hm|]. intros ?. apply kf_ret. Qed.
Lemma kf_syscall n a0 a1 a2 a3 a4 : kf (syscall n a0 a1 a2 a3 a4).
Proof.
  unfold syscall, sys_exit, sys_yield, sys_set_priority, set_current_prio.
  repeat (case_match; [first [apply kf_returns; kf | kf]|]). apply kf_fail.
Qed.
#[local] Hint Resolve kf_syscall : kf.

Lemma kf_handle_signals_loop : kf handle_signals_loop.
Proof. unfold handle_signals_loop. kf. Qed.
Lemma kf_after_signals f : kf (after_signals f).
Proof. unfold after_signals. kf. Qed.
#[local] Hint Resolve kf_handle_signals_loop kf_after_signals : kf.
Lemma kf_trap_end : kf trap_end.
Proof. unfold trap_end, handle_signals. kf. Qed.
#[local] Hint Resolve kf_trap_end : kf.
Lemma kf_syscall_end f : kf (syscall_end f).
Proof. unfold syscall_end. kf. Qed.
#[local] Hint Resolve kf_syscall_end : kf.
Lemma kf_trap_handler cause : kf (trap_handler cause).
Proof. unfold trap_handler, set_next_trigger. destruct cause; kf. Qed.
Lemma kf_run_tasks_step : kf run_tasks_step.
Proof. unfold run_tasks_step, switch_to, resume. kf. Qed.

Lemma machine_step_frames p q : frames_ok l r p.2 → machine_step p q → frames_ok l r q.2.
Proof.
  intros Hp Hstep. revert Hp. destruct Hstep as [k f k' Hrun|cause k f k' Hrun|va b k k' Hrun|x pc status k k' _ Hrun|m dt k|m ch k];
    intros Hp; cbn [snd] in *.
  - by eapply kf_run_tasks_step.
  - by eapply (kf_trap_handler cause).
  - assert (kf (user_store va b)) as H1 by (unfold user_store; kf). by eapply H1.
  - assert (kf (user_registers x pc status)) as H1 by (unfold user_registers; kf). by eapply H1.
  - exact Hp.
  - exact Hp.
Qed.
End calls.

(** * From the boot on *)

Section boot.
Context {St : Type} `{!BlockStore St} `{!Platform}.

(** The frames the allocator starts with: from the end of the kernel's image to
    the end of memory. *)
Definition first_frame : Z := Address.ceil (PhysAddr_from (ekernel p_symbols)).
Definition last_frame : Z := Address.floor (PhysAddr_from MEMORY_END).

Lemma first_frame_pos : 0 ≤ first_frame.
Proof. unfold first_frame, Address.ceil. apply Z.div_pos; [|done]. apply wrap_bound. lia. Qed.

(** [rust_main] once the kernel's address space is in place *)
Lemma boot_frames pages dev ks (k : Kernel St) :
  first_frame ≤ last_frame → rust_main (Kernel_boot pages dev ks) = Ok ((), k) → frames_ok first_frame last_frame k.
Proof.
  intros Hl Hrun. unfold rust_main in Hrun. pose proof first_frame_pos as H0.
  apply bind_Ok_inv in Hrun as (u & k1 & (s1 & H1 & ->)%in_mm_Ok & Hrun).
  apply (owns_init (ekernel p_symbols) (MkMm pages StackFrameAllocator_new)) in H1; [|done|done|done].
  apply bind_Ok_inv in Hrun as (ks' & k2 & (s2 & H2 & ->)%in_mm_Ok & Hrun).
  apply (moves_new_kernel first_frame last_frame p_symbols []) in H2; [|exact H1].
  apply bind_Ok_inv in Hrun as (u2 & k3 & [= _ <-] & Hrun).
  assert (keeps_frames first_frame last_frame (add_initproc;; set_next_trigger (St := St))) as Hk.
  { unfold add_initproc, set_next_trigger. kf. apply kf_stays. intros. apply stays_add_task. }
  eapply Hk; [|exact Hrun]. split; [done|]. split; [|intros t; cbn; rewrite fmap_empty, lookup_empty; by intros []].
  eapply owns_perm; [exact H2|]. cbn. by rewrite fmap_empty.
Qed.
Lemma reachable_frames p : first_frame ≤ last_frame → reachable p → frames_ok first_frame last_frame p.2.
Proof.
  intros Hl. induction 1 as [pages dev ks k Hrun|p q _ IH _ Hstep]; [by eapply boot_frames|].
  by eapply machine_step_frames.
Qed.

Lemma elem_of_tasks_frames ts p : p ∈ tasks_frames ts ↔ ∃ t ms, ts !! t = Some ms ∧ p ∈ ms_frames ms.
Proof.
  unfold tasks_frames. rewrite list_elem_of_bind. split.
  - intros ([t ms] & Hp & Hin%elem_of_map_to_list). by exists t, ms.
  - intros (t & ms & Hin%elem_of_map_to_list & Hp). by exists (t, ms).
Qed.
Lemma tasks_frames_disjoint ts t t' ms ms' p :
  NoDup (tasks_frames ts) → ts !! t = Some ms → ts !! t' = Some ms' → p ∈ ms_frames ms → p ∈ ms_frames ms' → t = t'.
Proof.
  intros Hnd Ht Ht' Hp Hp'. destruct (decide (t = t')) as [|Hne]; [done|]. exfalso.
  rewrite (tasks_frames_delete ts t ms Ht) in Hnd. apply NoDup_app in Hnd as (_ & Hd & _). apply (Hd p Hp).
  apply elem_of_tasks_frames. exists t', ms'. by rewrite lookup_delete_ne.
Qed.

(** C5: Processes are isolated and memory does not leak: however the kernel is
    driven from its boot on - forks, execs, mappings, failed allocations, exits,
    waits - the frames of the allocator that are handed out are exactly those
    that the page table or an area of some address space holds, of the kernel or
    of a task that is not yet reaped; no two address spaces hold the same frame,
    and none holds a frame twice.  So a frame that is handed out next belongs to
    nobody, and a frame goes back when, and only when, its one owner drops it. *)
Theorem frames_owned_once m (k : Kernel St) :
  first_frame ≤ last_frame → reachable (m, k) →
  alloc_wf first_frame last_frame (mm_alloc (mm k)) ∧
  (∀ p, p ∈ allocated first_frame (mm_alloc (mm k)) ↔
     p ∈ ms_frames (kernel_space k) ∨ ∃ t tcb, tasks k !! t = Some tcb ∧ p ∈ ms_frames (memory_set tcb)) ∧
  NoDup (ms_frames (kernel_space k)) ∧
  (∀ t tcb, tasks k !! t = Some tcb → NoDup (ms_frames (memory_set tcb)) ∧
     ∀ p, p ∈ ms_frames (memory_set tcb) → (p ∉ ms_frames (kernel_space k)) ∧
       ∀ t' tcb', tasks k !! t' = Some tcb' → p ∈ ms_frames (memory_set tcb') → t' = t).
Proof.
  intros Hl Hr. destruct (reachable_frames _ Hl Hr) as (_ & (Hwf & Hnd & Hin) & _). cbn [snd] in *.
  set (ts := memory_set <$> tasks k) in *. apply NoDup_app in Hnd as (Hks & Hd & Hts).
  assert (∀ t ms, ts !! t = Some ms ↔ ∃ tcb, tasks k !! t = Some tcb ∧ memory_set tcb = ms) as Hlook.
  { intros t ms. unfold ts. rewrite lookup_fmap_Some. naive_solver. }
  split; [done|]. split; [|split; [done|]].
  - intros p. rewrite <-Hin, elem_of_app, elem_of_tasks_frames. setoid_rewrite Hlook. naive_solver.
  - intros t tcb Ht. assert (ts !! t = Some (memory_set tcb)) as Htm by (apply Hlook; by exists tcb). split.
    + rewrite (tasks_frames_delete ts t _ Htm) in Hts. by apply NoDup_app in Hts as [? _].
    + intros p Hp. split.
      * intros Hk. apply (Hd p Hk), elem_of_tasks_frames. by exists t, (memory_set tcb).
      * intros t' tcb' Ht' Hp'. eapply (tasks_frames_disjoint ts); [done| |exact Htm|exact Hp'|done]. apply Hlook. by exists tcb'.
Qed.
End boot.

(** * Witness: two processes after a fork *)

Section witness.
#[local] Existing Instance ex_platform.
Lemma frames_owned_once_witness :
  ∃ k : Kernel Flat, reachable (User, k) ∧ size (tasks k) = 2%nat ∧ first_frame ≤ last_frame ∧
  (∀ t tcb, tasks k !! t = Some tcb → NoDup (ms_frames (memory_set tcb)) ∧
     ∀ p, p ∈ ms_frames (memory_set tcb) → (p ∉ ms_frames (kernel_space k)) ∧
       ∀ t' tcb', tasks k !! t' = Some tcb' → p ∈ ms_frames (memory_set tcb') → t' = t).
Proof.
  destruct (fork_trace_reachable _ _ _ fork_trace_runs) as (_ & k & _ & Hk & Hn). exists k.
  assert (first_frame ≤ last_frame) as Hl by (vm_compute; discriminate).
  split; [exact Hk|]. split; [exact Hn|]. split; [exact Hl|]. exact (proj2 (proj2 (proj2 (frames_owned_once User k Hl Hk)))).
Defined.
End witness.
