(* ===== verification/UserLib.v ===== *)
(** The user library (user/src/): the wrappers of the system calls, the console
    and the calls built from others.  A user program is an interaction tree: its
    events are the [ecall]s it executes, each with what it passes in registers
    and in memory, and its result is the value it returns. *)

From ITree Require Import ITree.
From S2P Require Export Files.

(** * System calls as events *)

(** What a register holds: a word, a pointer to bytes the kernel reads, a pointer
    to bytes the kernel may overwrite, a vector of pointers to strings. *)
Inductive arg : Type :=
| Word (w : Z)
| Bytes (l : list Z)
| Buffer (l : list Z)
| Strings (l : list (option (list Z))).

(** The answer to an [ecall] is the signed word in [a0] and what the buffer holds
    afterwards.  [Load] and [Store] are accesses through a pointer made from an
    address; [Privileged] is an instruction user mode may not execute.  [Panic] is the panic handler (lang_items.rs): it prints where the
    program panicked and exits with -1. *)
Variant sysE : Type → Type :=
| Ecall (id : Z) (args : list arg) : sysE (Z * list Z)
| Load (addr : Z) : sysE Z
| Store (addr b : Z) : sysE ()
| Privileged : sysE ()
| Panic : sysE void.

Abbreviation program := (itree sysE).
#[export] Instance program_ret : MRet program := λ A a, Ret a.
#[export] Instance program_bind : MBind program := λ A B f t, ITree.bind t f.

Definition user_panic {A} : program A := v ← ITree.trigger Panic; match v : void with end.
Definition user_assert (b : bool) : program () := if b then mret () else user_panic.
(** An [unwrap], or an index that has to be in range. *)
Definition user_unwrap {A} (o : option A) : program A := match o with Some a => mret a | None => user_panic end.

(** * syscall.rs *)

Definition SYSCALL_OPENAT : Z := 56.
Definition SYSCALL_SPAWN : Z := 400.
Definition SYSCALL_MAIL_READ : Z := 401.
Definition SYSCALL_MAIL_WRITE : Z := 402.
Definition SYSCALL_CLOSE : Z := 57.
Definition SYSCALL_READ : Z := 63.
Definition SYSCALL_WRITE : Z := 64.
Definition SYSCALL_UNLINKAT : Z := 35.
Definition SYSCALL_LINKAT : Z := 37.
Definition SYSCALL_FSTAT : Z := 80.
Definition SYSCALL_EXIT : Z := 93.
Definition SYSCALL_YIELD : Z := 124.
Definition SYSCALL_KILL : Z := 129.
Definition SYSCALL_SIGACTION : Z := 134.
Definition SYSCALL_SIGPROCMASK : Z := 135.
Definition SYSCALL_SIGRETURN : Z := 139.
Definition SYSCALL_GETTIMEOFDAY : Z := 169.
Definition SYSCALL_GETPID : Z := 172.
Definition SYSCALL_FORK : Z := 220.
Definition SYSCALL_EXEC : Z := 221.
Definition SYSCALL_WAITPID : Z := 260.
Definition SYSCALL_SET_PRIORITY : Z := 140.
Definition SYSCALL_MUNMAP : Z := 215.
Definition SYSCALL_MMAP : Z := 222.
Definition SYSCALL_DUP : Z := 24.
Definition SYSCALL_PIPE : Z := 59.
Definition SYSCALL_OPEN : Z := 1024.

(** [syscall] and [syscall6] *)
Definition syscall (id : Z) (args : list arg) : program (Z * list Z) := ITree.trigger (Ecall id args).
(** ... where only the result is used. *)
Definition syscall_ret (id : Z) (args : list arg) : program Z := r ← syscall id args; mret r.1.

Definition sys_open (path : list Z) (flags : Z) : program Z := syscall_ret SYSCALL_OPEN [Bytes path; Word flags; Word 0].
Definition sys_openat (dirfd : Z) (path : list Z) (flags mode : Z) : program Z :=
  syscall_ret SYSCALL_OPENAT [Word dirfd; Bytes path; Word flags; Word mode; Word 0; Word 0].
Definition sys_close (fd : Z) : program Z := syscall_ret SYSCALL_CLOSE [Word fd; Word 0; Word 0].
Definition sys_read (fd : Z) (buffer : list Z) : program (Z * list Z) :=
  syscall SYSCALL_READ [Word fd; Buffer buffer; Word (Z.of_nat (length buffer))].
Definition sys_write (fd : Z) (buffer : list Z) : program Z :=
  syscall_ret SYSCALL_WRITE [Word fd; Bytes buffer; Word (Z.of_nat (length buffer))].
Definition sys_linkat (old_dirfd : Z) (old_path : list Z) (new_dirfd : Z) (new_path : list Z) (flags : Z) : program Z :=
  syscall_ret SYSCALL_LINKAT [Word old_dirfd; Bytes old_path; Word new_dirfd; Bytes new_path; Word flags; Word 0].
Definition sys_unlinkat (dirfd : Z) (path : list Z) (flags : Z) : program Z :=
  syscall_ret SYSCALL_UNLINKAT [Word dirfd; Bytes path; Word flags].
Definition sys_fstat (fd : Z) (st : list Z) : program (Z * list Z) := syscall SYSCALL_FSTAT [Word fd; Buffer st; Word 0].
Definition sys_mail_read (buffer : list Z) : program (Z * list Z) :=
  syscall SYSCALL_MAIL_READ [Buffer buffer; Word (Z.of_nat (length buffer)); Word 0].
Definition sys_mail_write (pid : Z) (buffer : list Z) : program Z :=
  syscall_ret SYSCALL_MAIL_WRITE [Word pid; Bytes buffer; Word (Z.of_nat (length buffer))].
Definition sys_exit {A} (exit_code : Z) : program A :=
  syscall SYSCALL_EXIT [Word (wrap 64 exit_code); Word 0; Word 0];; user_panic.
Definition sys_yield : program Z := syscall_ret SYSCALL_YIELD [Word 0; Word 0; Word 0].
Definition sys_get_time (time : list Z) (tz : Z) : program (Z * list Z) :=
  syscall SYSCALL_GETTIMEOFDAY [Buffer time; Word tz; Word 0].
Definition sys_getpid : program Z := syscall_ret SYSCALL_GETPID [Word 0; Word 0; Word 0].
Definition sys_fork : program Z := syscall_ret SYSCALL_FORK [Word 0; Word 0; Word 0].
Definition sys_exec (path : list Z) (args : list (option (list Z))) : program Z :=
  syscall_ret SYSCALL_EXEC [Bytes path; Strings args; Word 0].
Definition sys_waitpid (pid : Z) (xstatus : list Z) : program (Z * list Z) :=
  syscall SYSCALL_WAITPID [Word (wrap 64 pid); Buffer xstatus; Word 0].
Definition sys_set_priority (prio : Z) : program Z := syscall_ret SYSCALL_SET_PRIORITY [Word (wrap 64 prio); Word 0; Word 0].
Definition sys_mmap (start len prot : Z) : program Z := syscall_ret SYSCALL_MMAP [Word start; Word len; Word prot].
Definition sys_munmap (start len : Z) : program Z := syscall_ret SYSCALL_MUNMAP [Word start; Word len; Word 0].
Definition sys_spawn (path : list Z) : program Z := syscall_ret SYSCALL_SPAWN [Bytes path; Word 0; Word 0].
Definition sys_dup (fd : Z) : program Z := syscall_ret SYSCALL_DUP [Word fd; Word 0; Word 0].
Definition sys_pipe (pipe : list Z) : program (Z * list Z) := syscall SYSCALL_PIPE [Buffer pipe; Word 0; Word 0].
Definition sys_kill (pid signal : Z) : program Z := syscall_ret SYSCALL_KILL [Word pid; Word (wrap 64 signal); Word 0].
(** A null pointer is [None]. *)
Definition pointer (o : option (list Z)) : arg := match o with Some l => Buffer l | None => Word 0 end.
Definition sys_sigaction (signum : Z) (action : option (list Z)) (old_action : option (list Z)) : program (Z * list Z) :=
  syscall SYSCALL_SIGACTION
    [Word (wrap 64 signum); match action with Some l => Bytes l | None => Word 0 end; pointer old_action].
Definition sys_sigprocmask (mask : Z) : program Z := syscall_ret SYSCALL_SIGPROCMASK [Word mask; Word 0; Word 0].
Definition sys_sigreturn : program Z := syscall_ret SYSCALL_SIGRETURN [Word 0; Word 0; Word 0].

(** * console.rs *)

Definition STDIN : Z := 0.
Definition STDOUT : Z := 1.
Definition CONSOLE_BUFFER_SIZE : Z := 256 * 10.

Definition read (fd : Z) (buf : list Z) : program (Z * list Z) := sys_read fd buf.
Definition write (fd : Z) (buf : list Z) : program Z := sys_write fd buf.

(** The buffer of the console is a list of bytes; a call returns what it leaves
    there. *)
Definition ConsoleBuffer_flush (buf : list Z) : program (Z * list Z) := ret ← write STDOUT buf; mret (ret, []).
(** [true] is [Ok(())]. *)
Fixpoint ConsoleBuffer_write_str (s buf : list Z) : program (bool * list Z) :=
  match s with
  | [] => mret (true, buf)
  | c :: s =>
      let buf := buf ++ [c] in
      if (c =? 10) || (Z.of_nat (length buf) =? CONSOLE_BUFFER_SIZE) then
        '(ret, buf) ← ConsoleBuffer_flush buf;
        if ret =? -1 then mret (false, buf) else ConsoleBuffer_write_str s buf
      else ConsoleBuffer_write_str s buf
  end.
(** [write_fmt] writes the pieces of the format one by one, up to an error. *)
Fixpoint ConsoleBuffer_write_fmt (pieces : list (list Z)) (buf : list Z) : program (bool * list Z) :=
  match pieces with
  | [] => mret (true, buf)
  | s :: pieces =>
      '(ok, buf) ← ConsoleBuffer_write_str s buf;
      if ok : bool then ConsoleBuffer_write_fmt pieces buf else mret (false, buf)
  end.
(** Every print flushes, so the static buffer is empty between two prints. *)
Definition print (pieces : list (list Z)) : program () :=
  '(_, buf) ← ConsoleBuffer_write_fmt pieces [];
  ConsoleBuffer_flush buf;;
  mret ().
Definition flush : program () := ConsoleBuffer_flush [];; mret ().
(** The byte keeps its zero when the read fails. *)
Definition getchar : program Z := '(_, c) ← read STDIN [0]; user_unwrap (c !! 0%nat).

(** Accesses through raw pointers. *)
Definition load (addr : Z) : program Z := ITree.trigger (Load addr).
Definition store (addr b : Z) : program () := ITree.trigger (Store addr b).
Definition privileged : program () := ITree.trigger Privileged.

(** * lib.rs *)

Definition OpenFlags_RDONLY : Z := 0.
Definition OpenFlags_WRONLY : Z := 1.
Definition OpenFlags_RDWR : Z := 2.
Definition OpenFlags_CREATE : Z := 512.
Definition OpenFlags_TRUNC : Z := 1024.
Definition AT_FDCWD : Z := -100.

(** The structures the calls fill, as they lie in memory ([repr(C)]), with their
    fields. *)
Definition TimeVal_new : list Z := replicate 16 0.
Definition TimeVal_sec (time : list Z) : Z := le_dec (take 8 time).
Definition TimeVal_usec (time : list Z) : Z := le_dec (drop 8 time).
Definition user_Stat_new : list Z := replicate 80 0.
Definition user_Stat_dev (st : list Z) : Z := le_dec (sub_list 0 8 st).
Definition user_Stat_ino (st : list Z) : Z := le_dec (sub_list 8 8 st).
Definition user_Stat_mode (st : list Z) : Z := le_dec (sub_list 16 4 st).
Definition user_Stat_nlink (st : list Z) : Z := le_dec (sub_list 20 4 st).
Definition user_StatMode_FILE : Z := 0x8000.
(** [SignalAction]: the handler's address, the mask, and four bytes of padding. *)
Definition user_SignalAction (handler mask : Z) : list Z := le_enc 8 handler ++ le_enc 4 mask ++ replicate 4 0.
Definition user_SignalAction_default : list Z := user_SignalAction 0 0.
Definition user_SignalAction_handler (action : list Z) : Z := le_dec (take 8 action).
(** The signals by number, and the flags of [SignalFlags] by the number of their
    signal, with their names. *)
Definition user_signals : list (string * Z) :=
  [("SIGDEF", 0); ("SIGHUP", 1); ("SIGINT", 2); ("SIGQUIT", 3); ("SIGILL", 4); ("SIGTRAP", 5); ("SIGABRT", 6);
   ("SIGBUS", 7); ("SIGFPE", 8); ("SIGKILL", 9); ("SIGUSR1", 10); ("SIGSEGV", 11); ("SIGUSR2", 12);
   ("SIGPIPE", 13); ("SIGALRM", 14); ("SIGTERM", 15); ("SIGSTKFLT", 16); ("SIGCHLD", 17); ("SIGCONT", 18);
   ("SIGSTOP", 19); ("SIGTSTP", 20); ("SIGTTIN", 21); ("SIGTTOU", 22); ("SIGURG", 23); ("SIGXCPU", 24);
   ("SIGXFSZ", 25); ("SIGVTALRM", 26); ("SIGPROF", 27); ("SIGWINCH", 28); ("SIGIO", 29); ("SIGPWR", 30);
   ("SIGSYS", 31)]%string.
Definition user_SignalFlags (signum : Z) : Z := i32 (Z.shiftl 1 signum).
Definition user_signal_flags : list (string * Z) := (λ '(name, n), (name, user_SignalFlags n)) <$> user_signals.
Definition user_SIGINT : Z := 2.
Definition user_SIGKILL : Z := 9.
Definition user_SIGUSR1 : Z := 10.
Definition user_SIGCONT : Z := 18.
Definition user_SIGSTOP : Z := 19.

Definition open (path : list Z) (flags : Z) : program Z := sys_open path flags.
Definition openat (path : list Z) (flags : Z) : program Z := sys_openat (wrap 64 AT_FDCWD) path flags OpenFlags_RDWR.
Definition close (fd : Z) : program Z := (if fd =? STDOUT then flush else mret ());; sys_close fd.
Definition link (old_path new_path : list Z) : program Z := sys_linkat (wrap 64 AT_FDCWD) old_path (wrap 64 AT_FDCWD) new_path 0.
Definition unlink (path : list Z) : program Z := sys_unlinkat (wrap 64 AT_FDCWD) path 0.
Definition fstat (fd : Z) (st : list Z) : program (Z * list Z) := sys_fstat fd st.
Definition mail_read (buf : list Z) : program (Z * list Z) := sys_mail_read buf.
Definition mail_write (pid : Z) (buf : list Z) : program Z := sys_mail_write pid buf.
Definition exit {A} (exit_code : Z) : program A := flush;; sys_exit exit_code.
Definition yield_ : program Z := sys_yield.
Definition get_time : program Z :=
  '(r, time) ← sys_get_time TimeVal_new 0;
  mret (if r =? 0 then isize (Z.land (TimeVal_sec time) 0xffff *₆₄ 1000 +₆₄ TimeVal_usec time / 1000) else -1).
Definition getpid : program Z := sys_getpid.
Definition fork : program Z := sys_fork.
Definition exec (path : list Z) (args : list (option (list Z))) : program Z := sys_exec path args.
Definition user_set_priority (prio : Z) : program Z := sys_set_priority prio.
(** The loop of [wait] and [waitpid]; the exit code is the four bytes behind
    [exit_code]. *)
Definition wait_loop (pid : Z) (exit_code : list Z) : program (Z * list Z) :=
  ITree.iter (λ exit_code,
    '(n, exit_code) ← sys_waitpid pid exit_code;
    if n =? -2 then sys_yield;; mret (inl exit_code) else mret (inr (n, exit_code))) exit_code.
Definition wait (exit_code : list Z) : program (Z * list Z) := wait_loop (-1) exit_code.
Definition waitpid (pid : Z) (exit_code : list Z) : program (Z * list Z) := wait_loop (isize pid) exit_code.
Definition waitpid_nb (pid : Z) (exit_code : list Z) : program (Z * list Z) := sys_waitpid (isize pid) exit_code.
(** The addition is that of a release build. *)
Definition sleep (period_ms : Z) : program () :=
  start ← get_time;
  ITree.iter (λ _ : (),
    t ← get_time;
    if t <? isize (start + isize period_ms) then sys_yield;; mret (inl ()) else mret (inr ())) ().
Definition mmap (start len prot : Z) : program Z := sys_mmap start len prot.
Definition munmap (start len : Z) : program Z := sys_munmap start len.
Definition spawn (path : list Z) : program Z := sys_spawn path.
Definition dup (fd : Z) : program Z := sys_dup fd.
(** The two words of [pipe_fd]. *)
Definition pipe (pipe_fd : list Z) : program (Z * list Z) := sys_pipe pipe_fd.
Definition kill (pid signal : Z) : program Z := sys_kill pid signal.
Definition sigaction (signum : Z) (action old_action : option (list Z)) : program (Z * list Z) :=
  sys_sigaction signum action old_action.
Definition sigprocmask (mask : Z) : program Z := sys_sigprocmask mask.
Definition sigreturn : program Z := sys_sigreturn.

(** [_start] with the arguments it found: [main] and then [exit]. *)
Definition start (main : Z → list (list Z) → program Z) (argc : Z) (v : list (list Z)) : program void :=
  code ← main argc v; exit code.
