(* ===== verification/UserShell.v ===== *)
(** The shell and the first program (user/src/bin/user_shell.rs, initproc.rs):
    how a line is taken apart, which pipelines are accepted, and what the shell
    and its children do. *)

From ITree Require Import ITree.
From S2P Require Export UserLib.

Definition LF : Z := 10.
Definition CR : Z := 13.
Definition DL : Z := 127.
Definition BS : Z := 8.
Definition LINE_START : list Z := text ">> ".

(** * The command line *)

(** [str::split]: the pieces between the separators, one more than there are. *)
Fixpoint str_split (sep : Z) (s : list Z) : list (list Z) :=
  match s with
  | [] => [[]]
  | c :: s =>
      if c =? sep then [] :: str_split sep s
      else match str_split sep s with
           | w :: ws => (c :: w) :: ws
           | [] => [[c]]
           end
  end.

(** Strings are lists of characters; [args_addr] points to the strings of
    [args_copy] and ends with a null pointer. *)
Record ProcessArguments : Type := MkProcessArguments {
  input : list Z;
  output : list Z;
  args_copy : list (list Z);
  args_addr : list (option (list Z)) }.

(** A redirection: the word after the first [c] and the other words.  [None] is
    the panic of an index out of range. *)
Definition redirect (c : Z) (args : list (list Z)) : option (list Z * list (list Z)) :=
  match find_index (λ arg, bool_decide (arg = [c; 0])) args with
  | Some (idx, _) => file ← args !! S idx; Some (file, take idx args ++ drop (S (S idx)) args)
  | None => Some ([], args)
  end.
Definition nonempty (s : list Z) : bool := bool_decide (s ≠ []).

Definition ProcessArguments_new (command : list Z) : option ProcessArguments :=
  let args := str_split 32 command in
  let args_copy := (λ arg, arg ++ [0]) <$> List.filter nonempty args in
  '(input, args_copy) ← redirect 60 args_copy;
  '(output, args_copy) ← redirect 62 args_copy;
  Some (MkProcessArguments input output args_copy ((Some <$> args_copy) ++ [None])).

(** Redirections that a pipe would override are refused. *)
Definition valid_at (n i : nat) (p : ProcessArguments) : bool :=
  if (i =? 0)%nat then negb (nonempty (output p))
  else if (i =? n - 1)%nat then negb (nonempty (input p))
  else negb (nonempty (output p) || nonempty (input p)).
Definition valid_pipeline (l : list ProcessArguments) : bool :=
  (length l =? 1)%nat || forallb (λ b, b) (imap (valid_at (length l)) l).

(** * Running a pipeline *)

Definition println (s : list (list Z)) : program () := print (s ++ [[10]]).

(** [for x in l { f(x) }] *)
Fixpoint each {A} (f : A → program ()) (l : list A) : program () :=
  match l with [] => mret () | x :: l => f x;; each f l end.

(** Standard input or output is replaced by a file; [Some] is the [return] of a
    file that cannot be opened. *)
Definition redirect_to (path : list Z) (flags std : Z) : program (option Z) :=
  if nonempty path then
    file_fd ← open (str_bytes path) flags;
    if file_fd =? -1 then
      println [text "Error when opening file "; str_bytes path];;
      mret (Some (-4))
    else
      let fd := wrap 64 file_fd in
      close std;;
      new ← dup fd;
      user_assert (new =? std);;
      close fd;;
      mret None
  else mret None.

(** One end of a pipe takes the place of standard input or output. *)
Definition take_pipe_end (fd std : Z) : program () :=
  close std;;
  new ← dup fd;
  user_assert (new =? std).

Definition close_pipe (pipe_fd : Z * Z) : program () := close pipe_fd.1;; close pipe_fd.2;; mret ().
Definition close_pipes (pipes_fd : list (Z * Z)) : program () := each close_pipe pipes_fd.

(** Input from the process before, output to the one after. *)
Definition connect_input (pipes_fd : list (Z * Z)) (i : nat) : program () :=
  if (0 <? i)%nat then read_end ← user_unwrap (pipes_fd !! (i - 1)%nat); take_pipe_end read_end.1 0 else mret ().
Definition connect_output (pipes_fd : list (Z * Z)) (n i : nat) : program () :=
  if (i <? n - 1)%nat then write_end ← user_unwrap (pipes_fd !! i); take_pipe_end write_end.2 1 else mret ().

(** An early [return] of [main]. *)
Definition unless (t : program (option Z)) (rest : program Z) : program Z :=
  r ← t; match r with Some code => mret code | None => rest end.

(** The child for command [i] of [n]; its result is what [main] returns. *)
Definition child_exec (p : ProcessArguments) : program Z :=
  path ← user_unwrap (args_copy p !! 0%nat);
  r ← exec (str_bytes path) (option_map str_bytes <$> args_addr p);
  if r =? -1 then println [text "Error when executing!"];; mret (-4)
  else user_panic.
Definition child_main (pipes_fd : list (Z * Z)) (n i : nat) (p : ProcessArguments) : program Z :=
  unless (redirect_to (input p) OpenFlags_RDONLY 0)
  (unless (redirect_to (output p) (Z.lor OpenFlags_CREATE OpenFlags_WRONLY) 1)
  (connect_input pipes_fd i;;
   connect_output pipes_fd n i;;
   close_pipes pipes_fd;;
   child_exec p)).

(** The forks, in the order of the commands; [inl] is the [return] of a child. *)
Fixpoint fork_children (pipes_fd : list (Z * Z)) (n i : nat) (l : list ProcessArguments) (children : list Z)
    : program (Z + list Z) :=
  match l with
  | [] => mret (inr children)
  | p :: l =>
      pid ← fork;
      if pid =? 0 then code ← child_main pipes_fd n i p; mret (inl code)
      else fork_children pipes_fd n (S i) l (children ++ [pid])
  end.

Definition new_pipe : program (Z * Z) := '(_, fd) ← pipe (replicate 16 0); mret (le_dec (take 8 fd), le_dec (drop 8 fd)).
Fixpoint new_pipes (n : nat) : program (list (Z * Z)) :=
  match n with
  | O => mret []
  | S n => p ← new_pipe; ps ← new_pipes n; mret (p :: ps)
  end.
(** The exit codes are not looked at, but kept in one variable. *)
Fixpoint wait_children (children : list Z) (exit_code : list Z) : program () :=
  match children with
  | [] => mret ()
  | pid :: children =>
      '(exit_pid, exit_code) ← waitpid (wrap 64 pid) exit_code;
      user_assert (pid =? exit_pid);;
      wait_children children exit_code
  end.

(** [Some] is the [return] of a child. *)
Definition run_pipeline (l : list ProcessArguments) : program (option Z) :=
  pipes_fd ← new_pipes (length l - 1);
  r ← fork_children pipes_fd (length l) 0 l [];
  match r with
  | inl code => mret (Some code)
  | inr children => close_pipes pipes_fd;; wait_children children (replicate 4 0);; mret None
  end.

(** * The main loop *)

Definition run_line (line : list Z) : program (option Z) :=
  l ← user_unwrap (mapM ProcessArguments_new (str_split 124 line));
  if valid_pipeline l then run_pipeline l
  else println [text "Invalid command: Inputs/Outputs cannot be correctly binded!"];; mret None.

(** A key; the loop ends only in a child, which returns from [main]. *)
Definition shell_round (line : list Z) : program (list Z + Z) :=
  c ← getchar;
  if (c =? LF) || (c =? CR) then
    println [[]];;
    r ← (if nonempty line then run_line line else mret None);
    match r with
    | Some code => mret (inr code)
    | None => print [LINE_START];; mret (inl [])
    end
  else if (c =? BS) || (c =? DL) then
    if nonempty line then
      print [[BS]];; print [text " "];; print [[BS]];;
      mret (inl (removelast line))
    else mret (inl line)
  else
    print [str_bytes [c]];;
    mret (inl (line ++ [c])).
Definition shell_main : program Z :=
  println [text "Rust user shell"];;
  print [LINE_START];;
  ITree.iter shell_round [].

(** * The first program *)

Definition initproc_main : program Z :=
  pid ← fork;
  if pid =? 0 then exec (text "user_shell" ++ [0]) [None];; mret 0
  else
    ITree.iter (λ _ : (),
      '(pid, _) ← wait (replicate 4 0);
      if pid =? -1 then yield_;; mret (inl ()) else mret (inl ())) ().
