(* ===== verification/ShellParse.v ===== *)
(** How the shell reads a command (user/src/bin/user_shell.rs): the words of a
    line however they are spaced, the redirections and the arguments. *)

From S2P Require Export UserShell.

(** A command as it is typed: words without blanks, separated by blanks, with
    blanks before and behind. *)
Inductive spaced : list (list Z) → list Z → Prop :=
| spaced_end : spaced [] []
| spaced_blank W s : spaced W s → spaced W (32 :: s)
| spaced_word w W s :
    w ≠ [] → 32 ∉ w → spaced W s → (s = [] ∨ ∃ s', s = 32 :: s') → spaced (w :: W) (w ++ s).

(** The word after the first [c] is the file, the other words stay. *)
Definition redirected (c : Z) (W : list (list Z)) (file : option (list Z)) (W' : list (list Z)) : Prop :=
  match file with
  | Some f => ∃ a b, W = a ++ [c] :: f :: b ∧ ([c] ∉ a) ∧ W' = a ++ b
  | None => ([c] ∉ W) ∧ W' = W
  end.
(** No file follows the first [c]. *)
Definition dangling (c : Z) (W : list (list Z)) : Prop := ∃ a, W = a ++ [[c]] ∧ ([c] ∉ a).

Definition terminated (w : list Z) : list Z := w ++ [0].
Definition file_name (file : option (list Z)) : list Z := match file with Some f => terminated f | None => [] end.

Lemma str_split_cons sep s : ∃ w ws, str_split sep s = w :: ws.
Proof.
  induction s as [|c s (w & ws & IH)]; cbn; [by eexists _, _|]. destruct (c =? sep); [by eexists _, _|].
  rewrite IH. by eexists _, _.
Qed.
Lemma str_split_app sep w s x xs : (sep ∉ w) → str_split sep s = x :: xs → str_split sep (w ++ s) = (w ++ x) :: xs.
Proof.
  intros Hw Hs. induction w as [|c w IH]; [done|]. apply not_elem_of_cons in Hw as [Hc Hw]. cbn.
  destruct (Z.eqb_spec c sep); [congruence|]. by rewrite IH.
Qed.
Lemma filter_nonempty_word w ws : w ≠ [] → List.filter nonempty (w :: ws) = w :: List.filter nonempty ws.
Proof. intros Hw. cbn. unfold nonempty. by rewrite bool_decide_eq_true_2. Qed.

Lemma spaced_split W s : spaced W s → List.filter nonempty (str_split 32 s) = W.
Proof.
  induction 1 as [|W s _ IH|w W s Hw Hb _ IH Hs]; [done|exact IH|].
  destruct Hs as [->|(s' & ->)].
  - rewrite (str_split_app 32 w [] [] []) by done. rewrite app_nil_r, filter_nonempty_word by done. by f_equal.
  - rewrite (str_split_app 32 w _ [] (str_split 32 s')) by done.
    rewrite app_nil_r, filter_nonempty_word by done. f_equal. exact IH.
Qed.
(** Every line is a sequence of words. *)
Lemma split_spaced s : spaced (List.filter nonempty (str_split 32 s)) s.
Proof.
  induction s as [|c s IH]; [constructor|]. cbn. destruct (Z.eqb_spec c 32) as [->|Hc]; [by constructor|].
  destruct (str_split_cons 32 s) as (w & ws & Hs). rewrite Hs in *. rewrite filter_nonempty_word by done.
  destruct w as [|x w].
  - apply (spaced_word [c]); [done|set_solver|exact IH|]. destruct s as [|y s]; [by left|right].
    cbn in Hs. destruct (Z.eqb_spec y 32) as [->|]; [by eexists|]. by destruct (str_split 32 s).
  - rewrite filter_nonempty_word in IH by done. inversion IH as [| |w' W s' Hw Hb Hsp Hend]; subst.
    + exfalso. cbn in Hs. congruence.
    + change (c :: (x :: w) ++ s') with ((c :: x :: w) ++ s'). constructor; [done|set_solver|done|done].
Qed.

Lemma terminated_eq c w : terminated w = [c; 0] ↔ w = [c].
Proof. unfold terminated. split; [|by intros ->]. intros H. by apply (app_inj_tail w [c]) in H as [? _]. Qed.
Lemma redirect_spec c W :
  match redirect c (terminated <$> W) with
  | Some (f, args) => ∃ file W', redirected c W file W' ∧ f = file_name file ∧ args = terminated <$> W'
  | None => dangling c W
  end.
Proof.
  unfold redirect. destruct (find_index _ _) as [[i w]|] eqn:Hfind.
  - apply find_index_Some in Hfind as (Hi & Hw & Hfirst). apply bool_decide_eq_true in Hw. subst w.
    rewrite list_lookup_fmap in Hi. destruct (W !! i) as [w|] eqn:HW; [|done]. injection Hi as Hi.
    apply terminated_eq in Hi as ->.
    assert (([c] : list Z) ∉ take i W) as Hnin.
    { intros (j & Hj)%list_elem_of_lookup. apply lookup_take_Some in Hj as [Hj Hlt].
      specialize (Hfirst j (terminated [c]) Hlt). rewrite list_lookup_fmap, Hj in Hfirst.
      specialize (Hfirst eq_refl). by rewrite bool_decide_eq_true_2 in Hfirst by (by apply terminated_eq). }
    rewrite list_lookup_fmap. destruct (W !! S i) as [f|] eqn:Hf; cbn.
    + exists (Some f), (take i W ++ drop (S (S i)) W). split; [|split; [done|]].
      * exists (take i W), (drop (S (S i)) W). split; [|done].
        rewrite <-(take_drop i W) at 1. f_equal. rewrite (drop_S W [c] i) by done. by rewrite (drop_S W f) by done.
      * by rewrite fmap_app, fmap_take, fmap_drop.
    + exists (take i W). split; [|done]. rewrite <-(take_drop i W) at 1. f_equal.
      rewrite (drop_S W [c] i) by done. f_equal. apply drop_ge. by apply lookup_ge_None in Hf.
  - exists None, W. split; [|done]. split; [|done]. intros (j & Hj)%list_elem_of_lookup.
    rewrite find_index_None in Hfind. specialize (Hfind (terminated [c])).
    rewrite bool_decide_eq_true_2 in Hfind by done. discriminate Hfind.
    apply list_elem_of_lookup. exists j. by rewrite list_lookup_fmap, Hj.
Qed.

(** C10: The shell reads a command as it was typed: the line is a sequence of
    words however they are spaced, the word after the first [<] is the file for
    the input, the word after the first [>] of what remains the file for the
    output, and all other words are the arguments, in order, each ended by a
    zero byte and the vector of their addresses by a null pointer.  The shell
    panics exactly when such a sign is the last word. *)
Theorem ProcessArguments_new_spec W s :
  spaced W s →
  match ProcessArguments_new s with
  | Some p => ∃ i W1 o W2, redirected 60 W i W1 ∧ redirected 62 W1 o W2 ∧
      input p = file_name i ∧ output p = file_name o ∧
      args_copy p = terminated <$> W2 ∧ args_addr p = (Some <$> args_copy p) ++ [None]
  | None => dangling 60 W ∨ ∃ i W1, redirected 60 W i W1 ∧ dangling 62 W1
  end.
Proof.
  intros Hs%spaced_split. unfold ProcessArguments_new. cbv zeta. rewrite Hs.
  change ((λ arg, arg ++ [0]) <$> W) with (terminated <$> W).
  pose proof (redirect_spec 60 W) as Hin. destruct (redirect 60 _) as [[f args]|]; cbn; [|by left].
  destruct Hin as (i & W1 & Hi & -> & ->). pose proof (redirect_spec 62 W1) as Hout.
  destruct (redirect 62 _) as [[g args]|]; cbn; [|right; by exists i, W1].
  destruct Hout as (o & W2 & Ho & -> & ->). by exists i, W1, o, W2.
Qed.

(** * Witness *)

Lemma ProcessArguments_new_spec_witness :
  spaced [text "cat"; text "<"; text "in"; text ">"; text "out"; text "-n"] (text " cat  < in > out -n ") ∧
  (∃ p, ProcessArguments_new (text " cat  < in > out -n ") = Some p ∧ args_copy p = [terminated (text "cat"); terminated (text "-n")] ∧
     ∃ i W1 o W2, redirected 60 [text "cat"; text "<"; text "in"; text ">"; text "out"; text "-n"] i W1 ∧ redirected 62 W1 o W2 ∧
      input p = file_name i ∧ output p = file_name o ∧
      args_copy p = terminated <$> W2 ∧ args_addr p = (Some <$> args_copy p) ++ [None]).
Proof.
  assert (spaced [text "cat"; text "<"; text "in"; text ">"; text "out"; text "-n"] (text " cat  < in > out -n ")) as Hs.
  { exact (split_spaced (text " cat  < in > out -n ")). }
  split; [exact Hs|]. eexists. split; [vm_compute; reflexivity|]. split; [reflexivity|].
  exact (ProcessArguments_new_spec _ _ Hs).
Defined.
