(* ===== verification/UserPrograms.v ===== *)
(** The demonstration programs (user/src/bin/): what each of them asks of the
    kernel.  A main function is a program over the user library; the number it
    returns is its exit code. *)

From ITree Require Import ITree.
From S2P Require Export UserShell.

(** * What the programs use of the standard library *)

(** [str::parse]: a sign, then digits, and the value has to fit the type. *)

Fixpoint parse_digits (acc : Z) (s : list Z) : option Z :=
  match s with
  | [] => Some acc
  | c :: s => if (48 <=? c) && (c <=? 57) then parse_digits (10 * acc + (c - 48)) s else None
  end.
Definition parse_nonempty (s : list Z) : option Z := match s with [] => None | _ => parse_digits 0 s end.
Definition parse_int (lo hi : Z) (s : list Z) : option Z :=
  v ← match s with
      | 43 :: s => parse_nonempty s
      | 45 :: s' => if lo <? 0 then Z.opp <$> parse_nonempty s' else None
      | _ => parse_nonempty s
      end;
  if (lo <=? v) && (v <=? hi) then Some v else None.

(** [from_utf8(&buf[..len]).unwrap()] *)
Definition str_of (buf : list Z) (len : Z) : program (list Z) :=
  let s := take (Z.to_nat len) buf in
  if (len <=? Z.of_nat (length buf)) && utf8_valid s then mret s else user_panic.

(** An [i32] behind a pointer, as the call leaves it. *)
Definition code_of (exit_code : list Z) : Z := i32 (le_dec exit_code).
Definition zero_code : list Z := replicate 4 0.

(** The time as the programs turn it into a pseudo-random number. *)
Definition squared (t : Z) : Z := i32 t * i32 t.

(** [if b { t }] *)
Definition when (b : bool) (t : program ()) : program () := if b then t else mret ().

(** * Text *)

Definition hello_world_main : program Z := println [text "Hello world from user mode program!"];; mret 0.

Definition cmdline_args_main (argc : Z) (argv : list (list Z)) : program Z :=
  println [text "argc = "; num argc];;
  each (λ '(i, a), println [text "argv["; num (Z.of_nat i); text "] = "; a]) (imap pair argv);;
  mret 0.

Definition color_text (s : list Z) (color : Z) : list (list Z) := [27 :: text "["; num color; text "m"; s; 27 :: text "[0m"].
Definition fantastic_line : list Z :=
  text "reguler " ++ 27 :: text "[4munderline" ++ 27 :: text "[24m " ++ 27 :: text "[7mreverse" ++ 27 :: text "[27m "
  ++ 27 :: text "[9mstrikethrough" ++ 27 :: text "[29m".
Definition fantastic_text_main : program Z :=
  println
    (color_text (text "H") 31 ++ color_text (text "e") 32 ++ color_text (text "l") 33 ++ color_text (text "l") 34
     ++ color_text (text "o") 35 ++ [text " "] ++ color_text (text "R") 36 ++ color_text (text "u") 37
     ++ color_text (text "s") 90 ++ color_text (text "t") 91 ++ [text " "] ++ color_text (text "u") 92
     ++ color_text (text "C") 93 ++ color_text (text "o") 94 ++ color_text (text "r") 95 ++ color_text (text "e") 96
     ++ color_text (text "!") 97);;
  println ([27 :: text "[47m"] ++ color_text fantastic_line 30 ++ [27 :: text "[0m"]);;
  each (λ i, println (color_text fantastic_line i)) (seqZ 31 7);;
  each (λ i, println (color_text fantastic_line i)) (seqZ 90 8);;
  mret 0.

Definition getchar_round (_ : ()) : program (() + Z) :=
  c ← getchar;
  println [text "Got Char  "; num c];;
  if (c =? LF) || (c =? CR) then println [text "exit(0)"];; mret (inr 0) else mret (inl ()).
Definition getchar_main : program Z :=
  println [text "getchar starting....  Press 'ENTER' will quit."];;
  ITree.iter getchar_round ().

(** * Files *)

(** The strings of [argv] lie in memory with their terminators. *)
Definition cat_round (fd : Z) (buf : list Z) : program (list Z + ()) :=
  '(r, buf) ← read fd buf;
  let size := usize r in
  if size =? 0 then mret (inr ())
  else s ← str_of buf size; print [s];; mret (inl buf).
Definition cat_main (argc : Z) (argv : list (list Z)) : program Z :=
  user_assert (argc =? 2);;
  path ← user_unwrap (argv !! 1%nat);
  fd ← open (path ++ [0]) OpenFlags_RDONLY;
  if fd =? -1 then user_panic
  else
    let fd := usize fd in
    ITree.iter (cat_round fd) (replicate 256 0);;
    close fd;;
    mret 0.

Definition newlines (s : list Z) : Z := Z.of_nat (length (List.filter (λ c, c =? 10) s)).
Definition count_round : list Z * Z * Z → program ((list Z * Z * Z) + (Z * Z)) := λ '(buf, lines, total_size),
  '(r, buf) ← read 0 buf;
  let len := usize r in
  if len =? 0 then mret (inr (lines, total_size))
  else
    let total_size := total_size +₆₄ len in
    s ← str_of buf len;
    mret (inl (buf, lines +₆₄ newlines s, total_size)).
Definition count_lines_main (_argc : Z) (_argv : list (list Z)) : program Z :=
  '(lines, total_size) ← ITree.iter count_round (replicate 256 0, 0, 0);
  let lines := if 0 <? total_size then lines +₆₄ 1 else lines in
  println [num lines];;
  mret 0.

(** Also [test_file0]: the file and the last line differ. *)
Definition write_and_read (name passed : list Z) : program Z :=
  let test_str := text "Hello, world!" in
  fd ← open name (Z.lor OpenFlags_CREATE OpenFlags_WRONLY);
  user_assert (0 <? fd);;
  let fd := usize fd in
  write fd test_str;;
  close fd;;
  fd ← open name OpenFlags_RDONLY;
  user_assert (0 <? fd);;
  let fd := usize fd in
  '(read_len, buffer) ← read fd (replicate 100 0);
  close fd;;
  s ← str_of buffer (usize read_len);
  user_assert (bool_decide (test_str = s));;
  println [passed];;
  mret 0.
Definition filetest_simple_main : program Z := write_and_read (text "filea" ++ [0]) (text "file_test passed!").

Definition huge_write_main : program Z :=
  let buffer := (λ i, u8 (Z.of_nat i)) <$> seq 0 1024 in
  f ← open (text "testf" ++ [0]) (Z.lor OpenFlags_CREATE OpenFlags_WRONLY);
  if f <? 0 then user_panic
  else
    let f := usize f in
    start ← get_time;
    each (λ _, write f buffer;; mret ()) (seq 0 1024);;
    close f;;
    t ← get_time;
    let time_ms := usize (t - start) in
    user_assert (negb (time_ms =? 0));;
    println [num 1; text "MiB written, time cost = "; num time_ms; text "ms, write speed = "; num (1000000 / time_ms); text "KiB/s"];;
    mret 0.

(** * Processes *)

Definition yield_main : program Z :=
  pid ← getpid;
  println [text "Hello, I am process "; num pid; text "."];;
  each (λ i, yield_;; pid ← getpid;
      println [text "Back in process "; num pid; text ", iteration "; num (Z.of_nat i); text "."]) (seq 0 5);;
  println [text "yield pass."];;
  mret 0.

Definition MAGIC : Z := -0x10384.
Definition exit_main : program Z :=
  println [text "I am the parent. Forking the child..."];;
  pid ← fork;
  (if pid =? 0 then
     println [text "I am the child."];;
     each (λ _, yield_;; mret ()) (seq 0 7);;
     exit MAGIC
   else println [text "I am parent, fork a child pid "; num pid]);;
  println [text "I am the parent, waiting now.."];;
  '(r, xstate) ← waitpid (usize pid) zero_code;
  user_assert ((r =? pid) && (code_of xstate =? MAGIC));;
  '(r, xstate) ← waitpid (usize pid) xstate;
  user_assert (r <? 0);;
  '(r, _) ← wait xstate;
  user_assert (r <=? 0);;
  println [text "waitpid "; num pid; text " ok."];;
  println [text "exit pass."];;
  mret 0.

(** [for _ in 0..n { wait(&mut exit_code) }], each result tested together with
    the exit code. *)
Fixpoint wait_each (n : nat) (good : Z → Z → bool) (exit_code : list Z) : program (list Z) :=
  match n with
  | O => mret exit_code
  | S n =>
      '(r, exit_code) ← wait exit_code;
      user_assert (good r (code_of exit_code));;
      wait_each n good exit_code
  end.

Definition forktest_main : program Z :=
  each (λ i,
      pid ← fork;
      (if pid =? 0 then println [text "I am child "; num (Z.of_nat i)];; exit 0
       else println [text "forked child pid = "; num pid]);;
      user_assert (0 <? pid)) (seq 0 30);;
  exit_code ← wait_each 30 (λ r _, 0 <? r) zero_code;
  '(r, _) ← wait exit_code;
  user_assert (r <=? 0);;
  println [text "forktest pass."];;
  mret 0.

Definition forktest2_child : program () :=
  current_time ← get_time;
  let sleep_length := Z.rem (squared current_time) 1000 + 1000 in
  pid ← getpid;
  println [text "pid "; num pid; text " sleep for "; num sleep_length; text " ms"];;
  sleep (usize sleep_length);;
  pid ← getpid;
  println [text "pid "; num pid; text " OK!"];;
  exit 0.
Definition forktest2_main : program Z :=
  each (λ _, pid ← fork; when (pid =? 0) forktest2_child) (seq 0 30);;
  exit_code ← wait_each 30 (λ r code, (0 <? r) && (code =? 0)) zero_code;
  '(r, _) ← wait exit_code;
  user_assert (r <? 0);;
  println [text "forktest2 test passed!"];;
  mret 0.

Definition forktest_simple_main : program Z :=
  '(r, _) ← wait zero_code;
  user_assert (r =? -1);;
  println [text "sys_wait without child process test passed!"];;
  pid ← getpid;
  println [text "parent start, pid = "; num pid; text "!"];;
  pid ← fork;
  if pid =? 0 then println [text "hello child process!"];; mret 100
  else
    println [text "ready waiting on parent process!"];;
    '(r, exit_code) ← wait zero_code;
    user_assert (pid =? r);;
    user_assert (code_of exit_code =? 100);;
    println [text "child process pid = "; num pid; text ", exit code = "; num (code_of exit_code)];;
    mret 0.

(** [fork_tree] and [fork_child]; a level of the tree is a character more. *)
Definition DEPTH : nat := 4.
Fixpoint fork_tree (fuel : nat) (cur : list Z) : program () :=
  match fuel with
  | O => mret ()
  | S fuel =>
      let fork_child branch :=
        if (DEPTH <=? length cur)%nat then mret ()
        else
          pid ← fork;
          when (pid =? 0) (fork_tree fuel (cur ++ [branch]);; yield_;; exit 0) in
      pid ← getpid;
      println [text "pid"; num pid; text ": "; cur];;
      fork_child 48;;
      fork_child 49
  end.
Definition forktree_main : program Z := fork_tree (S DEPTH) [];; sleep 3000;; mret 0.

Definition sleepy : program () :=
  each (λ i, sleep 100;; println [text "sleep "; num (Z.of_nat i + 1); text " x "; num 100; text " msecs."]) (seq 0 5);;
  exit 0.
Definition sleep_main : program Z :=
  current_time ← get_time;
  pid ← fork;
  when (pid =? 0) sleepy;;
  '(r, exit_code) ← waitpid (usize pid) zero_code;
  user_assert ((r =? pid) && (code_of exit_code =? 0));;
  t ← get_time;
  println [text "use "; num (isize (t - current_time)); text " msecs."];;
  println [text "sleep pass."];;
  mret 0.

(** Also [test_sleep1], up to the last line. *)
Definition timed_sleep (passed : list Z) : program Z :=
  start ← get_time;
  println [text "current time_msec = "; num start];;
  sleep 100;;
  t_end ← get_time;
  println [text "time_msec = "; num t_end; text " after sleeping 100 ticks, delta = "; num (isize (t_end - start)); text "ms!"];;
  println [passed];;
  mret 0.
Definition sleep_simple_main : program Z := println [text "into sleep test!"];; timed_sleep (text "r_sleep passed!").

Definition infloop_main (_argc : Z) (_argv : list (list Z)) : program void := ITree.iter (λ _, mret (inl ())) ().

(** * Matrices *)

Definition N : nat := 10.
Definition P : Z := 10007.
Abbreviation Arr := (list (list Z)).
Definition at_ (m : Arr) (i j : nat) : Z := default 0 (m !! i ≫= λ row, row !! j).
(** The loops over [i] and [j] that set every entry. *)
Definition fill (f : nat → nat → Z) : Arr := (λ i, f i <$> seq 0 N) <$> seq 0 N.
(** [c[i][j] = (c[i][j] + a[i][k] * b[k][j]) % P], in 32 bits. *)
Definition add_product (a b : Arr) (i j : nat) (c : Z) (k : nat) : Z := Z.rem (i32 (c + i32 (at_ a i k * at_ b k j))) P.
Definition mat_mul (a b : Arr) : Arr := fill (λ i j, foldl (add_product a b i j) 0 (seq 0 N)).
(** A round leaves the product in both matrices. *)
Definition work_round : Arr * Arr → Arr * Arr := λ '(a, b), let c := mat_mul a b in (fill (at_ c), fill (at_ c)).
Definition work (times : Z) : program () :=
  let a := fill (λ _ _, 1) in
  let b := fill (λ _ _, 1) in
  yield_;;
  pid ← getpid;
  println [text "pid "; num pid; text " is running ("; num times; text " times)!."];;
  let _ := Nat.iter (Z.to_nat times) work_round (a, b) in
  pid ← getpid;
  println [text "pid "; num pid; text " done!."];;
  exit 0.
Definition matrix_main : program Z :=
  each (λ _, pid ← fork;
      when (pid =? 0) (current_time ← get_time; work (Z.rem (squared current_time) 1000 * 10))) (seq 0 30);;
  println [text "fork ok."];;
  exit_code ← wait_each 30 (λ r _, 0 <=? r) zero_code;
  '(r, _) ← wait exit_code;
  user_assert (r <? 0);;
  println [text "matrix passed."];;
  mret 0.

(** * Pipes *)

Definition pipetest_main : program Z :=
  let STR := text "Hello, world!" in
  pipe_fd ← new_pipe;
  user_assert (pipe_fd.1 =? 3);;
  user_assert (pipe_fd.2 =? 4);;
  pid ← fork;
  if pid =? 0 then
    close pipe_fd.2;;
    '(len_read, buffer) ← read pipe_fd.1 (replicate 32 0);
    close pipe_fd.1;;
    s ← str_of buffer (usize len_read);
    user_assert (bool_decide (s = STR));;
    println [text "Read OK, child process exited!"];;
    mret 0
  else
    close pipe_fd.1;;
    r ← write pipe_fd.2 STR;
    user_assert (r =? Z.of_nat (length STR));;
    close pipe_fd.2;;
    '(_, child_exit_code) ← wait zero_code;
    user_assert (code_of child_exit_code =? 0);;
    println [text "pipetest passed!"];;
    mret 0.

Definition LENGTH : nat := 3000.
Fixpoint random_bytes (n : nat) : program (list Z) :=
  match n with
  | O => mret []
  | S n => t ← get_time; l ← random_bytes n; mret (u8 t :: l)
  end.
Definition byte_sum (l : list Z) : Z := foldl (λ sum v, sum +₆₄ v) 0 l.
Definition pipe_large_child (down_pipe_fd up_pipe_fd : Z * Z) : program Z :=
  close down_pipe_fd.2;;
  close up_pipe_fd.1;;
  '(r, random_str) ← read down_pipe_fd.1 (replicate LENGTH 0);
  user_assert (usize r =? Z.of_nat LENGTH);;
  close down_pipe_fd.1;;
  let sum := byte_sum random_str in
  println [text "sum = "; num sum; text "(child)"];;
  write up_pipe_fd.2 (num sum);;
  close up_pipe_fd.2;;
  println [text "Child process exited!"];;
  mret 0.
Definition pipe_large_parent (down_pipe_fd up_pipe_fd : Z * Z) : program Z :=
  close down_pipe_fd.1;;
  close up_pipe_fd.2;;
  random_str ← random_bytes LENGTH;
  r ← write down_pipe_fd.2 random_str;
  user_assert (usize r =? Z.of_nat (length random_str));;
  close down_pipe_fd.2;;
  let sum := byte_sum random_str in
  println [text "sum = "; num sum; text "(parent)"];;
  '(result_len, child_result) ← read up_pipe_fd.1 (replicate 32 0);
  close up_pipe_fd.1;;
  s ← str_of child_result (usize result_len);
  v ← user_unwrap (parse_int 0 u64_max s);
  user_assert (sum =? v);;
  wait zero_code;;
  println [text "pipe_large_test passed!"];;
  mret 0.
Definition pipe_large_test_main : program Z :=
  down_pipe_fd ← new_pipe;
  up_pipe_fd ← new_pipe;
  pid ← fork;
  if pid =? 0 then pipe_large_child down_pipe_fd up_pipe_fd else pipe_large_parent down_pipe_fd up_pipe_fd.

(** * Programs that start programs *)

(** A child whose [exec] fails goes on with the loop. *)
Definition run_pipe_test_main : program Z :=
  each (λ i,
      pid ← fork;
      if pid =? 0 then exec (text "pipe_large_test" ++ [0]) [None];; mret ()
      else wait zero_code;; println [text "Iter "; num (Z.of_nat i); text " OK."]) (seq 0 1000);;
  mret 0.

Definition TESTS : list (list Z) :=
  (λ s, text s ++ [0]) <$>
    ["exit"; "fantastic_text"; "forktest"; "forktest2"; "forktest_simple"; "hello_world"; "matrix"; "sleep";
     "sleep_simple"; "stack_overflow"; "yield"]%string.
Definition run_test (test : list Z) : program () :=
  println [text "Usertests: Running "; test];;
  pid ← fork;
  if pid =? 0 then exec test [None];; user_panic
  else
    '(wait_pid, exit_code) ← waitpid (usize pid) zero_code;
    user_assert (pid =? wait_pid);;
    println [27 :: text "[32mUsertests: Test "; test; text " in Process "; num pid; text " exited with code ";
             num (code_of exit_code); 27 :: text "[0m"].
Definition usertests_main : program Z :=
  each run_test TESTS;;
  println [text "Usertests passed!"];;
  mret 0.

(** A round of the loop: whether the child has exited, and its exit code. *)
Definition timeout_round (pid start_time timeout_ms : Z)
    : bool * list Z → program ((bool * list Z) + (bool * list Z)) := λ '(child_exited, exit_code),
  t ← get_time;
  if timeout_ms <? isize (t - start_time) then mret (inr (child_exited, exit_code))
  else
    '(r, exit_code) ← waitpid_nb pid exit_code;
    if usize r =? pid then
      t ← get_time;
      println [text "child exited in "; num (isize (t - start_time)); text "ms, exit_code = "; num (code_of exit_code)];;
      mret (inl (true, exit_code))
    else mret (inl (child_exited, exit_code)).
Definition until_timeout_main (argc : Z) (argv : list (list Z)) : program Z :=
  user_assert (argc =? 3);;
  arg2 ← user_unwrap (argv !! 2%nat);
  timeout_ms ← user_unwrap (parse_int (- 2 ^ 63) (2 ^ 63 - 1) arg2);
  pid ← fork;
  let pid := usize pid in
  if pid =? 0 then
    path ← user_unwrap (argv !! 1%nat);
    r ← exec (path ++ [0]) [None];
    if negb (r =? 0) then println [text "Error when executing '"; path; text "'"];; mret (-4) else mret 0
  else
    start_time ← get_time;
    '(child_exited, exit_code) ← ITree.iter (timeout_round pid start_time timeout_ms) (false, zero_code);
    when (negb child_exited)
      (println [text "child has run for "; num timeout_ms; text "ms, kill it!"];;
       kill pid (user_SignalFlags user_SIGINT);;
       '(r, exit_code) ← waitpid pid exit_code;
       user_assert (usize r =? pid);;
       println [text "exit code of the child is "; num (code_of exit_code)]);;
    mret 0.

(** * Programs the kernel has to kill *)

(** The register [sstatus] of supervisor mode; [sret]. *)
Definition priv_csr_main : program Z :=
  println [text "Try to access privileged CSR in U Mode"];;
  println [text "Kernel should kill this application!"];;
  privileged;;
  mret 0.
Definition priv_inst_main : program Z :=
  println [text "Try to execute privileged instruction in U Mode"];;
  println [text "Kernel should kill this application!"];;
  privileged;;
  mret 0.
(** The recursion has no end of its own: it ends where the stack does. *)
Definition overflow_round (d : Z) : program (Z + void) := println [text "d = "; num d];; mret (inl (d +₆₄ 1)).
Definition f (d : Z) : program void := ITree.iter overflow_round d.
Definition stack_overflow_main : program Z :=
  println [text "It should trigger segmentation fault!"];;
  r ← f 0;
  match r : void with end.
