(* ===== verification/UserTests.v ===== *)
(** The test programs (user/src/bin/test_*.rs, sig_*.rs, store_fault.rs): what
    they ask of the kernel and what they expect. *)

From ITree Require Import ITree.
From S2P Require Export UserPrograms.

(** * Exit codes, files, time *)

Definition test_exit0_main : program Z := exit 66778.
Definition test_exit1_main : program Z := exit (-233).

Definition test_getpid_main : program Z :=
  pid ← getpid; println [text "Test getpid OK! pid = "; num pid];; mret 0.

Definition test_file0_main : program Z := write_and_read (text "fname" ++ [0]) (text "Test file0 OK!").

Definition test_file1_main : program Z :=
  fd ← open (text "fname1" ++ [0]) (Z.lor OpenFlags_CREATE OpenFlags_WRONLY);
  user_assert (0 <? fd);;
  let fd := usize fd in
  '(ret, stat) ← fstat fd user_Stat_new;
  user_assert (ret =? 0);;
  user_assert (user_Stat_mode stat =? user_StatMode_FILE);;
  user_assert (user_Stat_nlink stat =? 1);;
  close fd;;
  println [text "Test fstat OK!"];;
  mret 0.

Definition test_file2_main : program Z :=
  let test_str := text "Hello, world!" in
  let fname := text "fname2" ++ [0] in
  let lname0 := text "linkname0" ++ [0] in
  let lname1 := text "linkname1" ++ [0] in
  let lname2 := text "linkname2" ++ [0] in
  fd ← open fname (Z.lor OpenFlags_CREATE OpenFlags_WRONLY);
  let fd := usize fd in
  link fname lname0;;
  '(_, stat) ← fstat fd user_Stat_new;
  user_assert (user_Stat_nlink stat =? 2);;
  link fname lname1;;
  link fname lname2;;
  '(_, stat) ← fstat fd stat;
  user_assert (user_Stat_nlink stat =? 4);;
  write fd test_str;;
  close fd;;
  unlink fname;;
  fd ← open lname0 OpenFlags_RDONLY;
  let fd := usize fd in
  '(read_len, buf) ← read fd (replicate 100 0);
  s ← str_of buf (usize read_len);
  user_assert (bool_decide (test_str = s));;
  '(_, stat2) ← fstat fd user_Stat_new;
  user_assert (user_Stat_dev stat2 =? user_Stat_dev stat);;
  user_assert (user_Stat_ino stat2 =? user_Stat_ino stat);;
  user_assert (user_Stat_nlink stat2 =? 3);;
  unlink lname1;;
  unlink lname2;;
  '(_, stat2) ← fstat fd stat2;
  user_assert (user_Stat_nlink stat2 =? 1);;
  close fd;;
  unlink lname0;;
  println [text "Test link OK!"];;
  mret 0.

Definition test_write1_main : program Z :=
  let DATA_STRING := text "string from data section" ++ [10] in
  r ← write 1234 DATA_STRING;
  user_assert (r =? -1);;
  r ← write STDOUT DATA_STRING;
  user_assert (r =? Z.of_nat (length DATA_STRING));;
  r ← write STDOUT (take 5 DATA_STRING);
  user_assert (r =? 5);;
  let stack_string := text "string from stack section" ++ [10] in
  r ← write STDOUT stack_string;
  user_assert (r =? Z.of_nat (length stack_string));;
  r ← write STDOUT (take 5 stack_string);
  user_assert (r =? 5);;
  println [[10] ++ text "Test write1 OK!"];;
  mret 0.

Definition test_sleep_main : program Z :=
  current_time ← get_time;
  user_assert (0 <? current_time);;
  println [text "get_time OK! "; num current_time];;
  let wait_for := isize (current_time + 3000) in
  ITree.iter (λ _ : (), t ← get_time; if t <? wait_for then yield_;; mret (inl ()) else mret (inr ())) ();;
  println [text "Test sleep OK!"];;
  mret 0.
Definition test_sleep1_main : program Z := timed_sleep (text "Test sleep1 passed!").

(** * Memory *)

Definition test_mmap0_main : program Z :=
  let start := 0x10000000 in
  let len := 4096 in
  r ← mmap start len 3;
  user_assert (r =? 0);;
  each (λ i, store i (u8 i)) (range start (start + len));;
  each (λ i, b ← load i; user_assert (b =? u8 i)) (range start (start + len));;
  println [text "Test 04_1 OK!"];;
  mret 0.

Definition test_mmap1_main : program Z :=
  let start := 0x10000000 in
  r ← mmap start 4096 1;
  user_assert (r =? 0);;
  store start (u8 start);;
  println [text "Should cause error, Test 04_2 fail!"];;
  mret 0.

Definition test_mmap2_main : program Z :=
  let start := 0x10000000 in
  r ← mmap start 4096 2;
  user_assert (r =? 0);;
  b ← load start;
  user_assert (negb (b =? 0));;
  println [text "Should cause error, Test 04_2 fail!"];;
  mret 0.

Definition test_mmap3_main : program Z :=
  let start := 0x10000000 in
  let len := 4096 in
  let prot := 3 in
  r ← mmap start len prot;
  user_assert (r =? 0);;
  r ← mmap (start - len) (len + 1) prot;
  user_assert (r =? -1);;
  r ← mmap (start + len + 1) len prot;
  user_assert (r =? -1);;
  r ← mmap (start + len) len 0;
  user_assert (r =? -1);;
  r ← mmap (start + len) len (Z.lor prot 8);
  user_assert (r =? -1);;
  println [text "Test 04_4 test OK!"];;
  mret 0.

Definition test_unmap_main : program Z :=
  let start := 0x10000000 in
  let len := 4096 in
  let prot := 3 in
  r ← mmap start len prot;
  user_assert (r =? 0);;
  r ← mmap (start + len) (len * 2) prot;
  user_assert (r =? 0);;
  r ← munmap start len;
  user_assert (r =? 0);;
  r ← mmap (start - len) (len + 1) prot;
  user_assert (r =? 0);;
  each (λ i, store i (u8 i)) (range (start - len) (start + len * 3));;
  each (λ i, b ← load i; user_assert (b =? u8 i)) (range (start - len) (start + len * 3));;
  println [text "Test 04_5 ummap OK!"];;
  mret 0.

Definition test_unmap2_main : program Z :=
  let start := 0x10000000 in
  let len := 4096 in
  r ← mmap start len 3;
  user_assert (r =? 0);;
  r ← munmap start (len + 1);
  user_assert (r =? -1);;
  r ← munmap (start + 1) (len - 1);
  user_assert (r =? -1);;
  println [text "Test 04_6 ummap2 OK!"];;
  mret 0.

(** [null_mut().write_volatile(0)] *)
Definition store_fault_main : program Z :=
  println [text "Into Test store_fault, we will insert an invalid store operation..."];;
  println [text "Kernel should kill this application!"];;
  store 0 0;;
  mret 0.

(** * Spawned processes *)

Definition test_spawn0_main : program Z :=
  each (λ _, cpid ← spawn (text "test_getpid" ++ [0]);
      user_assert (0 <=? cpid);;
      println [text "new child "; num cpid]) (seq 0 40);;
  exit_code ← wait_each 40 (λ r code, (0 <? r) && (code =? 0)) zero_code;
  '(r, _) ← wait exit_code;
  user_assert (r <=? 0);;
  println [text "Test spawn0 OK!"];;
  mret 0.

Definition test_spawn1_main : program Z :=
  let test_exit0 := text "test_exit0" ++ [0] in
  cpid ← spawn test_exit0;
  user_assert (0 <=? cpid);;
  println [text "new child "; num cpid];;
  '(exit_pid, exit_code) ← wait zero_code;
  user_assert (exit_pid =? cpid);;
  user_assert (code_of exit_code =? 66778);;
  println [text "Test wait OK!"];;
  cpid0 ← spawn test_exit0;
  cpid1 ← spawn (text "test_exit1" ++ [0]);
  '(exit_pid, exit_code) ← waitpid (usize cpid1) exit_code;
  user_assert (exit_pid =? cpid1);;
  user_assert (code_of exit_code =? -233);;
  '(exit_pid, exit_code) ← wait exit_code;
  user_assert (exit_pid =? cpid0);;
  user_assert (code_of exit_code =? 66778);;
  println [text "Test waitpid OK!"];;
  mret 0.

(** * Mail *)

Definition BUF_LEN : nat := 256.
Definition MAIL_MAX : nat := 16.
Definition BAD_ADDRESS : Z := 0x90000000.
(** [assert_eq!(mail_write(pid, &buffer), n)] *)
Definition expect_mail_write (pid : Z) (buffer : list Z) (n : Z) : program () :=
  r ← mail_write pid buffer; user_assert (r =? n).
(** [assert_eq!(mail_read(&mut buf), n)] *)
Definition expect_mail_read (buf : list Z) (n : Z) : program (list Z) :=
  '(r, buf) ← mail_read buf; user_assert (r =? n);; mret buf.

Definition test_mail0_main : program Z :=
  pid ← getpid;
  let buffer0 := replicate 27 97 in
  expect_mail_write (usize pid) buffer0 27;;
  let buffer1 := replicate (BUF_LEN + 1) 98 in
  expect_mail_write (usize pid) buffer1 (Z.of_nat BUF_LEN);;
  buf ← expect_mail_read (replicate BUF_LEN 0) 27;
  user_assert (bool_decide (take 27 buf = buffer0));;
  start_of_buf ← expect_mail_read (take 27 buf) 27;
  user_assert (bool_decide (start_of_buf = take 27 buffer1));;
  println [text "mail0 test OK!"];;
  mret 0.

Definition test_mail1_main : program Z :=
  pid ← getpid;
  let buffer0 := replicate BUF_LEN 97 in
  each (λ _, expect_mail_write (usize pid) buffer0 (Z.of_nat BUF_LEN)) (seq 0 MAIL_MAX);;
  expect_mail_write (usize pid) buffer0 (-1);;
  expect_mail_read (replicate BUF_LEN 0) (Z.of_nat BUF_LEN);;
  expect_mail_write (usize pid) buffer0 (Z.of_nat BUF_LEN);;
  expect_mail_write (usize pid) buffer0 (-1);;
  println [text "mail1 test OK!"];;
  mret 0.

Definition test_mail2_child : program () :=
  println [text "I am child"];;
  buffer ← expect_mail_read (replicate BUF_LEN 0) (-1);
  println [text "child read 1 mail fail"];;
  println [text "child sleep 2s"];;
  sleep 2000;;
  each (λ i, buffer ← expect_mail_read (replicate BUF_LEN 0) (Z.of_nat BUF_LEN);
      user_assert (bool_decide (buffer = replicate BUF_LEN (u8 (Z.of_nat i))))) (seq 0 16);;
  println [text "child read 16 mails succeed"];;
  buffer ← expect_mail_read buffer (-1);
  println [text "child read 1 mail fail"];;
  println [text "child sleep 1s"];;
  sleep 1000;;
  buffer ← expect_mail_read buffer (Z.of_nat BUF_LEN);
  user_assert (bool_decide (buffer = replicate BUF_LEN 16));;
  println [text "child read 1 mail succeed"];;
  println [text "child exit"];;
  exit 0.
Definition test_mail2_main : program Z :=
  pid ← fork;
  when (pid =? 0) test_mail2_child;;
  println [text "I am father"];;
  println [text "father sleep 1s"];;
  sleep 1000;;
  each (λ i, expect_mail_write (usize pid) (replicate BUF_LEN (u8 (Z.of_nat i))) (Z.of_nat BUF_LEN)) (seq 0 16);;
  println [text "father wirte 16 mails succeed"];;
  let buffer := replicate BUF_LEN 16 in
  expect_mail_write (usize pid) buffer (-1);;
  println [text "father wirte 1 mail fail"];;
  println [text "father sleep 1.5s"];;
  sleep 1500;;
  expect_mail_write (usize pid) buffer (Z.of_nat BUF_LEN);;
  println [text "father wirte 1 mail succeed"];;
  '(r, xstate) ← wait (le_enc 4 (-100));
  user_assert (0 <? r);;
  user_assert (code_of xstate =? 0);;
  println [text "mail2 test OK!"];;
  mret 0.

(** The first buffer is ten bytes at an address that is not the program's. *)
Definition test_mail3_main : program Z :=
  pid ← getpid;
  r ← syscall_ret SYSCALL_MAIL_WRITE [Word (usize pid); Word BAD_ADDRESS; Word 10];
  user_assert (r =? -1);;
  expect_mail_write (usize pid) [] 0;;
  expect_mail_read [] (-1);;
  let buffer0 := replicate BUF_LEN 97 in
  each (λ _, expect_mail_write (usize pid) buffer0 (Z.of_nat BUF_LEN)) (seq 0 MAIL_MAX);;
  expect_mail_write (usize pid) [] (-1);;
  expect_mail_read [] 0;;
  expect_mail_write (usize pid) [] (-1);;
  println [text "mail3 test OK!"];;
  mret 0.

(** * Signals *)

(** The handlers; a program passes their addresses, which the linker chooses. *)
Definition handler_func : program () := println [text "user_sig_test succsess"];; sigreturn;; mret ().
Definition handler_func2 : program void := ITree.iter (λ _, print [];; mret (inl ())) ().
Definition handler_func3 : program () := println [text "interrupt"];; sigreturn;; mret ().
Definition handler_ctrlc : program () := println [text "signal_handler: caught signal SIGINT, and exit(1)"];; exit 1.

Section signals.
Context (func func2 func3 : Z).

(** [if sigaction(signum, &new, &old) < 0 { panic!("Sigaction failed!") }] *)
Definition expect_sigaction (signum : Z) (new : list Z) : program (list Z) :=
  '(r, old) ← sigaction signum (Some new) (Some user_SignalAction_default);
  user_assert (0 <=? r);; mret old.
(** [if kill(pid, signum) < 0 { println!("Kill failed!"); exit(code) }] *)
Definition expect_kill (pid signum code : Z) : program () :=
  r ← kill (usize pid) signum;
  when (r <? 0) (println [text "Kill failed!"];; exit code).

Definition sig_simple_main : program Z :=
  println [text "signal_simple: sigaction"];;
  expect_sigaction user_SIGUSR1 (user_SignalAction func 0);;
  println [text "signal_simple: kill"];;
  pid ← getpid;
  expect_kill pid user_SIGUSR1 1;;
  println [text "signal_simple: Done"];;
  mret 0.

Definition sig_simple2_main : program Z :=
  pid ← fork;
  if pid =? 0 then
    println [text "signal_simple2: child sigaction"];;
    expect_sigaction 10 (user_SignalAction func 0);;
    sleep 1000;;
    println [text "signal_simple2: child done"];;
    exit 0
  else if 0 <? pid then
    println [text "signal_simple2: parent kill child"];;
    sleep 500;;
    expect_kill pid 10 1;;
    println [text "signal_simple2: parent wait child"];;
    waitpid (usize pid) zero_code;;
    println [text "signal_simple2: parent Done"];;
    exit 0
  else mret 0.

Definition sig_ctrlc_round (_ : ()) : program (() + Z) :=
  c ← getchar;
  println [text "Got Char  "; num c];;
  mret (if (c =? LF) || (c =? CR) then inr 0 else inl ()).
Definition sig_ctrlc_main : program Z :=
  println [text "sig_ctrlc starting....  Press 'ctrl-c' or 'ENTER'  will quit."];;
  println [text "sig_ctrlc: sigaction"];;
  expect_sigaction user_SIGINT (user_SignalAction func 0);;
  println [text "sig_ctrlc: getchar...."];;
  ITree.iter sig_ctrlc_round ().

Definition user_sig_test_failsignum : program () :=
  '(r, _) ← sigaction 50 (Some (user_SignalAction func 0)) (Some user_SignalAction_default);
  user_assert (r <? 0).
Definition user_sig_test_kill : program () :=
  expect_sigaction user_SIGUSR1 (user_SignalAction func 0);;
  pid ← getpid;
  expect_kill pid user_SIGUSR1 1.
Definition user_sig_test_multiprocsignals : program () :=
  pid ← fork;
  if pid =? 0 then expect_sigaction user_SIGUSR1 (user_SignalAction func 0);; mret ()
  else
    expect_kill pid user_SIGUSR1 1;;
    wait zero_code;;
    mret ().
Definition user_sig_test_restore : program () :=
  old ← expect_sigaction user_SIGUSR1 (user_SignalAction func 0);
  old2 ← expect_sigaction user_SIGUSR1 old;
  when (negb (user_SignalAction_handler old2 =? user_SignalAction_handler (user_SignalAction func 0)))
    (println [text "Restore failed!"];; exit (-1)).
(** The signal numbers of the next tests are the bits of the flags. *)
Definition kernel_sig_test_ignore : program () :=
  sigprocmask (u32 (user_SignalFlags user_SIGSTOP));;
  pid ← getpid;
  r ← kill (usize pid) (user_SignalFlags user_SIGSTOP);
  when (r <? 0) (println [text "kill faild" ++ [10]];; exit (-1)).
Definition kernel_sig_test_stop_cont : program () :=
  pid ← fork;
  if pid =? 0 then
    pid ← getpid;
    kill (usize pid) (user_SignalFlags user_SIGSTOP);;
    sleep 1000;;
    exit (-1)
  else
    sleep 5000;;
    kill (usize pid) (user_SignalFlags user_SIGCONT);;
    wait zero_code;;
    mret ().
Definition kernel_sig_test_failignorekill : program () :=
  let new := user_SignalAction func 0 in
  '(r, old) ← sigaction 9 (Some new) (Some user_SignalAction_default);
  user_assert (r <? 0);;
  '(r, _) ← sigaction 9 (Some new) None;
  user_assert (r <? 0);;
  '(r, _) ← sigaction 9 None (Some old);
  user_assert (r <? 0).
Definition final_sig_test : program () :=
  pid ← fork;
  if pid =? 0 then
    expect_sigaction user_SIGUSR1 (user_SignalAction func2 0);;
    expect_sigaction 14 (user_SignalAction func3 0);;
    pid ← getpid;
    expect_kill pid user_SIGUSR1 (-1)
  else
    sleep 1000;;
    expect_kill pid (Z.shiftl 1 14) (-1);;
    sleep 1000;;
    kill (usize pid) (user_SignalFlags user_SIGKILL);;
    mret ().

Definition run_sig_test (f : program ()) : program bool :=
  pid ← fork;
  if pid =? 0 then f;; exit 0
  else
    '(_, exit_code) ← wait zero_code;
    println [if negb (code_of exit_code =? 0) then text "FAILED!" else text "OK!"];;
    mret (code_of exit_code =? 0).

Definition sig_tests_table : list (program () * list Z) :=
  [(user_sig_test_failsignum, text "user_sig_test_failsignum");
   (user_sig_test_kill, text "user_sig_test_kill");
   (user_sig_test_multiprocsignals, text "user_sig_test_multiprocsignals");
   (user_sig_test_restore, text "user_sig_test_restore");
   (kernel_sig_test_ignore, text "kernel_sig_test_ignore");
   (kernel_sig_test_stop_cont, text "kernel_sig_test_stop_cont");
   (kernel_sig_test_failignorekill, text "kernel_sig_test_failignorekill");
   (final_sig_test, text "final_sig_test")].
Fixpoint run_tests (tests : list (program () * list Z)) (fail_num : Z) : program Z :=
  match tests with
  | [] => mret fail_num
  | (f, name) :: tests =>
      println [text "Testing "; name];;
      ok ← run_sig_test f;
      run_tests tests (if ok : bool then fail_num else fail_num + 1)
  end.
Definition sig_tests_main : program Z :=
  fail_num ← run_tests sig_tests_table 0;
  if fail_num =? 0 then println [text "ALL TESTS PASSED"];; mret 0
  else println [text "SOME TESTS FAILED"];; mret (-1).
End signals.
