(* ===== verification/UserRun.v ===== *)
(** How user programs run: what the kernel may answer to a system call, as far as
    a program can tell from its table of open files and its children, the runs
    of a program under these answers, and a program logic for what holds on all
    of them. *)

From ITree Require Import ITree.
From S2P Require Export UserLib.

(** * What a program sees of the kernel *)

(** An open file: inherited, opened by its name, or an end of a pipe. *)
Inductive fobj : Type :=
| Inherited (n : Z)
| OpenedFile (path : list Z) (flags : Z)
| PipeRead (n : nat)
| PipeWrite (n : nat).

Record ustate : Type := MkUstate {
  fds : gmap Z fobj;        (** the open descriptors *)
  pipe_count : nat;         (** pipes made so far *)
  kids : gset Z;            (** children not yet waited for *)
  spawned : nat }.          (** children forked so far; a child keeps the number *)
Definition set_fds (f : gmap Z fobj) (s : ustate) : ustate := MkUstate f (pipe_count s) (kids s) (spawned s).
Definition set_kids (c : gset Z) (s : ustate) : ustate := MkUstate (fds s) (pipe_count s) c (spawned s).

(** The lowest free descriptor. *)
Definition lowest {A} (f : gmap Z A) (n : Z) : Prop :=
  0 ≤ n < 2 ^ 63 ∧ f !! n = None ∧ ∀ m, 0 ≤ m < n → is_Some (f !! m).

(** [ecall id args a s s']: the call may answer [a] and lead from [s] to [s'].
    [exec] returns to its caller only when it fails. *)
Definition ecall (id : Z) (args : list arg) (a : Z * list Z) (s s' : ustate) : Prop :=
  if id =? SYSCALL_CLOSE then
    match args with
    | Word fd :: _ => a = (if decide (is_Some (fds s !! fd)) then 0 else -1, []) ∧ s' = set_fds (delete fd (fds s)) s
    | _ => False
    end
  else if id =? SYSCALL_DUP then
    match args with
    | Word fd :: _ =>
        match fds s !! fd with
        | Some f => lowest (fds s) a.1 ∧ a.2 = [] ∧ s' = set_fds (<[a.1 := f]> (fds s)) s
        | None => a = (-1, []) ∧ s' = s
        end
    | _ => False
    end
  else if id =? SYSCALL_PIPE then
    ∃ r w, lowest (fds s) r ∧ lowest (<[r := PipeRead (pipe_count s)]> (fds s)) w ∧
      a = (0, le_enc 8 r ++ le_enc 8 w) ∧
      s' = MkUstate (<[w := PipeWrite (pipe_count s)]> (<[r := PipeRead (pipe_count s)]> (fds s))) (S (pipe_count s)) (kids s) (spawned s)
  else if id =? SYSCALL_OPEN then
    match args with
    | Bytes path :: Word flags :: _ =>
        a = (-1, []) ∧ s' = s ∨
        lowest (fds s) a.1 ∧ a.2 = [] ∧ s' = set_fds (<[a.1 := OpenedFile path flags]> (fds s)) s
    | _ => False
    end
  else if id =? SYSCALL_FORK then
    a = (0, []) ∧ s' = set_kids ∅ s ∨
    0 < a.1 < 2 ^ 63 ∧ a.2 = [] ∧ (a.1 ∉ kids s) ∧
      s' = MkUstate (fds s) (pipe_count s) ({[a.1]} ∪ kids s) (S (spawned s))
  else if id =? SYSCALL_EXEC then a = (-1, []) ∧ s' = s
  else if id =? SYSCALL_WAITPID then
    match args with
    | Word pid :: Buffer code :: _ =>
        if decide (pid ∈ kids s) then
          a = (-2, code) ∧ s' = s ∨ a.1 = pid ∧ s' = set_kids (kids s ∖ {[pid]}) s
        else a = (-1, code) ∧ s' = s
    | _ => False
    end
  else s' = s.

Definition answers {A} (e : sysE A) : A → ustate → ustate → Prop :=
  match e with
  | Ecall id args => ecall id args
  | Load _ => λ b s s', is_byte b ∧ s' = s
  | Store _ _ | Privileged => λ _ s s', s' = s
  | Panic => λ _ _ _, False
  end.

(** The runs of a program: from a tree and a state to what is left of the tree. *)
Inductive run {R} : itree' sysE R → ustate → itree' sysE R → ustate → Prop :=
| run_here t s : run t s t s
| run_tau t s t' s' : run (observe t) s t' s' → run (TauF t) s t' s'
| run_ecall A (e : sysE A) k a s s1 t' s' :
    answers e a s s1 → run (observe (k a)) s1 t' s' → run (VisF e k) s t' s'.

Lemma lowest_unique {A} (f : gmap Z A) n m :
  lowest f n → 0 ≤ m → f !! m = None → (∀ j, 0 ≤ j < m → is_Some (f !! j)) → n = m.
Proof.
  intros (Hn & Hfree & Hlow) Hm Hm' Hj. destruct (Z.lt_trichotomy n m) as [H|[H|H]]; [|done|].
  - destruct (Hj n) as [x Hx]; [lia|]. congruence.
  - destruct (Hlow m) as [x Hx]; [lia|]. congruence.
Qed.

(** * A program logic *)

Section logic.
(** What has to hold when a program executes a call. *)
Context (event_ok : ∀ A, sysE A → ustate → Prop).

(** For [n] steps: the calls are as demanded, and a result satisfies [Q]. *)
Fixpoint safe {R} (n : nat) (t : itree' sysE R) (s : ustate) (Q : R → ustate → Prop) : Prop :=
  match n with
  | O => True
  | S n =>
      match t with
      | RetF r => Q r s
      | TauF t => safe n (observe t) s Q
      | VisF e k => event_ok _ e s ∧ ∀ a s', answers e a s s' → safe n (observe (k a)) s' Q
      end
  end.
Definition safely {R} (t : program R) (s : ustate) (Q : R → ustate → Prop) : Prop := ∀ n, safe n (observe t) s Q.

Lemma safe_mono {R} n m (t : itree' sysE R) s (Q Q' : R → ustate → Prop) :
  safe n t s Q → (m ≤ n)%nat → (∀ r s, Q r s → Q' r s) → safe m t s Q'.
Proof.
  revert m t s. induction n as [|n IH]; intros m t s H Hm HQ; [by replace m with O by lia|].
  destruct m as [|m]; [done|]. destruct t as [r|t|A e k]; cbn in *; [by apply HQ| |].
  - apply (IH m); [done|lia|done].
  - destruct H as [He H]. split; [done|]. intros a s' Ha. apply (IH m); [by apply H|lia|done].
Qed.
Lemma safely_mono {R} (t : program R) s Q Q' : safely t s Q → (∀ r s, Q r s → Q' r s) → safely t s Q'.
Proof. intros H HQ n. by eapply (safe_mono n n). Qed.
Lemma safely_ret {R} (r : R) s Q : Q r s → safely (mret r) s Q.
Proof. by intros H [|n]. Qed.
(** The rule of an [ecall]. *)
Lemma safely_syscall id args s Q :
  event_ok _ (Ecall id args) s → (∀ a s', ecall id args a s s' → Q a s') → safely (syscall id args) s Q.
Proof. intros He HQ [|n]; [done|]. split; [done|]. intros a s' Ha. destruct n; [done|]. by apply HQ. Qed.
Lemma observe_bind {A R} (t : program A) (k : A → program R) :
  observe (ITree.bind t k) =
  match observe t with
  | RetF a => observe (k a)
  | TauF t => TauF (ITree.bind t k)
  | VisF e h => VisF e (λ b, ITree.bind (h b) k)
  end.
Proof. unfold ITree.bind, ITree.subst. cbn. unfold observe at 1. cbn. by destruct (observe t). Qed.
Lemma safe_bind {A R} n (t : program A) (k : A → program R) s Q :
  safe n (observe t) s (λ a s', safe n (observe (k a)) s' Q) → safe n (observe (ITree.bind t k)) s Q.
Proof.
  revert t s. induction n as [|n IH]; intros t s H; [done|].
  assert (∀ t s, safe n (observe t) s (λ a s', safe (S n) (observe (k a)) s' Q) →
    safe n (observe (ITree.bind t k)) s Q) as IH'.
  { intros t' s' H'. apply IH. eapply safe_mono; [exact H'|done|]. intros a s2 H2. eapply safe_mono; [exact H2|lia|done]. }
  rewrite observe_bind. cbn [safe] in H. destruct (observe t) as [a|t'|B e h]; [exact H|by apply IH'|].
  destruct H as [He H]. split; [done|]. intros b s' Hb. apply IH'. by apply H.
Qed.
Lemma safely_bind {A R} (t : program A) (k : A → program R) s Q :
  safely t s (λ a s', safely (k a) s' Q) → safely (t ≫= k) s Q.
Proof.
  intros H n. apply safe_bind. eapply safe_mono; [apply H|done|]. intros a s' Ha. apply Ha.
Qed.
(** A loop keeps its invariant. *)
Lemma safely_iter {I R} (inv : I → ustate → Prop) (body : I → program (I + R)) i s Q :
  inv i s →
  (∀ i s, inv i s → safely (body i) s (λ r s', match r with inl i' => inv i' s' | inr b => Q b s' end)) →
  safely (ITree.iter body i) s Q.
Proof.
  intros Hi Hbody n. revert i s Hi. induction n as [|n IH]; intros i s Hi; [done|].
  change (observe (ITree.iter body i)) with (observe (ITree.bind (body i) (λ lr,
    match lr with inl l => Tau (ITree.iter body l) | inr r => Ret r end))).
  apply safe_bind. eapply safe_mono; [by apply Hbody|done|].
  intros [i'|b] s' H; cbn; [by apply IH|done].
Qed.

(** What the logic proves holds on every run. *)
Lemma safely_run {R} (t : program R) s Q t' s' :
  safely t s Q → run (observe t) s t' s' →
  match t' with
  | RetF r => Q r s'
  | TauF _ => True
  | VisF e _ => event_ok _ e s'
  end.
Proof.
  unfold safely. generalize (observe t). clear t. intros t H Hrun. induction Hrun as [t s|t s t' s' _ IH|A e k a s s1 t' s' Ha _ IH].
  - specialize (H 1%nat). destruct t; cbn in H; [done..|]. by destruct H.
  - apply IH. intros n. exact (H (S n)).
  - apply IH. intros n. destruct (H (S n)) as [_ Hk]. by apply Hk.
Qed.
End logic.

(** * The calls of the library *)

Section rules.
Context (event_ok : ∀ A, sysE A → ustate → Prop).
Context (Hok : ∀ id args s, id ≠ SYSCALL_EXEC → event_ok _ (Ecall id args) s).
Abbreviation safely := (safely event_ok).

Lemma safely_then {A B} (t : program A) (k : A → program B) s P Q :
  safely t s P → (∀ a s', P a s' → safely (k a) s' Q) → safely (t ≫= k) s Q.
Proof. intros Ht Hk. apply safely_bind. eapply safely_mono; [exact Ht|exact Hk]. Qed.
Lemma safely_ret_call id args s Q :
  id ≠ SYSCALL_EXEC → (∀ a s', ecall id args a s s' → Q a.1 s') → safely (syscall_ret id args) s Q.
Proof.
  intros Hid HQ. apply safely_bind, safely_syscall; [by apply Hok|]. intros a s' Ha. apply safely_ret. by apply HQ.
Qed.
Lemma safely_user_unwrap {A B} (o : option A) a (k : A → program B) s Q :
  o = Some a → safely (k a) s Q → safely (user_unwrap o ≫= k) s Q.
Proof. intros -> HQ. by apply safely_bind, safely_ret. Qed.
Lemma safely_user_assert {B} b (k : () → program B) s Q :
  b = true → safely (k ()) s Q → safely (user_assert b ≫= k) s Q.
Proof. intros -> HQ. by apply safely_bind, safely_ret. Qed.

(** Writing changes nothing the program sees of the kernel. *)
Lemma safely_write fd buf s : safely (write fd buf) s (λ _ s', s' = s).
Proof. apply safely_ret_call; [done|]. by intros a s' Ha. Qed.
Lemma safely_ConsoleBuffer_flush buf s : safely (ConsoleBuffer_flush buf) s (λ _ s', s' = s).
Proof. eapply safely_then; [apply safely_write|]. intros r s' ->. by apply safely_ret. Qed.
Lemma safely_flush s : safely flush s (λ _ s', s' = s).
Proof. eapply safely_then; [apply safely_ConsoleBuffer_flush|]. intros r s' ->. by apply safely_ret. Qed.
Lemma safely_write_str l buf s : safely (ConsoleBuffer_write_str l buf) s (λ _ s', s' = s).
Proof.
  revert buf. induction l as [|c l IH]; intros buf; cbn [ConsoleBuffer_write_str]; [by apply safely_ret|].
  cbv zeta. destruct (_ || _); [|apply IH]. eapply safely_then; [apply safely_ConsoleBuffer_flush|].
  intros [ret buf'] s' ->. destruct (ret =? -1); [by apply safely_ret|apply IH].
Qed.
Lemma safely_write_fmt pieces buf s : safely (ConsoleBuffer_write_fmt pieces buf) s (λ _ s', s' = s).
Proof.
  revert buf. induction pieces as [|l pieces IH]; intros buf; cbn [ConsoleBuffer_write_fmt]; [by apply safely_ret|].
  eapply safely_then; [apply safely_write_str|]. intros [[] buf'] s' ->; [apply IH|by apply safely_ret].
Qed.
Lemma safely_print pieces s : safely (print pieces) s (λ _ s', s' = s).
Proof.
  eapply safely_then; [apply safely_write_fmt|]. intros [ok buf] s' ->.
  eapply safely_then; [apply safely_ConsoleBuffer_flush|]. intros r s' ->. by apply safely_ret.
Qed.

(** [close] forgets the descriptor, open or not. *)
Lemma safely_close fd s : safely (close fd) s (λ _ s', s' = set_fds (delete fd (fds s)) s).
Proof.
  apply (safely_then _ _ _ (λ _ s', s' = s)).
  - destruct (fd =? STDOUT); [apply safely_flush|by apply safely_ret].
  - intros _ s' ->. apply safely_ret_call; [done|]. by intros a s' [_ ->].
Qed.
Lemma safely_dup fd f s :
  fds s !! fd = Some f → safely (dup fd) s (λ new s', lowest (fds s) new ∧ s' = set_fds (<[new := f]> (fds s)) s).
Proof. intros Hf. apply safely_ret_call; [done|]. intros a s'. cbn. rewrite Hf. by intros (Hl & _ & ->). Qed.
Lemma safely_open path flags s :
  safely (open path flags) s (λ r s', r = -1 ∧ s' = s ∨
    lowest (fds s) r ∧ s' = set_fds (<[r := OpenedFile path flags]> (fds s)) s).
Proof.
  apply safely_ret_call; [done|]. intros a s' [[-> ->]|(Hl & _ & ->)]; [by left|by right].
Qed.
Lemma safely_fork s :
  safely fork s (λ pid s', pid = 0 ∧ s' = set_kids ∅ s ∨
    0 < pid < 2 ^ 63 ∧ (pid ∉ kids s) ∧ s' = MkUstate (fds s) (pipe_count s) ({[pid]} ∪ kids s) (S (spawned s))).
Proof.
  apply safely_ret_call; [done|]. intros a s' [[-> ->]|(Hp & _ & Hn & ->)]; [by left|by right].
Qed.
(** [waitpid] on a child: it ends with the child gone, or waits for ever. *)
Lemma safely_waitpid pid code s :
  0 < pid < 2 ^ 63 → pid ∈ kids s →
  safely (waitpid (wrap 64 pid) code) s (λ r s', r.1 = pid ∧ s' = set_kids (kids s ∖ {[pid]}) s).
Proof.
  intros Hp Hin. assert (wrap 64 (isize (wrap 64 pid)) = pid) as Hpid.
  { unfold signed. rewrite !(wrap_small 64 pid) by lia.
    rewrite (proj2 (Z.ltb_lt pid _)) by lia. by rewrite wrap_small by lia. }
  unfold waitpid, wait_loop.
  apply (safely_iter _ (λ _ s', s' = s)); [done|]. intros code' s' ->. unfold sys_waitpid.
  eapply (safely_then _ _ _ (λ a s', a.1 = -2 ∧ s' = s ∨ a.1 = pid ∧ s' = set_kids (kids s ∖ {[pid]}) s)).
  - apply safely_syscall; [by apply Hok|]. intros [r c] s'. cbn. rewrite Hpid, decide_True by done.
    intros [[[= -> ->] ->]|[-> ->]]; [by left|by right].
  - intros [r c] s' [[Hr ->]|[Hr ->]]; cbn in Hr; subst r.
    + cbn. eapply (safely_then _ _ _ (λ _ s', s' = s)); [apply safely_ret_call; [done|by intros a s' ?]|].
      intros _ s' ->. by apply safely_ret.
    + rewrite (proj2 (Z.eqb_neq pid (-2))) by lia. by apply safely_ret.
Qed.
End rules.
