(* ===== verification/ShellPipes.v ===== *)
(** Pipelines of the shell (user/src/bin/user_shell.rs): whatever the kernel
    answers, each command is executed with its input and output at the right
    pipes and files and with no other pipe open, and the shell ends as it began. *)

From ITree Require Import ITree.
From S2P Require Export UserShell UserRun.

(** * Tables of open files *)

(** A table with [a] at standard input and [b] at standard output. *)
Definition ends (a b : fobj) (T : gmap Z fobj) : gmap Z fobj := <[0 := a]> (<[1 := b]> T).

Definition pipe_fds (ps : list (Z * Z)) : list Z := ps ≫= λ p, [p.1; p.2].
Lemma elem_of_pipe_fds ps fd : fd ∈ pipe_fds ps ↔ ∃ j r w, ps !! j = Some (r, w) ∧ (fd = r ∨ fd = w).
Proof.
  unfold pipe_fds. rewrite list_elem_of_bind. split.
  - intros ([r w] & Hfd & [j Hj]%list_elem_of_lookup). exists j, r, w. split; [done|]. cbn in Hfd. set_solver.
  - intros (j & r & w & Hj & Hfd). exists (r, w). split; [cbn; set_solver|]. by eapply list_elem_of_lookup_2.
Qed.

(** The pipes [ps], numbered from [k0], are open besides [std]. *)
Record piped (std : gmap Z fobj) (k0 : nat) (ps : list (Z * Z)) (T : gmap Z fobj) : Prop := {
  pi_ends j r w : ps !! j = Some (r, w) →
    0 ≤ r < 2 ^ 63 ∧ 0 ≤ w < 2 ^ 63 ∧ T !! r = Some (PipeRead (k0 + j)) ∧ T !! w = Some (PipeWrite (k0 + j)) ∧
    std !! r = None ∧ std !! w = None;
  pi_rest fd : (fd ∉ pipe_fds ps) → T !! fd = std !! fd }.

Lemma piped_nil std k0 : piped std k0 [] std.
Proof. split; [by intros [] ? ?|done]. Qed.
Lemma piped_cons std k0 ps r w T :
  lowest std r → lowest (<[r := PipeRead k0]> std) w →
  piped (<[w := PipeWrite k0]> (<[r := PipeRead k0]> std)) (S k0) ps T → piped std k0 ((r, w) :: ps) T.
Proof.
  intros (Hr & Hrn & _) (Hw & Hwn & _) [He Hrest]. rewrite lookup_insert_None in Hwn. destruct Hwn as [Hwn Hrw].
  set (T1 := <[w := _]> _) in *.
  assert (∀ fd, is_Some (T1 !! fd) → T !! fd = T1 !! fd) as Hkeep.
  { intros fd [x Hx]. apply Hrest. intros (j & r' & w' & Hj & Hfd)%elem_of_pipe_fds.
    destruct (He _ _ _ Hj) as (_ & _ & _ & _ & H1 & H2). destruct Hfd; congruence. }
  assert (T1 !! r = Some (PipeRead k0)) as Hr1 by (unfold T1; by rewrite lookup_insert_ne, lookup_insert_eq).
  assert (T1 !! w = Some (PipeWrite k0)) as Hw1 by (unfold T1; by rewrite lookup_insert_eq).
  split.
  - intros [|j] r' w'; cbn.
    + intros [= <- <-]. rewrite !Hkeep by (by eexists). rewrite Nat.add_0_r. done.
    + intros Hj. destruct (He _ _ _ Hj) as (H1 & H2 & H3 & H4 & H5 & H6). rewrite Nat.add_succ_r.
      apply lookup_insert_None in H5 as [[H5 _]%lookup_insert_None _]. apply lookup_insert_None in H6 as [[H6 _]%lookup_insert_None _].
      done.
  - intros fd Hfd. change (fd ∉ r :: w :: pipe_fds ps) in Hfd. rewrite Hrest by set_solver.
    unfold T1. by rewrite !lookup_insert_ne by set_solver.
Qed.

Lemma piped_std std k0 ps T fd f : piped std k0 ps T → std !! fd = Some f → T !! fd = Some f.
Proof.
  intros [He Hrest] Hf. rewrite Hrest; [done|]. intros (j & r & w & Hj & Hfd)%elem_of_pipe_fds.
  destruct (He _ _ _ Hj) as (_ & _ & _ & _ & ? & ?). destruct Hfd; congruence.
Qed.

(** The table after closing both ends of all pipes. *)
Fixpoint without (ps : list (Z * Z)) (T : gmap Z fobj) : gmap Z fobj :=
  match ps with [] => T | (r, w) :: ps => without ps (delete w (delete r T)) end.
Lemma lookup_without ps T fd : without ps T !! fd = if decide (fd ∈ pipe_fds ps) then None else T !! fd.
Proof.
  revert T. induction ps as [|[r w] ps IH]; intros T; cbn [without].
  - rewrite decide_False; [done|]. apply not_elem_of_nil.
  - rewrite IH. change (pipe_fds ((r, w) :: ps)) with (r :: w :: pipe_fds ps).
    rewrite !lookup_delete.
    repeat case_decide; rewrite ?elem_of_cons in *; naive_solver.
Qed.
(** After closing the pipes only what was open before is left. *)
Lemma without_ends std k0 ps T a b :
  piped std k0 ps T → is_Some (std !! 0) → is_Some (std !! 1) → without ps (ends a b T) = ends a b std.
Proof.
  intros [He Hrest] [x0 H0] [x1 H1]. assert (∀ fd, fd ∈ pipe_fds ps → std !! fd = None) as Hnone.
  { intros fd (j & r & w & Hj & Hfd)%elem_of_pipe_fds. destruct (He _ _ _ Hj) as (_ & _ & _ & _ & ? & ?).
    by destruct Hfd as [->| ->]. }
  apply map_eq. intros fd. rewrite lookup_without. unfold ends. rewrite !lookup_insert.
  case_decide as Hfd; [|repeat case_decide; by auto]. apply Hnone in Hfd. repeat case_decide; congruence.
Qed.
Lemma without_std std k0 ps T : piped std k0 ps T → without ps T = std.
Proof.
  intros [He Hrest]. apply map_eq. intros fd. rewrite lookup_without. case_decide as Hfd; [|by apply Hrest].
  apply elem_of_pipe_fds in Hfd as (j & r & w & Hj & Hfd). destruct (He _ _ _ Hj) as (_ & _ & _ & _ & ? & ?).
  by destruct Hfd as [->| ->].
Qed.
Lemma ends_id a b T : T !! 0 = Some a → T !! 1 = Some b → ends a b T = T.
Proof. intros H0 H1. unfold ends. rewrite (insert_id T 1 b) by done. by apply insert_id. Qed.
Lemma ends_0 a b c T : <[0 := c]> (ends a b T) = ends c b T.
Proof. unfold ends. by rewrite insert_insert_eq. Qed.
Lemma ends_1 a b c T : <[1 := c]> (ends a b T) = ends a c T.
Proof. unfold ends. rewrite insert_insert_ne by done. by rewrite insert_insert_eq. Qed.
Lemma ends_at_0 a b T : ends a b T !! 0 = Some a.
Proof. apply lookup_insert_eq. Qed.
Lemma ends_at_1 a b T : ends a b T !! 1 = Some b.
Proof. unfold ends. by rewrite lookup_insert_ne, lookup_insert_eq. Qed.
Lemma lookup_ends a b T fd : fd ≠ 0 → fd ≠ 1 → ends a b T !! fd = T !! fd.
Proof. intros H0 H1. unfold ends. by rewrite !lookup_insert_ne by done. Qed.

(** * What the commands of a pipeline get *)

Section pipeline.
(** The pipeline and the state the shell starts it in. *)
Context (l : list ProcessArguments) (s0 : ustate) (f0 f1 : fobj).
Context (H0 : fds s0 !! 0 = Some f0) (H1 : fds s0 !! 1 = Some f1) (Hl : Forall (λ p, args_copy p ≠ []) l).
Abbreviation n := (length l).

Definition redirected_end (path : list Z) (flags : Z) (f : fobj) : fobj :=
  if nonempty path then OpenedFile (str_bytes path) flags else f.
(** Standard input and output of command [i]. *)
Definition source (i : nat) (p : ProcessArguments) : fobj :=
  if (0 <? i)%nat then PipeRead (pipe_count s0 + (i - 1)) else redirected_end (input p) OpenFlags_RDONLY f0.
Definition sink (i : nat) (p : ProcessArguments) : fobj :=
  if (i <? n - 1)%nat then PipeWrite (pipe_count s0 + i)
  else redirected_end (output p) (Z.lor OpenFlags_CREATE OpenFlags_WRONLY) f1.

(** Command [i] is executed in the child that was forked after [i] others, with
    its own arguments, connected to its neighbours, and with what the shell had
    open besides, but no pipe. *)
Definition executed (args : list arg) (s : ustate) : Prop :=
  ∃ i p path, l !! i = Some p ∧ spawned s = (spawned s0 + i)%nat ∧ args_copy p !! 0%nat = Some path ∧
    args = [Bytes (str_bytes path); Strings (option_map str_bytes <$> args_addr p); Word 0] ∧
    fds s = ends (source i p) (sink i p) (fds s0).
(** The shell and its children never panic, and execute as they should. *)
Definition pipeline_event (A : Type) (e : sysE A) (s : ustate) : Prop :=
  match e with
  | Ecall id args => id = SYSCALL_EXEC → executed args s
  | Load _ | Store _ _ | Privileged => True
  | Panic => False
  end.
Abbreviation safely := (safely pipeline_event).

Lemma pipeline_event_ok id args s : id ≠ SYSCALL_EXEC → pipeline_event _ (Ecall id args) s.
Proof. intros Hne He. by destruct Hne. Qed.

(** Replacing standard input or output. *)
Lemma safely_replace fd f std s :
  fds s !! fd = Some f → fd ≠ std → 0 ≤ std → (∀ j, 0 ≤ j < std → is_Some (fds s !! j)) →
  safely (take_pipe_end fd std) s (λ _ s', s' = set_fds (<[std := f]> (fds s)) s).
Proof.
  intros Hf Hne Hstd Hlow. eapply safely_then; [apply (safely_close _ pipeline_event_ok)|]. intros _ s1 ->.
  eapply safely_then; [apply (safely_dup _ pipeline_event_ok); cbn; by rewrite lookup_delete_ne|]. intros new s2 [Hnew ->]. cbn in *.
  apply (lowest_unique _ _ std) in Hnew as ->; [|done|by rewrite lookup_delete_eq|].
  - rewrite Z.eqb_refl. apply safely_ret. cbn. by rewrite insert_delete_eq.
  - intros j Hj. rewrite lookup_delete_ne by lia. by apply Hlow.
Qed.
Lemma safely_redirect path flags std s :
  0 ≤ std → (∀ j, 0 ≤ j ≤ std → is_Some (fds s !! j)) →
  safely (redirect_to path flags std) s (λ r s', r = Some (-4) ∨
    r = None ∧ ∃ f, fds s !! std = Some f ∧ s' = set_fds (<[std := redirected_end path flags f]> (fds s)) s).
Proof.
  intros Hstd Hlow. destruct (Hlow std) as [f Hf]; [lia|]. unfold redirect_to, redirected_end.
  destruct (nonempty path).
  2: { apply safely_ret. right. split; [done|]. exists f. split; [done|]. rewrite insert_id by done. by destruct s. }
  eapply safely_then; [apply (safely_open _ pipeline_event_ok)|]. intros r s1 [[-> ->]|[Hr ->]].
  { eapply safely_then; [apply (safely_print _ pipeline_event_ok)|]. intros _ s2 _. apply safely_ret. by left. }
  pose proof Hr as (Hr0 & Hfree & _). rewrite (proj2 (Z.eqb_neq r (-1))) by lia. rewrite wrap_small by lia.
  assert (r ≠ std) as Hne by congruence.
  assert (∀ j, 0 ≤ j < std → j ≠ r) as Hjr. { intros j Hj ->. destruct (Hlow r) as [x ?]; [lia|]. congruence. }
  cbv zeta. eapply safely_then; [apply (safely_close _ pipeline_event_ok)|]. intros _ s2 ->.
  eapply safely_then; [apply (safely_dup _ pipeline_event_ok); cbn; by rewrite lookup_delete_ne, lookup_insert_eq|]. intros new s3 [Hnew ->].
  cbn in *. apply (lowest_unique _ _ std) in Hnew as ->; [|done|by rewrite lookup_delete_eq|].
  2: { intros j Hj. rewrite lookup_delete_ne, lookup_insert_ne by (try apply not_eq_sym, Hjr; lia). apply Hlow. lia. }
  apply safely_user_assert; [lia|].
  eapply safely_then; [apply (safely_close _ pipeline_event_ok)|]. intros _ s5 ->. apply safely_ret. right. split; [done|]. exists f. split; [done|].
  unfold set_fds. cbn. f_equal. rewrite insert_delete_eq, delete_insert_ne by done. by rewrite delete_insert_id.
Qed.

(** ** The child *)

Lemma safely_each {A} (f : A → program ()) (g : A → ustate → ustate) xs s :
  (∀ x s, safely (f x) s (λ _ s', s' = g x s)) → safely (each f xs) s (λ _ s', s' = foldl (λ s x, g x s) s xs).
Proof.
  intros Hf. revert s. induction xs as [|x xs IH]; intros s; cbn [each foldl]; [by apply safely_ret|].
  eapply safely_then; [apply Hf|]. intros _ s' ->. apply IH.
Qed.
Lemma safely_close_pipes ps s : safely (close_pipes ps) s (λ _ s', s' = set_fds (without ps (fds s)) s).
Proof.
  eapply safely_mono.
  - apply (safely_each close_pipe (λ p s, set_fds (delete p.2 (delete p.1 (fds s))) s)). intros [r w] s'.
    eapply safely_then; [apply (safely_close _ pipeline_event_ok)|]. intros _ s1 ->.
    eapply safely_then; [apply (safely_close _ pipeline_event_ok)|]. intros _ s2 ->. by apply safely_ret.
  - intros _ s' ->. revert s. induction ps as [|[r w] ps IH]; intros s; [by destruct s|].
    exact (IH (set_fds (delete w (delete r (fds s))) s)).
Qed.

(** What [s0] and a state after it share; [ps] are the pipes of the pipeline. *)
Definition in_child (ps : list (Z * Z)) (i : nat) (a b : fobj) (s : ustate) : Prop :=
  ∃ T, piped (fds s0) (pipe_count s0) ps T ∧ fds s = ends a b T ∧ spawned s = (spawned s0 + i)%nat.

Lemma piped_end ps T j r w :
  piped (fds s0) (pipe_count s0) ps T → ps !! j = Some (r, w) → r ≠ 0 ∧ r ≠ 1 ∧ w ≠ 0 ∧ w ≠ 1.
Proof.
  intros [He _] Hj. destruct (He _ _ _ Hj) as (_ & _ & _ & _ & Hr & Hw).
  repeat split; intros ->; congruence.
Qed.
Lemma in_child_low ps i a b s j : in_child ps i a b s → 0 ≤ j ≤ 1 → is_Some (fds s !! j).
Proof.
  intros (T & _ & -> & _) Hj. unfold ends. destruct (decide (j = 0)) as [->|]; [by rewrite lookup_insert_eq|].
  replace j with 1 by lia. by rewrite lookup_insert_ne, lookup_insert_eq.
Qed.
Lemma in_child_0 ps i a b c s : in_child ps i a b s → in_child ps i c b (set_fds (<[0 := c]> (fds s)) s).
Proof. intros (T & HT & Hs & Hsp). exists T. cbn. by rewrite Hs, ends_0. Qed.
Lemma in_child_1 ps i a b c s : in_child ps i a b s → in_child ps i a c (set_fds (<[1 := c]> (fds s)) s).
Proof. intros (T & HT & Hs & Hsp). exists T. cbn. by rewrite Hs, ends_1. Qed.

Lemma safely_unless (t : program (option Z)) (rest : program Z) s P Q :
  safely t s P → (∀ c s', P (Some c) s' → Q c s') → (∀ s', P None s' → safely rest s' Q) → safely (unless t rest) s Q.
Proof.
  intros Ht Hc Hr. eapply safely_then; [exact Ht|]. intros [c|] s' H; [by apply safely_ret, Hc|by apply Hr].
Qed.
Lemma safely_connect_input ps i a b s :
  in_child ps i a b s → length ps = (n - 1)%nat → (i < n)%nat →
  safely (connect_input ps i) s (λ _, in_child ps i (if (0 <? i)%nat then PipeRead (pipe_count s0 + (i - 1)) else a) b).
Proof.
  intros Hs Hps Hi. unfold connect_input. destruct (Nat.ltb_spec 0 i) as [Hpos|]; [|by apply safely_ret].
  destruct (lookup_lt_is_Some_2 ps (i - 1)) as [[r w] Hj]; [lia|]. apply (safely_user_unwrap _ _ (r, w)); [done|].
  pose proof Hs as (T & HT & HsT & _). destruct (piped_end _ _ _ _ _ HT Hj) as (Hr0 & Hr1 & _).
  destruct (pi_ends _ _ _ _ HT _ _ _ Hj) as (_ & _ & Hr & _).
  eapply safely_mono; [apply (safely_replace r (PipeRead (pipe_count s0 + (i - 1))) 0)|]; [|done|done|lia|].
  - by rewrite HsT, lookup_ends.
  - intros _ s' ->. by eapply in_child_0.
Qed.
Lemma safely_connect_output ps i a b s :
  in_child ps i a b s → length ps = (n - 1)%nat →
  safely (connect_output ps n i) s (λ _, in_child ps i a (if (i <? n - 1)%nat then PipeWrite (pipe_count s0 + i) else b)).
Proof.
  intros Hs Hps. unfold connect_output. destruct (Nat.ltb_spec i (n - 1)) as [Hlt|]; [|by apply safely_ret].
  destruct (lookup_lt_is_Some_2 ps i) as [[r w] Hj]; [lia|]. apply (safely_user_unwrap _ _ (r, w)); [done|].
  pose proof Hs as (T & HT & HsT & _). destruct (piped_end _ _ _ _ _ HT Hj) as (_ & _ & Hw0 & Hw1).
  destruct (pi_ends _ _ _ _ HT _ _ _ Hj) as (_ & _ & _ & Hw & _).
  eapply safely_mono; [apply (safely_replace w (PipeWrite (pipe_count s0 + i)) 1)|]; [|done|done| |].
  - by rewrite HsT, lookup_ends.
  - intros j Hj1. eapply in_child_low; [done|lia].
  - intros _ s' ->. by eapply in_child_1.
Qed.
Lemma safely_child_exec i p s :
  l !! i = Some p → spawned s = (spawned s0 + i)%nat → fds s = ends (source i p) (sink i p) (fds s0) →
  safely (child_exec p) s (λ c _, c = -4).
Proof.
  intros Hp Hsp Hs. assert (args_copy p ≠ []) as Hargs by exact (Forall_lookup_1 _ _ _ _ Hl Hp).
  destruct (args_copy p !! 0%nat) as [path|] eqn:Hpath; [|by destruct (args_copy p)].
  unfold child_exec. apply (safely_user_unwrap _ _ path); [done|].
  eapply (safely_then _ _ _ _ (λ r _, r = -1)).
  - apply safely_bind, safely_syscall; [intros _; by exists i, p, path|]. intros a s' [-> _]. by apply safely_ret.
  - intros r s' ->. eapply safely_then; [apply (safely_print _ pipeline_event_ok)|]. intros _ s2 _. by apply safely_ret.
Qed.
Lemma safely_child_main ps i p s :
  l !! i = Some p → in_child ps i f0 f1 s → length ps = (n - 1)%nat → safely (child_main ps n i p) s (λ c _, c = -4).
Proof.
  intros Hp Hs Hps. assert (i < n)%nat as Hi by by eapply lookup_lt_Some.
  eapply safely_unless; [apply (safely_redirect _ _ 0)|..]; [done|intros j Hj; eapply in_child_low; [done|lia]| |].
  { intros c s' [[= ->]|[? _]]; done. }
  intros s1 [?|[_ (f & Hf & ->)]]; [done|].
  assert (f = f0) as ->.
  { destruct Hs as (T & _ & Hs & _). rewrite Hs, ends_at_0 in Hf. congruence. }
  apply (in_child_0 _ _ _ _ (redirected_end (input p) OpenFlags_RDONLY f0)) in Hs.
  eapply safely_unless; [apply (safely_redirect _ _ 1)|..]; [done|intros j Hj; eapply in_child_low; [done|lia]| |].
  { intros c s' [[= ->]|[? _]]; done. }
  intros s2 [?|[_ (f & Hf' & ->)]]; [done|].
  assert (f = f1) as ->.
  { destruct Hs as (T & _ & Hs & _). rewrite Hs, ends_at_1 in Hf'. congruence. }
  eapply (in_child_1 _ _ _ _ (redirected_end (output p) _ f1)) in Hs.
  eapply safely_then; [by eapply safely_connect_input|]. cbn beta. intros _ s3 Hs3.
  eapply safely_then; [by eapply safely_connect_output|]. cbn beta. intros _ s4 (T & HT & Hs4 & Hsp4).
  eapply safely_then; [apply safely_close_pipes|]. intros _ s5 ->.
  apply (safely_child_exec i); [done|done|]. cbn [fds set_fds]. rewrite Hs4.
  by eapply without_ends; [exact HT|eexists..].
Qed.

(** ** The shell *)

Lemma safely_new_pipe s :
  safely new_pipe s (λ p s', lowest (fds s) p.1 ∧ lowest (<[p.1 := PipeRead (pipe_count s)]> (fds s)) p.2 ∧
    s' = MkUstate (<[p.2 := PipeWrite (pipe_count s)]> (<[p.1 := PipeRead (pipe_count s)]> (fds s)))
           (S (pipe_count s)) (kids s) (spawned s)).
Proof.
  apply safely_bind, safely_syscall; [done|]. intros a s' (r & w & Hr & Hw & -> & ->). apply safely_ret. cbn.
  pose proof Hr as (Hr0 & _). pose proof Hw as (Hw0 & _).
  rewrite take_app_length', drop_app_length' by (by rewrite length_le_enc).
  by rewrite !le_dec_enc_small by (cbn; lia).
Qed.
Lemma safely_new_pipes k s :
  safely (new_pipes k) s (λ ps s', length ps = k ∧ piped (fds s) (pipe_count s) ps (fds s') ∧
    kids s' = kids s ∧ spawned s' = spawned s).
Proof.
  revert s. induction k as [|k IH]; intros s; cbn [new_pipes].
  { apply safely_ret. by split_and!; [|apply piped_nil|..]. }
  eapply safely_then; [apply safely_new_pipe|]. intros [r w] s1 (Hr & Hw & ->). cbn [fst snd] in *.
  eapply safely_then; [apply IH|]. cbn [fds pipe_count kids spawned]. intros ps s2 (Hps & HT & Hk & Hsp). apply safely_ret.
  split_and!; [cbn; by f_equal| |done|done]. by apply piped_cons.
Qed.

(** The children forked so far are [children], besides those of before. *)
Definition forked (children : list Z) (s : ustate) : Prop :=
  kids s = kids s0 ∪ list_to_set children ∧ NoDup children ∧
  (∀ c, c ∈ children → 0 < c < 2 ^ 63 ∧ (c ∉ kids s0)) ∧ spawned s = (spawned s0 + length children)%nat.
Lemma forked_snoc children pid s :
  forked children s → 0 < pid < 2 ^ 63 → (pid ∉ kids s) →
  forked (children ++ [pid]) (MkUstate (fds s) (pipe_count s) ({[pid]} ∪ kids s) (S (spawned s))).
Proof.
  intros (Hk & Hnd & Hc & Hsp) Hpid Hn. rewrite Hk in Hn. split_and!; cbn.
  - rewrite Hk, list_to_set_app_L. set_solver.
  - apply NoDup_app. split; [done|]. split; [set_solver|apply NoDup_singleton].
  - intros c [?|Hin]%elem_of_app; [by apply Hc|]. apply list_elem_of_singleton in Hin as ->. set_solver.
  - rewrite length_app, Hsp. cbn. lia.
Qed.
Lemma safely_fork_children ps T rest i children s :
  drop i l = rest → (i ≤ n)%nat → length children = i → length ps = (n - 1)%nat →
  piped (fds s0) (pipe_count s0) ps T → fds s = T → forked children s →
  safely (fork_children ps n i rest children) s (λ r s',
    match r with
    | inl code => code = -4
    | inr children => length children = n ∧ fds s' = T ∧ forked children s'
    end).
Proof.
  revert i children s. induction rest as [|p rest IH];
    intros i children s Hrest Hin Hi Hps HT Hs Hforked; cbn [fork_children].
  { apply safely_ret. split; [|done]. apply (f_equal length) in Hrest. rewrite length_drop in Hrest. cbn in Hrest. lia. }
  assert (l !! i = Some p) as Hp by (rewrite <-(Nat.add_0_r i), <-lookup_drop, Hrest; done).
  eapply safely_then; [apply (safely_fork _ pipeline_event_ok)|]. intros pid s1 [[-> ->]|(Hpid & Hn & ->)].
  - eapply safely_then; [apply (safely_child_main ps i p)|]; [done| |done|intros c s' ->; by apply safely_ret].
    exists T. destruct Hforked as (_ & _ & _ & Hsp). split; [done|]. cbn. rewrite Hs, Hsp, Hi. split; [|done].
    symmetry. by apply ends_id; eapply piped_std.
  - rewrite (proj2 (Z.eqb_neq pid 0)) by lia. apply IH; [|apply lookup_lt_Some in Hp; lia| |done|done|done|].
    + rewrite <-Nat.add_1_r, <-drop_drop, Hrest. done.
    + rewrite length_app, Hi. cbn. lia.
    + by apply forked_snoc.
Qed.
Lemma safely_wait_children children code s :
  NoDup children → (∀ c, c ∈ children → 0 < c < 2 ^ 63 ∧ c ∈ kids s) →
  safely (wait_children children code) s (λ _ s', s' = set_kids (kids s ∖ list_to_set children) s).
Proof.
  revert code s. induction children as [|c children IH]; intros code s Hnd Hc; cbn [wait_children].
  { apply safely_ret. cbn. rewrite difference_empty_L. by destruct s. }
  apply NoDup_cons in Hnd as [Hcn Hnd]. destruct (Hc c) as [Hpos Hin]; [by left|].
  eapply safely_then; [by apply (safely_waitpid _ pipeline_event_ok)|]. intros [r code'] s1 [Hr ->]. cbn in Hr. subst r.
  apply safely_user_assert; [lia|]. eapply safely_mono; [apply IH; [done|]|].
  - intros c' Hin'. destruct (Hc c') as [? ?]; [by right|]. split; [done|]. cbn. set_solver.
  - intros _ s' ->. unfold set_kids. cbn. f_equal. set_solver.
Qed.

(** The end of a pipeline: in the shell everything is as before, and a child that
    could not execute its command returns -4 from [main]. *)
Definition pipeline_end (r : option Z) (s : ustate) : Prop :=
  match r with
  | Some code => code = -4
  | None => fds s = fds s0 ∧ kids s = kids s0 ∧ spawned s = (spawned s0 + n)%nat
  end.
Lemma safely_run_pipeline : safely (run_pipeline l) s0 pipeline_end.
Proof.
  eapply safely_then; [apply safely_new_pipes|]. intros ps s1 (Hps & HT & Hk & Hsp).
  eapply safely_then; [apply (safely_fork_children ps (fds s1) l 0 []); try done; [lia|]|].
  { split_and!; [cbn; rewrite Hk; set_solver|constructor|set_solver|cbn; lia]. }
  intros [code|children] s2; [intros ->; by apply safely_ret|]. intros (Hn & Hfds & Hkids & Hnd & Hc & Hsp2).
  eapply safely_then; [apply safely_close_pipes|]. intros _ s3 ->.
  eapply safely_then; [apply safely_wait_children; [done|]|].
  - intros c Hin. split; [by apply Hc|]. cbn. rewrite Hkids. set_solver.
  - intros _ s4 ->. apply safely_ret. cbn. split_and!.
    + rewrite Hfds. by eapply without_std.
    + rewrite Hkids. apply set_eq. intros c. rewrite elem_of_difference, elem_of_union, elem_of_list_to_set.
      split; [naive_solver|]. intros Hin. split; [by left|]. intros Hcc. by apply (Hc c Hcc).
    + by rewrite Hsp2, Hn.
Qed.
End pipeline.

(** C20: Pipelines are wired right.  Take any list of commands that each have a
    name, and any table of open files with standard input and output.  Whatever
    the kernel answers to the shell and its children - which descriptors are free,
    pids, failures to open or to execute, how long it makes them wait - neither
    ever panics.  When command [i] is executed, it is with its own name and
    arguments; its input is the pipe from the command before or, for the first,
    the file of its redirection or the shell's input, its output the pipe to the
    command after or, for the last, its file or the shell's output; of the other
    descriptors exactly those of the shell are open, so that a reader sees the end
    of its pipe.  When the shell itself is done, its table is as before, and every
    child it forked has been waited for. *)
Theorem shell_pipeline_wiring l s0 f0 f1 t s :
  fds s0 !! 0 = Some f0 → fds s0 !! 1 = Some f1 → Forall (λ p, args_copy p ≠ []) l →
  run (observe (run_pipeline l)) s0 t s →
  match t with
  | RetF r => pipeline_end l s0 r s
  | TauF _ => True
  | VisF e _ => pipeline_event l s0 f0 f1 _ e s
  end.
Proof. intros H0 H1 Hl Hrun. eapply safely_run; [by apply safely_run_pipeline|exact Hrun]. Qed.

(** * Witness: the second command of [cat <in | wc] reaches [exec] *)

Definition ex_pipeline : list ProcessArguments :=
  default [] (mapM ProcessArguments_new (str_split 124 (text "cat <in | wc"))).
Definition ex_table : gmap Z fobj := {[0 := Inherited 0; 1 := Inherited 1; 2 := Inherited 2]}.
Definition ex_state : ustate := MkUstate ex_table 0 ∅ 0.

Lemma lowest_check (f : gmap Z fobj) n :
  forallb (λ m, bool_decide (is_Some (f !! m))) (seqZ 0 n) && bool_decide (0 ≤ n < 2 ^ 63 ∧ f !! n = None) = true → lowest f n.
Proof.
  intros [Hall Hn]%andb_true_iff. apply bool_decide_eq_true in Hn as [Hn Hf]. split_and!; [lia|lia|done|].
  intros m Hm. rewrite forallb_forall in Hall. apply (bool_decide_eq_true (is_Some (f !! m))), Hall.
  apply list_elem_of_In, elem_of_seqZ. lia.
Qed.
(** A call of the run that answers [a]. *)
Ltac take_call a :=
  lazymatch goal with |- run ?t _ _ _ => let t' := eval hnf in t in change t with t' end;
  eapply (run_ecall _ _ _ a).
Lemma ex_run : ∃ args k s,
  run (observe (run_pipeline ex_pipeline)) ex_state (VisF (Ecall SYSCALL_EXEC args) k) s ∧ spawned s = 1%nat.
Proof.
  eexists _, _, _. split.
  - take_call (0, le_enc 8 3 ++ le_enc 8 4).
    { exists 3, 4. split; [by apply lowest_check; vm_compute|]. split; [by apply lowest_check; vm_compute|]. by split. }
    take_call (7, ([] : list Z)). { right. split; [done|]. split; [done|]. split; [apply not_elem_of_empty|reflexivity]. }
    take_call (0, ([] : list Z)). { by left. }
    take_call (0, ([] : list Z)). { by split. }
    take_call (0, ([] : list Z)). { split; [by apply lowest_check; vm_compute|]. by split. }
    do 2 (take_call (0, ([] : list Z)); [by split|]).
    lazymatch goal with |- run ?t _ _ _ => let t' := eval hnf in t in change t with t' end. apply run_here.
  - reflexivity.
Qed.

Lemma shell_pipeline_wiring_witness :
  ∃ args k s, run (observe (run_pipeline ex_pipeline)) ex_state (VisF (Ecall SYSCALL_EXEC args) k) s ∧
    pipeline_event ex_pipeline ex_state (Inherited 0) (Inherited 1) _ (Ecall SYSCALL_EXEC args) s ∧
    fds s = {[0 := PipeRead 0; 1 := Inherited 1; 2 := Inherited 2]}.
Proof.
  destruct ex_run as (args & k & s & Hrun & Hs). exists args, k, s. split; [exact Hrun|].
  assert (pipeline_event ex_pipeline ex_state (Inherited 0) (Inherited 1) _ (Ecall SYSCALL_EXEC args) s) as He.
  { refine (shell_pipeline_wiring ex_pipeline ex_state (Inherited 0) (Inherited 1) _ s _ _ _ Hrun);
      [reflexivity|reflexivity|by repeat constructor]. }
  split; [exact He|]. destruct (He eq_refl) as (i & p & path & Hp & Hsp & _ & _ & Hf). rewrite Hs in Hsp.
  cbn in Hsp. subst i. injection Hp as <-. exact Hf.
Defined.
