(* ===== verification/FdSpec.v ===== *)
(** The descriptor table of a task (os/src/task/task.rs, os/src/syscall/fs.rs) as a
    map of descriptors, and [close] and [dup] on it. *)

From S2P Require Export UserRun Syscall.

(** * The table of a task as a program sees it *)

Section view.
(** What the open files are. *)
Context {A : Type}.
Implicit Types desc : nat → A.
Implicit Types l : list (option nat).

Definition fd_view desc l : gmap Z A := omap (λ o, desc <$> o) (map_seqZ 0 l : gmap Z (option nat)).

Lemma lookup_fd_view desc l fd :
  fd_view desc l !! fd = if decide (0 ≤ fd) then l !! Z.to_nat fd ≫= λ o, desc <$> o else None.
Proof.
  unfold fd_view. rewrite lookup_omap, lookup_map_seqZ. case_decide; unfold guard; case_decide; try done.
  by rewrite Z.sub_0_r.
Qed.
Lemma fd_view_at desc l i : fd_view desc l !! Z.of_nat i = l !! i ≫= λ o, desc <$> o.
Proof. rewrite lookup_fd_view, decide_True by lia. by rewrite Nat2Z.id. Qed.
Lemma fd_view_ext desc l T :
  (∀ fd, fd < 0 → T !! fd = None) → (∀ i, T !! Z.of_nat i = l !! i ≫= λ o, desc <$> o) → fd_view desc l = T.
Proof.
  intros Hneg Hpos. apply map_eq. intros fd. rewrite lookup_fd_view. case_decide as Hfd.
  - rewrite <-Hpos. by rewrite Z2Nat.id.
  - symmetry. apply Hneg. lia.
Qed.
Lemma fd_view_neg desc l fd : fd < 0 → fd_view desc l !! fd = None.
Proof. intros. rewrite lookup_fd_view, decide_False by lia. done. Qed.
Lemma fd_view_delete desc l i : fd_view desc (<[i := None]> l) = delete (Z.of_nat i) (fd_view desc l).
Proof.
  apply fd_view_ext; [intros fd Hfd; by rewrite lookup_delete_ne, fd_view_neg by lia|].
  intros j. destruct (decide (i = j)) as [->|Hne].
  - rewrite lookup_delete_eq. destruct (decide (j < length l)%nat).
    + by rewrite list_lookup_insert_eq.
    + rewrite list_insert_ge, lookup_ge_None_2 by lia. done.
  - rewrite lookup_delete_ne by lia. rewrite list_lookup_insert_ne by done. apply fd_view_at.
Qed.
Lemma fd_view_insert desc l i f :
  (i < length l)%nat → fd_view desc (<[i := Some f]> l) = <[Z.of_nat i := desc f]> (fd_view desc l).
Proof.
  intros Hi. apply fd_view_ext; [intros fd Hfd; by rewrite lookup_insert_ne, fd_view_neg by lia|].
  intros j. destruct (decide (i = j)) as [->|Hne].
  - by rewrite lookup_insert_eq, list_lookup_insert_eq.
  - rewrite lookup_insert_ne by lia. rewrite list_lookup_insert_ne by done. apply fd_view_at.
Qed.
Lemma fd_view_snoc desc l f : fd_view desc (l ++ [Some f]) = <[Z.of_nat (length l) := desc f]> (fd_view desc l).
Proof.
  apply fd_view_ext; [intros fd Hfd; by rewrite lookup_insert_ne, fd_view_neg by lia|].
  intros j. destruct (decide (length l = j)) as [<-|Hne].
  - rewrite lookup_insert_eq, lookup_app_r, Nat.sub_diag by done. done.
  - rewrite lookup_insert_ne by lia. destruct (decide (j < length l)%nat).
    + rewrite lookup_app_l by done. apply fd_view_at.
    + rewrite fd_view_at, (lookup_ge_None_2 l), lookup_ge_None_2; [done|rewrite length_app; cbn; lia|lia].
Qed.
(** Descriptions of files that the table does not hold do not matter. *)
Lemma fd_view_desc desc desc' l : (∀ f, Some f ∈ l → desc' f = desc f) → fd_view desc' l = fd_view desc l.
Proof.
  intros Hd. apply fd_view_ext; [apply fd_view_neg|]. intros i. rewrite fd_view_at.
  destruct (l !! i) as [[f|]|] eqn:E; cbn; [|done|done]. f_equal. symmetry. apply Hd. by eapply list_elem_of_lookup_2.
Qed.
End view.

(** * The operations *)

Section fds.
Context {St : Type} `{!BlockStore St} `{!Platform}.
Implicit Types k : Kernel St.

(** The task [t] with the table [l]. *)
Definition with_fds (t : nat) (tcb : TaskControlBlock) (l : list (option nat)) k : Kernel St :=
  set_tasks (<[t := set_fd_table l tcb]> (tasks k)) k.

Lemma install_fd_run k t tcb f :
  tasks k !! t = Some tcb → Z.of_nat (length (fd_table tcb)) < 2 ^ 63 →
  ∃ i l, install_fd t f k = Ok (Z.of_nat i, with_fds t tcb l k) ∧
    (∀ A (desc : nat → A), lowest (fd_view desc (fd_table tcb)) (Z.of_nat i) ∧
       fd_view desc l = <[Z.of_nat i := desc f]> (fd_view desc (fd_table tcb))) ∧
    (length l ≤ S (length (fd_table tcb)))%nat ∧ (∀ o, o ∈ l → o = Some f ∨ o ∈ fd_table tcb).
Proof.
  intros Ht Hlen. unfold install_fd. setoid_rewrite bind_Ok; [|by apply get_task_run].
  unfold TaskControlBlockInner_alloc_fd. destruct (find_index _ (fd_table tcb)) as [[i o]|] eqn:E.
  - apply find_index_Some in E as (Hi & Ho & Hlow). apply bool_decide_eq_true in Ho as ->.
    apply lookup_lt_Some in Hi as Hlt. exists i, (<[i := Some f]> (fd_table tcb)). split_and!.
    + unfold set_index. rewrite (proj2 (Z.leb_le _ _)), (proj2 (Z.ltb_lt _ _)) by lia. cbn [andb].
      erewrite bind_Ok by reflexivity. rewrite Nat2Z.id. reflexivity.
    + intros A desc. split; [|by apply fd_view_insert]. split; [lia|]. split; [by rewrite fd_view_at, Hi|].
      intros m Hm. rewrite <-(Z2Nat.id m), fd_view_at by lia.
      destruct (lookup_lt_is_Some_2 (fd_table tcb) (Z.to_nat m)) as [[g|] Hg]; [lia|rewrite Hg; by eexists|].
      specialize (Hlow (Z.to_nat m) None ltac:(lia) Hg). by rewrite bool_decide_eq_true_2 in Hlow.
    + rewrite length_insert. lia.
    + intros o (j & Hj)%list_elem_of_lookup. apply list_lookup_insert_Some in Hj as [(_ & -> & _)|[_ Hj]]; [by left|right].
      by eapply list_elem_of_lookup_2.
  - exists (length (fd_table tcb)), (fd_table tcb ++ [Some f]). split_and!.
    + rewrite length_app. cbn [length]. rewrite (wrap_small 64) by lia.
      replace (Z.of_nat (length (fd_table tcb) + 1) - 1) with (Z.of_nat (length (fd_table tcb))) by lia.
      unfold set_index. cbn [fd_table set_fd_table].
      rewrite length_app, (proj2 (Z.leb_le _ _)), (proj2 (Z.ltb_lt _ _)) by (cbn; lia). cbn [andb].
      erewrite bind_Ok by reflexivity. rewrite Nat2Z.id.
      rewrite insert_app_r_alt, Nat.sub_diag by lia. reflexivity.
    + intros A desc. split; [|apply fd_view_snoc]. split; [lia|]. split; [by rewrite fd_view_at, lookup_ge_None_2 by lia|].
      intros m Hm. rewrite <-(Z2Nat.id m), fd_view_at by lia.
      destruct (lookup_lt_is_Some_2 (fd_table tcb) (Z.to_nat m)) as [[g|] Hg]; [lia|rewrite Hg; by eexists|].
      exfalso. rewrite find_index_None in E. specialize (E None). rewrite bool_decide_eq_true_2 in E by done.
      discriminate E. by eapply list_elem_of_lookup_2.
    + rewrite length_app. cbn. lia.
    + intros o [?|Ho]%elem_of_app; [by right|left]. by apply list_elem_of_singleton in Ho.
Qed.

Lemma current_fds_run k t tcb :
  processor k = Some t → tasks k !! t = Some tcb → current_fds k = Ok ((t, fd_table tcb), k).
Proof.
  intros Hp Ht. unfold current_fds, current, current_task. erewrite bind_Ok.
  2: { erewrite bind_Ok by reflexivity. by rewrite Hp. }
  by erewrite bind_Ok by (by apply get_task_run).
Qed.

(** The table is seen as [T]. *)
Context (k : Kernel St) (t : nat) (tcb : TaskControlBlock) (desc : nat → fobj) (s : ustate).
Context (Hp : processor k = Some t) (Ht : tasks k !! t = Some tcb) (Hlen : Z.of_nat (length (fd_table tcb)) < 2 ^ 63).
Context (Hs : fds s = fd_view desc (fd_table tcb)).

Lemma index_fd fd : 0 ≤ fd < Z.of_nat (length (fd_table tcb)) →
  ∃ o, fd_table tcb !! Z.to_nat fd = Some o ∧ fds s !! fd = desc <$> o ∧ index (fd_table tcb) fd k = Ok (o, k).
Proof.
  intros Hfd. destruct (lookup_lt_is_Some_2 (fd_table tcb) (Z.to_nat fd)) as [o Ho]; [lia|]. exists o. split; [done|].
  split; [by rewrite Hs, lookup_fd_view, decide_True, Ho by lia|].
  unfold index. rewrite (proj2 (Z.leb_le _ _)), (proj2 (Z.ltb_lt _ _)) by lia. cbn [andb]. by rewrite Ho.
Qed.
Lemma fd_out_of_range fd : Z.of_nat (length (fd_table tcb)) ≤ fd → fds s !! fd = None.
Proof. intros Hfd. rewrite Hs, lookup_fd_view, decide_True, lookup_ge_None_2 by lia. done. Qed.

Lemma with_fds_id : with_fds t tcb (fd_table tcb) k = k.
Proof.
  unfold with_fds. replace (set_fd_table (fd_table tcb) tcb) with tcb by (by destruct tcb).
  rewrite insert_id by done. by destruct k.
Qed.
Lemma set_fds_id : set_fds (fd_view desc (fd_table tcb)) s = s.
Proof. rewrite <-Hs. by destruct s. Qed.

Lemma close_run fd : 0 ≤ fd →
  ∃ r l, sys_close fd k = Ok (r, with_fds t tcb l k) ∧
    ecall SYSCALL_CLOSE [Word fd; Word 0; Word 0] (r, []) s (set_fds (fd_view desc l) s).
Proof.
  intros Hfd. unfold sys_close.
  destruct (Z.leb_spec (Z.of_nat (length (fd_table tcb))) fd) as [Hge|Hlt].
  { exists (-1), (fd_table tcb). rewrite with_fds_id, set_fds_id. erewrite bind_Ok by (by apply current_fds_run). cbn beta iota.
    rewrite (proj2 (Z.leb_le _ _)) by done. split; [done|]. apply fd_out_of_range in Hge. cbn. rewrite Hge, decide_False by (by intros []).
    split; [done|]. rewrite delete_id by done. by destruct s. }
  destruct (index_fd fd) as ([f|] & Hi & Hv & Hrun); [lia| |].
  - exists 0, (<[Z.to_nat fd := None]> (fd_table tcb)). erewrite bind_Ok by (by apply current_fds_run). cbn beta iota.
    rewrite (proj2 (Z.leb_gt _ _)) by done. erewrite bind_Ok by exact Hrun. cbn beta iota.
    unfold set_index. rewrite (proj2 (Z.leb_le _ _)), (proj2 (Z.ltb_lt _ _)) by lia. cbn [andb].
    erewrite bind_Ok by reflexivity. unfold update_task. erewrite bind_Ok.
    2: { erewrite bind_Ok by (by apply get_task_run). reflexivity. }
    split; [reflexivity|]. cbn. rewrite Hv, decide_True by (by eexists). split; [done|].
    rewrite fd_view_delete, <-Hs, Z2Nat.id by done. done.
  - exists (-1), (fd_table tcb). rewrite with_fds_id, set_fds_id. erewrite bind_Ok by (by apply current_fds_run). cbn beta iota.
    rewrite (proj2 (Z.leb_gt _ _)) by done. erewrite bind_Ok by exact Hrun. split; [done|]. cbn. cbn in Hv.
    rewrite Hv, decide_False by (by intros []). split; [done|]. rewrite delete_id by done. by destruct s.
Qed.
Lemma dup_run fd : 0 ≤ fd →
  ∃ r l, sys_dup fd k = Ok (r, with_fds t tcb l k) ∧
    ecall SYSCALL_DUP [Word fd; Word 0; Word 0] (r, []) s (set_fds (fd_view desc l) s).
Proof.
  intros Hfd. unfold sys_dup.
  destruct (Z.leb_spec (Z.of_nat (length (fd_table tcb))) fd) as [Hge|Hlt].
  { exists (-1), (fd_table tcb). rewrite with_fds_id, set_fds_id. erewrite bind_Ok by (by apply current_fds_run). cbn beta iota.
    rewrite (proj2 (Z.leb_le _ _)) by done. split; [done|]. apply fd_out_of_range in Hge. cbn. by rewrite Hge. }
  destruct (index_fd fd) as ([f|] & Hi & Hv & Hrun); [lia| |].
  - destruct (install_fd_run k t tcb f Ht Hlen) as (i & l & Hinst & Hview & _). destruct (Hview _ desc) as [Hlow Hl].
    exists (Z.of_nat i), l. erewrite bind_Ok by (by apply current_fds_run). cbn beta iota.
    rewrite (proj2 (Z.leb_gt _ _)) by done. erewrite bind_Ok by exact Hrun. cbn beta iota.
    erewrite bind_Ok by exact Hinst. pose proof Hlow as (Hi' & _). split.
    + unfold signed. rewrite wrap_small, (proj2 (Z.ltb_lt _ _)) by lia. done.
    + cbn. rewrite Hv. cbn. rewrite Hs, Hl. by split.
  - exists (-1), (fd_table tcb). rewrite with_fds_id, set_fds_id. erewrite bind_Ok by (by apply current_fds_run). cbn beta iota.
    rewrite (proj2 (Z.leb_gt _ _)) by done. erewrite bind_Ok by exact Hrun. split; [done|]. cbn. cbn in Hv. by rewrite Hv.
Qed.

(** ** New files *)

(** A file the table does not hold yet gets the description [d]. *)
Definition describe (f : nat) (d : fobj) (ds : nat → fobj) : nat → fobj := λ g, if decide (g = f) then d else ds g.
Lemma describe_eq f d ds : describe f d ds f = d.
Proof. unfold describe. by rewrite decide_True. Qed.
Lemma describe_ne f g d ds : f ≠ g → describe f d ds g = ds g.
Proof. intros. unfold describe. by rewrite decide_False. Qed.
End fds.
