(* ===== verification/UserFiles.v ===== *)
(** Programs that read files and print: a server that answers their calls as the
    kernel does, the evaluation of a program on it, and what [cat] and
    [count_lines] (user/src/bin/) print. *)

From ITree Require Import ITree.
From S2P Require Export VfsSpec UserPrograms UserRun.

(** * The server *)

(** An open file; a regular file by its inode number. *)
Inductive vfile : Type :=
| VStdin
| VStdout
| VFile (readable writable : bool) (off : nat) (ino : Z).

Record server : Type := MkServer {
  sv_fds : gmap Z nat;           (** descriptors, as numbers of open files *)
  sv_open : gmap nat vfile;
  sv_next : nat;                 (** the number of the next file opened *)
  sv_dir : list (list Z * Z);    (** the directory, in its order *)
  sv_data : gmap Z (list Z);     (** the contents of the files it has *)
  sv_out : list Z }.             (** what has been printed *)

Definition sv_set_open (o : gmap nat vfile) (v : server) : server :=
  MkServer (sv_fds v) o (sv_next v) (sv_dir v) (sv_data v) (sv_out v).
Definition sv_set_fds (t : gmap Z nat) (v : server) : server :=
  MkServer t (sv_open v) (sv_next v) (sv_dir v) (sv_data v) (sv_out v).
Definition sv_print (s : list Z) (v : server) : server :=
  MkServer (sv_fds v) (sv_open v) (sv_next v) (sv_dir v) (sv_data v) (sv_out v ++ s).

(** The string in front of the terminator. *)
Fixpoint cstring (l : list Z) : option (list Z) :=
  match l with
  | [] => None
  | c :: l => if c =? 0 then Some [] else cons c <$> cstring l
  end.
(** The lowest descriptor that is free. *)
Definition first_free (t : gmap Z nat) : Z :=
  default 0 (snd <$> find_index (λ n, bool_decide (t !! n = None)) (seqZ 0 (Z.of_nat (size t) + 1))).

Definition file_of (fd : Z) (v : server) : option (nat * vfile) := f ← sv_fds v !! fd; o ← sv_open v !! f; Some (f, o).

(** The answers; [None] is a call the server does not know. *)
Definition serve_read (fd : Z) (l : list Z) (v : server) : option (Z * list Z * server) :=
  match sv_fds v !! fd with
  | None => Some (-1, l, v)
  | Some f =>
      match sv_open v !! f with
      | Some (VFile true w off i) =>
          c ← sv_data v !! i;
          let n := Nat.min (length l) (length c - off) in
          Some (Z.of_nat n, sub_list off n c ++ drop n l, sv_set_open (<[f := VFile true w (off + n) i]> (sv_open v)) v)
      | Some (VFile false _ _ _) | Some VStdout => Some (-1, l, v)
      | Some VStdin | None => None
      end
  end.
Definition serve_write (fd : Z) (l : list Z) (v : server) : option (Z * list Z * server) :=
  match sv_fds v !! fd with
  | None => Some (-1, [], v)
  | Some f =>
      match sv_open v !! f with
      | Some VStdout => if ascii l then Some (Z.of_nat (length l), [], sv_print l v) else None
      | Some VStdin | Some (VFile _ false _ _) => Some (-1, [], v)
      | Some (VFile _ true _ _) | None => None
      end
  end.
Definition serve_open (path : list Z) (flags : Z) (v : server) : option (Z * list Z * server) :=
  name ← cstring path;
  if flags =? OpenFlags_RDONLY then
    match dir_lookup (str_bytes name) (sv_dir v) with
    | None => Some (-1, [], v)
    | Some i =>
        _ ← sv_data v !! i;
        let fd := first_free (sv_fds v) in
        Some (fd, [], MkServer (<[fd := sv_next v]> (sv_fds v)) (<[sv_next v := VFile true false 0 i]> (sv_open v))
          (S (sv_next v)) (sv_dir v) (sv_data v) (sv_out v))
    end
  else None.
Definition serve_close (fd : Z) (v : server) : option (Z * list Z * server) :=
  match sv_fds v !! fd with
  | None => Some (-1, [], v)
  | Some _ => Some (0, [], sv_set_fds (delete fd (sv_fds v)) v)
  end.

(** A word is passed in a register. *)
Definition serve (id : Z) (args : list arg) (v : server) : option (Z * list Z * server) :=
  match args with
  | [Word fd; Buffer l; Word n] =>
      if (id =? SYSCALL_READ) && (n =? Z.of_nat (length l)) then serve_read (wrap 64 fd) l v else None
  | [Word fd; Bytes l; Word n] =>
      if (id =? SYSCALL_WRITE) && (n =? Z.of_nat (length l)) then serve_write (wrap 64 fd) l v else None
  | [Bytes path; Word flags; Word _] => if id =? SYSCALL_OPEN then serve_open path flags v else None
  | [Word fd; Word _; Word _] => if id =? SYSCALL_CLOSE then serve_close (wrap 64 fd) v else None
  | _ => None
  end.

Lemma first_free_spec t : 0 ≤ first_free t ≤ Z.of_nat (size t) ∧ t !! first_free t = None ∧ ∀ n, 0 ≤ n < first_free t → is_Some (t !! n).
Proof.
  unfold first_free. destruct (find_index _ _) as [[k n]|] eqn:E.
  - apply find_index_Some in E as (Hk & Hn & Hlow). apply lookup_seqZ in Hk as [-> Hk].
    apply bool_decide_eq_true in Hn. change (default 0 _) with (0 + Z.of_nat k). split; [lia|]. split; [exact Hn|].
    intros m Hm. specialize (Hlow (Z.to_nat m) m ltac:(lia)).
    rewrite lookup_seqZ in Hlow. specialize (Hlow ltac:(lia)).
    apply bool_decide_eq_false in Hlow. destruct (t !! m); [by eexists|done].
  - exfalso. rewrite find_index_None in E.
    assert (list_to_set (seqZ 0 (Z.of_nat (size t) + 1)) ⊆ dom t) as Hsub.
    { intros n Hn%elem_of_list_to_set. apply elem_of_dom. specialize (E n Hn). apply bool_decide_eq_false in E.
      destruct (t !! n); [by eexists|done]. }
    apply subseteq_size in Hsub. rewrite size_list_to_set in Hsub by apply NoDup_seqZ.
    rewrite length_seqZ, size_dom in Hsub. lia.
Qed.
Lemma cstring_app name : Forall (λ c, c ≠ 0) name → cstring (name ++ [0]) = Some name.
Proof.
  induction 1 as [|c name Hc _ IH]; [done|]. cbn [cstring app]. rewrite (proj2 (Z.eqb_neq _ _)) by done. by rewrite IH.
Qed.

(** * Evaluation *)

(** What a call passes fits into [room] bytes of memory. *)
Definition arg_fits (room : nat) (a : arg) : bool :=
  match a with
  | Word _ => true
  | Bytes l | Buffer l => (length l <=? room)%nat && forallb (λ b, (0 <=? b) && (b <? 256)) l
  | Strings _ => false
  end.

Section evaluation.
Context (room : nat).

(** [eval n t v]: the result of [t] and the server it leaves, when [t] ends in
    fewer than [n] steps and neither panics nor makes a call that is unknown to the
    server or does not fit. *)
Fixpoint eval {R} (n : nat) (t : itree' sysE R) (v : server) : option (R * server) :=
  match n with
  | O => None
  | S n =>
      match t with
      | RetF r => Some (r, v)
      | TauF t => eval n (observe t) v
      | VisF e k =>
          match e in sysE A return (A → itree sysE R) → option (R * server) with
          | Ecall id args => λ k, if forallb (arg_fits room) args then '(a, l, v) ← serve id args v; eval n (observe (k (a, l))) v else None
          | _ => λ _, None
          end k
      end
  end.
Definition evaluates {R} (t : program R) (v : server) (r : R) (v' : server) : Prop := ∃ n, eval n (observe t) v = Some (r, v').

Lemma eval_more {R} n m (t : itree' sysE R) v x : eval n t v = Some x → (n ≤ m)%nat → eval m t v = Some x.
Proof.
  revert m t v. induction n as [|n IH]; intros m t v H Hm; [done|]. destruct m as [|m]; [lia|].
  destruct t as [r|t|A e k]; cbn in *; [done|apply IH; [done|lia]|]. destruct e; try done.
  destruct (forallb _ args); [|done]. destruct (serve id args v) as [[[a l] v']|]; [|done]. cbn in *. apply IH; [done|lia].
Qed.
Lemma evaluates_fun {R} (t : program R) v r1 v1 r2 v2 : evaluates t v r1 v1 → evaluates t v r2 v2 → r1 = r2 ∧ v1 = v2.
Proof.
  intros [n Hn] [m Hm]. apply (eval_more _ (n `max` m)) in Hn; [|lia]. apply (eval_more _ (n `max` m)) in Hm; [|lia].
  rewrite Hn in Hm. by injection Hm as -> ->.
Qed.

Lemma evaluates_ret {R} (r : R) v : evaluates (mret r) v r v.
Proof. by exists 1%nat. Qed.
Lemma eval_bind {A R} n (t : program A) (k : A → program R) v a v1 x m :
  eval n (observe t) v = Some (a, v1) → eval m (observe (k a)) v1 = Some x → eval (n + m) (observe (ITree.bind t k)) v = Some x.
Proof.
  revert t v. induction n as [|n IH]; intros t v Ht Hk; [done|]. rewrite observe_bind.
  destruct (observe t) as [a'|t'|B e h]; cbn [eval] in Ht.
  - injection Ht as -> ->. eapply eval_more; [exact Hk|lia].
  - cbn [Nat.add eval]. by apply IH.
  - cbn [Nat.add eval]. destruct e; try done. destruct (forallb _ args); [|done]. destruct (serve id args v) as [[[b l] v']|]; [|done]. cbn in *. by apply IH.
Qed.
Lemma evaluates_bind {A R} (t : program A) (k : A → program R) v a v1 r v' :
  evaluates t v a v1 → evaluates (k a) v1 r v' → evaluates (t ≫= k) v r v'.
Proof. intros [n Hn] [m Hm]. exists (n + m)%nat. by eapply eval_bind. Qed.
Lemma evaluates_syscall id args v a l v' :
  Forall (λ a, arg_fits room a = true) args → serve id args v = Some (a, l, v') → evaluates (syscall id args) v (a, l) v'.
Proof.
  intros Hf H. exists 2%nat. cbn. rewrite H, (proj2 (forallb_forall _ _)); [done|]. intros x Hx%list_elem_of_In.
  rewrite Forall_forall in Hf. by apply Hf.
Qed.
Lemma evaluates_syscall_ret id args v a l v' :
  Forall (λ a, arg_fits room a = true) args → serve id args v = Some (a, l, v') → evaluates (syscall_ret id args) v a v'.
Proof. intros Hf H. eapply evaluates_bind; [by apply evaluates_syscall|apply evaluates_ret]. Qed.
Lemma fits_bytes l : (length l ≤ room)%nat → Forall is_byte l → arg_fits room (Bytes l) = true ∧ arg_fits room (Buffer l) = true.
Proof.
  intros Hl Hb. cbn. rewrite (proj2 (Nat.leb_le _ _)) by done. cbn [andb]. assert (forallb (λ b, (0 <=? b) && (b <? 256)) l = true); [|done].
  apply forallb_forall. intros b Hin%list_elem_of_In. rewrite Forall_forall in Hb. apply Hb in Hin. unfold is_byte in Hin. lia.
Qed.
Lemma ascii_bytes l : ascii l = true → Forall is_byte l.
Proof.
  intros Hl. apply Forall_forall. intros b Hb. unfold ascii in Hl. rewrite forallb_forall in Hl. apply list_elem_of_In, Hl in Hb.
  unfold is_byte. lia.
Qed.
Lemma evaluates_iter {I R} (body : I → program (I + R)) i v x v1 r v' :
  evaluates (body i) v x v1 → match x with inl j => evaluates (ITree.iter body j) v1 r v' | inr b => b = r ∧ v1 = v' end →
  evaluates (ITree.iter body i) v r v'.
Proof.
  intros [n Hn] Hx. assert (∃ m, eval m (observe (match x with inl l => Tau (ITree.iter body l) | inr r => Ret r end)) v1 = Some (r, v')) as [m Hm].
  { destruct x as [j|b]; [destruct Hx as [m Hm]; by exists (S m)|]. destruct Hx as [-> ->]. by exists 1%nat. }
  exists (n + m)%nat. change (observe (ITree.iter body i)) with (observe (ITree.bind (body i) (λ lr,
    match lr with inl l => Tau (ITree.iter body l) | inr r => Ret r end))). by eapply eval_bind.
Qed.
Lemma evaluates_assert b v : b = true → evaluates (user_assert b) v () v.
Proof. intros ->. apply evaluates_ret. Qed.
Lemma evaluates_unwrap {A} (o : option A) a v : o = Some a → evaluates (user_unwrap o) v a v.
Proof. intros ->. apply evaluates_ret. Qed.

(** * Printing *)

Lemma sv_print_app s1 s2 v : sv_print s2 (sv_print s1 v) = sv_print (s1 ++ s2) v.
Proof. unfold sv_print. cbn. by rewrite app_assoc. Qed.
Lemma sv_print_nil v : sv_print [] v = v.
Proof. unfold sv_print. rewrite app_nil_r. by destruct v. Qed.

(** Standard output is the console. *)
Definition prints (v : server) : Prop := ∃ f, sv_fds v !! STDOUT = Some f ∧ sv_open v !! f = Some VStdout.
Lemma prints_print s v : prints v → prints (sv_print s v).
Proof. done. Qed.

Context (Hroom : (2560 ≤ room)%nat).

Lemma evaluates_write_stdout s v : prints v → ascii s = true → (length s ≤ 2560)%nat → evaluates (write STDOUT s) v (Z.of_nat (length s)) (sv_print s v).
Proof.
  intros (f & Hf & Ho) Hs Hlen. eapply evaluates_syscall_ret.
  { repeat constructor. apply fits_bytes; [lia|by apply ascii_bytes]. }
  unfold serve. rewrite !Z.eqb_refl. cbn [andb].
  unfold serve_write. change (wrap 64 STDOUT) with STDOUT. by rewrite Hf, Ho, Hs.
Qed.
Lemma evaluates_console_flush buf v : prints v → ascii buf = true → (length buf ≤ 2560)%nat → evaluates (ConsoleBuffer_flush buf) v (Z.of_nat (length buf), []) (sv_print buf v).
Proof. intros Hv Hb Hl. eapply evaluates_bind; [by apply evaluates_write_stdout|]. apply evaluates_ret. Qed.
(** What is not written yet is in the buffer. *)
Lemma evaluates_write_str s buf v : prints v → ascii buf = true → ascii s = true → (length buf < 2560)%nat →
  ∃ w buf', evaluates (ConsoleBuffer_write_str s buf) v (true, buf') (sv_print w v) ∧ w ++ buf' = buf ++ s ∧ (length buf' < 2560)%nat.
Proof.
  revert buf v. induction s as [|c s IH]; intros buf v Hv Hb Hs Hlen.
  { exists [], buf. rewrite sv_print_nil. split; [apply evaluates_ret|by rewrite app_nil_r]. }
  change (ascii (c :: s)) with (ascii ([c] ++ s)) in Hs. rewrite ascii_app in Hs. apply andb_true_iff in Hs as [Hc Hs].
  assert (ascii (buf ++ [c]) = true) as Hbc by (rewrite ascii_app, Hb; exact Hc).
  assert (length (buf ++ [c]) = S (length buf)) as Hl1 by (rewrite length_app; cbn; lia).
  cbn [ConsoleBuffer_write_str]. cbv zeta. destruct ((c =? 10) || _) eqn:Hflush.
  - destruct (IH [] (sv_print (buf ++ [c]) v) (prints_print _ _ Hv) eq_refl Hs ltac:(cbn; lia)) as (w & buf' & Hr & Hw & Hl').
    exists ((buf ++ [c]) ++ w), buf'. split_and!; [|rewrite <-app_assoc, Hw; by rewrite <-app_assoc|done].
    + eapply evaluates_bind; [apply evaluates_console_flush; [done|done|lia]|]. cbv beta iota. rewrite (proj2 (Z.eqb_neq _ (-1))) by lia.
      by rewrite sv_print_app in Hr.
  - apply orb_false_iff in Hflush as [_ Hsz]. apply Z.eqb_neq in Hsz. change CONSOLE_BUFFER_SIZE with 2560 in Hsz.
    destruct (IH (buf ++ [c]) v Hv Hbc Hs ltac:(lia)) as (w & buf' & Hr & Hw & Hl'). exists w, buf'. split_and!; [done| |done].
    rewrite Hw. by rewrite <-app_assoc.
Qed.
Lemma evaluates_write_fmt pieces buf v : prints v → ascii buf = true → ascii (concat pieces) = true → (length buf < 2560)%nat →
  ∃ w buf', evaluates (ConsoleBuffer_write_fmt pieces buf) v (true, buf') (sv_print w v) ∧ w ++ buf' = buf ++ concat pieces ∧
    (length buf' < 2560)%nat.
Proof.
  revert buf v. induction pieces as [|s pieces IH]; intros buf v Hv Hb Hs Hlen.
  { exists [], buf. rewrite sv_print_nil. split; [apply evaluates_ret|by rewrite app_nil_r]. }
  cbn [concat] in *. rewrite ascii_app in Hs. apply andb_true_iff in Hs as [Hs Hps].
  destruct (evaluates_write_str s buf v Hv Hb Hs Hlen) as (w1 & buf1 & Hr1 & Hw1 & Hl1).
  assert (ascii buf1 = true) as Hb1.
  { assert (ascii (w1 ++ buf1) = true) as H by (by rewrite Hw1, ascii_app, Hb, Hs). rewrite ascii_app in H. by apply andb_true_iff in H as [_ H]. }
  destruct (IH buf1 (sv_print w1 v) (prints_print _ _ Hv) Hb1 Hps Hl1) as (w2 & buf2 & Hr2 & Hw2 & Hl2).
  exists (w1 ++ w2), buf2. split_and!; [| |done].
  - cbn [ConsoleBuffer_write_fmt]. eapply evaluates_bind; [exact Hr1|]. by rewrite sv_print_app in Hr2.
  - by rewrite <-app_assoc, Hw2, app_assoc, Hw1, <-app_assoc.
Qed.
(** [print] leaves nothing in the buffer: all pieces are printed, in order. *)
Lemma evaluates_print pieces v : prints v → ascii (concat pieces) = true → evaluates (print pieces) v () (sv_print (concat pieces) v).
Proof.
  intros Hv Hs. destruct (evaluates_write_fmt pieces [] v Hv eq_refl Hs ltac:(cbn; lia)) as (w & buf & Hr & Hw & Hl). cbn [app] in Hw.
  assert (ascii buf = true) as Hb by (rewrite <-Hw, ascii_app in Hs; by apply andb_true_iff in Hs as [_ ?]).
  unfold print. eapply evaluates_bind; [exact Hr|]. cbv beta iota. eapply evaluates_bind; [apply evaluates_console_flush; [done|done|lia]|].
  rewrite sv_print_app, Hw. apply evaluates_ret.
Qed.
Lemma evaluates_println pieces v :
  prints v → ascii (concat pieces) = true → evaluates (println pieces) v () (sv_print (concat pieces ++ [10]) v).
Proof.
  intros Hv Hs. unfold println. assert (concat (pieces ++ [[10]]) = concat pieces ++ [10]) as He by (rewrite concat_app; done).
  rewrite <-He. apply evaluates_print; [done|]. by rewrite He, ascii_app, Hs.
Qed.

(** * Reading *)

Definition sv_at (f : nat) (o : vfile) (v : server) : server := sv_set_open (<[f := o]> (sv_open v)) v.
Lemma sv_at_at f o1 o2 v : sv_at f o2 (sv_at f o1 v) = sv_at f o2 v.
Proof. unfold sv_at, sv_set_open. cbn. by rewrite insert_insert_eq. Qed.

(** Descriptor [fd] reads the contents [c] of inode [i] from [off] on. *)
Record reads (v : server) (fd : Z) (f : nat) (w : bool) (off : nat) (i : Z) (c : list Z) : Prop := {
  rd_range : 0 ≤ fd < 2 ^ 64;
  rd_fd : sv_fds v !! fd = Some f;
  rd_open : sv_open v !! f = Some (VFile true w off i);
  rd_data : sv_data v !! i = Some c }.
Lemma reads_at v fd f w off off' i c : reads v fd f w off i c → reads (sv_at f (VFile true w off' i) v) fd f w off' i c.
Proof. intros [H0 H1 H2 H3]. split; [done|done|by apply lookup_insert_eq|done]. Qed.
Lemma reads_print s v fd f w off i c : reads v fd f w off i c → reads (sv_print s v) fd f w off i c.
Proof. by intros []. Qed.
Lemma prints_at v fd f w off off' i c : prints v → reads v fd f w off i c → prints (sv_at f (VFile true w off' i) v).
Proof.
  intros (g & Hg & Ho) [_ _ Hf _]. exists g. split; [done|]. cbn. rewrite lookup_insert_ne by congruence. done.
Qed.
Lemma sv_at_id v fd f w off i c : reads v fd f w off i c → sv_at f (VFile true w off i) v = v.
Proof. intros [_ _ H _]. unfold sv_at, sv_set_open. rewrite insert_id by done. by destruct v. Qed.

(** A buffer of the programs. *)
Definition buffer (buf : list Z) : Prop := length buf = 256%nat ∧ Forall is_byte buf.
Lemma buffer_zero : buffer (replicate 256 0).
Proof. split; [by rewrite length_replicate|]. apply Forall_replicate. unfold is_byte. lia. Qed.

Lemma evaluates_read v fd f w off i c buf :
  reads v fd f w off i c → buffer buf → let n := Nat.min (length buf) (length c - off) in
  evaluates (read fd buf) v (Z.of_nat n, sub_list off n c ++ drop n buf) (sv_at f (VFile true w (off + n) i) v).
Proof.
  intros [Hfd Hf Ho Hd] [Hl Hb] n. apply evaluates_syscall; [repeat constructor; apply fits_bytes; [lia|done]|]. unfold serve. rewrite !Z.eqb_refl, wrap_small by done. cbn [andb].
  unfold serve_read. by rewrite Hf, Ho, Hd.
Qed.

(** The text of what a read left in the buffer. *)
Lemma evaluates_str_of s rest v : ascii s = true → evaluates (str_of (s ++ rest) (Z.of_nat (length s))) v s v.
Proof.
  intros Hs. unfold str_of. rewrite Nat2Z.id, take_app_length, (utf8_ascii s Hs), length_app.
  rewrite (proj2 (Z.leb_le _ _)) by lia. apply evaluates_ret.
Qed.

(** A loop that reads into a buffer of 256 bytes until nothing is left. *)
Section read_loop.
Context {I T U : Type} (fd : Z) (f : nat) (w : bool) (i : Z) (c : list Z).
(** The state of the loop holds a buffer and what has been computed so far. *)
Context (buf_of : I → list Z) (acc_of : I → T).
Context (body : I → program (I + U)) (eof : T → U) (step : T → list Z → T) (out : T → list Z → list Z).
(** A round that reads the piece [s], and the last one. *)
Context (Hbody : ∀ x v off s, prints v → reads v fd f w off i c → buffer (buf_of x) →
  s = sub_list off (Nat.min 256 (length c - off)) c → s ≠ [] →
  ∃ x', buffer (buf_of x') ∧ acc_of x' = step (acc_of x) s ∧
    evaluates (body x) v (inl x') (sv_print (out (acc_of x) s) (sv_at f (VFile true w (off + length s) i) v))).
Context (Hend : ∀ x v off, prints v → reads v fd f w off i c → buffer (buf_of x) → (length c ≤ off)%nat →
  evaluates (body x) v (inr (eof (acc_of x))) v).

(** What the loop prints and returns. *)
Fixpoint read_result (n off : nat) (a : T) : list Z * U :=
  match n with
  | O => ([], eof a)
  | S n =>
      if (length c <=? off)%nat then ([], eof a)
      else let s := sub_list off (Nat.min 256 (length c - off)) c in
        let r := read_result n (off + length s) (step a s) in (out a s ++ r.1, r.2)
  end.

Lemma evaluates_read_loop n x v off :
  prints v → reads v fd f w off i c → buffer (buf_of x) → (length c - off < n)%nat →
  evaluates (ITree.iter body x) v (read_result n off (acc_of x)).2
    (sv_print (read_result n off (acc_of x)).1 (sv_at f (VFile true w (Nat.max off (length c)) i) v)).
Proof.
  revert x v off. induction n as [|n IH]; intros x v off Hv Hr Hbuf Hn; [lia|]. cbn [read_result].
  destruct (Nat.leb_spec (length c) off) as [Hge|Hlt].
  - eapply evaluates_iter; [by apply (Hend x v off)|]. rewrite sv_print_nil, Nat.max_l by done. split; [done|].
    symmetry. by eapply sv_at_id.
  - set (s := sub_list off (Nat.min 256 (length c - off)) c).
    assert (length s = Nat.min 256 (length c - off)) as Hs by (unfold s, sub_list; rewrite length_take, length_drop; lia).
    destruct (Hbody x v off s Hv Hr Hbuf eq_refl) as (x' & Hbuf' & Hacc & Hround); [intros E%(f_equal length); cbn [length] in E; lia|].
    eapply evaluates_iter; [exact Hround|]. cbv beta iota zeta. cbn [fst snd]. rewrite <-Hacc.
    set (v1 := sv_print _ _). assert (reads v1 fd f w (off + length s) i c) as Hr1 by (by apply reads_print, (reads_at v fd f w off)).
    assert (prints v1) as Hv1 by (apply prints_print; by apply (prints_at v fd f w off _ i c)).
    pose proof (IH x' v1 (off + length s)%nat Hv1 Hr1 Hbuf' ltac:(lia)) as H.
    replace (Nat.max (off + length s) (length c)) with (Nat.max off (length c)) in H by lia.
    unfold v1 in H. change (sv_at ?g ?o (sv_print ?t ?u)) with (sv_print t (sv_at g o u)) in H.
    by rewrite sv_at_at, sv_print_app in H.
Qed.
End read_loop.

(** * The programs *)

(** The piece of a round, once it is in the buffer. *)
Lemma evaluates_read_piece v fd f w off i c buf s :
  reads v fd f w off i c → buffer buf → ascii c = true → s = sub_list off (Nat.min 256 (length c - off)) c →
  evaluates (read fd buf) v (Z.of_nat (length s), s ++ drop (length s) buf) (sv_at f (VFile true w (off + length s) i) v) ∧
  buffer (s ++ drop (length s) buf) ∧ usize (Z.of_nat (length s)) = Z.of_nat (length s).
Proof.
  intros Hr Hbuf Hasc Hs. assert (length s = Nat.min 256 (length c - off)) as Hl by (rewrite Hs; unfold sub_list; rewrite length_take, length_drop; lia).
  pose proof (evaluates_read v fd f w off i c buf Hr Hbuf) as H. destruct Hbuf as [Hbuf Hb]. cbv zeta in H. rewrite Hbuf, <-Hs, <-Hl in H.
  split; [exact H|]. split; [split|apply wrap_small; lia].
  - rewrite length_app, length_drop. lia.
  - apply Forall_app_2; [|by apply Forall_drop]. apply ascii_bytes. rewrite Hs. by apply ascii_sub.
Qed.
Lemma read_piece_end v fd f w off i c buf :
  reads v fd f w off i c → buffer buf → (length c ≤ off)%nat → ∃ l, evaluates (read fd buf) v (0, l) v.
Proof.
  intros Hr Hbuf Hoff. eexists. pose proof (evaluates_read v fd f w off i c buf Hr Hbuf) as H. cbv zeta in H.
  replace (length buf `min` (length c - off))%nat with 0%nat in H by lia. rewrite Nat.add_0_r in H.
  rewrite (sv_at_id v fd f w off i c Hr) in H. exact H.
Qed.

Definition cat_step (_ : ()) (_ : list Z) : () := ().
Definition cat_out (_ : ()) (s : list Z) : list Z := s.
Lemma cat_result c n off : (length c - off < n)%nat → read_result c (λ _ : (), ()) cat_step cat_out n off () = (drop off c, ()).
Proof.
  revert off. induction n as [|n IH]; intros off Hn; [lia|]. cbn [read_result].
  destruct (Nat.leb_spec (length c) off) as [Hge|Hlt]; [by rewrite drop_ge|].
  set (s := sub_list off _ c). assert (length s = Nat.min 256 (length c - off)) as Hs by (unfold s, sub_list; rewrite length_take, length_drop; lia).
  cbv zeta. unfold cat_step. rewrite IH by lia. cbn [fst snd]. unfold cat_out. f_equal.
  rewrite <-drop_drop. unfold s at 1. unfold sub_list. rewrite Hs. apply take_drop.
Qed.
Lemma evaluates_cat_loop v fd f w i c off :
  prints v → reads v fd f w off i c → ascii c = true →
  evaluates (ITree.iter (cat_round fd) (replicate 256 0)) v () (sv_print (drop off c) (sv_at f (VFile true w (Nat.max off (length c)) i) v)).
Proof.
  intros Hv Hr Hc.
  pose proof (evaluates_read_loop fd f w i c (λ buf, buf) (λ _, ()) (cat_round fd) (λ _, ()) cat_step cat_out) as H.
  specialize (H) with (n := S (length c - off)) (x := replicate 256 0) (v := v) (off := off).
  rewrite cat_result in H by lia. apply H; [| |done|done|exact buffer_zero|lia]; clear H.
  - intros buf v' off' s Hv' Hr' Hbuf Hs Hne.
    destruct (evaluates_read_piece v' fd f w off' i c buf s Hr' Hbuf Hc Hs) as (Hread & Hl & Hsz).
    assert (ascii s = true) as Has by (rewrite Hs; by apply ascii_sub).
    exists (s ++ drop (length s) buf). split; [done|]. split; [done|]. unfold cat_round.
    eapply evaluates_bind; [exact Hread|]. cbv beta iota zeta. rewrite Hsz.
    rewrite (proj2 (Z.eqb_neq _ 0)) by (destruct s; [done|cbn; lia]).
    eapply evaluates_bind; [by apply evaluates_str_of|]. eapply evaluates_bind; [|apply evaluates_ret].
    pose proof (evaluates_print [s] (sv_at f (VFile true w (off' + length s) i) v')) as Hp. cbn [concat] in Hp.
    rewrite app_nil_r in Hp. apply Hp; [by eapply prints_at|done].
  - intros buf v' off' Hv' Hr' Hbuf Hoff. destruct (read_piece_end v' fd f w off' i c buf Hr' Hbuf Hoff) as [l Hread].
    unfold cat_round. eapply evaluates_bind; [exact Hread|]. apply evaluates_ret.
Qed.

(** Opening a file of the directory for reading. *)
Definition sv_opened (i : Z) (v : server) : server :=
  MkServer (<[first_free (sv_fds v) := sv_next v]> (sv_fds v)) (<[sv_next v := VFile true false 0 i]> (sv_open v))
    (S (sv_next v)) (sv_dir v) (sv_data v) (sv_out v).
Lemma evaluates_open v name i :
  Forall (λ c, 0 < c < 256) name → (length name < room)%nat → dir_lookup (str_bytes name) (sv_dir v) = Some i →
  is_Some (sv_data v !! i) → evaluates (open (name ++ [0]) OpenFlags_RDONLY) v (first_free (sv_fds v)) (sv_opened i v).
Proof.
  intros Hn Hlen Hd [c Hc]. eapply evaluates_syscall_ret.
  { repeat constructor. apply fits_bytes; [rewrite length_app; cbn; lia|]. apply Forall_app_2; [|by repeat constructor].
    eapply Forall_impl; [exact Hn|]. unfold is_byte. cbn. lia. }
  assert (Forall (λ c, c ≠ 0) name) as Hn0 by (eapply Forall_impl; [exact Hn|]; cbn; lia). unfold serve. cbn [Z.eqb]. change (SYSCALL_OPEN =? SYSCALL_OPEN) with true. cbv iota.
  unfold serve_open. rewrite cstring_app by done. cbn [mbind option_bind]. change (OpenFlags_RDONLY =? OpenFlags_RDONLY) with true.
  cbv iota. by rewrite Hd, Hc.
Qed.
Lemma evaluates_close fd f v :
  fd ≠ STDOUT → 0 ≤ fd < 2 ^ 64 → sv_fds v !! fd = Some f → evaluates (close fd) v 0 (sv_set_fds (delete fd (sv_fds v)) v).
Proof.
  intros Hne Hfd Hf. unfold close. rewrite (proj2 (Z.eqb_neq _ _)) by done. eapply evaluates_bind; [apply evaluates_ret|].
  eapply evaluates_syscall_ret; [by repeat constructor|]. unfold serve. change (SYSCALL_CLOSE =? SYSCALL_CLOSE) with true. cbv iota.
  unfold serve_close. by rewrite wrap_small, Hf by done.
Qed.

(** [cat] of a file of ASCII text: it prints the file, leaves the descriptors as
    they were, and ends. *)
Definition cat_end (v : server) (i : Z) (c : list Z) : server :=
  MkServer (sv_fds v) (<[sv_next v := VFile true false (length c) i]> (sv_open v)) (S (sv_next v))
    (sv_dir v) (sv_data v) (sv_out v ++ c).
Lemma cat_run v argv0 name i c :
  prints v → Z.of_nat (size (sv_fds v)) < 2 ^ 63 → (∀ fd f, sv_fds v !! fd = Some f → (f < sv_next v)%nat) →
  Forall (λ b, 0 < b < 256) name → (length name < room)%nat → dir_lookup (str_bytes name) (sv_dir v) = Some i → sv_data v !! i = Some c → ascii c = true →
  evaluates (cat_main 2 [argv0; name]) v 0 (cat_end v i c).
Proof.
  intros Hv Hsize Hnew Hname Hlen Hdir Hdata Hc. destruct (first_free_spec (sv_fds v)) as (Hfd & Hfree & _).
  set (fd := first_free (sv_fds v)) in *. unfold cat_main. eapply evaluates_bind; [by apply evaluates_assert|].
  eapply evaluates_bind; [by apply evaluates_unwrap|]. eapply evaluates_bind; [by apply (evaluates_open v name i); [..|eexists]|]. fold fd.
  rewrite (proj2 (Z.eqb_neq _ _)) by lia. cbv zeta. rewrite wrap_small by lia. set (v1 := sv_opened i v).
  assert (reads v1 fd (sv_next v) false 0 i c) as Hr by (split; [lia|apply lookup_insert_eq|apply lookup_insert_eq|done]).
  destruct Hv as (g & Hg & Ho). assert (fd ≠ STDOUT) as Hne by congruence.
  assert (prints v1) as Hv1.
  { exists g. cbn. fold fd. rewrite lookup_insert_ne by congruence. split; [done|].
    rewrite lookup_insert_ne; [done|]. apply Hnew in Hg. lia. }
  eapply evaluates_bind; [by apply (evaluates_cat_loop v1 fd (sv_next v) false i c 0)|].
  eapply evaluates_bind; [apply (evaluates_close fd (sv_next v)); [done|lia|apply lookup_insert_eq]|].
  match goal with |- evaluates _ ?x _ ?y => assert (x = y) as ->; [|apply evaluates_ret] end.
  unfold cat_end, sv_set_fds, sv_print, sv_at, sv_set_open. cbn. fold fd.
  by rewrite delete_insert_id, insert_insert_eq by done.
Qed.

Lemma newlines_app s1 s2 : newlines (s1 ++ s2) = newlines s1 + newlines s2.
Proof. unfold newlines. rewrite List.filter_app, length_app. lia. Qed.
Lemma newlines_bound s : 0 ≤ newlines s ≤ Z.of_nat (length s).
Proof. unfold newlines. pose proof (List.filter_length_le (λ c, c =? 10) s). lia. Qed.

Definition count_buf : list Z * Z * Z → list Z := λ '(buf, _, _), buf.
Definition count_acc : list Z * Z * Z → Z * Z := λ '(_, lines, total), (lines, total).
Definition count_step : Z * Z → list Z → Z * Z := λ '(lines, total) s, (lines +₆₄ newlines s, total +₆₄ Z.of_nat (length s)).
Definition count_out (_ : Z * Z) (_ : list Z) : list Z := [].
Lemma count_result c n off lines total :
  (length c - off < n)%nat → 0 ≤ lines → 0 ≤ total →
  lines + Z.of_nat (length c - off) < 2 ^ 64 → total + Z.of_nat (length c - off) < 2 ^ 64 →
  read_result c (λ x, x) count_step count_out n off (lines, total) =
    ([], (lines + newlines (drop off c), total + Z.of_nat (length c - off))).
Proof.
  revert off lines total. induction n as [|n IH]; intros off lines total Hn Hl Ht Hl64 Ht64; [lia|]. cbn [read_result].
  destruct (Nat.leb_spec (length c) off) as [Hge|Hlt].
  { rewrite drop_ge by done. replace (length c - off)%nat with 0%nat by lia. do 2 f_equal; unfold newlines; cbn; lia. }
  set (s := sub_list off _ c). assert (length s = Nat.min 256 (length c - off)) as Hs by (unfold s, sub_list; rewrite length_take, length_drop; lia).
  pose proof (newlines_bound s) as Hnl. cbv zeta. cbn [count_step]. rewrite !wrap_small by lia. rewrite IH by lia. cbn [fst snd count_out app].
  assert (drop off c = s ++ drop (off + length s) c) as ->.
  { rewrite <-drop_drop. unfold s at 1. unfold sub_list. rewrite Hs. symmetry. apply take_drop. }
  rewrite newlines_app. do 2 f_equal; lia.
Qed.
Lemma evaluates_count_loop v f w i c off :
  prints v → reads v 0 f w off i c → ascii c = true → Z.of_nat (length c) < 2 ^ 63 →
  evaluates (ITree.iter count_round (replicate 256 0, 0, 0)) v (newlines (drop off c), Z.of_nat (length c - off))
    (sv_at f (VFile true w (Nat.max off (length c)) i) v).
Proof.
  intros Hv Hr Hc Hlen.
  pose proof (evaluates_read_loop 0 f w i c count_buf count_acc count_round (λ x, x) count_step count_out) as H.
  specialize (H) with (n := S (length c - off)) (x := (replicate 256 0, 0, 0)) (v := v) (off := off). cbn [count_acc] in H.
  rewrite count_result, sv_print_nil in H by lia. apply H; [| |done|done|exact buffer_zero|lia]; clear H.
  - intros [[buf lines] total] v' off' s Hv' Hr' Hbuf Hs Hne.
    destruct (evaluates_read_piece v' 0 f w off' i c buf s Hr' Hbuf Hc Hs) as (Hread & Hl & Hsz).
    assert (ascii s = true) as Has by (rewrite Hs; by apply ascii_sub).
    exists (s ++ drop (length s) buf, lines +₆₄ newlines s, total +₆₄ Z.of_nat (length s)). split; [done|]. split; [done|].
    unfold count_round. eapply evaluates_bind; [exact Hread|]. cbv beta iota zeta. rewrite Hsz, sv_print_nil.
    rewrite (proj2 (Z.eqb_neq _ 0)) by (destruct s; [done|cbn; lia]).
    eapply evaluates_bind; [by apply evaluates_str_of|]. apply evaluates_ret.
  - intros [[buf lines] total] v' off' Hv' Hr' Hbuf Hoff.
    destruct (read_piece_end v' 0 f w off' i c buf Hr' Hbuf Hoff) as [l Hread].
    unfold count_round. eapply evaluates_bind; [exact Hread|]. apply evaluates_ret.
Qed.

(** [count_lines] with standard input redirected to a file: the number of line
    feeds that are left in it, and one more when anything is left. *)
Lemma count_lines_run v argc argv f w off i c :
  prints v → reads v 0 f w off i c → ascii c = true → Z.of_nat (length c) < 2 ^ 63 →
  let left_ := drop off c in
  evaluates (count_lines_main argc argv) v 0
    (sv_print (num (newlines left_ + (if decide (left_ = []) then 0 else 1)) ++ [10])
       (sv_at f (VFile true w (Nat.max off (length c)) i) v)).
Proof.
  intros Hv Hr Hc Hlen left_. unfold count_lines_main. eapply evaluates_bind; [by apply (evaluates_count_loop v f w i c off)|].
  cbv beta iota zeta. fold left_. assert (length left_ = (length c - off)%nat) as Hl by apply length_drop.
  pose proof (newlines_bound left_) as Hn.
  assert ((if 0 <? Z.of_nat (length c - off) then newlines left_ +₆₄ 1 else newlines left_) =
    newlines left_ + (if decide (left_ = []) then 0 else 1)) as ->.
  { rewrite <-Hl. case_decide as He; [by rewrite He|]. rewrite (proj2 (Z.ltb_lt _ _)) by (destruct left_; [done|cbn; lia]).
    apply wrap_small. lia. }
  eapply evaluates_bind; [|apply evaluates_ret].
  match goal with |- evaluates (println [?x]) _ _ _ =>
    pose proof (evaluates_println [x] (sv_at f (VFile true w (Nat.max off (length c)) i) v)) as Hp end.
  cbn [concat] in Hp. rewrite app_nil_r in Hp. apply Hp; [by eapply prints_at|apply ascii_num].
Qed.
End evaluation.
