(* ===== verification/FileCalls.v ===== *)
(** Reading and writing through descriptors (os/src/syscall/fs.rs, os/src/fs/):
    a call from its registers to the bytes of the file and of the program's
    memory. *)

From S2P Require Export ExecArgs VfsWrite Syscall.

(** * Bytes written to memory *)

Lemma fill_at (mem : Z → Z) a bs va : a ≤ va < a + Z.of_nat (length bs) → bs !! Z.to_nat (va - a) = Some (fill a bs mem va).
Proof.
  intros Hva. destruct (lookup_lt_is_Some_2 bs (Z.to_nat (va - a))) as [b Hb]; [lia|]. rewrite Hb. f_equal.
  rewrite <-(fill_bytes bs a mem _ _ Hb). f_equal. lia.
Qed.
(** Writing what is there changes nothing. *)
Lemma fill_self n a (mem : Z → Z) x : fill a (mem <$> seqZ a n) mem x = mem x.
Proof.
  destruct (decide (a ≤ x < a + n)) as [Hx|Hx].
  - pose proof (fill_at mem a (mem <$> seqZ a n) x) as H. rewrite length_fmap, length_seqZ in H.
    specialize (H ltac:(lia)). rewrite list_lookup_fmap, lookup_seqZ_lt in H by lia. cbn in H.
    injection H as <-. f_equal. lia.
  - apply fill_other. rewrite length_fmap, length_seqZ. lia.
Qed.
(** Only the part of the buffer that was read is new. *)
Lemma fill_partial (mem : Z → Z) a bs n x :
  Z.of_nat (length bs) ≤ n →
  fill a (bs ++ drop (length bs) (mem <$> seqZ a n)) mem x = fill a bs mem x.
Proof.
  intros Hn. destruct (decide (a ≤ x < a + n)) as [Hx|Hx].
  - pose proof (fill_at mem a (bs ++ drop (length bs) (mem <$> seqZ a n)) x) as H.
    rewrite length_app, length_drop, length_fmap, length_seqZ in H. specialize (H ltac:(lia)).
    destruct (decide (x < a + Z.of_nat (length bs))) as [Hlt|Hge].
    + rewrite lookup_app_l, (fill_at mem a bs x) in H by lia. congruence.
    + rewrite lookup_app_r, lookup_drop, list_lookup_fmap, lookup_seqZ_lt in H by lia. cbn in H.
      rewrite (fill_other bs) by lia. injection H as <-. f_equal. lia.
  - rewrite !fill_other; [done|lia|]. rewrite length_app, length_drop, length_fmap, length_seqZ. lia.
Qed.

(** * User buffers in a window of memory *)

Section buffers.
Context (l r : Z) (ms : MemorySet) (lo hi : Z) (s0 : Mm).
Context (Hroot : 0 ≤ ms_root ms < 2 ^ 44) (Hlo : 0 ≤ lo) (Hhi : hi < 2 ^ 39).
Abbreviation token := (MemorySet_token ms).
Abbreviation usermem := (usermem l r ms lo hi s0).
Abbreviation located := (located ms lo hi).
Implicit Types mem : Z → Z.

(** The buffers are the pages of the addresses from [a] on. *)
Fixpoint spans (a : Z) (bufs : list Buf) : Prop :=
  match bufs with
  | [] => True
  | b :: bufs => 0 < buf_len b ∧ a mod 4096 + buf_len b ≤ 4096 ∧ a + buf_len b ≤ hi ∧
      located a (Buf_addr b) ∧ 0 ≤ buf_off b < 4096 ∧ spans (a + buf_len b) bufs
  end.
Definition bufs_len (bufs : list Buf) : Z := foldr (λ b n, buf_len b + n) 0 bufs.
Lemma spans_len a bufs : spans a bufs → 0 ≤ bufs_len bufs.
Proof.
  revert a. unfold bufs_len. induction bufs as [|b bufs IH]; intros a Hs; [done|].
  destruct Hs as (? & _ & _ & _ & _ & Hs). apply IH in Hs. cbn. lia.
Qed.

Lemma bufs_len_nonneg bufs : Forall buf_ok bufs → 0 ≤ bufs_len bufs.
Proof. unfold bufs_len. induction 1 as [|b bufs (H & _) _ IH]; cbn; lia. Qed.
Lemma length_concat_addrs bufs : Forall buf_ok bufs → length (concat (buf_addrs <$> bufs)) = Z.to_nat (bufs_len bufs).
Proof.
  induction 1 as [|b bufs (Hb & _) Hbs IH]; [done|]. pose proof (bufs_len_nonneg _ Hbs) as Hn.
  cbn [fmap list_fmap concat]. rewrite length_app, IH. unfold buf_addrs. rewrite length_fmap, length_seqZ.
  unfold bufs_len in *. cbn [foldr]. lia.
Qed.

Lemma user_pa_located mem s va : usermem mem s → lo ≤ va < hi → located va (user_pa s (ms_root ms) va).
Proof.
  intros Hm Hva. split; [done|]. destruct (um_mem _ _ _ _ _ _ _ _ Hm va Hva) as (p & Hp & _).
  destruct (held_mapped _ _ _ _ _ _ (um_wf _ _ _ _ _ _ _ _ Hm) Hp) as (_ & b & Hb & Hbp). exists p. split; [done|].
  unfold user_pa. by rewrite Hb, <-Hbp.
Qed.
Lemma spans_of_addrs mem s bufs a :
  usermem mem s → Forall buf_ok bufs → lo ≤ a → a + bufs_len bufs ≤ hi →
  concat (buf_addrs <$> bufs) = user_pa s (ms_root ms) <$> seqZ a (bufs_len bufs) → spans a bufs.
Proof.
  intros Hm Hok. revert a. induction Hok as [|b bufs (Hb & Hoff & Hend) Hbs IH]; intros a Ha Htop Heq; [done|].
  pose proof (bufs_len_nonneg _ Hbs) as Hn. cbn [bufs_len foldr] in *. fold (bufs_len bufs) in *.
  rewrite seqZ_app, fmap_app in Heq by lia. cbn [fmap list_fmap concat] in Heq.
  apply app_inj_1 in Heq as [Hhead Hrest].
  2:{ unfold buf_addrs. by rewrite !length_fmap, !length_seqZ. }
  assert (Buf_addr b = user_pa s (ms_root ms) a) as Haddr.
  { apply (f_equal (lookup 0%nat)) in Hhead. unfold buf_addrs in Hhead. rewrite !list_lookup_fmap, !lookup_seqZ_lt in Hhead by lia.
    cbn in Hhead. injection Hhead as Hhead. unfold Buf_addr. replace (a + Z.of_nat 0) with a in Hhead by lia. lia. }
  assert (a mod 4096 = buf_off b) as Hmod.
  { unfold Buf_addr, user_pa, PAGE_SIZE in Haddr. lia. }
  cbn [spans]. split_and!; [done|lia|lia| |lia|lia|].
  - rewrite Haddr. apply (user_pa_located mem s); [done|lia].
  - apply IH; [lia|lia|done].
Qed.

Lemma wp_buffers mem s ptr len :
  usermem mem s → lo ≤ ptr → 0 ≤ len → ptr + len ≤ hi →
  wp (translated_byte_buffers token ptr len) s (λ bufs s', s' = s ∧ spans ptr bufs ∧ bufs_len bufs = len).
Proof.
  intros Hm Hp Hl Hend.
  destruct (translated_byte_buffers_run l r s (page_table ms) ptr len) as (bufs & Hrun & Hcat & Hok);
    [apply (mw_pt _ _ _ _ (um_wf _ _ _ _ _ _ _ _ Hm))|done|lia|lia|lia| |].
  { intros va Hva. destruct (um_mem _ _ _ _ _ _ _ _ Hm va) as (p & Hp' & Hpok & _); [lia|].
    destruct (held_mapped _ _ _ _ _ _ (um_wf _ _ _ _ _ _ _ _ Hm) Hp') as (_ & b & Hb & <-). by exists b. }
  apply wp_Ok. exists bufs, s. split; [exact Hrun|]. split; [done|].
  assert (bufs_len bufs = len) as Hlen.
  { pose proof (length_concat_addrs bufs Hok) as H1. rewrite Hcat, length_fmap, length_seqZ in H1.
    pose proof (bufs_len_nonneg _ Hok). lia. }
  split; [|done]. apply (spans_of_addrs mem s); [done|done|lia|lia|by rewrite Hlen].
Qed.

(** The page of a buffer holds the bytes of its addresses. *)
Lemma buf_page mem s a b :
  usermem mem s → located a (Buf_addr b) → 0 ≤ buf_off b < 4096 → a mod 4096 + buf_len b ≤ 4096 → a + buf_len b ≤ hi → 0 < buf_len b →
  held ms (a / 4096) (buf_ppn b) ∧ buf_off b = a mod 4096 ∧ page_ok s (buf_ppn b) ∧
  ∀ va, a ≤ va < a + buf_len b → page_at s (buf_ppn b) !! Z.to_nat (va mod 4096) = Some (mem va).
Proof.
  intros Hm (Ha & p & Hp & Hpa) Hoff Hpage Hend Hlen. unfold Buf_addr, PAGE_SIZE in Hpa.
  assert (buf_ppn b = p ∧ buf_off b = a mod 4096) as [-> Hmod] by lia.
  destruct (um_mem _ _ _ _ _ _ _ _ Hm a Ha) as (q & Hq & Hok & _).
  rewrite (held_fun _ _ _ _ _ _ _ (um_wf _ _ _ _ _ _ _ _ Hm) Hq Hp) in *. split_and!; [done..|].
  intros va Hva. destruct (um_mem _ _ _ _ _ _ _ _ Hm va) as (q' & Hq' & _ & Hb); [lia|].
  replace (va / 4096) with (a / 4096) in Hq' by lia.
  by rewrite (held_fun _ _ _ _ _ _ _ (um_wf _ _ _ _ _ _ _ _ Hm) Hq' Hp) in Hb.
Qed.
Lemma Buf_get_run mem s a b :
  usermem mem s → 0 < buf_len b → a mod 4096 + buf_len b ≤ 4096 → a + buf_len b ≤ hi → located a (Buf_addr b) → 0 ≤ buf_off b < 4096 →
  Buf_get b s = Ok (mem <$> seqZ a (buf_len b), s).
Proof.
  intros Hm Hlen Hpage Hend Hloc Hoff.
  destruct (buf_page mem s a b Hm Hloc Hoff Hpage Hend Hlen) as (_ & Hmod & (Hpg & Hpl & _) & Hbytes).
  assert (sub_list (Z.to_nat (buf_off b)) (Z.to_nat (buf_off b + buf_len b - buf_off b)) (page_at s (buf_ppn b)) =
    mem <$> seqZ a (buf_len b)) as Heq.
  { apply list_eq. intros i. rewrite list_lookup_fmap. unfold sub_list. destruct (decide (Z.of_nat i < buf_len b)) as [Hi|Hi].
    - rewrite lookup_take_lt, lookup_drop, lookup_seqZ_lt by lia. cbn. rewrite <-(Hbytes (a + Z.of_nat i)) by lia. f_equal. lia.
    - rewrite lookup_take_ge, lookup_seqZ_ge by lia. done. }
  unfold Buf_get. erewrite bind_Ok by (by apply get_bytes_array_Ok). unfold slice.
  destruct (_ && _) eqn:E; [by rewrite Heq|lia].
Qed.
Lemma wp_Buf_set mem s a b bs :
  usermem mem s → 0 < buf_len b → a mod 4096 + buf_len b ≤ 4096 → a + buf_len b ≤ hi → located a (Buf_addr b) → 0 ≤ buf_off b < 4096 →
  Z.of_nat (length bs) = buf_len b → Forall is_byte bs →
  wp (Buf_set b bs) s (λ _ s', usermem (fill a bs mem) s').
Proof.
  intros Hm Hlen Hpage Hend Hloc Hoff Hbs Hbytes.
  destruct (buf_page mem s a b Hm Hloc Hoff Hpage Hend Hlen) as (Hheld & Hmod & Hok & _).
  pose proof Hok as (Hpg & Hpl & Hpb). pose proof (proj1 Hloc) as Ha.
  unfold Buf_set. apply wp_bind. unfold wp at 1. rewrite (get_bytes_array_Ok _ _ s Hpg).
  apply wp_bind, wp_copy_into. split; [lia|]. split; [lia|]. split; [lia|].
  unfold wp. rewrite (set_bytes_array_Ok _ _ _ s Hpg). set (pg := splice _ bs _).
  fold (set_page (buf_ppn b) pg s).
  assert (length pg = 4096%nat) as Hpgl by (unfold pg; rewrite length_splice; lia).
  destruct (ms_wf_set_page l r s ms (buf_ppn b) pg (um_wf _ _ _ _ _ _ _ _ Hm)) as [Hwf' _].
  { eapply held_not_table; [apply (um_wf _ _ _ _ _ _ _ _ Hm)|exact Hheld]. }
  split; [done| |apply (um_alloc _ _ _ _ _ _ _ _ Hm)|].
  - intros va Hva. destruct (um_mem _ _ _ _ _ _ _ _ Hm va Hva) as (q & Hq & Hokq & Hbq). exists q. split; [done|].
    split; [apply page_ok_set; [done|done|by apply Forall_splice]|].
    rewrite page_at_set. case_decide as Hqp; [subst q|].
    + pose proof (held_inj _ _ _ _ _ _ _ (um_wf _ _ _ _ _ _ _ _ Hm) Hq Hheld) as Hva'.
      destruct (decide (a ≤ va < a + buf_len b)) as [Hin|Hout].
      * unfold pg. rewrite lookup_splice_new by lia. rewrite <-(fill_at mem a bs va) by lia. f_equal. lia.
      * unfold pg. rewrite lookup_splice_old by lia. rewrite Hbq. f_equal. symmetry. apply fill_other. lia.
    + rewrite fill_other; [done|]. intros Hin. apply Hqp. eapply held_fun; [apply (um_wf _ _ _ _ _ _ _ _ Hm)|exact Hq|].
      by replace (va / 4096) with (a / 4096) by lia.
  - intros q Hq. rewrite page_at_set, decide_False; [by apply (um_others _ _ _ _ _ _ _ _ Hm)|]. intros ->.
    by apply (Hq a Ha).
Qed.
Lemma usermem_ext mem mem' s : usermem mem s → (∀ va, lo ≤ va < hi → mem' va = mem va) → usermem mem' s.
Proof.
  intros [H1 H2 H3 H4] He. split; [done| |done|done]. intros va Hva. rewrite He by done. by apply H2.
Qed.
Lemma usermem_bytes mem s a n : usermem mem s → lo ≤ a → a + n ≤ hi → Forall is_byte (mem <$> seqZ a n).
Proof.
  intros Hm Ha Hn. apply Forall_fmap, Forall_forall. intros va Hva%elem_of_seqZ. cbn.
  destruct (um_mem _ _ _ _ _ _ _ _ Hm va) as (p & _ & (_ & _ & Hall) & Hb); [lia|].
  rewrite Forall_forall in Hall. by eapply Hall, list_elem_of_lookup_2.
Qed.
End buffers.

(** * Strings *)

Section strings.
Context `{!Platform}.
Context (l r : Z) (ms : MemorySet) (lo hi : Z) (s0 : Mm).
Context (Hroot : 0 ≤ ms_root ms < 2 ^ 44) (Hlo : 0 ≤ lo) (Hhi : hi < 2 ^ 39).

Lemma wp_translated_str mem s ptr str fuel :
  usermem l r ms lo hi s0 mem s → lo ≤ ptr → ptr + Z.of_nat (length str) < hi → bytes_at mem ptr (str ++ [0]) →
  Forall (λ c, c ≠ 0) str → (length str < fuel)%nat →
  wp (translated_str fuel (MemorySet_token ms) ptr) s (λ res s', s' = s ∧ res = str).
Proof.
  intros Hm Hptr Hend Hb Hstr Hfuel. unfold translated_str.
  eapply (wp_mloop (λ x s', s' = s ∧ ∃ n, (n ≤ length str)%nat ∧ x = (ptr + Z.of_nat n, take n str))
    (λ x, length str - length x.2)%nat); [split; [done|]; exists 0%nat; rewrite Z.add_0_r; split; [lia|done]|cbn; lia|].
  intros [va got] s' [-> (n & Hn & [= -> ->])]. cbv beta iota. rewrite wp_bind.
  pose proof (wp_ref l r ms lo hi s0) as Href. specialize (Href) with (mem := mem) (s := s) (va := ptr + Z.of_nat n).
  unfold translated_ref in Href. rewrite wp_bind in Href.
  eapply wp_mono; [apply Href; (done || lia)|]. clear Href. intros o s' Ho. apply wp_bind. eapply wp_mono; [exact Ho|].
  intros pa s2 [-> Hpa]. apply wp_bind. eapply wp_mono; [by apply (wp_load l r ms lo hi s0) with (mem := mem)|].
  intros b s3 [-> ->]. destruct (decide (n = length str)) as [->|Hne].
  - rewrite (Hb (length str) 0) by (by apply list_lookup_middle). apply wp_ret. rewrite firstn_all. done.
  - destruct (lookup_lt_is_Some_2 str n) as [c Hc]; [lia|].
    rewrite (Hb n c) by (by apply lookup_app_l_Some). rewrite Forall_forall in Hstr.
    rewrite (proj2 (Z.eqb_neq _ _)) by (by eapply Hstr, list_elem_of_lookup_2). rewrite wrap_small by lia. apply wp_ret.
    split; [split; [done|]; exists (S n); split; [lia|]; f_equal; [lia|by symmetry; apply take_S_r]|].
    cbn [snd]. rewrite length_app, !length_take. cbn. lia.
Qed.
End strings.

(** * Reading a file *)

Lemma content_bytes d f : inode_wf d f → Forall is_byte (content d f).
Proof.
  intros Hwf. apply Forall_take, Forall_bind, Forall_forall. intros id Hid.
  apply list_elem_of_In, in_map_iff in Hid as (k & <- & [_ Hk]%in_seq).
  apply (wf_owned_avail d f Hwf), (fblock_owned d f k). lia.
Qed.

Section calls.
Context `{!Platform}.
Context (l r : Z) (ms : MemorySet) (lo hi : Z) (s0 : Mm).
Context (Hroot : 0 ≤ ms_root ms < 2 ^ 44) (Hlo : 0 ≤ lo) (Hhi : hi < 2 ^ 39).
Abbreviation usermem := (usermem l r ms lo hi s0).
Abbreviation spans := (spans ms lo hi).
Implicit Types (k : Kernel Flat) (mem : Z → Z).

Lemma in_mm_run {A} (m : M Mm A) k a : m (mm k) = Ok (a, mm k) → in_mm m k = Ok (a, k).
Proof. intros Hm. unfold in_mm, zoom. rewrite Hm. by destruct k. Qed.
Lemma in_disk_run' {A} (m : M Flat A) k a : m (disk k) = Ok (a, disk k) → in_disk m k = Ok (a, k).
Proof. intros Hm. unfold in_disk, zoom. rewrite Hm. by destruct k. Qed.
Lemma wp_in_mm {A} (m : M Mm A) k (Q : A → Kernel Flat → Prop) :
  wp m (mm k) (λ a s, Q a (set_mm s k)) → wp (in_mm m) k Q.
Proof. apply wp_zoom. Qed.

(** How much of a file is left from [off] on. *)
Definition left_from (off : nat) (c : list Z) : nat := length c - off.

Lemma read_bufs_spec self d k bufs a off total mem :
  inode_at self d (disk k) → fl_fs_locked (disk k) = false → room 2 (disk k) →
  usermem mem (mm k) → lo ≤ a → spans a bufs → 0 ≤ total → total + bufs_len bufs < 2 ^ 63 → Z.of_nat off + bufs_len bufs < 2 ^ 63 →
  let c := content d (disk k) in
  let n := Nat.min (Z.to_nat (bufs_len bufs)) (left_from off c) in
  wp (OSInode_read_bufs bufs (Z.of_nat off) total self) k (λ res k',
    res = (Z.of_nat (off + n), total + Z.of_nat n) ∧
    ∃ s', k' = set_mm s' k ∧ usermem (fill a (sub_list off n c) mem) s').
Proof.
  intros Hat Hl Hroom. revert k a off total mem Hat Hl Hroom.
  induction bufs as [|b bufs IH]; intros k a off total mem Hat Hl Hroom Hm Ha Hsp Ht Htot Hoff c n.
  { apply wp_ret. assert (n = 0%nat) as Hn by (unfold n; cbn; lia). rewrite Hn, Nat.add_0_r, Z.add_0_r.
    split; [done|]. exists (mm k). split; [by destruct k|]. exact Hm. }
  destruct Hsp as (Hb & Hpage & Htop & Hloc & Hbo & Hsp).
  assert (0 ≤ bufs_len bufs) as Hrest by by eapply spans_len.
  cbn [bufs_len foldr] in *. fold (bufs_len bufs) in *.
  assert (Forall is_byte c) as Hcb by (apply content_bytes, Hat).
  set (old := mem <$> seqZ a (buf_len b)).
  assert (Z.of_nat (length old) = buf_len b) as Hold by (unfold old; rewrite length_fmap, length_seqZ; lia).
  cbn [OSInode_read_bufs]. eapply wp_bind_Ok; [apply in_mm_run, (Buf_get_run l r ms lo hi s0) with (mem := mem); done|].
  eapply wp_bind_Ok; [apply in_disk_run', (Inode_read_at_run self d (disk k) off old); [done|done|done|lia]|].
  cbv beta iota zeta. fold c. fold (left_from off c). set (n1 := Nat.min (length old) (left_from off c)).
  assert (length (sub_list off n1 c) = n1) as Hn1 by (unfold n1, left_from; rewrite length_sub_list_any; lia).
  apply wp_bind, wp_in_mm.
  eapply wp_mono.
  { apply (wp_Buf_set l r ms lo hi s0) with (mem := mem) (a := a); try done.
    - rewrite length_app, length_drop, Hn1. unfold n1. lia.
    - apply Forall_app_2; [by apply Forall_sub_list|]. apply Forall_drop. by apply (usermem_bytes l r ms lo hi s0) with (s := mm k). }
  intros [] s1 Hm1.
  assert (usermem (fill a (sub_list off n1 c) mem) s1) as Hm1'.
  { eapply usermem_ext; [exact Hm1|]. intros va _. symmetry.
    rewrite <-(fill_partial mem a (sub_list off n1 c) (buf_len b)) by lia. by rewrite Hn1. }
  clear Hm1. destruct (Z.eqb_spec (Z.of_nat n1) 0) as [Hz|Hz].
  - apply wp_ret. assert (n = 0%nat) as -> by (unfold n, n1 in *; lia). rewrite Nat.add_0_r, Z.add_0_r. split; [done|].
    exists s1. split; [done|]. by replace n1 with 0%nat in Hm1' by lia.
  - rewrite !wrap_small by (unfold n1 in *; lia). rewrite <-Nat2Z.inj_add.
    eapply wp_mono; [apply (IH (set_mm s1 k) (a + buf_len b) (off + n1)%nat (total + Z.of_nat n1) (fill a (sub_list off n1 c) mem));
      [done|done|done|exact Hm1'|lia|done|unfold n1 in *; lia..]|].
    cbn [disk set_mm]. fold c. set (n2 := Nat.min _ (left_from (off + n1) c)).
    assert (n = (n1 + n2)%nat) as -> by (unfold n, n2, n1, left_from in *; lia).
    intros res k' (-> & s' & -> & Hm'). split; [f_equal; lia|]. exists s'. split; [done|].
    eapply usermem_ext; [exact Hm'|]. intros va _. rewrite sub_list_app.
    destruct (decide (n2 = 0%nat)) as [->|Hn2]; [by rewrite app_nil_r|].
    rewrite fill_app, Hn1. do 2 f_equal. unfold n2, n1, left_from in *. lia.
Qed.

(** ** The calls *)

(** The current task has file [f] at descriptor [fd]. *)
Record on_fd (k : Kernel Flat) (t : nat) (tcb : TaskControlBlock) (fd : Z) (f : nat) (obj : FileObj) : Prop := {
  of_current : processor k = Some t;
  of_task : tasks k !! t = Some tcb;
  of_space : memory_set tcb = ms;
  of_fd : 0 ≤ fd;
  of_slot : fd_table tcb !! Z.to_nat fd = Some (Some f);
  of_file : files k !! f = Some obj }.

(** The part common to both calls: up to the file's own operation. *)
Lemma on_fd_prefix {A} k t tcb fd f obj (g : nat → FileObj → M (Kernel Flat) A) (other : M (Kernel Flat) A) Q :
  on_fd k t tcb fd f obj → wp (g f obj) k Q →
  wp ('(_, fds) ← current_fds;
      if Z.of_nat (length fds) <=? fd then other else
      file ← index fds fd;
      match file with Some file => obj ← get_file file; g file obj | None => other end) k Q.
Proof.
  clear Hroot Hlo Hhi. intros [Hp Ht Hms Hfd Hslot Hfile] Hg. apply lookup_lt_Some in Hslot as Hlen.
  eapply (wp_bind_Ok _ _ _ (t, fd_table tcb)).
  { unfold current_fds. erewrite bind_Ok by (by apply current_run). by erewrite bind_Ok by (by apply get_task_run). }
  cbv beta iota. rewrite (proj2 (Z.leb_gt _ _)) by lia. apply wp_bind, wp_index. split; [done|].
  exists (Some f). split; [done|]. apply wp_bind, wp_bind, wp_gets, wp_unwrap_ub. by exists obj.
Qed.
Lemma current_token_run k t tcb :
  processor k = Some t → tasks k !! t = Some tcb → memory_set tcb = ms → current_user_token k = Ok (MemorySet_token ms, k).
Proof.
  intros Hp Ht Hms. unfold current_user_token. erewrite bind_Ok by (by apply current_run).
  erewrite bind_Ok by (by apply get_task_run). unfold TaskControlBlockInner_get_user_token. by rewrite Hms.
Qed.

Lemma sys_read_spec k t tcb fd f w self d off buf len mem :
  on_fd k t tcb fd f (OSInode true w (Z.of_nat off) self) →
  inode_at self d (disk k) → fl_fs_locked (disk k) = false → room 2 (disk k) →
  usermem mem (mm k) → lo ≤ buf → 0 ≤ len → buf + len ≤ hi → Z.of_nat off + len < 2 ^ 63 →
  let c := content d (disk k) in
  let n := Nat.min (Z.to_nat len) (left_from off c) in
  wp (sys_read fd buf len) k (λ r k', r = Return (Z.of_nat n) ∧ ∃ s',
    k' = set_files (<[f := OSInode true w (Z.of_nat (off + n)) self]> (files k)) (set_mm s' k) ∧
    usermem (fill buf (sub_list off n c) mem) s').
Proof.
  intros Hon Hat Hl Hroom Hm Hbuf Hlen Hend Hoff c n. unfold sys_read. destruct Hon as [Hp Ht Hms Hfd Hslot Hfile].
  eapply wp_bind_Ok; [by apply (current_token_run k t tcb)|].
  eapply (on_fd_prefix k t tcb fd f); [by split|].
  cbn [File_readable negb].
  apply wp_bind, wp_in_mm. eapply wp_mono; [by apply (wp_buffers l r ms lo hi s0) with (mem := mem)|].
  intros bufs s (-> & Hsp & Hbl). replace (set_mm (mm k) k) with k by (by destruct k).
  unfold File_read. apply wp_bind, wp_bind, wp_gets, wp_unwrap_ub. exists (OSInode true w (Z.of_nat off) self). split; [done|].
  cbv beta iota. rewrite wp_bind. unfold OSInode_read. rewrite wp_bind. subst len.
  eapply wp_mono; [apply (read_bufs_spec self d k bufs buf off 0 mem); (done || lia)|].
  intros res k' (-> & s' & -> & Hm'). apply wp_bind, wp_upd, wp_ret, wp_ret. split; [done|]. by exists s'.
Qed.

(** * Writing a file *)

(** The loop of [OSInode::write], after [b1] has been written from [off] on. *)
Lemma write_bufs_spec efs L self d f off k bufs a b1 d1 total mem :
  file_on efs L self d f → Z.of_nat off ≤ di_size d →
  file_appended efs L self d f off b1 d1 (disk k) →
  usermem mem (mm k) → lo ≤ a → spans a bufs → 0 ≤ total → total + bufs_len bufs < 2 ^ 63 →
  Z.of_nat (off + length b1) + bufs_len bufs ≤ max_file_size →
  (new_blocks d (Z.of_nat (off + length b1) + bufs_len bufs) ≤ length (free_bits efs L f))%nat →
  wp (mfold (λ b '(offset, total),
      data ← in_mm (Buf_get b);
      write_size ← in_disk (Inode_write_at efs self offset data);
      assert_ (write_size =? buf_len b);;
      mret (offset +₆₄ write_size, total +₆₄ write_size)) bufs (Z.of_nat (off + length b1), total)) k
    (λ res k', res = (Z.of_nat (off + length b1) + bufs_len bufs, total + bufs_len bufs) ∧
       ∃ d' f', k' = set_disk f' k ∧ file_appended efs L self d f off (b1 ++ (mem <$> seqZ a (bufs_len bufs))) d' f').
Proof.
  intros Hf Hoff. revert k a b1 d1 total.
  induction bufs as [|b bufs IH]; intros k a b1 d1 total Happ Hm Ha Hsp Ht Htot Hmax Hfree.
  { apply wp_ret. split; [f_equal; cbn; lia|]. exists d1, (disk k). split; [by destruct k|].
    cbn. by rewrite app_nil_r. }
  assert (0 ≤ bufs_len (b :: bufs)) as Hrest by by eapply spans_len.
  destruct Hsp as (Hb & Hpage & Htop & Hloc & Hbo & Hsp).
  assert (0 ≤ bufs_len bufs) as Hrest' by by eapply spans_len.
  cbn [bufs_len foldr] in *. fold (bufs_len bufs) in *. set (data := mem <$> seqZ a (buf_len b)).
  assert (Z.of_nat (length data) = buf_len b) as Hdata by (unfold data; rewrite length_fmap, length_seqZ; lia).
  pose proof (ia_wf _ _ _ (fo_inode _ _ _ _ _ Hf)) as Hwf. pose proof (wf_size _ _ Hwf) as Hsz.
  change max_file_size with 8468480 in *.
  assert (Z.of_nat (off + length b1) ≤ di_size d1) as Hoff1 by (rewrite (fa_size _ _ _ _ _ _ _ _ _ Happ); lia).
  assert (new_blocks d1 (Z.of_nat (off + length b1 + length data)) ≤ length (free_bits efs L (disk k)))%nat as Hfree1.
  { rewrite (fa_free _ _ _ _ _ _ _ _ _ Happ), length_drop.
    pose proof (new_blocks_add d d1 (Z.of_nat (off + length b1)) (Z.of_nat (off + length b1 + length data))
      (fa_size _ _ _ _ _ _ _ _ _ Happ)) as Hadd.
    pose proof (new_blocks_mono d (Z.of_nat (off + length b1 + length data)) (Z.of_nat (off + length b1) + (buf_len b + bufs_len bufs))) as Hmono.
    change max_file_size with 8468480 in *. lia. }
  cbn [mfold]. apply wp_bind. eapply wp_bind_Ok; [apply in_mm_run, (Buf_get_run l r ms lo hi s0) with (mem := mem); done|].
  apply wp_bind, wp_zoom. fold data.
  eapply wp_mono.
  { apply (Inode_write_at_run efs L self d1 (disk k) (off + length b1) data); [apply Happ|lia| |lia|change max_file_size with 8468480; lia|done].
    by apply (usermem_bytes l r ms lo hi s0) with (s := mm k). }
  intros n f1 (-> & d2 & Hw). apply wp_bind, wp_assert. split; [lia|]. apply wp_ret. rewrite !wrap_small by lia.
  assert (file_appended efs L self d f off (b1 ++ data) d2 f1) as Happ2 by (eapply file_appended_trans; try done; change max_file_size with 8468480; lia).
  pose proof (IH (set_disk f1 k) (a + buf_len b) (b1 ++ data) d2 (total + Z.of_nat (length data)) Happ2 Hm) as H2.
  rewrite length_app in H2. rewrite <-Nat2Z.inj_add, <-Nat.add_assoc. eapply wp_mono; [apply H2; [lia|done|lia|lia|lia|]|].
  { eapply Nat.le_trans; [|exact Hfree]. apply new_blocks_mono; change max_file_size with 8468480; lia. }
  intros res k' (-> & d' & f' & -> & Happ'). split; [f_equal; lia|]. exists d', f'. split; [done|].
  rewrite seqZ_app, fmap_app by lia. fold data. by rewrite app_assoc.
Qed.

Lemma sys_write_file_spec efs root_ L k t tcb fd f rd self d off buf len mem :
  on_fd k t tcb fd f (OSInode rd true (Z.of_nat off) self) → root k = Some (efs, root_) →
  file_on efs L self d (disk k) → Z.of_nat off ≤ di_size d →
  usermem mem (mm k) → lo ≤ buf → 0 ≤ len → buf + len ≤ hi → Z.of_nat off + len ≤ max_file_size →
  (new_blocks d (Z.of_nat off + len) ≤ length (free_bits efs L (disk k)))%nat →
  wp (sys_write fd buf len) k (λ r k', r = Return len ∧ ∃ d' f',
    k' = set_files (<[f := OSInode rd true (Z.of_nat off + len) self]> (files k)) (set_disk f' k) ∧
    file_appended efs L self d (disk k) off (mem <$> seqZ buf len) d' f').
Proof.
  intros Hon Hr Hf Hoff Hm Hbuf Hlen Hend Hmax Hfree. unfold sys_write. destruct Hon as [Hp Ht Hms Hfd Hslot Hfile].
  eapply wp_bind_Ok; [by apply (current_token_run k t tcb)|].
  eapply (on_fd_prefix k t tcb fd f); [by split|]. cbn [File_writable negb].
  apply wp_bind, wp_in_mm. eapply wp_mono; [by apply (wp_buffers l r ms lo hi s0) with (mem := mem)|].
  intros bufs s (-> & Hsp & Hbl). replace (set_mm (mm k) k) with k by (by destruct k). subst len.
  unfold File_write. apply wp_bind, wp_bind, wp_gets, wp_unwrap_ub.
  exists (OSInode rd true (Z.of_nat off) self). split; [done|]. cbv beta iota. rewrite wp_bind. unfold OSInode_write.
  eapply wp_bind_Ok. { unfold ROOT_INODE. erewrite bind_Ok by reflexivity. by rewrite Hr. }
  cbv beta iota. rewrite wp_bind. rewrite <-(Nat.add_0_r off). change max_file_size with 8468480 in Hmax.
  eapply wp_mono.
  { apply (write_bufs_spec efs L self d (disk k) off k bufs buf [] d 0 mem); try done; try (by apply file_appended_nil);
      rewrite ?Nat.add_0_r; change max_file_size with 8468480; (done || lia). }
  intros res k' (-> & d' & f' & -> & Happ). apply wp_bind, wp_upd, wp_ret, wp_ret. split; [done|].
  exists d', f'. cbn [length]. by rewrite !Nat.add_0_r.
Qed.

(** * Printing *)

Lemma user_buffers_len a bufs total :
  spans a bufs → 0 ≤ total → total + bufs_len bufs < 2 ^ 63 →
  foldl (λ total b, total +₆₄ buf_len b) total bufs = total + bufs_len bufs.
Proof.
  revert a total. induction bufs as [|b bufs IH]; intros a total Hsp Ht Hlt; [cbn; lia|].
  destruct Hsp as (Hb & _ & _ & _ & _ & Hsp). assert (0 ≤ bufs_len bufs) as Hrest by by eapply spans_len.
  cbn [bufs_len foldr foldl] in *. fold (bufs_len bufs) in *. rewrite wrap_small by lia.
  rewrite (IH _ _ Hsp); lia.
Qed.
(** Each buffer has to be valid UTF-8 of its own, as ASCII text is. *)
Lemma stdout_bufs_spec k bufs a mem :
  usermem mem (mm k) → lo ≤ a → spans a bufs → ascii (mem <$> seqZ a (bufs_len bufs)) = true →
  wp (mfor (λ b, s ← in_mm (Buf_get b); assert_ (utf8_valid s);; print s) bufs) k
    (λ _ k', k' = set_console_out (console_out k ++ (mem <$> seqZ a (bufs_len bufs))) k).
Proof.
  revert k a. induction bufs as [|b bufs IH]; intros k a Hm Ha Hsp Hu.
  { apply wp_ret. cbn. rewrite app_nil_r. by destruct k. }
  destruct Hsp as (Hb & Hpage & Htop & Hloc & Hbo & Hsp). assert (0 ≤ bufs_len bufs) as Hrest by by eapply spans_len.
  unfold mfor in *. cbn [mfold]. apply wp_bind. cbn [bufs_len foldr] in *. fold (bufs_len bufs) in *.
  rewrite seqZ_app, fmap_app in Hu |- * by lia. rewrite ascii_app in Hu. apply andb_true_iff in Hu as [Hu Hus].
  eapply wp_bind_Ok; [apply in_mm_run, (Buf_get_run l r ms lo hi s0) with (mem := mem); done|].
  apply wp_bind, wp_assert. split; [by apply utf8_ascii|]. apply wp_upd.
  eapply wp_mono; [apply (IH _ (a + buf_len b)); [exact Hm|lia|done|done]|].
  intros [] k' ->. cbn [console_out set_console_out]. by rewrite app_assoc.
Qed.
Lemma sys_write_stdout_spec k t tcb fd f buf len mem :
  on_fd k t tcb fd f Stdout → usermem mem (mm k) → lo ≤ buf → 0 ≤ len → buf + len ≤ hi →
  ascii (mem <$> seqZ buf len) = true →
  wp (sys_write fd buf len) k (λ res k', res = Return len ∧
    k' = set_console_out (console_out k ++ (mem <$> seqZ buf len)) k).
Proof.
  intros Hon Hm Hbuf Hlen Hend Hascii. unfold sys_write. destruct Hon as [Hp Ht Hms Hfd Hslot Hfile].
  eapply wp_bind_Ok; [by apply (current_token_run k t tcb)|].
  eapply (on_fd_prefix k t tcb fd f); [by split|]. cbn [File_writable negb].
  apply wp_bind, wp_in_mm. eapply wp_mono; [by apply (wp_buffers l r ms lo hi s0) with (mem := mem)|].
  intros bufs s (-> & Hsp & Hbl). replace (set_mm (mm k) k) with k by (by destruct k). subst len.
  unfold File_write. apply wp_bind, wp_bind, wp_gets, wp_unwrap_ub. exists Stdout. split; [done|]. cbv beta iota. rewrite wp_bind.
  unfold Stdout_write. rewrite wp_bind. eapply wp_mono; [by apply (stdout_bufs_spec k bufs buf mem)|].
  intros [] k' ->. apply wp_ret, wp_ret. split; [|done]. f_equal. unfold UserBuffer_len.
  rewrite (user_buffers_len buf bufs 0 Hsp); lia.
Qed.
End calls.

(** * The properties *)

(** C40: [write] on a file, from the registers of the call to the disk.  When the
    buffer lies in the mapped window of the program's memory, on however many
    pages, and the grown file fits, the call returns the number of bytes; the
    contents of the file are the old ones with the program's bytes written over
    them at the file's offset, the size is the larger of the old one and the end of
    the data, the file keeps its blocks and takes exactly the lowest free ones it
    needs, its offset has moved behind the data, and nothing else of the kernel or
    of the disk changes. *)
Theorem sys_write_file_content `{!Platform} l r lo hi efs rt L (k : Kernel Flat) t tcb fd f rd self d off buf len mem :
  0 ≤ lo → hi < 2 ^ 39 → usermem l r (memory_set tcb) lo hi (mm k) mem (mm k) →
  on_fd (memory_set tcb) k t tcb fd f (OSInode rd true (Z.of_nat off) self) → root k = Some (efs, rt) →
  file_on efs L self d (disk k) → Z.of_nat off ≤ di_size d →
  lo ≤ buf → 0 ≤ len → buf + len ≤ hi → Z.of_nat off + len ≤ max_file_size →
  let n := new_blocks d (Z.of_nat off + len) in
  (n ≤ length (free_bits efs L (disk k)))%nat →
  wp (sys_write fd buf len) k (λ res k', res = Return len ∧ ∃ d' f',
    k' = set_files (<[f := OSInode rd true (Z.of_nat off + len) self]> (files k)) (set_disk f' k) ∧
    file_on efs L self d' f' ∧ same_meta d d' ∧ di_size d' = Z.max (di_size d) (Z.of_nat off + len) ∧
    content d' f' = take off (content d (disk k)) ++ (mem <$> seqZ buf len) ++ drop (off + Z.to_nat len) (content d (disk k)) ∧
    owned d' f' = owned d (disk k) ++ (data_block efs <$> take n (free_bits efs L (disk k))) ∧
    free_bits efs L f' = drop n (free_bits efs L (disk k)) ∧
    same_outside (in_block_id self :: bitmap_blocks (data_bitmap efs) ++ owned d' f') (disk k) f').
Proof.
  intros Hlo Hhi Hm Hon Hr Hf Hoff Hbuf Hlen Hend Hmax n Hfree. pose proof (ms_root_bound _ _ _ _ (um_wf _ _ _ _ _ _ _ _ Hm)) as Hroot.
  eapply wp_mono; [by apply (sys_write_file_spec l r (memory_set tcb) lo hi (mm k) Hroot Hlo Hhi efs rt L k t tcb fd f rd self d off buf len mem)|].
  intros res k' (-> & d' & f' & -> & [H1 H2 H3 H4 H5 H6 H7]). split; [done|]. exists d', f'.
  rewrite length_fmap, length_seqZ in *. rewrite Nat2Z.inj_add, Z2Nat.id in * by done. done.
Qed.

(** C9: What a program writes to a file it reads back.  After a [write] through one
    descriptor, a [read] of as many bytes through another, opened on the same file
    and at the offset the data went to, returns all of them and leaves exactly the
    bytes written in the buffer of the [read]; the rest of the program's window
    is as it was. *)
Theorem file_write_read_back `{!Platform} l r lo hi efs rt L (k : Kernel Flat) t tcb wfd wf rd rfd rf wr self d off src dst len mem :
  0 ≤ lo → hi < 2 ^ 39 → usermem l r (memory_set tcb) lo hi (mm k) mem (mm k) →
  on_fd (memory_set tcb) k t tcb wfd wf (OSInode rd true (Z.of_nat off) self) →
  on_fd (memory_set tcb) k t tcb rfd rf (OSInode true wr (Z.of_nat off) self) → rf ≠ wf →
  root k = Some (efs, rt) → file_on efs L self d (disk k) → Z.of_nat off ≤ di_size d →
  lo ≤ src → src + len ≤ hi → lo ≤ dst → dst + len ≤ hi → 0 ≤ len → Z.of_nat off + len ≤ max_file_size →
  (new_blocks d (Z.of_nat off + len) ≤ length (free_bits efs L (disk k)))%nat →
  wp (sys_write wfd src len;; sys_read rfd dst len) k (λ res k', res = Return len ∧
    usermem l r (memory_set tcb) lo hi (mm k) (fill dst (mem <$> seqZ src len) mem) (mm k')).
Proof.
  intros Hlo Hhi Hm Hw Hrd Hne Hr Hf Hoff Hs Hse Hd Hde Hlen Hmax Hfree.
  pose proof (ms_root_bound _ _ _ _ (um_wf _ _ _ _ _ _ _ _ Hm)) as Hroot. apply wp_bind.
  eapply wp_mono; [by apply (sys_write_file_spec l r (memory_set tcb) lo hi (mm k) Hroot Hlo Hhi efs rt L k t tcb wfd wf rd self d off src len mem)|].
  intros _ k' (_ & d' & f' & -> & Happ). pose proof (fa_on _ _ _ _ _ _ _ _ _ Happ) as Hf'.
  change max_file_size with 8468480 in Hmax.
  assert (room 2 f') as Hroom by (unfold room, BLOCK_CACHE_MAX_NUM; rewrite (fo_held _ _ _ _ _ Hf'), size_empty; lia).
  set (data := mem <$> seqZ src len) in *. assert (Z.of_nat (length data) = len) as Hdl by (unfold data; rewrite length_fmap, length_seqZ; lia).
  assert (length (take off (content d (disk k))) = off) as Hto.
  { rewrite length_take, length_content by apply (ia_wf _ _ _ (fo_inode _ _ _ _ _ Hf)). lia. }
  set (k' := set_files _ _). eapply wp_mono.
  { apply (sys_read_spec l r (memory_set tcb) lo hi (mm k) Hroot Hlo Hhi k' t tcb rfd rf wr self d' off dst len mem);
      [|apply Hf'|apply Hf'|exact Hroom|exact Hm|done|done|done|lia].
    destruct Hrd as [H1 H2 H3 H4 H5 H6]. split; try done. cbn. by rewrite lookup_insert_ne. }
  cbv zeta. change (disk k') with f'. rewrite (fa_content _ _ _ _ _ _ _ _ _ Happ). intros res k2 (-> & s' & -> & Hm2).
  assert (Nat.min (Z.to_nat len) (left_from off (take off (content d (disk k)) ++ data ++ drop (off + length data) (content d (disk k))))
    = length data) as Hn by (unfold left_from; rewrite !length_app, Hto; lia).
  rewrite Hn in *. split; [by f_equal|]. cbn [mm set_files set_mm].
  eapply usermem_ext; [exact Hm2|]. intros va _. do 2 f_equal. unfold sub_list.
  rewrite drop_app_length' by done. by rewrite take_app_length.
Qed.

(** * Witnesses: a file of 600 bytes opened twice, at its end *)

Definition ex_io_task (ms : MemorySet) : TaskControlBlock :=
  MkTask 1 1 2 0 16 0 TaskContext_zero_init Running ms None [] 0 [Some 0%nat; None; Some 1%nat] 0 0 (-1)
    SignalActions_default false false None.
Definition ex_io_kernel (ms : MemorySet) (s : Mm) : Kernel Flat :=
  MkKernel s (MkMemorySet (MkPageTable 0 []) []) ex_small_disk (Some (ex_efs, ex_self)) PidAllocator_new {[7%nat := ex_io_task ms]}
    {[0%nat := OSInode false true 600 ex_self; 1%nat := OSInode true false 600 ex_self]} ∅ 2
    (MkTaskManager ∅ StrideScheduler_new) (Some 7%nat) None [] [] 0 0.
#[local] Existing Instance bare_platform.

Lemma ex_io_space : ∃ ms s, usermem 100 120 ms 20480 22528 s (mem_of s ms) s.
Proof.
  destruct ex_full_space as (ms & s & Hwf & Hok & _ & _ & _ & a & q & Ha & Hq). exists ms, s.
  apply usermem_start; [exact Hwf|]. intros va Hva. exists q. replace (va / 4096) with 5 by lia.
  assert (held ms 5 q) as Hh by (by exists a). split; [exact Hh|by eapply Hok].
Qed.
Lemma ex_io_free : (new_blocks ex_small (600 + 1000) ≤ length (free_bits ex_efs 33 ex_small_disk))%nat.
Proof. apply (bool_decide_unpack _). vm_compute. exact I. Qed.
Lemma ex_io_max : 600 + 1000 ≤ max_file_size.
Proof. change max_file_size with 8468480. lia. Qed.

Lemma sys_write_file_content_witness :
  ∃ ms s, wp (sys_write 0 20480 1000) (ex_io_kernel ms s) (λ res k', res = Return 1000 ∧ ∃ d',
    di_size d' = 1600 ∧ owned d' (disk k') = [31; 32; 33; 34] ∧
    content d' (disk k') = content ex_small ex_small_disk ++ (mem_of s ms <$> seqZ 20480 1000)).
Proof.
  destruct ex_io_space as (ms & s & Hm). exists ms, s. eapply wp_mono.
  - apply (sys_write_file_content 100 120 20480 22528 ex_efs ex_self 33 (ex_io_kernel ms s) 7 (ex_io_task ms) 0 0 false ex_self ex_small 600
      20480 1000 (mem_of s ms)); [lia|lia|exact Hm|by split|done|exact ex_small_on|cbn; lia|lia|lia|lia|exact ex_io_max|exact ex_io_free].
  - intros res k' (-> & d' & f' & -> & _ & _ & Hsz & Hc & Ho & _). split; [done|]. exists d'. cbn [disk set_files set_disk].
    change (disk (ex_io_kernel ms s)) with ex_small_disk in Hc, Ho.
    assert (length (content ex_small ex_small_disk) = 600%nat) as Hl by (vm_compute; reflexivity).
    rewrite firstn_all2, drop_ge, app_nil_r in Hc by (rewrite Hl; cbn; lia). split; [exact Hsz|]. split; [|exact Hc].
    rewrite Ho. vm_compute. reflexivity.
Defined.
Lemma file_write_read_back_witness :
  ∃ ms s, wp (sys_write 0 20480 1000;; sys_read 2 21500 1000) (ex_io_kernel ms s) (λ res k', res = Return 1000 ∧
    usermem 100 120 ms 20480 22528 s (fill 21500 (mem_of s ms <$> seqZ 20480 1000) (mem_of s ms)) (mm k')).
Proof.
  destruct ex_io_space as (ms & s & Hm). exists ms, s.
  apply (file_write_read_back 100 120 20480 22528 ex_efs ex_self 33 (ex_io_kernel ms s) 7 (ex_io_task ms) 0 0 false 2 1 false ex_self ex_small 600
      20480 21500 1000 (mem_of s ms)); [lia|lia|exact Hm|by split|by split|lia|done|exact ex_small_on|cbn; lia|lia|lia|lia|lia|lia|exact ex_io_max|exact ex_io_free].
Defined.
