(* ===== verification/FileServe.v ===== *)
(** The kernel is the server that programs like [cat] run on: its calls [read],
    [write], [open] and [close] answer as [serve] says, with the buffers in the
    program's memory. *)

From S2P Require Export UserFiles FileCalls FdSpec SignalSpec.

Section serve.
Context `{!Platform}.
Context (l r : Z) (lo hi : Z) (efs : EasyFileSystem) (rt : Inode) (slack : nat).
Context (Hlo : 0 ≤ lo) (Hhi : hi < 2 ^ 39).
Implicit Types (k : Kernel Flat) (mem : Z → Z) (v : server).

(** Where inode [i] lies. *)
Definition inode_of (i : Z) : Inode := Inode_new (EasyFileSystem_get_disk_inode_pos efs i).

(** An open file as the server keeps it. *)
Definition obj_view k v (obj : FileObj) (o : vfile) : Prop :=
  match o with
  | VStdin => obj = Stdin
  | VStdout => obj = Stdout
  | VFile rd w off i => obj = OSInode rd w (Z.of_nat off) (inode_of i) ∧ Z.of_nat off ≤ 2 ^ 62 ∧
      ∃ d, inode_at (inode_of i) d (disk k) ∧ sv_data v !! i = Some (content d (disk k))
  end.

(** The kernel as the server [v], for the current task [t], whose memory holds
    [mem] between [lo] and [hi]. *)
Record views (k : Kernel Flat) (t : nat) (tcb : TaskControlBlock) (mem : Z → Z) (v : server) : Prop := {
  vw_current : processor k = Some t;
  vw_task : tasks k !! t = Some tcb;
  vw_root : 0 ≤ ms_root (memory_set tcb) < 2 ^ 44;
  vw_memory : usermem l r (memory_set tcb) lo hi (mm k) mem (mm k);
  vw_fds : sv_fds v = fd_view (λ f, f) (fd_table tcb);
  vw_next : sv_next v = next_object k;
  vw_old f : Some f ∈ fd_table tcb → (f < next_object k)%nat;
  vw_open f o : (f < next_object k)%nat → sv_open v !! f = Some o → ∃ obj, files k !! f = Some obj ∧ obj_view k v obj o;
  vw_quiet : fl_fs_locked (disk k) = false ∧ room 2 (disk k);
  vw_fs : root k = Some (efs, rt);
  vw_dir : ∃ d, inode_at rt d (disk k) ∧ dir_wf d (disk k) ∧ sv_dir v = dir_list d (disk k);
  vw_files i c : sv_data v !! i = Some c → ∃ d, inode_at (inode_of i) d (disk k) ∧ c = content d (disk k);
  vw_out : sv_out v = console_out k;
  vw_room : (length (fd_table tcb) ≤ slack + next_object k)%nat }.

(** What a call leaves alone: everything of the task but its descriptors, and every
    frame outside the window. *)
Definition kept (k : Kernel Flat) (tcb : TaskControlBlock) (k' : Kernel Flat) (tcb' : TaskControlBlock) : Prop :=
  (∃ fds', tcb' = set_fd_table fds' tcb) ∧
  ∀ q, (∀ va, lo ≤ va < hi → ¬ held (memory_set tcb) (va / 4096) q) → page_at (mm k') q = page_at (mm k) q.
Lemma kept_refl k tcb : kept k tcb k tcb.
Proof. split; [|done]. exists (fd_table tcb). by destruct tcb. Qed.
Lemma kept_fds k tcb k' fds' : mm k' = mm k → kept k tcb k' (set_fd_table fds' tcb).
Proof. intros Hm. split; [by eexists|]. intros q _. by rewrite Hm. Qed.

(** The registers of a call and what it passes in memory. *)
Definition passed mem (a : arg) (x : Z) : Prop :=
  match a with
  | Word w => x = wrap 64 w
  | Bytes s | Buffer s => lo ≤ x ∧ x + Z.of_nat (length s) ≤ hi ∧ s = mem <$> seqZ x (Z.of_nat (length s))
  | Strings _ => False
  end.

(** A descriptor the server knows. *)
Lemma view_slot k t tcb mem v fd f :
  views k t tcb mem v → sv_fds v !! fd = Some f → 0 ≤ fd ∧ fd_table tcb !! Z.to_nat fd = Some (Some f).
Proof.
  intros Hv Hf. rewrite (vw_fds _ _ _ _ _ Hv), lookup_fd_view in Hf. case_decide; [|done]. split; [done|].
  destruct (fd_table tcb !! Z.to_nat fd) as [[g|]|]; cbn in Hf; congruence.
Qed.
Lemma view_file k t tcb mem v fd f o :
  views k t tcb mem v → sv_fds v !! fd = Some f → sv_open v !! f = Some o →
  ∃ obj, on_fd (memory_set tcb) k t tcb fd f obj ∧ obj_view k v obj o ∧ (f < next_object k)%nat.
Proof.
  intros Hv Hf Ho. destruct (view_slot k t tcb mem v fd f Hv Hf) as [Hfd Hslot].
  assert (f < next_object k)%nat as Hlt by (eapply (vw_old _ _ _ _ _ Hv), list_elem_of_lookup_2, Hslot).
  destruct (vw_open _ _ _ _ _ Hv f o Hlt Ho) as (obj & Hobj & Hview). exists obj. split; [|done].
  split; [apply Hv|apply Hv|done|done|done|done].
Qed.
(** A descriptor that is not open. *)
Lemma view_closed {A} k t tcb mem v fd (other : M (Kernel Flat) A) (g : nat → M (Kernel Flat) A) Q :
  views k t tcb mem v → sv_fds v !! fd = None → 0 ≤ fd → wp other k Q →
  wp ('(_, fds) ← current_fds;
      if Z.of_nat (length fds) <=? fd then other else
      file ← index fds fd;
      match file with Some file => g file | None => other end) k Q.
Proof.
  intros Hv Hf Hfd Ho. eapply (wp_bind_Ok _ _ _ (t, fd_table tcb)).
  { by apply current_fds_run; [apply Hv|apply Hv]. }
  cbv beta iota. destruct (Z.leb_spec (Z.of_nat (length (fd_table tcb))) fd) as [Hge|Hlt]; [done|].
  rewrite (vw_fds _ _ _ _ _ Hv), lookup_fd_view, decide_True in Hf by done.
  apply wp_bind, wp_index. split; [done|]. destruct (lookup_lt_is_Some_2 (fd_table tcb) (Z.to_nat fd)) as [[g'|] Hg]; [lia|..].
  - rewrite Hg in Hf. cbn in Hf. congruence.
  - exists None. by split.
Qed.

Lemma usermem_rebase ms s0 mem s : usermem l r ms lo hi s0 mem s → usermem l r ms lo hi s mem s.
Proof. intros [H1 H2 _ _]. by split. Qed.
Lemma view_token k t tcb mem v : views k t tcb mem v → current_user_token k = Ok (MemorySet_token (memory_set tcb), k).
Proof. intros Hv. eapply (current_token_run (memory_set tcb) k t tcb); [apply Hv|apply Hv|done]. Qed.
Lemma obj_view_ext k k' v v' obj o :
  disk k' = disk k → sv_data v' = sv_data v → obj_view k v obj o → obj_view k' v' obj o.
Proof. intros Hd Hs. unfold obj_view. destruct o; try done. by rewrite Hd, Hs. Qed.

(** ** Reading *)

Lemma serve_read_run k t tcb mem v fd buf len a l' v' :
  views k t tcb mem v → 0 ≤ fd → lo ≤ buf → 0 ≤ len → buf + len ≤ hi →
  serve_read fd (mem <$> seqZ buf len) v = Some (a, l', v') →
  wp (sys_read fd buf len) k (λ res k', res = Return a ∧ views k' t tcb (fill buf l' mem) v' ∧ kept k tcb k' tcb).
Proof.
  intros Hv Hfd Hbuf Hlen Hend Hs. unfold serve_read in Hs.
  assert (∀ u, (mem <$> seqZ buf len) = u → views k t tcb (fill buf u mem) v) as Hsame.
  { intros u <-. destruct Hv as [H1 H2 H3 H4 H5 H6 H7 H8 H9 H10 H11 H12 H13 H14]. split; try done.
    eapply usermem_ext; [exact H4|]. intros va _. apply fill_self. }
  destruct (sv_fds v !! fd) as [f|] eqn:Hf.
  2:{ injection Hs as <- <- <-. unfold sys_read. eapply wp_bind_Ok; [by eapply view_token|].
      eapply view_closed; [exact Hv|done|done|]. apply wp_ret. split; [done|]. split; [by apply Hsame|apply kept_refl]. }
  destruct (sv_open v !! f) as [o|] eqn:Ho; [|done].
  destruct (view_file k t tcb mem v fd f o Hv Hf Ho) as (obj & Hon & Hview & Hlt).
  destruct o as [| |rd w off i]; [done|..].
  { injection Hs as <- <- <-. cbn in Hview. subst obj. unfold sys_read. eapply wp_bind_Ok; [by eapply view_token|].
    eapply on_fd_prefix; [exact Hon|]. cbn. split; [done|]. split; [by apply Hsame|apply kept_refl]. }
  destruct Hview as (-> & Hoff & d & Hat & Hdata). destruct rd.
  2:{ injection Hs as <- <- <-. unfold sys_read. eapply wp_bind_Ok; [by eapply view_token|].
      eapply on_fd_prefix; [exact Hon|]. cbn. split; [done|]. split; [by apply Hsame|apply kept_refl]. }
  rewrite Hdata in Hs. cbn in Hs. injection Hs as <- <- <-. destruct (vw_quiet _ _ _ _ _ Hv) as [Hl Hroom].
  eapply wp_mono.
  { eapply (sys_read_spec l r (memory_set tcb) lo hi (mm k)); try exact Hon; try done; [apply Hv|apply Hv|lia]. }
  cbv zeta. rewrite length_fmap, length_seqZ. intros res k' (-> & s' & -> & Hm'). set (c := content d (disk k)) in *.
  unfold left_from. set (n := (Z.to_nat len `min` (length c - off))%nat) in *. split; [done|].
  assert (length (sub_list off n c) = n) as Hn by (rewrite length_sub_list_any; lia).
  pose proof (length_content d (disk k) (ia_wf _ _ _ Hat)) as Hcl. pose proof (wf_size _ _ (ia_wf _ _ _ Hat)) as Hsz.
  change max_file_size with 8468480 in Hsz.
  split; [|split; [exact (proj1 (kept_refl k tcb))|apply (um_others _ _ _ _ _ _ _ _ Hm')]].
  destruct Hv as [H1 H2 H3 H4 H5 H6 H7 H8 H9 H10 H11 H12 H13 H14]. split; try done.
  - apply (usermem_rebase _ (mm k)). eapply usermem_ext; [exact Hm'|]. intros va _. rewrite <-Hn at 2.
    rewrite (fill_partial mem buf (sub_list off n c) len) by lia. done.
  - intros f' o' Hf' Ho'. cbn [sv_open sv_set_open] in Ho'. cbn [files set_files set_mm].
    destruct (decide (f' = f)) as [->|Hne].
    + rewrite lookup_insert_eq in Ho'. injection Ho' as <-. rewrite lookup_insert_eq. eexists. split; [done|].
      split; [done|]. split; [unfold c in *; lia|]. by exists d.
    + rewrite lookup_insert_ne in Ho' by done. rewrite lookup_insert_ne by done.
      destruct (H8 f' o' Hf' Ho') as (obj' & Hobj' & Hview'). exists obj'. split; [done|].
      by apply (obj_view_ext k _ v).
Qed.

(** ** Printing *)

Lemma serve_write_run k t tcb mem v fd buf len a l' v' :
  views k t tcb mem v → 0 ≤ fd → lo ≤ buf → 0 ≤ len → buf + len ≤ hi →
  serve_write fd (mem <$> seqZ buf len) v = Some (a, l', v') →
  wp (sys_write fd buf len) k (λ res k', res = Return a ∧ views k' t tcb mem v' ∧ kept k tcb k' tcb).
Proof.
  intros Hv Hfd Hbuf Hlen Hend Hs. unfold serve_write in Hs.
  destruct (sv_fds v !! fd) as [f|] eqn:Hf.
  2:{ injection Hs as <- <- <-. unfold sys_write. eapply wp_bind_Ok; [by eapply view_token|].
      eapply view_closed; [exact Hv|done|done|]. apply wp_ret. split_and!; [done|done|apply kept_refl]. }
  destruct (sv_open v !! f) as [o|] eqn:Ho; [|done].
  destruct (view_file k t tcb mem v fd f o Hv Hf Ho) as (obj & Hon & Hview & Hlt).
  assert (File_writable obj = false → (a, v') = (-1, v) →
    wp (sys_write fd buf len) k (λ res k', res = Return a ∧ views k' t tcb mem v' ∧ kept k tcb k' tcb)) as Hno.
  { intros Hw [= -> ->]. unfold sys_write. eapply wp_bind_Ok; [by eapply view_token|].
    eapply on_fd_prefix; [exact Hon|]. cbv beta. rewrite Hw. apply wp_ret. split_and!; [done|done|apply kept_refl]. }
  destruct o as [| |rd [] off i]; cbn in Hview; try done.
  - subst obj. injection Hs as <- <- <-. by apply Hno.
  - subst obj. destruct (ascii _) eqn:Ha; [|done]. injection Hs as <- <- <-.
    eapply wp_mono; [eapply (sys_write_stdout_spec l r (memory_set tcb) lo hi (mm k)); try exact Hon; try done; apply Hv|].
    cbv beta. rewrite length_fmap, length_seqZ. intros res k' [-> ->]. split; [f_equal; lia|].
    split; [|exact (kept_refl k tcb)]. destruct Hv as [H1 H2 H3 H4 H5 H6 H7 H8 H9 H10 H11 H12 H13 H14]. split; try done. cbn. by rewrite H13.
  - injection Hs as <- <- <-. destruct Hview as [-> _]. by apply Hno.
Qed.

(** ** Closing *)

Lemma views_table k t tcb mem v fds' ids :
  views k t tcb mem v → ids = fd_view (λ f, f) fds' → (∀ f, Some f ∈ fds' → Some f ∈ fd_table tcb) → (length fds' ≤ length (fd_table tcb))%nat →
  views (with_fds t tcb fds' k) t (set_fd_table fds' tcb) mem (sv_set_fds ids v).
Proof.
  intros [H1 H2 H3 H4 H5 H6 H7 H8 H9 H10 H11 H12 H13 H14] -> Hsub Hlen. split; try done.
  - cbn. apply lookup_insert_eq.
  - intros f Hf. apply H7, Hsub, Hf.
  - cbn. lia.
Qed.
Lemma serve_close_run k t tcb mem v fd a l' v' :
  views k t tcb mem v → 0 ≤ fd → serve_close fd v = Some (a, l', v') →
  wp (sys_close fd) k (λ res k', res = a ∧ ∃ tcb', views k' t tcb' mem v' ∧ kept k tcb k' tcb').
Proof.
  intros Hv Hfd Hs. unfold serve_close in Hs. destruct (sv_fds v !! fd) as [f|] eqn:Hf.
  2:{ injection Hs as <- <- <-. unfold sys_close. eapply wp_bind_Ok; [apply current_fds_run; apply Hv|]. cbv beta iota.
      destruct (Z.leb_spec (Z.of_nat (length (fd_table tcb))) fd) as [Hge|Hlt]; [apply wp_ret; eauto using kept_refl|].
      rewrite (vw_fds _ _ _ _ _ Hv), lookup_fd_view, decide_True in Hf by done.
      apply wp_bind, wp_index. split; [done|]. destruct (lookup_lt_is_Some_2 (fd_table tcb) (Z.to_nat fd)) as [[g|] Hg]; [lia|..].
      - rewrite Hg in Hf. cbn in Hf. congruence.
      - exists None. split; [done|]. apply wp_ret. eauto using kept_refl. }
  injection Hs as <- <- <-. destruct (view_slot k t tcb mem v fd f Hv Hf) as [_ Hslot]. apply lookup_lt_Some in Hslot as Hlt.
  unfold sys_close. eapply wp_bind_Ok; [apply current_fds_run; apply Hv|]. cbv beta iota. rewrite (proj2 (Z.leb_gt _ _)) by lia.
  apply wp_bind, wp_index. split; [done|]. exists (Some f). split; [done|]. apply wp_bind, wp_set_index. split; [lia|].
  apply wp_bind. unfold update_task. eapply wp_bind_Ok; [apply get_task_run, Hv|]. apply wp_upd, wp_ret. split; [done|].
  exists (set_fd_table (<[Z.to_nat fd := None]> (fd_table tcb)) tcb). split; [|by apply kept_fds]. apply views_table; [done| | |].
  - rewrite (vw_fds _ _ _ _ _ Hv), fd_view_delete. by rewrite Z2Nat.id.
  - intros g (j & Hj)%list_elem_of_lookup. apply list_lookup_insert_Some in Hj as [(_ & ? & _)|[_ Hj]]; [done|].
    by eapply list_elem_of_lookup_2.
  - by rewrite length_insert.
Qed.

(** ** Opening *)

Lemma cstring_Some path name :
  cstring path = Some name → ∃ rest, path = name ++ 0 :: rest ∧ Forall (λ c, c ≠ 0) name.
Proof.
  revert name. induction path as [|c path IH]; intros name; [done|]. cbn.
  destruct (Z.eqb_spec c 0) as [->|Hc]; [intros [= <-]; by exists path|].
  destruct (cstring path) as [n|]; [|done]. intros [= <-]. destruct (IH n eq_refl) as (rest & -> & Hn).
  exists rest. split; [done|]. by constructor.
Qed.
Lemma open_file_run k t tcb mem v name :
  views k t tcb mem v →
  open_file name OpenFlags_RDONLY k = Ok ((λ i, OSInode true false 0 (inode_of i)) <$> dir_lookup name (sv_dir v), k).
Proof.
  intros Hv. destruct (vw_dir _ _ _ _ _ Hv) as (d & Hat & Hwf & ->). destruct (vw_quiet _ _ _ _ _ Hv) as [Hl Hroom].
  unfold open_file. change (OpenFlags_read_write OpenFlags_RDONLY) with (true, false). cbv beta iota.
  erewrite bind_Ok. 2: { unfold ROOT_INODE. erewrite bind_Ok by reflexivity. by rewrite (vw_fs _ _ _ _ _ Hv). }
  cbv beta iota. change (OpenFlags_contains OpenFlags_RDONLY OpenFlags_CREATE) with false. cbv iota.
  erewrite bind_Ok by (by apply in_disk_run', Inode_find_run). destruct (dir_lookup name _) as [i|]; done.
Qed.

(** A new descriptor for a file opened for reading. *)
Lemma views_opened k t tcb mem v i fd fds' :
  views k t tcb mem v → is_Some (sv_data v !! i) →
  fd_view (λ f, f) fds' = <[fd := next_object k]> (fd_view (λ f, f) (fd_table tcb)) →
  (∀ o, o ∈ fds' → o = Some (next_object k) ∨ o ∈ fd_table tcb) → (length fds' ≤ S (length (fd_table tcb)))%nat →
  views (with_fds t tcb fds' (set_files (<[next_object k := OSInode true false 0 (inode_of i)]> (files k))
      (set_next_object (S (next_object k)) k))) t (set_fd_table fds' tcb) mem
    (MkServer (<[fd := sv_next v]> (sv_fds v)) (<[sv_next v := VFile true false 0 i]> (sv_open v)) (S (sv_next v))
      (sv_dir v) (sv_data v) (sv_out v)).
Proof.
  intros [H1 H2 H3 H4 H5 H6 H7 H8 H9 H10 H11 H12 H13 H14] [c Hi] Hview Hsub Hlen. destruct (H12 i c Hi) as (d & Hat & ->). split; try done.
  - cbn. apply lookup_insert_eq.
  - cbn. by rewrite H6, H5, <-Hview.
  - cbn. by rewrite H6.
  - intros f Hf. cbn in *. destruct (Hsub _ Hf) as [[= ->]|Hin]; [lia|]. apply H7 in Hin. lia.
  - intros f o Hf Ho. cbn in Ho. rewrite H6 in Ho.
    change (files (with_fds _ _ _ _)) with (<[next_object k := OSInode true false 0 (inode_of i)]> (files k)).
    destruct (decide (f = next_object k)) as [->|Hne].
    + rewrite lookup_insert_eq in Ho. rewrite lookup_insert_eq. injection Ho as <-. eexists. split; [done|]. split; [done|]. split; [lia|by exists d].
    + rewrite lookup_insert_ne in Ho by done. rewrite lookup_insert_ne by done. cbn in Hf. destruct (H8 f o ltac:(lia) Ho) as (obj & Hobj & Hov).
      exists obj. split; [done|]. by apply (obj_view_ext k _ v).
  - cbn. lia.
Qed.
Lemma serve_open_run k t tcb mem v ptr path flags a l' v' :
  views k t tcb mem v → Z.of_nat (length (fd_table tcb)) < 2 ^ 63 → (length path < p_fuel)%nat →
  lo ≤ ptr → ptr + Z.of_nat (length path) ≤ hi → path = mem <$> seqZ ptr (Z.of_nat (length path)) →
  serve_open path flags v = Some (a, l', v') →
  wp (sys_open ptr flags) k (λ res k', res = a ∧ ∃ tcb', views k' t tcb' mem v' ∧ kept k tcb k' tcb').
Proof.
  intros Hv Hlen Hfuel Hptr Hend Hpath Hs. unfold serve_open in Hs.
  destruct (cstring path) as [name|] eqn:Hc; [|done]. cbn [mbind option_bind] in Hs.
  destruct (Z.eqb_spec flags UserLib.OpenFlags_RDONLY) as [->|]; [|done].
  destruct (cstring_Some _ _ Hc) as (rest & Hp & Hname).
  assert (length path = length name + S (length rest))%nat as Hpl by (rewrite Hp, length_app; cbn; lia).
  assert (bytes_at mem ptr (name ++ [0])) as Hb.
  { intros j b Hj. apply lookup_lt_Some in Hj as Hjl. rewrite length_app in Hjl. cbn in Hjl.
    assert (path !! j = Some b) as Hpj.
    { rewrite Hp. replace (name ++ 0 :: rest) with ((name ++ [0]) ++ rest) by (by rewrite <-app_assoc). by apply lookup_app_l_Some. }
    rewrite Hpath, list_lookup_fmap, lookup_seqZ_lt in Hpj by lia. cbn in Hpj. by injection Hpj. }
  unfold sys_open. eapply wp_bind_Ok; [apply current_run, Hv|]. eapply wp_bind_Ok; [by eapply view_token|].
  unfold user_str. rewrite wp_bind. apply wp_bind, wp_in_mm.
  eapply wp_mono.
  { apply (wp_translated_str l r (memory_set tcb) lo hi (mm k)) with (mem := mem) (str := name); (done || apply Hv || lia). }
  intros str s' [-> ->]. replace (set_mm (mm k) k) with k by (by destruct k). apply wp_ret.
  apply wp_bind, wp_unwrap. exists OpenFlags_RDONLY. split; [done|]. eapply wp_bind_Ok; [by eapply open_file_run|].
  destruct (dir_lookup (str_bytes name) (sv_dir v)) as [i|] eqn:Hd; cbn [fmap option_fmap option_map].
  2: { injection Hs as <- <- <-. apply wp_ret. eauto using kept_refl. }
  destruct (sv_data v !! i) as [c|] eqn:Hi; [|done]. cbn [mbind option_bind] in Hs.
  injection Hs as <- <- <-. set (k1 := set_files (<[next_object k := OSInode true false 0 (inode_of i)]> (files k)) (set_next_object (S (next_object k)) k)).
  eapply (wp_bind_Ok _ _ _ (next_object k) k1); [done|].
  destruct (install_fd_run k1 t tcb (next_object k)) as (j & fds' & Hinst & Hview & Hll & Hin); [apply Hv|done|].
  eapply wp_bind_Ok; [exact Hinst|]. destruct (Hview _ (λ f, f)) as [Hlow Hfds].
  assert (first_free (sv_fds v) = Z.of_nat j) as ->.
  { destruct (first_free_spec (sv_fds v)) as (Hf1 & Hf2 & Hf3). symmetry. rewrite (vw_fds _ _ _ _ _ Hv) in *.
    by eapply lowest_unique; [exact Hlow|lia|..]. }
  pose proof (proj1 Hlow) as Hj. apply wp_ret. split.
  - unfold signed. by rewrite wrap_small, (proj2 (Z.ltb_lt _ _)) by lia.
  - eexists. split; [|by apply kept_fds]. apply views_opened; [done|by eexists|done|done|done].
Qed.
End serve.

Lemma args3 (P : arg → Z → Prop) args a0 a1 a2 :
  Forall2 P args [a0; a1; a2] → ∃ x0 x1 x2, args = [x0; x1; x2] ∧ P x0 a0 ∧ P x1 a1 ∧ P x2 a2.
Proof.
  intros (x0 & l0 & H0 & (x1 & l1 & H1 & (x2 & l2 & H2 & ->%Forall2_nil_inv_r & ->)%Forall2_cons_inv_r & ->)%Forall2_cons_inv_r & ->)%Forall2_cons_inv_r.
  by exists x0, x1, x2.
Qed.

Lemma kernel_serves_run `{!Platform} l r lo hi efs rt slack (k : Kernel Flat) t tcb mem v id args a0 a1 a2 a3 a4 a bytes v' :
  0 ≤ lo → hi < 2 ^ 39 → views l r lo hi efs rt slack k t tcb mem v → Z.of_nat (length (fd_table tcb)) < 2 ^ 63 →
  hi - lo < Z.of_nat p_fuel → Forall2 (passed lo hi mem) args [a0; a1; a2] →
  serve id args v = Some (a, bytes, v') →
  wp (Syscall.syscall id a0 a1 a2 a3 a4) k (λ res k', res = Return a ∧ ∃ tcb',
    views l r lo hi efs rt slack k' t tcb' (match args with [_; Buffer _; _] => fill a1 bytes mem | _ => mem end) v' ∧ kept lo hi k tcb k' tcb').
Proof.
  intros Hlo Hhi Hv Htab Hfuel Hargs Hs. apply args3 in Hargs as (x0 & x1 & x2 & -> & H0 & H1 & H2).
  destruct x0 as [w0|s0| |], x1 as [w1|s1|s1|], x2 as [w2| | |]; try done; cbn [passed] in *.
  - cbn [serve] in Hs. destruct (Z.eqb_spec id UserLib.SYSCALL_CLOSE) as [->|]; [|done].
    subst a0. change (Syscall.syscall UserLib.SYSCALL_CLOSE ?fd a1 a2 a3 a4) with (Syscall.returns (sys_close fd) : M (Kernel Flat) _).
    unfold Syscall.returns. apply wp_bind. eapply wp_mono; [eapply (serve_close_run l r lo hi efs rt slack); [exact Hv|apply wrap_bound; lia|exact Hs]|].
    intros res k' (-> & tcb' & Hv'). apply wp_ret. eauto.
  - cbn [serve] in Hs. destruct (Z.eqb_spec id UserLib.SYSCALL_WRITE) as [->|]; [|done]. cbn [andb] in Hs.
    destruct (w2 =? Z.of_nat (length s1)) eqn:Ew; [|done]. apply Z.eqb_eq in Ew.
    destruct H1 as (Hb & He & Hs1). rewrite Ew, wrap_small in H2 by lia. subst a0 a2.
    change (Syscall.syscall UserLib.SYSCALL_WRITE ?fd a1 ?n a3 a4) with (Syscall.sys_write fd a1 n : M (Kernel Flat) _).
    rewrite Hs1 in Hs at 1.
    eapply wp_mono; [eapply (serve_write_run l r lo hi efs rt slack); [done|done|exact Hv|apply wrap_bound; lia|lia|lia|lia|exact Hs]|].
    intros res k' (-> & Hv'). eauto.
  - cbn [serve] in Hs. destruct (Z.eqb_spec id UserLib.SYSCALL_READ) as [->|]; [|done]. cbn [andb] in Hs.
    destruct (w2 =? Z.of_nat (length s1)) eqn:Ew; [|done]. apply Z.eqb_eq in Ew.
    destruct H1 as (Hb & He & Hs1). rewrite Ew, wrap_small in H2 by lia. subst a0 a2.
    change (Syscall.syscall UserLib.SYSCALL_READ ?fd a1 ?n a3 a4) with (Syscall.sys_read fd a1 n : M (Kernel Flat) _).
    rewrite Hs1 in Hs at 1.
    eapply wp_mono; [eapply (serve_read_run l r lo hi efs rt slack); [done|done|exact Hv|apply wrap_bound; lia|lia|lia|lia|exact Hs]|].
    intros res k' (-> & Hv'). eauto.
  - cbn [serve] in Hs. destruct (Z.eqb_spec id UserLib.SYSCALL_OPEN) as [->|]; [|done]. destruct H0 as (Hb & He & Hs0).
    assert (w1 = 0) as ->.
    { unfold serve_open in Hs. destruct (cstring s0); [|done]. cbn in Hs. by destruct (Z.eqb_spec w1 UserLib.OpenFlags_RDONLY). }
    change (wrap 64 0) with 0 in H1. subst a1. change (Syscall.syscall UserLib.SYSCALL_OPEN a0 0 a2 a3 a4) with (Syscall.returns (Syscall.sys_open a0 0) : M (Kernel Flat) _).
    unfold Syscall.returns. apply wp_bind.
    eapply wp_mono; [eapply (serve_open_run l r lo hi efs rt slack) with (path := s0); [done|done|exact Hv|done|lia|exact Hb|exact He|exact Hs0|exact Hs]|].
    intros res k' (-> & tcb' & Hv'). apply wp_ret. eauto.
Qed.
