(* ===== verification/OnKernel.v ===== *)
(** User programs running on the kernel: the run of a program's tree against the
    dispatcher, and [cat] from its arguments to the console. *)

From ITree Require Import ITree.
From S2P Require Export FileServe VfsCreate.

Section on_kernel.
Context `{!Platform} {R : Type} (l r lo hi : Z) (p : nat).

(** What a program finds in memory after a call. *)
Definition answer_bytes (args : list arg) (a1 : Z) (mem : Z → Z) : list Z :=
  match args with
  | [_; Buffer b; _] => mem <$> seqZ a1 (Z.of_nat (length b))
  | _ => []
  end.
(** The program has put the arguments of a call into its window of memory, which
    then holds [mem], and into the registers. *)
Definition placed (k : Kernel Flat) (args : list arg) (tcb : TaskControlBlock) (mem : Z → Z) (s : Mm) (regs : list Z) : Prop :=
  tasks k !! p = Some tcb ∧ usermem l r (memory_set tcb) lo hi (mm k) mem s ∧ Forall2 (passed lo hi mem) args regs.

(** Task [p] runs the program [t] on the kernel [k], for at most [n] steps, and
    the result and the kernel it leaves satisfy [Q].  In front of each call the
    program may write its window of memory as it likes and put the arguments
    anywhere in it, and there is a way to do so; however it does, the dispatcher
    answers the call, and the program goes on with what is in the register of the
    result and, for a buffer, in memory. *)
Fixpoint on_kernel (n : nat) (t : itree' sysE R) (k : Kernel Flat) (Q : R → Kernel Flat → Prop) : Prop :=
  match n with
  | O => False
  | S n =>
      match t with
      | RetF x => Q x k
      | TauF t => on_kernel n (observe t) k Q
      | VisF e h =>
          match e in sysE A return (A → itree sysE R) → Prop with
          | Ecall id args => λ h, (∃ tcb mem s a0 a1 a2, placed k args tcb mem s [a0; a1; a2]) ∧
              ∀ tcb mem s a0 a1 a2, placed k args tcb mem s [a0; a1; a2] →
                wp (Syscall.syscall id a0 a1 a2 0 0) (set_mm s k) (λ res k', ∃ a tcb' mem',
                  res = Return a ∧ tasks k' !! p = Some tcb' ∧ usermem l r (memory_set tcb') lo hi (mm k') mem' (mm k') ∧
                  on_kernel n (observe (h (a, answer_bytes args a1 mem'))) k' Q)
          | _ => λ _, False
          end h
      end
  end.
Lemma on_kernel_mono n t k (Q Q' : R → Kernel Flat → Prop) :
  on_kernel n t k Q → (∀ x k', Q x k' → Q' x k') → on_kernel n t k Q'.
Proof.
  intros Hrun HQ. revert t k Hrun. induction n as [|n IH]; intros t k Hrun; [done|].
  destruct t as [x|t|A e h]; cbn [on_kernel] in *; [by apply HQ|by apply IH|].
  destruct e; try done. destruct Hrun as [Hp Hrun]. split; [done|]. intros tcb mem s a0 a1 a2 Hargs.
  eapply wp_mono; [exact (Hrun tcb mem s a0 a1 a2 Hargs)|].
  intros res k' (a & tcb' & mem' & Hres & Ht' & Hm' & Hrest). exists a, tcb', mem'. auto.
Qed.
End on_kernel.

(** * The server's answers *)

Lemma serve_next id args v a bs v' : serve id args v = Some (a, bs, v') → (sv_next v ≤ sv_next v')%nat.
Proof.
  unfold serve, serve_read, serve_write, serve_open, serve_close. intros H.
  repeat (case_match; simplify_option_eq; try done); cbn; lia.
Qed.
Lemma eval_next {R} room n (t : itree' sysE R) v x v' : eval room n t v = Some (x, v') → (sv_next v ≤ sv_next v')%nat.
Proof.
  revert t v. induction n as [|n IH]; intros t v H; [done|]. destruct t as [y|t|A e h]; cbn [eval] in H.
  - by injection H as _ ->.
  - by eapply IH.
  - destruct e; try done. destruct (forallb _ args); [|done]. destruct (serve id args v) as [[[a bs] v1]|] eqn:E; [|done]. cbn in H.
    apply serve_next in E. apply IH in H. lia.
Qed.
(** A buffer keeps its length; a call without one leaves no bytes. *)
Lemma fill_read (mem : Z → Z) a bs : fill a bs mem <$> seqZ a (Z.of_nat (length bs)) = bs.
Proof.
  apply list_eq. intros j. rewrite list_lookup_fmap. destruct (bs !! j) as [b|] eqn:Hb.
  - apply lookup_lt_Some in Hb as Hj. rewrite lookup_seqZ_lt by lia. cbn. by rewrite (fill_bytes bs a mem _ _ Hb).
  - apply lookup_ge_None in Hb. by rewrite lookup_seqZ_ge by lia.
Qed.
Lemma serve_read_length fd l v a bs v' : serve_read fd l v = Some (a, bs, v') → length bs = length l.
Proof.
  unfold serve_read. intros H. repeat (case_match; simplify_option_eq; try done).
  rewrite length_app, length_drop, length_sub_list_any. lia.
Qed.
Lemma serve_bytes id args v a bs v' (mem : Z → Z) a1 : serve id args v = Some (a, bs, v') →
  answer_bytes args a1 (match args with [_; Buffer _; _] => fill a1 bs mem | _ => mem end) = bs.
Proof.
  unfold serve. intros H. repeat (case_match; try done); cbn [answer_bytes].
  - unfold serve_close in H. by repeat (case_match; simplify_option_eq; try done).
  - unfold serve_write in H. by repeat (case_match; simplify_option_eq; try done).
  - rewrite <-(serve_read_length _ _ _ _ _ _ H). apply fill_read.
  - unfold serve_open in H. by repeat (case_match; simplify_option_eq; try done).
Qed.

(** A call the server knows fits where its arguments do. *)
Lemma usermem_filled l r ms lo hi s0 mem s bs :
  0 ≤ ms_root ms < 2 ^ 44 → 0 ≤ lo → hi ≤ 2 ^ 39 → usermem l r ms lo hi s0 mem s → Forall is_byte bs → lo + Z.of_nat (length bs) ≤ hi →
  ∃ s', usermem l r ms lo hi s0 (fill lo bs mem) s'.
Proof.
  intros Hroot Hlo Hhi Hm Hbs Hlen. pose proof (wp_push_bytes l r ms lo hi s0 Hroot Hlo Hhi bs lo mem s Hm ltac:(lia) Hlen Hbs) as Hw.
  apply wp_Ok in Hw as (p' & s' & _ & _ & Hm'). by exists s'.
Qed.
Lemma fits_inv lo hi bs (c : arg) : c = Bytes bs ∨ c = Buffer bs →
  arg_fits (Z.to_nat (hi - lo)) c = true → (length bs ≤ Z.to_nat (hi - lo))%nat ∧ Forall is_byte bs.
Proof.
  intros Hc Hf. assert ((length bs <=? Z.to_nat (hi - lo))%nat && forallb (λ b, (0 <=? b) && (b <? 256)) bs = true) as [Hl Hb]%andb_true_iff
    by (destruct Hc as [-> | ->]; exact Hf).
  split; [by apply Nat.leb_le|]. apply Forall_forall. intros b Hin. rewrite forallb_forall in Hb. apply list_elem_of_In, Hb in Hin.
  unfold is_byte. lia.
Qed.
Lemma serve_placed l r ms lo hi s0 mem s id args v x :
  0 ≤ ms_root ms < 2 ^ 44 → 0 ≤ lo → lo ≤ hi → hi ≤ 2 ^ 39 → usermem l r ms lo hi s0 mem s →
  forallb (arg_fits (Z.to_nat (hi - lo))) args = true → serve id args v = Some x →
  ∃ mem' s' a0 a1 a2, usermem l r ms lo hi s0 mem' s' ∧ Forall2 (passed lo hi mem') args [a0; a1; a2].
Proof.
  intros Hroot Hlo Hle Hhi Hm Hfit Hs.
  assert (∀ bs c, c = Bytes bs ∨ c = Buffer bs → arg_fits (Z.to_nat (hi - lo)) c = true →
    ∃ s', usermem l r ms lo hi s0 (fill lo bs mem) s' ∧ passed lo hi (fill lo bs mem) c lo) as Hplace.
  { intros bs c Hc Hf. destruct (fits_inv lo hi bs c Hc Hf) as [Hl Hb].
    destruct (usermem_filled l r ms lo hi s0 mem s bs Hroot Hlo Hhi Hm Hb ltac:(lia)) as [s' Hs']. exists s'. split; [done|].
    destruct Hc as [-> | ->]; cbn; rewrite fill_read; (split; [lia|]); (split; [lia|done]). }
  assert (∀ m w, passed lo hi m (Word w) (wrap 64 w)) as Hword by done.
  assert (∀ (P : arg → Z → Prop) x0 x1 x2 a0 a1 a2, P x0 a0 → P x1 a1 → P x2 a2 → Forall2 P [x0; x1; x2] [a0; a1; a2]) as three
    by (intros; by repeat constructor).
  destruct args as [|[w0|b0|b0|] [|[w1|b1|b1|] [|[w2|b2|b2|] [|]]]]; try done; cbn [forallb] in Hfit; rewrite !andb_true_iff in Hfit.
  - exists mem, s, (wrap 64 w0), (wrap 64 w1), (wrap 64 w2). split; [done|]. by repeat constructor.
  - destruct Hfit as (_ & Hf & _). destruct (Hplace b1 _ (or_introl eq_refl) Hf) as (s' & Hm' & Hpass).
    exists (fill lo b1 mem), s', (wrap 64 w0), lo, (wrap 64 w2). split; [done|]. by apply three.
  - destruct Hfit as (_ & Hf & _). destruct (Hplace b1 _ (or_intror eq_refl) Hf) as (s' & Hm' & Hpass).
    exists (fill lo b1 mem), s', (wrap 64 w0), lo, (wrap 64 w2). split; [done|]. by apply three.
  - destruct Hfit as (Hf & _). destruct (Hplace b0 _ (or_introl eq_refl) Hf) as (s' & Hm' & Hpass).
    exists (fill lo b0 mem), s', lo, (wrap 64 w1), (wrap 64 w2). split; [done|]. by apply three.
Qed.

(** * Programs evaluated on the server run on the kernel *)

Section run.
Context `{!Platform} {R : Type} (l r lo hi : Z) (efs : EasyFileSystem) (rt : Inode) (slack : nat) (p : nat).
Context (Hlo : 0 ≤ lo) (Hle : lo ≤ hi) (Hhi : hi < 2 ^ 39) (Hfuel : hi - lo < Z.of_nat p_fuel).
Abbreviation eval := (eval (Z.to_nat (hi - lo))).
Abbreviation views := (views l r lo hi efs rt slack).

(** The program writes its memory. *)
Lemma views_store k tcb mem mem' s v :
  views k p tcb mem v → usermem l r (memory_set tcb) lo hi (mm k) mem' s → views (set_mm s k) p tcb mem' v.
Proof.
  intros [H1 H2 H3 H4 H5 H6 H7 H8 H9 H10 H11 H12 H13 H14] Hm. split; try done. by eapply usermem_rebase.
Qed.

Lemma eval_on_kernel n (t : itree' sysE R) k tcb mem v x v' :
  views k p tcb mem v → eval n t v = Some (x, v') → Z.of_nat (slack + sv_next v') < 2 ^ 63 →
  on_kernel l r lo hi p n t k (λ y k', y = x ∧ ∃ tcb' mem', views k' p tcb' mem' v').
Proof.
  revert t k tcb mem v. induction n as [|n IH]; intros t k tcb mem v Hv Hev Hnext; [done|].
  destruct t as [y|t|A e h]; cbn [eval on_kernel] in *.
  - injection Hev as -> ->. eauto.
  - by eapply IH.
  - destruct e; try done. destruct (forallb _ args) eqn:Hfit; [|done].
    destruct (serve id args v) as [[[a bs] v1]|] eqn:Hs; [|done]. cbn [mbind option_bind] in Hev. split.
    { destruct (serve_placed l r (memory_set tcb) lo hi (mm k) mem (mm k) id args v (a, bs, v1)) as (mem' & s' & a0 & a1 & a2 & Hm & Hargs);
        [apply Hv|done|done|lia|apply Hv|done|done|]. exists tcb, mem', s', a0, a1, a2. split; [apply Hv|]. done. }
    intros tcb1 mem1 s a0 a1 a2 (Ht & Hm & Hargs). rewrite (vw_task _ _ _ _ _ _ _ _ _ _ _ _ Hv) in Ht. injection Ht as <-.
    assert (views (set_mm s k) p tcb mem1 v) as Hv1 by (by eapply views_store).
    assert (Z.of_nat (length (fd_table tcb)) < 2 ^ 63) as Htab.
    { pose proof (vw_room _ _ _ _ _ _ _ _ _ _ _ _ Hv) as Hroom. rewrite <-(vw_next _ _ _ _ _ _ _ _ _ _ _ _ Hv) in Hroom.
      apply serve_next in Hs. apply eval_next in Hev. lia. }
    eapply wp_mono; [by eapply (kernel_serves_run l r lo hi efs rt slack)|].
    intros res k' (-> & tcb' & Hv' & _). eexists a, tcb', _. split; [done|]. split; [apply Hv'|]. split; [apply Hv'|].
    rewrite (serve_bytes id args v a bs v1) by done. by eapply IH.
Qed.
End run.

(** * [cat] *)

(** Task [p] with a window of memory mapped, standard output on the console and
    descriptors that are not newer than the kernel's files. *)
Record console_task `{!Platform} (l r lo hi : Z) (k : Kernel Flat) (p : nat) (tcb : TaskControlBlock) : Prop := {
  ct_current : processor k = Some p;
  ct_task : tasks k !! p = Some tcb;
  ct_space : ms_wf l r (mm k) (memory_set tcb);
  ct_window va : lo ≤ va < hi → ∃ q, held (memory_set tcb) (va / 4096) q ∧ page_ok (mm k) q;
  ct_stdout : ∃ f, fd_table tcb !! 1%nat = Some (Some f) ∧ files k !! f = Some Stdout;
  ct_old f : Some f ∈ fd_table tcb → (f < next_object k)%nat;
  ct_room : Z.of_nat (length (fd_table tcb) + next_object k) < 2 ^ 62 }.
(** The root directory has [name] for the inode [i], and that inode lies on the
    disk. *)
Record file_named (efs : EasyFileSystem) (rt : Inode) (k : Kernel Flat) (name : list Z) (i : Z) (d : DiskInode) : Prop := {
  nf_fs : root k = Some (efs, rt);
  nf_quiet : fl_fs_locked (disk k) = false ∧ room 2 (disk k);
  nf_entry : ∃ dir, inode_at rt dir (disk k) ∧ dir_wf dir (disk k) ∧ dir_lookup (str_bytes name) (dir_list dir (disk k)) = Some i;
  nf_inode : inode_at (inode_of efs i) d (disk k);
  nf_name : Forall (λ b, 0 < b < 256) name }.

Lemma size_fd_view {A} (desc : nat → A) (fds : list (option nat)) : (size (fd_view desc fds) ≤ length fds)%nat.
Proof.
  assert (dom (fd_view desc fds) ⊆ list_to_set (seqZ 0 (Z.of_nat (length fds)))) as Hsub.
  { intros fd Hfd%elem_of_dom. apply elem_of_list_to_set, elem_of_seqZ. rewrite lookup_fd_view in Hfd.
    case_decide; [|by destruct Hfd]. destruct (fds !! Z.to_nat fd) eqn:E; [|by destruct Hfd].
    apply lookup_lt_Some in E. lia. }
  apply subseteq_size in Hsub. rewrite size_dom, size_list_to_set, length_seqZ in Hsub by apply NoDup_seqZ. lia.
Qed.

(** The kernel as a server with one file. *)
Definition one_file (k : Kernel Flat) (tcb : TaskControlBlock) (out : nat) (dir : DiskInode) (i : Z) (d : DiskInode) : server :=
  MkServer (fd_view (λ f, f) (fd_table tcb)) {[out := VStdout]} (next_object k) (dir_list dir (disk k))
    {[i := content d (disk k)]} (console_out k).
Lemma one_file_views `{!Platform} l r lo hi efs rt (k : Kernel Flat) p tcb name i d dir out :
  console_task l r lo hi k p tcb → file_named efs rt k name i d → inode_at rt dir (disk k) → dir_wf dir (disk k) →
  files k !! out = Some Stdout →
  views l r lo hi efs rt (length (fd_table tcb)) k p tcb (mem_of (mm k) (memory_set tcb)) (one_file k tcb out dir i d).
Proof.
  intros [Hp Ht Hms Hwin _ Hold Hroom] [Hfs Hq _ Hin Hname] Hdir Hwf Hout. split; try done.
  - by eapply ms_root_bound.
  - by apply usermem_start.
  - intros f o _ Ho. cbn in Ho. apply lookup_singleton_Some in Ho as [<- <-]. by exists Stdout.
  - by exists dir.
  - intros j c Hj. cbn in Hj. apply lookup_singleton_Some in Hj as [<- <-]. by exists d.
  - cbn. lia.
Qed.

(** * The properties *)

(** C16: The kernel refines the server.  When the kernel is seen as the server [v]
    and the server knows an answer to a call - reading, printing, opening a file for
    reading, closing, and these with descriptors and names that do not exist - the
    dispatcher, given the registers of the call, returns that answer and is seen as
    the server after the call.  A buffer that was passed then holds the bytes of the
    answer, wherever its pages are, and the rest of the program's window of memory is
    as it was. *)
Theorem kernel_serves `{!Platform} l r lo hi efs rt slack (k : Kernel Flat) t tcb mem v id args a0 a1 a2 a bytes v' :
  0 ≤ lo → hi < 2 ^ 39 → views l r lo hi efs rt slack k t tcb mem v → Z.of_nat (length (fd_table tcb)) < 2 ^ 63 →
  hi - lo < Z.of_nat p_fuel → Forall2 (passed lo hi mem) args [a0; a1; a2] → serve id args v = Some (a, bytes, v') →
  wp (Syscall.syscall id a0 a1 a2 0 0) k (λ res k', res = Return a ∧ ∃ tcb',
    views l r lo hi efs rt slack k' t tcb' (match args with [_; Buffer _; _] => fill a1 bytes mem | _ => mem end) v').
Proof.
  intros. eapply wp_mono; [by eapply kernel_serves_run|]. intros res k' (-> & tcb' & Hv' & _). eauto.
Qed.

(** C8: [cat] of a file of ASCII text, from its arguments to the console.  On a
    kernel in which the file is in the root directory and standard output is the
    console, the program, with memory for the buffer of the console and the name,
    finds room for what it passes and - wherever in its memory it puts it - ends
    after finitely many steps, makes only calls the kernel answers, and returns 0;
    what was added to the console is exactly the contents of the file, whatever
    their length; the file still has them, and the descriptors of the task are as
    they were. *)
Theorem cat_on_kernel `{!Platform} l r lo hi efs rt (k : Kernel Flat) p tcb argv0 name i d :
  0 ≤ lo → hi < 2 ^ 39 → 2560 ≤ hi - lo < Z.of_nat p_fuel → Z.of_nat (length name) < hi - lo →
  console_task l r lo hi k p tcb → file_named efs rt k name i d → ascii (content d (disk k)) = true →
  ∃ n, on_kernel l r lo hi p n (observe (cat_main 2 [argv0; name])) k (λ exit_code k',
    exit_code = 0 ∧ console_out k' = console_out k ++ content d (disk k) ∧
    (∃ d', inode_at (inode_of efs i) d' (disk k') ∧ content d' (disk k') = content d (disk k)) ∧
    ∃ tcb', tasks k' !! p = Some tcb' ∧ processor k' = Some p ∧ fd_view (λ f, f) (fd_table tcb') = fd_view (λ f, f) (fd_table tcb)).
Proof.
  intros Hlo Hhi Hfuel Hlen Htask Hfile Hascii. destruct (nf_entry _ _ _ _ _ _ Hfile) as (dir & Hdir & Hdwf & Hlook).
  destruct (ct_stdout _ _ _ _ _ _ _ Htask) as (out & Hslot & Hout).
  pose proof (one_file_views l r lo hi efs rt k p tcb name i d dir out Htask Hfile Hdir Hdwf Hout) as Hviews.
  set (v := one_file k tcb out dir i d) in *.
  assert (evaluates (Z.to_nat (hi - lo)) (cat_main 2 [argv0; name]) v 0 (cat_end v i (content d (disk k)))) as [n Hn].
  { apply (cat_run (Z.to_nat (hi - lo)) ltac:(lia) v argv0 name i (content d (disk k))); [..|done].
    - exists out. split; [|apply lookup_singleton_eq]. cbn. change STDOUT with (Z.of_nat 1). rewrite fd_view_at, Hslot. done.
    - pose proof (size_fd_view (λ f, f) (fd_table tcb)). pose proof (ct_room _ _ _ _ _ _ _ Htask). cbn. lia.
    - intros fd f Hf. destruct (view_slot _ _ _ _ _ _ _ _ _ _ _ _ fd f Hviews Hf) as [_ Hin].
      eapply (ct_old _ _ _ _ _ _ _ Htask), list_elem_of_lookup_2, Hin.
    - apply Hfile.
    - lia.
    - exact Hlook.
    - apply lookup_singleton_eq. }
  exists n. eapply on_kernel_mono.
  - eapply (eval_on_kernel l r lo hi efs rt (length (fd_table tcb))); try done; [lia..|].
    pose proof (ct_room _ _ _ _ _ _ _ Htask). cbn. lia.
  - intros x k' (-> & tcb' & mem' & Hv). split; [done|]. split; [symmetry; apply Hv|]. split.
    + destruct (vw_files _ _ _ _ _ _ _ _ _ _ _ _ Hv i (content d (disk k))) as (d' & Hat & Hc); [apply lookup_singleton_eq|by exists d'].
    + exists tcb'. split; [apply Hv|]. split; [apply Hv|]. symmetry. apply Hv.
Qed.

(** * Witness: a file "a" of 300 bytes, which [cat] reads in two pieces *)

Definition ex_text : list Z := replicate 299 97 ++ [10].
Definition ex_text_inode : DiskInode := MkDiskInode 0 300 ([41] ++ replicate 27 0) 0 0 1 File.
Definition ex_text_disk : Flat :=
  set_block 5 (cenc DiskInode_codec ex_root (replicate 136 0) ++ cenc DiskInode_codec ex_text_inode (replicate 136 0) ++ replicate 240 0)
    (set_block 41 (ex_text ++ replicate 212 0) ex_root_disk).
Definition ex_cat_platform : Platform :=
  {| p_symbols := ex_symbols; p_elf := λ _, None; p_sstatus := 0; p_trap_handler := 0; p_fuel := 4000 |}.
Definition ex_cat_task (ms : MemorySet) : TaskControlBlock :=
  MkTask 1 1 2 0 16 0 TaskContext_zero_init Running ms None [] 0 [Some 0%nat; Some 1%nat; Some 2%nat] 0 0 (-1)
    SignalActions_default false false None.
Definition ex_cat_kernel (ms : MemorySet) (s : Mm) : Kernel Flat :=
  MkKernel s (MkMemorySet (MkPageTable 0 []) []) ex_text_disk (Some (ex_efs, ex_self)) PidAllocator_new {[7%nat := ex_cat_task ms]}
    {[0%nat := Stdin; 1%nat := Stdout; 2%nat := Stdout]} ∅ 3 (MkTaskManager ∅ StrideScheduler_new) (Some 7%nat) None [] [] 0 0.
#[local] Existing Instance ex_cat_platform.

Lemma ex_text_room : room 2 ex_text_disk.
Proof. unfold room, BLOCK_CACHE_MAX_NUM. change (size (fl_held ex_text_disk)) with 0%nat. lia. Qed.
Lemma ex_text_at self d :
  stored DiskInode_codec (in_block_id self) (in_block_offset self) ex_text_disk (block_at ex_text_disk (in_block_id self)) d →
  inode_wfb d ex_text_disk = true → in_block_id self ∉ owned d ex_text_disk → inode_at self d ex_text_disk.
Proof. intros Hst Hwf Hown. split; [by eexists|by apply inode_wfb_wf|done]. Qed.
Lemma ex_text_open : can_open 5 ex_text_disk (block_at ex_text_disk 5).
Proof.
  apply avail_open; [apply availb_avail; vm_compute; reflexivity|]. unfold room, BLOCK_CACHE_MAX_NUM.
  change (size (fl_held ex_text_disk)) with 0%nat. lia.
Qed.
Lemma ex_text_root : inode_at ex_self ex_root ex_text_disk.
Proof.
  apply ex_text_at; [|vm_compute; reflexivity|apply (bool_decide_unpack _); vm_compute; exact I].
  split; [apply ex_text_open|cbn; lia|vm_compute; discriminate|vm_compute; reflexivity].
Qed.
Lemma ex_text_file : inode_at (inode_of ex_efs 1) ex_text_inode ex_text_disk.
Proof.
  assert (inode_of ex_efs 1 = MkInode 5 136) as -> by reflexivity.
  apply ex_text_at; [|vm_compute; reflexivity|apply (bool_decide_unpack _); vm_compute; exact I].
  split; [apply ex_text_open|cbn; lia|vm_compute; discriminate|vm_compute; reflexivity].
Qed.
Lemma ex_text_dir : dir_wf ex_root ex_text_disk.
Proof.
  split; [apply ex_text_root|reflexivity|]. intros i Hi. change (entry_count ex_root) with 2%nat in Hi.
  destruct i as [|[|i]]; [..|lia]; vm_compute; by eexists.
Qed.
Lemma ex_text_named ms s : file_named ex_efs ex_self (ex_cat_kernel ms s) [97] 1 ex_text_inode.
Proof.
  split; [done|split; [done|apply ex_text_room]| |apply ex_text_file|by repeat constructor].
  exists ex_root. split; [apply ex_text_root|]. split; [apply ex_text_dir|]. vm_compute. reflexivity.
Qed.
Lemma ex_cat_space : ∃ ms s, console_task 100 120 20480 23552 (ex_cat_kernel ms s) 7 (ex_cat_task ms).
Proof.
  destruct ex_full_space as (ms & s & Hwf & Hok & _ & _ & _ & a & q & Ha & Hq). exists ms, s.
  split; [done|done|exact Hwf| |by exists 1%nat| |cbn; lia].
  - intros va Hva. exists q. replace (va / 4096) with 5 by lia. assert (held ms 5 q) as Hh by (by exists a).
    split; [exact Hh|by eapply Hok].
  - intros f Hf. cbn in Hf |- *. rewrite !elem_of_cons, elem_of_nil in Hf. lia || (destruct Hf as [[= ->]|[[= ->]|[[= ->]|[]]]]; lia).
Qed.

(** The program closes its standard output. *)
Lemma kernel_serves_witness :
  ∃ ms s, wp (Syscall.syscall UserLib.SYSCALL_CLOSE 1 0 0 0 0) (ex_cat_kernel ms s) (λ res k', res = Return 0 ∧
    ∃ tcb', tasks k' !! 7%nat = Some tcb' ∧ fd_view (λ f, f) (fd_table tcb') = {[0 := 0%nat; 2 := 2%nat]}).
Proof.
  destruct ex_cat_space as (ms & s & Htask). exists ms, s.
  eapply wp_mono.
  - apply (kernel_serves 100 120 20480 23552 ex_efs ex_self 3 (ex_cat_kernel ms s) 7 (ex_cat_task ms) (mem_of s ms)
      (one_file (ex_cat_kernel ms s) (ex_cat_task ms) 1 ex_root 1 ex_text_inode) UserLib.SYSCALL_CLOSE [Word 1; Word 0; Word 0] 1 0 0 0 []
      (sv_set_fds {[0 := 0%nat; 2 := 2%nat]} (one_file (ex_cat_kernel ms s) (ex_cat_task ms) 1 ex_root 1 ex_text_inode)));
      [lia|lia| |cbn; lia|cbn; lia|by repeat constructor|vm_compute; reflexivity].
    apply (one_file_views 100 120 20480 23552 ex_efs ex_self (ex_cat_kernel ms s) 7 (ex_cat_task ms) [97] 1 ex_text_inode ex_root 1 Htask);
      [apply ex_text_named|exact ex_text_root|exact ex_text_dir|done].
  - intros res k' (-> & tcb' & Hv). split; [done|]. exists tcb'. split; [apply Hv|]. symmetry. apply Hv.
Defined.
Lemma cat_on_kernel_witness :
  ∃ ms s n, on_kernel 100 120 20480 23552 7 n (observe (cat_main 2 [[99; 97; 116]; [97]])) (ex_cat_kernel ms s) (λ exit_code k',
    exit_code = 0 ∧ console_out k' = ex_text).
Proof.
  destruct ex_cat_space as (ms & s & Htask). exists ms, s.
  destruct (cat_on_kernel 100 120 20480 23552 ex_efs ex_self (ex_cat_kernel ms s) 7 (ex_cat_task ms) [99; 97; 116] [97] 1 ex_text_inode)
    as [n Hn]; [lia|lia|cbn; lia|cbn; lia|exact Htask|apply ex_text_named|vm_compute; reflexivity|].
  exists n. eapply on_kernel_mono; [exact Hn|]. intros code k' (-> & -> & _). split; [done|]. vm_compute. reflexivity.
Defined.
