(* ===== verification/TrapCalls.v ===== *)
(** A system call from user mode (os/src/trap/mod.rs around the dispatcher): the
    registers on the page of the trap context, the call, and the registers the
    program finds. *)

From S2P Require Export OnKernel.

(** ** Results and arguments fit registers *)

Lemma serve_bound id args v a bs v' b :
  serve id args v = Some (a, bs, v') → Forall (λ c, match c with Bytes s | Buffer s => Z.of_nat (length s) < b | _ => True end) args →
  first_free (sv_fds v) < b → 1 ≤ b → -1 ≤ a < b.
Proof.
  unfold serve, serve_read, serve_write, serve_open, serve_close. intros H Hargs Hf Hb.
  pose proof (first_free_spec (sv_fds v)) as (Hf0 & _).
  repeat (case_match; simplify_option_eq; try done); rewrite ?Forall_cons in Hargs; lia.
Qed.
Lemma serve_id id args v x : serve id args v = Some x → 0 ≤ id < 2 ^ 64.
Proof.
  unfold serve. intros H. destruct args as [|[] [|[] [|[] []]]]; try done;
    [destruct (Z.eqb_spec id UserLib.SYSCALL_CLOSE) as [->|]|destruct (Z.eqb_spec id UserLib.SYSCALL_WRITE) as [->|]
    |destruct (Z.eqb_spec id UserLib.SYSCALL_READ) as [->|]|destruct (Z.eqb_spec id UserLib.SYSCALL_OPEN) as [->|]]; try done;
    by split.
Qed.

Lemma passed_bound lo hi mem args regs :
  0 ≤ lo → hi < 2 ^ 39 → Forall2 (passed lo hi mem) args regs →
  Forall (λ x, 0 ≤ x < 2 ^ 64) regs ∧ Forall (λ c, match c with Bytes s | Buffer s => Z.of_nat (length s) < 2 ^ 63 | _ => True end) args.
Proof.
  intros Hlo Hhi. induction 1 as [|c x args regs Hc _ [IH1 IH2]]; [by split|].
  destruct c; cbn [passed] in Hc; [subst x; split; constructor; [apply wrap_bound; lia|done|done|done]|..|done];
    split; constructor; done || lia.
Qed.

(** * A task that traps *)

(** The registers [cx] of the current task are saved on the page of its trap
    context, which lies above the window of memory; no signal is pending. *)
Record at_trap (hi : Z) (tcb : TaskControlBlock) (k : Kernel Flat) (cx : TrapContext) : Prop := {
  at_cx : has_cx tcb k ∧ cx_of tcb k = cx;
  at_page : held (memory_set tcb) (trampoline_vpn - 1) (trap_cx_ppn tcb);
  at_top : hi ≤ (trampoline_vpn - 1) * 4096;
  at_signals : sig_wf tcb ∧ signals tcb = 0 ∧ frozen tcb = false }.

Section trap.
Context `{!Platform} (l r lo hi : Z) (efs : EasyFileSystem) (rt : Inode) (slack : nat).
Context (Hlo : 0 ≤ lo) (Hfuel : hi - lo < Z.of_nat p_fuel).
Abbreviation views := (views l r lo hi efs rt slack).
Abbreviation at_trap := (at_trap hi).
Implicit Types k : Kernel Flat.

Lemma at_trap_wf tcb k cx : at_trap tcb k cx → cx_wf cx ∧ hi < 2 ^ 39.
Proof.
  intros [[Hh <-] _ Htop _]. split; [by apply cx_of_wf|]. unfold trampoline_vpn in Htop. lia.
Qed.
(** The page of the trap context does not belong to the window. *)
Lemma at_trap_outside k t tcb mem v cx va :
  views k t tcb mem v → at_trap tcb k cx → lo ≤ va < hi → ¬ held (memory_set tcb) (va / 4096) (trap_cx_ppn tcb).
Proof.
  intros Hv [_ Hpage Htop _] Hva Hheld.
  pose proof (held_inj _ _ _ _ _ _ _ (um_wf _ _ _ _ _ _ _ _ (vw_memory _ _ _ _ _ _ _ _ _ _ _ _ Hv)) Hheld Hpage). lia.
Qed.
Lemma cx_kept tcb k k' :
  page_at (mm k') (trap_cx_ppn tcb) = page_at (mm k) (trap_cx_ppn tcb) → has_cx tcb k → has_cx tcb k' ∧ cx_of tcb k' = cx_of tcb k.
Proof.
  intros Hp (Hk & Hlen & Hb). unfold cx_of. rewrite Hp. split; [|done]. unfold has_cx, page_ok. rewrite Hp. split; [|done].
  unfold page_at in *. destruct (mm_pages (mm k') !! trap_cx_ppn tcb) as [pg|]; cbn in Hp; [by rewrite Hp|by rewrite <-Hp in Hlen].
Qed.
Lemma at_trap_kept k t tcb mem v cx k' tcb' :
  views k t tcb mem v → at_trap tcb k cx → kept lo hi k tcb k' tcb' → at_trap tcb' k' cx.
Proof.
  intros Hv Hat [[fds' ->] Hpages]. assert (∀ va, lo ≤ va < hi → ¬ held (memory_set tcb) (va / 4096) (trap_cx_ppn tcb)) as Hout
    by (intros va Hva; by eapply at_trap_outside).
  destruct Hat as [[Hhas <-] H2 H3 H4]. split; try done. exact (cx_kept tcb k k' (Hpages _ Hout) Hhas).
Qed.

(** Registers are saved. *)
Lemma views_with_cx cx0 cx k t tcb mem v :
  views k t tcb mem v → at_trap tcb k cx0 → cx_wf cx → views (with_cx tcb cx k) t tcb mem v ∧ at_trap tcb (with_cx tcb cx k) cx.
Proof.
  intros Hv Hat Hcx. split.
  - assert (∀ va, lo ≤ va < hi → ¬ held (memory_set tcb) (va / 4096) (trap_cx_ppn tcb)) as Hout
      by (intros va Hva; by eapply at_trap_outside).
    destruct Hv as [H1 H2 H3 H4 H5 H6 H7 H8 H9 H10 H11 H12 H13 H14]. split; try done. split; [| |done|done].
    + eapply ms_wf_set_page; [apply H4|]. eapply held_not_table; [apply H4|apply (at_page _ _ _ _ Hat)].
    + intros va Hva. destruct (um_mem _ _ _ _ _ _ _ _ H4 va Hva) as (q & Hq & Hok & Hb). exists q. split; [done|].
      assert (q ≠ trap_cx_ppn tcb) as Hne by (intros ->; by eapply Hout).
      unfold with_cx. cbn [mm set_mm]. rewrite page_at_set, decide_False by done. split; [|done].
      unfold page_ok. rewrite page_at_set, decide_False by done. cbn. by rewrite lookup_insert_ne.
  - destruct Hat as [[Hhas _] H2 H3 H4]. split; [|done..]. split; [by apply has_cx_with|by apply cx_of_with].
Qed.
Lemma views_runs k t tcb mem v : views k t tcb mem v → runs t tcb k.
Proof. intros Hv. split; apply Hv. Qed.

(** The end of a call with nothing pending. *)
Lemma views_syscall_end cx k t tcb mem v a :
  views k t tcb mem v → at_trap tcb k cx →
  wp (syscall_end (Return a)) k (λ res k', res = Return () ∧ views k' t tcb mem v ∧ at_trap tcb k' (set_x 10 (wrap 64 a) cx)).
Proof.
  intros Hv Hat. pose proof (views_runs _ _ _ _ _ Hv) as Hr. destruct (at_cx _ _ _ _ Hat) as [Hhas Hof].
  destruct (views_with_cx cx (set_x 10 (wrap 64 a) cx) k t tcb mem v Hv Hat) as [Hv' Hat'].
  { apply words_valid_set_x; [apply wrap_bound; lia|by eapply at_trap_wf]. }
  unfold syscall_end. eapply wp_bind_Ok; [by eapply current_trap_cx_run|]. rewrite Hof.
  eapply wp_bind_Ok; [by eapply put_current_trap_cx_run|].
  destruct (at_signals _ _ _ _ Hat) as (Hw & Hs & Hf). unfold wp.
  by rewrite (trap_end_quiet t tcb _ (views_runs _ _ _ _ _ Hv') Hw Hs Hf).
Qed.

(** The result of a call fits the register. *)
Lemma views_result k t tcb mem v id args regs a bs v' :
  hi < 2 ^ 39 → views k t tcb mem v → Z.of_nat (length (fd_table tcb)) < 2 ^ 63 → Forall2 (passed lo hi mem) args regs →
  serve id args v = Some (a, bs, v') → signed 64 (wrap 64 a) = a.
Proof.
  intros Hhi Hv Htab Hargs Hs. apply passed_bound in Hargs as [_ Hargs]; [|done..].
  assert (first_free (sv_fds v) < 2 ^ 63) as Hf.
  { destruct (first_free_spec (sv_fds v)) as (Hf & _). rewrite (vw_fds _ _ _ _ _ _ _ _ _ _ _ _ Hv) in Hf at 3.
    pose proof (size_fd_view (λ f, f) (fd_table tcb)). lia. }
  pose proof (serve_bound id args v a bs v' (2 ^ 63) Hs Hargs Hf ltac:(lia)).
  unfold signed, wrap. case_match; lia.
Qed.
End trap.

(** * The property *)

(** C6: A system call from user mode.  When a task traps with [ecall] - its
    registers on the page of its trap context, no signal pending - and the server the
    kernel is seen as knows an answer to the call of its registers, [trap_handler]
    ends with the return to this task: its program goes on behind the [ecall], finds
    the answer in [a0], read as a signed integer, and in the buffer it passed, and
    finds every other register and the rest of its window of memory as they were;
    the kernel is seen as the server after the call. *)
Theorem trap_serves `{!Platform} l r lo hi efs rt slack (k : Kernel Flat) t tcb mem v cx args a bytes v' :
  0 ≤ lo → hi - lo < Z.of_nat p_fuel → views l r lo hi efs rt slack k t tcb mem v → at_trap hi tcb k cx →
  Z.of_nat (length (fd_table tcb)) < 2 ^ 63 →
  let x i := tc_x cx !!! i in
  Forall2 (passed lo hi mem) args [x 10%nat; x 11%nat; x 12%nat] → serve (x 17%nat) args v = Some (a, bytes, v') →
  wp (trap_handler UserEnvCall) k (λ res k', res = Return () ∧ isize (usize a) = a ∧ ∃ tcb',
    at_trap hi tcb' k' (set_x 10 (usize a) (set_sepc (sepc cx +₆₄ 4) cx)) ∧
    views l r lo hi efs rt slack k' t tcb' (match args with [_; Buffer _; _] => fill (x 11%nat) bytes mem | _ => mem end) v').
Proof.
  intros Hlo Hfuel Hv Hat Htab x Hargs Hs. pose proof (views_runs l r lo hi efs rt slack k t tcb mem v Hv) as Hr.
  destruct (at_cx _ _ _ _ Hat) as [Hhas Hof]. destruct (at_trap_wf hi tcb k cx Hat) as [Hcx Hhi].
  pose proof (views_result l r lo hi efs rt slack Hlo k t tcb mem v _ args _ a bytes v' Hhi Hv Htab Hargs Hs) as Hres.
  assert (∀ i, (i < 32)%nat → usize (x i) = x i) as Hx.
  { intros i Hi. apply wrap_small. destruct Hcx as [[_ Hall] Hlen]. apply Forall_app in Hall as [Hall _].
    destruct (lookup_lt_is_Some_2 (tc_x cx) i ltac:(lia)) as [w Hw]. unfold x. rewrite (list_lookup_total_correct _ _ _ Hw).
    rewrite Forall_lookup in Hall. exact (Hall _ _ Hw). }
  unfold trap_handler. eapply wp_bind_Ok; [by eapply current_trap_cx_run|]. rewrite Hof.
  eapply wp_bind_Ok; [by eapply put_current_trap_cx_run|]. set (c1 := set_sepc _ cx).
  destruct (views_with_cx l r lo hi efs rt slack Hlo cx c1 k t tcb mem v Hv Hat) as [Hv1 Hat1].
  { apply words_valid_set_sepc; [apply Z.mod_pos_bound; lia|done]. }
  cbv zeta. change (tc_x cx !!! ?i) with (x i). rewrite !Hx by lia. apply wp_bind.
  eapply wp_mono; [by eapply (kernel_serves_run l r lo hi efs rt slack)|].
  intros res k' (-> & tcb' & Hv' & Hkept). pose proof (at_trap_kept l r lo hi efs rt slack Hlo _ t tcb mem v c1 k' tcb' Hv1 Hat1 Hkept) as Hat'.
  eapply wp_mono; [by eapply views_syscall_end|]. intros res' k'' (-> & Hv'' & Hat''). split; [done|]. split; [done|]. by exists tcb'.
Qed.

(** * Witness: a program closes its standard output *)

#[local] Existing Instance ex_cat_platform.

(** The pages 5 and 6 for the program, and the page of the trap context. *)
Lemma ex_trap_space : ∃ ms s q, ms_wf 100 120 s ms ∧ held ms (trampoline_vpn - 1) q ∧ page_ok s q ∧
  ∃ p, held ms 5 p ∧ page_ok s p.
Proof.
  destruct (PageTable_new_spec 100 120 ex_mm ex_mm_wf ltac:(rewrite ex_free; lia))
    as (p & s1 & _ & Hwf1 & _ & _ & _ & Hf1 & He1 & _).
  assert (ms_wf 100 120 s1 (MkMemorySet (MkPageTable p [p]) [])) as Hwf0.
  { split; cbn; [done|by apply NoDup_singleton|constructor| |]; intros a v q Ha; by apply not_elem_of_nil in Ha. }
  rewrite ex_free in Hf1.
  destruct (push_framed_spec 100 120 s1 _ (MkRange 5 7) 6 Hwf0)
    as (m & pt2 & s2 & _ & Hwf2 & Hg2 & Hf2 & Hin2 & _ & He2); cbn [range_l range_r areas app] in *; [lia..|intros; apply He1|].
  destruct (push_framed_spec 100 120 s2 _ (MkRange (trampoline_vpn - 1) trampoline_vpn) 6 Hwf2)
    as (m3 & pt3 & s3 & _ & Hwf3 & Hg3 & _ & Hin3 & _); cbn [range_l range_r areas app] in *;
    [unfold trampoline_vpn; lia|lia|lia|unfold trampoline_vpn; lia|unfold trampoline_vpn; lia| |].
  { unfold trampoline_vpn. intros v Hv. cbn [page_table] in *. rewrite (gr_root _ _ _ _ _ Hg2).
    rewrite He2, decide_False by lia. apply He1. }
  destruct (Hin3 (trampoline_vpn - 1) ltac:(lia)) as (q & Hq & _ & _ & Hqok).
  destruct (Hin2 5 ltac:(lia)) as (f & Hf & _ & _ & Hfok).
  exists (MkMemorySet pt3 [MkMapArea (MkRange 5 7) m Framed 6; MkMapArea (MkRange (trampoline_vpn - 1) trampoline_vpn) m3 Framed 6]), s3, q.
  split; [exact Hwf3|]. split; [eexists; split; [right; left|exact Hq]|]. split; [done|]. exists f.
  set (ms2 := MkMemorySet pt2 _) in *. assert (held ms2 5 f) as Hheld by (eexists; split; [left|exact Hf]).
  split; [eexists; split; [left|exact Hf]|].
  assert (f ∈ allocated 100 (mm_alloc s2)) as Hfa by (eapply footprint_alloc; [exact Hwf2|by eapply held_footprint]).
  eapply (page_ok_same 100 120 s2 s3 f Hfok); [apply Hwf3|by apply (gr_alloc _ _ _ _ _ Hg3)|].
  apply (gr_page _ _ _ _ _ Hg3); [exact Hfa|exact (held_not_table _ _ _ _ _ _ Hwf2 Hheld)].
Qed.

Definition ex_trap_task (ms : MemorySet) (q : Z) : TaskControlBlock := set_trap_cx_ppn q (ex_cat_task ms).
(** [ecall] with the number and the argument of [close(1)]. *)
Definition ex_close_cx : TrapContext := MkTrapContext (<[17%nat := 57]> (<[10%nat := 1]> (replicate 32 0))) 0 4096 0 0 0.
Definition ex_trap_kernel (ms : MemorySet) (s : Mm) (q : Z) : Kernel Flat :=
  set_tasks {[7%nat := ex_trap_task ms q]} (ex_cat_kernel ms s).
Lemma ex_close_cx_wf : cx_wf ex_close_cx.
Proof. split; [|done]. split; [done|]. cbn. by repeat constructor. Qed.
Lemma ex_trap_views : ∃ ms s q, let k := ex_trap_kernel ms s q in let tcb := ex_trap_task ms q in
  views 100 120 20480 23552 ex_efs ex_self 3 k 7 tcb (mem_of s ms) (one_file k tcb 1 ex_root 1 ex_text_inode) ∧
  has_cx tcb k ∧ held ms (trampoline_vpn - 1) q.
Proof.
  destruct ex_trap_space as (ms & s & q & Hwf & Hq & Hqok & p & Hp & Hpok). exists ms, s, q. intros k tcb. split; [|done].
  apply (one_file_views 100 120 20480 23552 ex_efs ex_self k 7 tcb [97] 1 ex_text_inode ex_root 1).
  - split; [done|done|exact Hwf| |by exists 1%nat| |cbn; lia].
    + intros va Hva. exists p. replace (va / 4096) with 5 by lia. by split.
    + intros f Hf. cbn in Hf |- *. rewrite !elem_of_cons, elem_of_nil in Hf. destruct Hf as [[= ->]|[[= ->]|[[= ->]|[]]]]; lia.
  - destruct (ex_text_named ms s). by split.
  - exact ex_text_root.
  - exact ex_text_dir.
  - done.
Qed.
Lemma trap_serves_witness :
  ∃ ms s q, let tcb := ex_trap_task ms q in
  wp (trap_handler UserEnvCall) (with_cx tcb ex_close_cx (ex_trap_kernel ms s q)) (λ res k', res = Return () ∧ ∃ tcb',
    tasks k' !! 7%nat = Some tcb' ∧ fd_view (λ f, f) (fd_table tcb') = {[0 := 0%nat; 2 := 2%nat]} ∧
    cx_of tcb' k' = set_x 10 0 (set_sepc 4100 ex_close_cx)).
Proof.
  destruct ex_trap_views as (ms & s & q & Hv & Hcx & Hq). exists ms, s, q. intros tcb.
  assert (at_trap 23552 tcb (ex_trap_kernel ms s q) (cx_of tcb (ex_trap_kernel ms s q))) as Hat.
  { split; [done|exact Hq|unfold trampoline_vpn; lia|split; [split; [done|cbn; lia]|done]]. }
  destruct (views_with_cx 100 120 20480 23552 ex_efs ex_self 3 ltac:(lia) _ ex_close_cx _ _ _ _ _ Hv Hat ex_close_cx_wf) as [Hv' Hat'].
  eapply wp_mono.
  - apply (trap_serves 100 120 20480 23552 ex_efs ex_self 3 _ 7 tcb (mem_of s ms) (one_file (ex_trap_kernel ms s q) tcb 1 ex_root 1 ex_text_inode)
      ex_close_cx [Word 1; Word 0; Word 0] 0 []
      (sv_set_fds {[0 := 0%nat; 2 := 2%nat]} (one_file (ex_trap_kernel ms s q) tcb 1 ex_root 1 ex_text_inode)));
      [lia|cbn; lia|exact Hv'|exact Hat'|cbn; lia|by repeat constructor|vm_compute; reflexivity].
  - intros res k' (-> & _ & tcb' & Hat'' & Hv''). split; [done|]. exists tcb'. split; [apply Hv''|]. split; [symmetry; apply Hv''|].
    by destruct (at_cx _ _ _ _ Hat'') as [_ ->].
Defined.
