(* ===== verification/FdCalls.v ===== *)
(** The calls that make and drop descriptors (os/src/syscall/fs.rs), from the
    program's memory to the descriptor table, the open files and the disk. *)

From S2P Require Export OnKernel VfsClear.

(** * What the calls leave *)

Implicit Types k : Kernel Flat.

(** Descriptors and the objects they stand for. *)
Abbreviation fd_objects l := (fd_view (λ f : nat, f) l).
Lemma fd_view_objects {A} (desc : nat → A) l : fd_view desc l = desc <$> fd_objects l.
Proof.
  apply fd_view_ext; [intros fd Hfd; by rewrite lookup_fmap, fd_view_neg|].
  intros i. rewrite lookup_fmap, fd_view_at. by destruct (l !! i) as [[]|].
Qed.
Lemma lowest_fmap {A B} (g : A → B) (m : gmap Z A) n : lowest m n → lowest (g <$> m) n.
Proof.
  intros (Hn & Hnone & Hlow). split; [done|]. split; [by rewrite lookup_fmap, Hnone|].
  intros j Hj. rewrite lookup_fmap. destruct (Hlow j Hj) as [x ->]. by eexists.
Qed.

(** The file [obj] is new. *)
Definition with_file (obj : FileObj) k : Kernel Flat :=
  set_files (<[next_object k := obj]> (files k)) (set_next_object (S (next_object k)) k).
(** The pipe of the three new objects - the ring, the read end and the write end. *)
Definition with_pipe k : Kernel Flat :=
  let b := next_object k in
  set_pipes (<[b := PipeRingBuffer_set_write_end PipeRingBuffer_new (S (S b))]> (pipes k))
    (set_files (<[S (S b) := Pipe false true b]> (<[S b := Pipe true false b]> (files k)))
      (set_next_object (S (S (S b))) k)).
Lemma make_pipe_run k : make_pipe k = Ok ((S (next_object k), S (S (next_object k))), with_pipe k).
Proof. done. Qed.

(** A caller of the calls: the current task [t], its window of memory, its
    descriptor table. *)
Record caller (l r lo hi : Z) k (t : nat) (tcb : TaskControlBlock) (mem : Z → Z) : Prop := {
  cl_current : processor k = Some t;
  cl_task : tasks k !! t = Some tcb;
  cl_root : 0 ≤ ms_root (memory_set tcb) < 2 ^ 44;
  cl_memory : usermem l r (memory_set tcb) lo hi (mm k) mem (mm k);
  cl_table : Z.of_nat (length (fd_table tcb)) + 1 < 2 ^ 63;
  cl_old f : Some f ∈ fd_table tcb → (f < next_object k)%nat }.

(** The file system at rest, the inode [ri] its root directory, which is [d]. *)
Record mounted (efs : EasyFileSystem) (L N ri : Z) k (d : DiskInode) : Prop := {
  mo_root : root k = Some (efs, slot_inode efs ri);
  mo_fs : fs_wf efs L N (disk k);
  mo_slot : 0 ≤ ri < N;
  mo_used : bit_of (inode_bitmap efs) (disk k) ri = true;
  mo_dir : file_on efs L (slot_inode efs ri) d (disk k);
  mo_wf : dir_wf d (disk k);
  mo_size : di_size d mod 32 = 0 }.

(** The path, which ends with a zero byte, is at [ptr]. *)
Record path_at (lo hi : Z) (fuel : nat) (mem : Z → Z) (ptr : Z) (path : list Z) : Prop := {
  pa_low : lo ≤ ptr;
  pa_high : ptr + Z.of_nat (length path) < hi;
  pa_bytes : bytes_at mem ptr (path ++ [0]);
  pa_chars : Forall (λ c, c ≠ 0) path;
  pa_fuel : (length path < fuel)%nat }.

Section calls.
Context `{!Platform} (l r lo hi : Z) (efs : EasyFileSystem) (L N ri : Z).
Context (Hlo : 0 ≤ lo) (Hhi : hi < 2 ^ 39).

(** The lowest free descriptor of task [t] is [fd], and stands for the file [obj] that
    is new in [k]. *)
Definition opened k (t : nat) (tcb : TaskControlBlock) (obj : FileObj) (fd : Z) (k' : Kernel Flat) : Prop :=
  ∃ fds', lowest (fd_objects (fd_table tcb)) fd ∧ fd_objects fds' = <[fd := next_object k]> (fd_objects (fd_table tcb)) ∧
    k' = with_fds t tcb fds' (with_file obj k).

(** How the name fares in the directory [d], by the flags: the new kernel is [k'], the
    result [a]. *)
Definition truncates (flags : Z) : bool := OpenFlags_contains flags OpenFlags_CREATE || OpenFlags_contains flags OpenFlags_TRUNC.
Definition new_inode (flags : Z) (inode : Inode) : FileObj :=
  OSInode (OpenFlags_read_write flags).1 (OpenFlags_read_write flags).2 0 inode.
Definition open_outcome (name : list Z) (flags : Z) (d : DiskInode) k (t : nat) (tcb : TaskControlBlock) (a : Z) (k' : Kernel Flat) : Prop :=
  match dir_lookup name (dir_list d (disk k)) with
  | Some i => ∃ f, opened (set_disk f k) t tcb (new_inode flags (inode_of efs i)) a k' ∧
      if truncates flags then ∀ e, file_on efs L (inode_of efs i) e (disk k) → ∃ e', file_cleared efs L (inode_of efs i) e (disk k) e' f
      else f = disk k
  | None =>
      if OpenFlags_contains flags OpenFlags_CREATE then
        ∃ i d' f, opened (set_disk f k) t tcb (new_inode flags (slot_inode efs i)) a k' ∧ created efs L N ri d (disk k) name i d' f
      else a = -1 ∧ k' = k
  end.
(** What the outcome needs of the disk: a file to be emptied is one of the file system,
    and for a file to be created there is room. *)
Definition open_room (name : list Z) (flags : Z) (d : DiskInode) (f : Flat) : Prop :=
  match dir_lookup name (dir_list d f) with
  | Some i => truncates flags = true → ∃ e, file_on efs L (inode_of efs i) e f
  | None => OpenFlags_contains flags OpenFlags_CREATE = true →
      name_ok name ∧ free_inodes efs N f ≠ [] ∧ di_size d + 32 ≤ max_file_size ∧
      (new_blocks d (di_size d + 32) ≤ length (free_bits efs L f))%nat
  end.

Lemma mounted_quiet k d : mounted efs L N ri k d → fl_fs_locked (disk k) = false ∧ room 2 (disk k).
Proof.
  intros Hm. pose proof (mo_fs _ _ _ _ _ _ Hm) as Hfs. split; [apply Hfs|].
  unfold room. rewrite (fs_held _ _ _ _ Hfs), size_empty. unfold BLOCK_CACHE_MAX_NUM. lia.
Qed.
Lemma find_run k d name :
  mounted efs L N ri k d →
  in_disk (Inode_find efs (slot_inode efs ri) name) k = Ok (inode_of efs <$> dir_lookup name (dir_list d (disk k)), k).
Proof.
  intros Hm. destruct (mounted_quiet k d Hm). apply in_disk_run', Inode_find_run; [apply (mo_dir _ _ _ _ _ _ Hm)|apply Hm|done|done].
Qed.
Lemma wp_in_disk {A} (m : M Flat A) k (Q : A → Kernel Flat → Prop) : wp m (disk k) (λ a s, Q a (set_disk s k)) → wp (in_disk m) k Q.
Proof. apply wp_zoom. Qed.
Lemma set_disk_id k : set_disk (disk k) k = k.
Proof. by destruct k. Qed.

Lemma clear_opened k flags inode :
  (∃ e, file_on efs L inode e (disk k)) →
  wp (in_disk (Inode_clear efs inode);; mret (Some (new_inode flags inode))) k (λ o k', ∃ f,
    k' = set_disk f k ∧ o = Some (new_inode flags inode) ∧
    ∀ e, file_on efs L inode e (disk k) → ∃ e', file_cleared efs L inode e (disk k) e' f).
Proof.
  intros [e0 He0]. apply wp_bind, wp_in_disk. pose proof (Inode_clear_run efs L inode) as Hrun.
  destruct (proj1 (wp_Ok _ _ _) (Hrun e0 (disk k) He0)) as (u & f & Hf & _). unfold wp. rewrite Hf.
  exists f. split; [done|]. split; [done|]. intros e He.
  destruct (proj1 (wp_Ok _ _ _) (Hrun e (disk k) He)) as (u' & f' & Hf' & Hc). rewrite Hf in Hf'. by injection Hf' as <- <-.
Qed.

(** [open_file] in the kernel [k]: what it answers and the disk it leaves. *)
Lemma open_file_outcome k d name flags :
  mounted efs L N ri k d → open_room name flags d (disk k) →
  wp (open_file name flags) k (λ o k', ∃ f, k' = set_disk f k ∧
    match dir_lookup name (dir_list d (disk k)) with
    | Some i => o = Some (new_inode flags (inode_of efs i)) ∧
        if truncates flags then ∀ e, file_on efs L (inode_of efs i) e (disk k) → ∃ e', file_cleared efs L (inode_of efs i) e (disk k) e' f
        else f = disk k
    | None =>
        if OpenFlags_contains flags OpenFlags_CREATE then
          ∃ i d', o = Some (new_inode flags (slot_inode efs i)) ∧ created efs L N ri d (disk k) name i d' f
        else o = None ∧ f = disk k
    end).
Proof.
  intros Hm Hroom. unfold open_file. destruct (OpenFlags_read_write flags) as [rd wr] eqn:Erw.
  assert (∀ inode, OSInode rd wr 0 inode = new_inode flags inode) as Hobj by (intros; unfold new_inode; by rewrite Erw).
  eapply wp_bind_Ok. { unfold ROOT_INODE. erewrite bind_Ok by reflexivity. by rewrite (mo_root _ _ _ _ _ _ Hm). }
  cbv beta iota. unfold open_room, truncates in *. destruct (OpenFlags_contains flags OpenFlags_CREATE) eqn:Ec; cbn [orb] in *;
    (eapply wp_bind_Ok; [by eapply find_run|]); destruct (dir_lookup name (dir_list d (disk k))) as [i|] eqn:Ed; cbn [fmap option_fmap option_map].
  - eapply wp_mono; [rewrite Hobj; by apply clear_opened, Hroom|]. intros o k' (f & -> & -> & Hc). by exists f.
  - destruct (Hroom eq_refl) as (Hname & Hfree & Hmax & Hblocks). destruct (free_inodes efs N (disk k)) as [|i rest] eqn:Ef; [done|].
    pose proof (Inode_create_run efs L N ri d (disk k) name) as Hcr. rewrite Ed in Hcr.
    apply wp_bind, wp_in_disk. eapply wp_mono.
    { apply (Hcr (mo_fs _ _ _ _ _ _ Hm) (mo_slot _ _ _ _ _ _ Hm) (mo_used _ _ _ _ _ _ Hm) (mo_dir _ _ _ _ _ _ Hm)
        (mo_wf _ _ _ _ _ _ Hm) (mo_size _ _ _ _ _ _ Hm) Hname i rest Ef Hmax Hblocks). }
    intros o f (-> & _ & d' & _ & Hc). apply wp_ret. exists f. split; [done|]. exists i, d'. by rewrite <-Hobj.
  - destruct (OpenFlags_contains flags OpenFlags_TRUNC) eqn:Et.
    + eapply wp_mono; [rewrite Hobj; by apply clear_opened, Hroom|]. intros o k' (f & -> & -> & Hc). by exists f.
    + apply wp_bind, wp_ret, wp_ret. exists (disk k). rewrite set_disk_id, <-Hobj. done.
  - apply wp_ret. exists (disk k). by rewrite set_disk_id.
Qed.

(** A new file gets its descriptor. *)
Lemma install_new k t tcb obj :
  tasks k !! t = Some tcb → Z.of_nat (length (fd_table tcb)) < 2 ^ 63 →
  wp (file ← Files.new_file obj; fd ← install_fd t file; mret (isize fd)) k (λ a k', opened k t tcb obj a k').
Proof.
  intros Ht Hlen. eapply (wp_bind_Ok _ _ _ (next_object k) (with_file obj k)); [done|].
  destruct (install_fd_run (with_file obj k) t tcb (next_object k)) as (j & fds' & Hinst & Hview & _); [done|done|].
  eapply wp_bind_Ok; [exact Hinst|]. destruct (Hview _ (λ f, f)) as [Hlow Hfds]. pose proof (proj1 Hlow) as Hj.
  apply wp_ret. unfold signed. rewrite wrap_small, (proj2 (Z.ltb_lt _ _)) by lia. by exists fds'.
Qed.

Lemma sys_open_run k t tcb mem d ptr path flags :
  caller l r lo hi k t tcb mem → mounted efs L N ri k d → path_at lo hi p_fuel mem ptr path →
  OpenFlags_from_bits flags = Some flags → open_room (str_bytes path) flags d (disk k) →
  wp (sys_open ptr flags) k (λ a k', open_outcome (str_bytes path) flags d k t tcb a k').
Proof.
  intros [Hp Ht Hroot Hmem Htab Hold] Hm [Hptr Hend Hbytes Hchars Hfuel] Hflags Hroom.
  unfold sys_open. eapply wp_bind_Ok; [by apply current_run|]. eapply wp_bind_Ok; [by eapply (current_token_run (memory_set tcb) k t tcb)|].
  unfold user_str. rewrite wp_bind. apply wp_bind, wp_in_mm.
  eapply wp_mono; [apply (wp_translated_str l r (memory_set tcb) lo hi (mm k)) with (mem := mem) (str := path); done || lia|].
  intros str s' [-> ->]. replace (set_mm (mm k) k) with k by (by destruct k). apply wp_ret.
  apply wp_bind, wp_unwrap. exists flags. split; [done|]. apply wp_bind.
  eapply wp_mono; [by eapply open_file_outcome|]. intros o k1 (f & -> & Ho). unfold open_outcome.
  assert (∀ obj, wp (file ← Files.new_file obj; fd ← install_fd t file; mret (isize fd)) (set_disk f k) (λ a k', opened (set_disk f k) t tcb obj a k')) as Hnew
    by (intros; apply install_new; [done|lia]).
  destruct (dir_lookup _ _) as [i|]; [|destruct (OpenFlags_contains flags OpenFlags_CREATE)].
  - destruct Ho as [-> Hf]. eapply wp_mono; [apply Hnew|]. intros a k' Hop. by exists f.
  - destruct Ho as (i & d' & -> & Hf). eapply wp_mono; [apply Hnew|]. intros a k' Hop. by exists i, d', f.
  - destruct Ho as [-> ->]. apply wp_ret. by rewrite set_disk_id.
Qed.

(** ** Pipes *)

(** The two descriptors of a pipe made in [k], and the memory after the call. *)
Definition piped k (t : nat) (tcb : TaskControlBlock) (mem : Z → Z) (ptr rfd wfd : Z) (k' : Kernel Flat) : Prop :=
  let rd := S (next_object k) in let wr := S rd in
  ∃ fds' s, lowest (fd_objects (fd_table tcb)) rfd ∧ lowest (<[rfd := rd]> (fd_objects (fd_table tcb))) wfd ∧
    fd_objects fds' = <[wfd := wr]> (<[rfd := rd]> (fd_objects (fd_table tcb))) ∧
    usermem l r (memory_set tcb) lo hi (mm k) (fill ptr (le_enc 8 rfd ++ le_enc 8 wfd) mem) s ∧
    k' = with_fds t tcb fds' (set_mm s (with_pipe k)).

(** A word is stored in the program's memory. *)
Lemma wp_put_usize {A} ms s0 mem k a v (rest : M (Kernel Flat) A) Q :
  0 ≤ ms_root ms < 2 ^ 44 → usermem l r ms lo hi s0 mem (mm k) → lo ≤ a → a + 8 ≤ hi → a mod 8 = 0 →
  (∀ s, usermem l r ms lo hi s0 (fill a (le_enc 8 v) mem) s → wp rest (set_mm s k) Q) →
  wp (pa ← in_mm (translated_ref (MemorySet_token ms) a); in_mm (write_le 8 pa v);; rest) k Q.
Proof.
  intros Hroot Hm Ha Hend Hmod Hrest. apply wp_bind, wp_in_mm.
  eapply wp_mono; [apply (wp_ref l r ms lo hi s0 Hroot Hlo ltac:(lia) mem); [done|lia]|].
  intros pa s [-> Hpa]. apply wp_bind, wp_in_mm. replace (set_mm (mm k) k) with k by (by destruct k).
  eapply wp_mono; [apply (wp_write_le l r ms lo hi s0 Hroot Hlo 8 v mem (mm k) a pa Hm Hpa); lia|].
  intros [] s Hs. by apply Hrest.
Qed.

Lemma sys_pipe_run k t tcb mem ptr :
  caller l r lo hi k t tcb mem → lo ≤ ptr → ptr + 16 ≤ hi → ptr mod 8 = 0 →
  wp (sys_pipe ptr) k (λ a k', a = 0 ∧ ∃ rfd wfd, piped k t tcb mem ptr rfd wfd k').
Proof.
  intros [Hp Ht Hroot Hmem Htab Hold] Hptr Hend Hal.
  unfold sys_pipe. eapply wp_bind_Ok; [by apply current_run|]. eapply wp_bind_Ok; [by eapply (current_token_run (memory_set tcb) k t tcb)|].
  eapply wp_bind_Ok; [apply make_pipe_run|]. cbv beta iota. set (rd := S (next_object k)). set (wr := S rd).
  destruct (install_fd_run (with_pipe k) t tcb rd) as (i & l1 & Hinst & Hview & Hll & _); [done|lia|].
  eapply wp_bind_Ok; [exact Hinst|].
  destruct (install_fd_run (with_fds t tcb l1 (with_pipe k)) t (set_fd_table l1 tcb) wr) as (j & l2 & Hinst2 & Hview2 & _);
    [apply lookup_insert_eq|cbn; lia|]. cbn [fd_table set_fd_table] in Hview2.
  eapply wp_bind_Ok; [exact Hinst2|].
  destruct (Hview _ (λ f, f)) as [Hlow1 Hf1]. destruct (Hview2 _ (λ f, f)) as [Hlow2 Hf2]. rewrite Hf1 in Hlow2, Hf2.
  set (k1 := with_fds t (set_fd_table l1 tcb) l2 _).
  eapply (wp_put_usize (memory_set tcb) (mm k) mem k1); [done|exact Hmem|done|lia|done|]. intros s1 Hs1.
  rewrite (wrap_small 64 (ptr + 8)) by lia.
  eapply (wp_put_usize (memory_set tcb) (mm k)); [done|exact Hs1|lia|lia|lia|]. intros s2 Hs2.
  apply wp_ret. split; [done|]. exists (Z.of_nat i), (Z.of_nat j), l2, s2. split_and!; [done|done|done| |].
  - rewrite fill_app, length_le_enc. exact Hs2.
  - unfold k1, with_fds. cbn. by rewrite insert_insert_eq.
Qed.
End calls.

(** * As programs see it *)

Section seen.
Context (desc : nat → fobj) (l : list (option nat)) (n : nat).
Context (Hold : ∀ f, Some f ∈ l → (f < n)%nat).

(** A description of a new file does not touch the table. *)
Lemma describe_objects f o : (n ≤ f)%nat → describe f o desc <$> fd_objects l = fd_view desc l.
Proof.
  intros Hf. rewrite <-fd_view_objects. apply fd_view_desc. intros g Hg. apply describe_ne. apply Hold in Hg. lia.
Qed.
Lemma describe_opened o l' fd :
  fd_objects l' = <[fd := n]> (fd_objects l) → fd_view (describe n o desc) l' = <[fd := o]> (fd_view desc l).
Proof. intros Hl. by rewrite fd_view_objects, Hl, fmap_insert, describe_eq, describe_objects. Qed.
Lemma describe_piped o1 o2 l' r w :
  fd_objects l' = <[w := S (S n)]> (<[r := S n]> (fd_objects l)) →
  fd_view (describe (S (S n)) o2 (describe (S n) o1 desc)) l' = <[w := o2]> (<[r := o1]> (fd_view desc l)).
Proof.
  intros Hl. rewrite fd_view_objects, Hl, !fmap_insert, describe_eq, describe_ne, describe_eq by lia. f_equal. f_equal.
  rewrite <-fd_view_objects. apply fd_view_desc. intros g Hg. apply Hold in Hg. rewrite !describe_ne by lia. done.
Qed.
End seen.

Lemma lowest_view {A} (desc : nat → A) l fd : lowest (fd_objects l) fd → lowest (fd_view desc l) fd.
Proof. rewrite (fd_view_objects desc). apply lowest_fmap. Qed.

Lemma open_ecall `{!Platform} efs L N ri name flags d k t tcb desc s a k' :
  tasks k !! t = Some tcb → (∀ f, Some f ∈ fd_table tcb → (f < next_object k)%nat) → fds s = fd_view desc (fd_table tcb) →
  open_outcome efs L N ri name flags d k t tcb a k' →
  ∃ tcb', tasks k' !! t = Some tcb' ∧ ecall SYSCALL_OPEN [Bytes name; Word flags; Word 0] (a, []) s
    (set_fds (fd_view (describe (next_object k) (OpenedFile name flags) desc) (fd_table tcb')) s).
Proof.
  intros Ht Hold Hs Ho.
  assert (∀ obj f, opened (set_disk f k) t tcb obj a k' → ∃ tcb', tasks k' !! t = Some tcb' ∧
    ecall SYSCALL_OPEN [Bytes name; Word flags; Word 0] (a, []) s
      (set_fds (fd_view (describe (next_object k) (OpenedFile name flags) desc) (fd_table tcb')) s)) as Hop.
  { intros obj f (fds' & Hlow & Hfds & ->). exists (set_fd_table fds' tcb). split; [apply lookup_insert_eq|]. right.
    cbn [fd_table set_fd_table fst snd]. rewrite (describe_opened desc (fd_table tcb) _ Hold _ _ _ Hfds), Hs.
    split; [by apply lowest_view|done]. }
  unfold open_outcome in Ho. destruct (dir_lookup _ _) as [i|]; [|destruct (OpenFlags_contains _ _)].
  - destruct Ho as (f & Ho & _). by eapply Hop.
  - destruct Ho as (i & d' & f & Ho & _). by eapply Hop.
  - destruct Ho as [-> ->]. exists tcb. split; [done|]. left. split; [done|].
    rewrite fd_view_objects, (describe_objects desc _ _ Hold), <-Hs by done. by destruct s.
Qed.

(** * The property *)

(** C18: The calls on descriptors, on the kernel's side and as programs rely on them.
    For the current task, with its descriptors seen as those of [s]:
    [close] and [dup] always return, change nothing but the table, and answer as
    [ecall] allows.
    [open] with valid flags, of a path in the program's memory: if the name is in the
    directory, the lowest free descriptor stands for a new open file, at offset 0 and
    with the access of the flags, on the inode of the name - emptied first for [CREATE]
    and [TRUNC]; if it is not, [CREATE] makes a new file of that name and opens it, and
    otherwise the answer is -1 and nothing changes.
    [pipe] puts the lowest free descriptor and the next one, in this order, into the two
    words at its argument; the first stands for the read end and the second for the
    write end of a new empty pipe.
    Nothing else of the kernel changes, and what programs see is what [ecall] allows. *)
Theorem fd_calls_refine `{!Platform} l r lo hi efs L N ri k t tcb mem desc s :
  0 ≤ lo → hi < 2 ^ 39 → caller l r lo hi k t tcb mem → fds s = fd_view desc (fd_table tcb) →
  (∀ fd, 0 ≤ fd → ∃ a l', sys_close fd k = Ok (a, with_fds t tcb l' k) ∧
     ecall SYSCALL_CLOSE [Word fd; Word 0; Word 0] (a, []) s (set_fds (fd_view desc l') s)) ∧
  (∀ fd, 0 ≤ fd → ∃ a l', sys_dup fd k = Ok (a, with_fds t tcb l' k) ∧
     ecall SYSCALL_DUP [Word fd; Word 0; Word 0] (a, []) s (set_fds (fd_view desc l') s)) ∧
  (∀ ptr path flags d, mounted efs L N ri k d → path_at lo hi p_fuel mem ptr path →
     OpenFlags_from_bits flags = Some flags → open_room efs L N (str_bytes path) flags d (disk k) →
     wp (sys_open ptr flags) k (λ a k', open_outcome efs L N ri (str_bytes path) flags d k t tcb a k' ∧
       ∃ tcb', tasks k' !! t = Some tcb' ∧ ecall SYSCALL_OPEN [Bytes (str_bytes path); Word flags; Word 0] (a, []) s
         (set_fds (fd_view (describe (next_object k) (OpenedFile (str_bytes path) flags) desc) (fd_table tcb')) s))) ∧
  (∀ ptr buf, lo ≤ ptr → ptr + 16 ≤ hi → ptr mod 8 = 0 →
     wp (sys_pipe ptr) k (λ a k', ∃ rfd wfd tcb', piped l r lo hi k t tcb mem ptr rfd wfd k' ∧ tasks k' !! t = Some tcb' ∧
       let rd := S (next_object k) in
       ecall SYSCALL_PIPE [Buffer buf; Word 0; Word 0] (a, le_enc 8 rfd ++ le_enc 8 wfd) s
         (MkUstate (fd_view (describe (S rd) (PipeWrite (pipe_count s)) (describe rd (PipeRead (pipe_count s)) desc)) (fd_table tcb'))
            (S (pipe_count s)) (kids s) (spawned s)))).
Proof.
  intros Hlo Hhi Hc Hs. pose proof (cl_table _ _ _ _ _ _ _ _ Hc) as Htab. pose proof (cl_task _ _ _ _ _ _ _ _ Hc) as Ht.
  pose proof (cl_current _ _ _ _ _ _ _ _ Hc) as Hp. pose proof (cl_old _ _ _ _ _ _ _ _ Hc) as Hold. split_and!.
  - intros fd Hfd. by apply (close_run k t tcb desc s Hp Ht ltac:(lia) Hs).
  - intros fd Hfd. by apply (dup_run k t tcb desc s Hp Ht ltac:(lia) Hs).
  - intros ptr path flags d Hm Hpath Hflags Hroom. eapply wp_mono; [by eapply sys_open_run|]. intros a k' Ho. split; [done|].
    by eapply open_ecall.
  - intros ptr buf Hptr Hend Hal. eapply wp_mono; [by eapply sys_pipe_run|].
    intros a k' (-> & rfd & wfd & Hpiped). pose proof Hpiped as (fds' & s' & Hlow1 & Hlow2 & Hfds & _ & ->).
    exists rfd, wfd, (set_fd_table fds' tcb). split; [done|]. split; [apply lookup_insert_eq|]. cbv zeta.
    cbn [fd_table set_fd_table]. rewrite (describe_piped desc _ _ Hold _ _ _ _ _ Hfds), <-Hs. exists rfd, wfd.
    rewrite Hs. split; [by apply lowest_view|]. split; [|done].
    apply (lowest_fmap (describe (S (next_object k)) (PipeRead (pipe_count s)) desc)) in Hlow2.
    by rewrite fmap_insert, describe_eq, (describe_objects desc _ _ Hold) in Hlow2 by lia.
Qed.

(** * Witness: the name "d" is not in the directory *)

#[local] Existing Instance ex_cat_platform.

Definition ex_open_kernel (ms : MemorySet) (s : Mm) : Kernel Flat :=
  MkKernel s (MkMemorySet (MkPageTable 0 []) []) ex_dir_disk (Some (ex_efs, slot_inode ex_efs 0)) PidAllocator_new {[7%nat := ex_cat_task ms]}
    {[0%nat := Stdin; 1%nat := Stdout; 2%nat := Stdout]} ∅ 3 (MkTaskManager ∅ StrideScheduler_new) (Some 7%nat) None [] [] 0 0.
Lemma ex_open_caller : ∃ ms s mem,
  caller 100 120 20480 23552 (ex_open_kernel ms s) 7 (ex_cat_task ms) mem ∧ path_at 20480 23552 4000 mem 20480 [100].
Proof.
  destruct ex_full_space as (ms & s & Hwf & Hok & _ & _ & _ & a & q & Ha & Hq).
  assert (usermem 100 120 ms 20480 23552 s (mem_of s ms) s) as Hm.
  { apply usermem_start; [exact Hwf|]. intros va Hva. exists q. replace (va / 4096) with 5 by lia.
    assert (held ms 5 q) as Hh by (by exists a). split; [exact Hh|by eapply Hok]. }
  assert (0 ≤ ms_root ms < 2 ^ 44) as Hroot by (by eapply ms_root_bound).
  destruct (usermem_filled 100 120 ms 20480 23552 s (mem_of s ms) s [100; 0]) as [s' Hs']; [done|lia|lia|done| |cbn; lia|].
  { repeat constructor; lia. }
  exists ms, s', (fill 20480 [100; 0] (mem_of s ms)). split; [|split; [lia|cbn; lia|apply fill_bytes|by repeat constructor|cbn; lia]].
  split; [done|done|done|by eapply usermem_rebase|cbn; lia|].
  intros f Hf. cbn in Hf |- *. rewrite !elem_of_cons, elem_of_nil in Hf. destruct Hf as [[= ->]|[[= ->]|[[= ->]|[]]]]; lia.
Qed.
Lemma ex_open_mounted ms s : mounted ex_efs 33 75 0 (ex_open_kernel ms s) ex_root.
Proof.
  split; [done|exact ex_dir_fs|lia|vm_compute; reflexivity|exact ex_dir_on|exact ex_dir_wf|done].
Qed.
Lemma ex_open_room ms s : open_room ex_efs 33 75 [100] 513 ex_root (disk (ex_open_kernel ms s)).
Proof.
  unfold open_room. change (disk _) with ex_dir_disk.
  assert (dir_list ex_root ex_dir_disk = [([97], 1); ([98; 99], 2)]) as Hl by (vm_compute; reflexivity). rewrite Hl.
  change (dir_lookup [100] [([97], 1); ([98; 99], 2)]) with (@None Z). cbv iota. intros _.
  assert (free_inodes ex_efs 75 ex_dir_disk = 3 :: seqZ 4 71) as Hfree by (vm_compute; reflexivity). rewrite Hfree.
  split; [split; [repeat constructor; lia|split; [reflexivity|cbn; lia]]|]. split; [done|].
  split; [change max_file_size with 8468480; cbn; lia|]. change (new_blocks ex_root (di_size ex_root + 32)) with 0%nat. lia.
Qed.
Lemma ex_open_created ms s a k' :
  open_outcome ex_efs 33 75 0 [100] 513 ex_root (ex_open_kernel ms s) 7 (ex_cat_task ms) a k' →
  ∃ f, opened (set_disk f (ex_open_kernel ms s)) 7 (ex_cat_task ms) (OSInode false true 0 (MkInode 6 0)) a k'.
Proof.
  unfold open_outcome. change (disk (ex_open_kernel ms s)) with ex_dir_disk.
  assert (dir_lookup [100] (dir_list ex_root ex_dir_disk) = None) as -> by (vm_compute; reflexivity).
  change (OpenFlags_contains 513 OpenFlags_CREATE) with true. cbv iota. intros (i & d' & f & Ho & Hc). exists f.
  assert (free_inodes ex_efs 75 ex_dir_disk = 3 :: seqZ 4 71) as Hfree by (vm_compute; reflexivity).
  pose proof (cr_free _ _ _ _ _ _ _ _ _ _ Hc) as Hi. rewrite Hfree in Hi. injection Hi as <- _. exact Ho.
Qed.
(** [open] creates it; [pipe] next to it makes the objects 3, 4 and 5. *)
Lemma fd_calls_refine_witness : ∃ ms s,
  wp (sys_open 20480 513) (ex_open_kernel ms s) (λ a k', a = 3 ∧ files k' !! 3%nat = Some (OSInode false true 0 (MkInode 6 0))) ∧
  wp (sys_pipe 20488) (ex_open_kernel ms s) (λ a k', a = 0 ∧
    files k' !! 4%nat = Some (Pipe true false 3) ∧ files k' !! 5%nat = Some (Pipe false true 3) ∧
    ∃ tcb', tasks k' !! 7%nat = Some tcb' ∧ fd_objects (fd_table tcb') = list_to_map (zip [0; 1; 2; 3; 4] [0; 1; 2; 4; 5]%nat)).
Proof.
  destruct ex_open_caller as (ms & s & mem & Hc & Hpath). exists ms, s.
  destruct (fd_calls_refine 100 120 20480 23552 ex_efs 33 75 0 (ex_open_kernel ms s) 7 (ex_cat_task ms) mem (λ f, Inherited (Z.of_nat f))
    (MkUstate (fd_view (λ f, Inherited (Z.of_nat f)) (fd_table (ex_cat_task ms))) 0 ∅ 0) ltac:(lia) ltac:(lia) Hc eq_refl)
    as (_ & _ & Hopen & Hpipe).
  assert (∀ T : gmap Z nat, T = list_to_map (zip [0; 1; 2] [0; 1; 2]%nat) → ∀ n, lowest T n → n = 3) as Hlow3.
  { intros T -> n Hn. eapply lowest_unique; [exact Hn|lia|done|]. intros m Hm. assert (m = 0 ∨ m = 1 ∨ m = 2) as [->|[->| ->]] by lia; by eexists. }
  split.
  - eapply wp_mono; [apply (Hopen 20480 [100] 513 ex_root (ex_open_mounted ms s) Hpath eq_refl (ex_open_room ms s))|].
    intros a k' [Ho _]. destruct (ex_open_created ms s a k' Ho) as (f & fds' & Hlow & _ & ->).
    split; [by eapply Hlow3|reflexivity].
  - eapply wp_mono; [apply (Hpipe 20488 []); lia|].
    intros a k' (rfd & wfd & tcb' & (fds' & s' & Hlow1 & Hlow2 & Hfds & _ & ->) & Htask & Hcall).
    change (fd_objects (fd_table (ex_cat_task ms))) with (list_to_map (zip [0; 1; 2] [0; 1; 2]%nat) : gmap Z nat) in *.
    assert (rfd = 3) as -> by (by eapply Hlow3).
    assert (wfd = 4) as ->.
    { eapply lowest_unique; [exact Hlow2|lia|done|]. intros m Hm.
      assert (m = 0 ∨ m = 1 ∨ m = 2 ∨ m = 3) as [->|[->|[->| ->]]] by lia; by eexists. }
    destruct Hcall as (x & y & _ & _ & Ha & _). injection Ha as Ha _. split; [done|]. split; [reflexivity|]. split; [reflexivity|].
    exists (set_fd_table fds' (ex_cat_task ms)). split; [apply lookup_insert_eq|]. exact Hfds.
Defined.
